(* ===== verification/_CoqProject ===== *)
-Q . S2P
Prelude.v
Text.v
Wire.v
Platform.v
Crypto.v
Base64.v
Concrete.v
Framing.v
SessionState.v
SessionKex.v
KexFacts.v
SessionAuth.v
SessionChannel.v
SessionLoop.v
Runs.v
SessionSafety.v
SessionReach.v
SessionTypes.v
SessionFlow.v
SshdTask.v
SshdKeys.v
KeysFacts.v
KeyLines.v
ClientState.v
ClientKex.v
ClientAuth.v
ClientChannel.v
ClientCli.v
ClientEscape.v
ClientHosts.v
ClientRuns.v
ClientTrust.v
ClientReceive.v
Agreement.v
Logins.v
Octets.v
CInt.v
Fe25519.v
FeFacts.v
FeBytes.v
Primes.v
Edwards.v
EdGroup.v
Sc25519.v
ScFacts.v
Sha512.v
Sha512Facts.v
Ge25519.v
GeFacts.v
GeBytes.v
GeTables.v
GeScalar.v
GeTableFacts.v
GeScalarFacts.v
SlideFacts.v
GeDouble.v
OrlpEd25519.v
OrlpFacts.v
OrlpInstance.v
Keccak.v
KeccakRounds.v
KeccakFacts.v
MlkPoly.v
MlkArith.v
MlkNtt.v
MlkNttFacts.v
MlkCodec.v
Fips203.v
MlkCodecFacts.v
MlkSampling.v
MlkSamplingFacts.v
MlkIndcpa.v
MlkIndcpaFacts.v
MlkKem.v
MlkKemFacts.v
MlkCorrect.v
MlkTheorems.v
MlkInstance.v
