(* ===== verification/Prelude.v ===== *)
(** * sshd: a verification library for the SSH server and client straddle

    The program (under src/esp-idf) is an SSH-2 server and an outbound SSH client
    for a device that runs FreeRTOS.  The server is a task that owns two session
    slots ([sshd.cpp]); a session is a state machine over the octets of one TCP
    stream ([sshd_session.cpp]) that ends in one channel bridged to the CLI or the
    log task.  The client ([ssh_client.cpp]) is a worker that runs one job at a time
    and a command that relays between the terminal and the worker.  Both ends share
    the wire format ([sshd_wire.h]) and the crypto wrappers ([sshd_crypto.cpp]);
    Ed25519 (orlp, under [orlp_ed25519]) and ML-KEM-768 (mlkem-native, under
    [mlkem_native]) are vendored C; the library models and verifies both.

    ** Layout

    - Prelude (this file): octets, machine integers as [Z] with their wrap-around
      written out ([u8], [u32], [s32], [u64]), list and option lemmas, and the state
      monad [M] with its bounded loop [loop], the invariants [keeps] and [triple]
      with their proof automation.
    - Text: character classes, trimming and decimal numbers of the C library.
    - Wire: [sshd_wire.h].  Encoders append to an octet string, decoders walk a
      [View] with a 32-bit cursor.
    - Platform: the services around the program (ITS streams, storage, random
      numbers, clock, log, threads).  They are not in the repository, so they are the
      class [Platform]: each call is recorded as an [event] in the history
      of the [world] and its answer is an arbitrary function of that history.
    - Crypto: [sshd_crypto.cpp].  mbedTLS is the class [Mbedtls] with the laws
      [MbedtlsLaws]; [Ed25519] and [MlKem] are the interfaces of the vendored code, and
      OrlpInstance and MlkInstance show that the vendored code satisfies their laws.
    - Base64, Concrete: concrete instances of these classes, used by the witnesses.
    - Framing: the binary packet protocol both ends share.
    - SessionState, SessionKex, SessionAuth, SessionChannel, SessionLoop: the server
      session, in the order of [sshd_session.cpp]: the record [Session] and the packet
      layer; version and key exchange; user authentication; the channel and
      [session_close]; [dispatch_packet] and the entry points.
    - Runs: one whole server session on concrete octets.
    - KexFacts: exchange hash, key derivation and algorithm selection against RFC 4253.
    - SessionSafety, SessionReach: the invariant of the session, its preservation by
      every handler, and the step relation [reachable] of the callbacks of one
      session; what an authenticated session has been shown, and when.
    - SessionFlow: termination, the relay from the backend, closing, refusals.
    - SshdTask: the slot table, the ITS callbacks and the listener of [sshd.cpp].
    - SshdKeys, KeysFacts, KeyLines: the authorized-key store, the host key, the
      [sshd] commands; the store as a list of (id, line) pairs; the text form of a key.
    - ClientState, ClientKex, ClientAuth, ClientChannel, ClientCli: the client, in the
      order of [ssh_client.cpp]: job and connection state with the packet layer; key
      exchange and known hosts; the authentication methods; the channel and the
      worker; the commands with their two relay loops.
    - ClientEscape, ClientHosts, ClientTrust, ClientReceive: the disconnect escape,
      trust on first use, what the client knows before it trusts a connection, and the
      deadline of [recv_packet].
    - ClientRuns: the client against the server on concrete octets.
    - SessionTypes: the session record is well formed: arrays of their length, and the keys
      of the exchange, in every reachable state.
    - Agreement, Logins: the two programs against each other, key exchange and login.
    - CInt: C arithmetic on [int32_t] and [int64_t] as a class with three instances:
      plain integers, checked integers ([None] is an overflow) and intervals.  A program
      that stays in its intervals computes with checks what it computes without.
    - Fe25519, FeFacts, FeBytes: [fe.c], the field GF(2^255-19) in ten limbs; values and
      bounds of the operations; the octets of an element.
    - Primes, Edwards, EdGroup: p is prime (a Pocklington certificate); the points of the
      twisted Edwards curve and their group, associativity included.
    - Sc25519, ScFacts: [sc.c], arithmetic modulo the order of the base point.
    - Sha512, Sha512Facts: [sha512.c] and FIPS 180-4.
    - Ge25519, GeFacts, GeBytes: the point operations of [ge.c] are those of the group;
      encoding and decoding of points.
    - GeTables, GeTableFacts: [precomp_data.h], every entry is the multiple of the base
      point it should be; the order of the base point.
    - GeScalar, GeScalarFacts, SlideFacts, GeDouble: the two scalar multiplications of
      [ge.c], with their signed digit expansions.
    - OrlpEd25519, OrlpFacts, OrlpInstance: [keypair.c], [sign.c], [verify.c] and RFC 8032;
      the instance of [Ed25519].
    - Octets: values of octet strings, lists of octets as arrays; shared by the vendored code.
    - Keccak, KeccakRounds, KeccakFacts: [fips202/], the permutation and the hash functions,
      and FIPS 202.
    - MlkPoly, MlkArith, MlkNtt, MlkNttFacts: [poly.c], the polynomial part of [poly_k.c]
      and [verify.h]; Montgomery and Barrett reduction; the ring and its NTT as evaluation;
      the number-theoretic transforms and products of the code in range and right.
    - MlkCodec, Fips203, MlkCodecFacts: [compress.c]; the definitions of FIPS 203; the
      encodings of the code are those of FIPS 203.
    - MlkSampling, MlkSamplingFacts: [sampling.c], [symmetric.h], [mlk_gen_matrix] and the
      noise of [poly_k.c]; rejection sampling and the binomial distribution of FIPS 203.
    - MlkIndcpa, MlkIndcpaFacts, MlkKem, MlkKemFacts: [indcpa.c] and [kem.c]; each is the
      algorithm of FIPS 203.
    - MlkCorrect: when the noise is small enough, decapsulation gives the encapsulated key.
    - MlkTheorems: the theorems about ML-KEM with their instances; MlkInstance: the instance
      of [MlKem], and the hybrid key exchange of the server against a client with the same code.

    ** Reading the model

    A C++ function over [Session&] or [Csess&] is a program in [M (world l)]: the local
    state [l] is the record the code mutates, the rest of the world is the history
    of calls.  Early returns are the branches of the code; [when c m] is an
    [if] without an [else].  Loops whose length the program itself bounds are
    structural or run with the bound as fuel (the dispatch loop: the length of the
    receive buffer, proved enough); loops whose length is up to the network
    or the clock take [fuel] as an argument and say in their result whether they came
    to their end, and their theorems hold for every [fuel].  In ML-KEM [fuel] is the number of SHAKE128
    blocks that rejection sampling may squeeze after the three it always does: there is no
    bound that is enough for every seed, so both the code's and the standard's function
    have the argument and the theorems say that they come to an end together.  [size_t] is 32 bits
    wide, as on the target.

    ** What the theorems show

    - Server: authentication before any channel or backend, with the evidence in the
      history (SessionReach); flow control, closing, termination and refusal of
      messages out of phase (SessionFlow); whole arrays and the keys of the exchange
      (SessionTypes); slots (SshdTask).
    - Packets: what one end frames the other takes off, in any chunking (Framing).
    - Key exchange: equality with the RFC formulas (KexFacts).
    - Keys and hosts: the store operations (KeysFacts), the text form (KeyLines), the
      known hosts (ClientHosts).
    - Client: host authentication, sealing, independence of the credentials
      (ClientTrust), the escape (ClientEscape).
    - Both ends: they agree on keys and logins (Agreement, Logins).
    - Ed25519: no undefined behaviour in the limb arithmetic, keys and signatures are those
      of RFC 8032, verification decides its equation, and what is signed is accepted
      (OrlpFacts, on top of FeFacts, ScFacts, Sha512Facts, GeFacts and GeDouble).
    - ML-KEM-768: no overflow in the 16-bit and 32-bit arithmetic; hashes, sampling,
      encodings, transforms, key generation, encapsulation and decapsulation are those of
      FIPS 202 and FIPS 203, the checks of keys included; decapsulation recovers the secret
      unless the noise is too large (MlkTheorems, KeccakFacts, MlkInstance).

    ** Not modelled

    The services of spangap-core and mbedTLS (parameters), the build configuration,
    the interleaving of the worker and the command inside one call (each is a program
    of its own; what one reads of the other is an answer of [Platform]).  Of
    mlkem-native: the parameter sets other than 768, the native back ends, allocation on
    the heap and the pairwise consistency test, none of which the build configures, and the
    clearing of buffers; [randombytes] is an argument.  How probable it is that the noise of
    ML-KEM is too large is not stated, nor that the vendored code runs in constant time.  Memory is
    that of values: the buffers are disjoint in the code, and no theorem is about
    aliasing. *)

From Stdlib Require Export ZArith Lia.
From Stdlib.Init Require Export Byte.
From Stdlib.Strings Require Byte.
From stdpp Require Export base tactics numbers list strings pretty option.

Open Scope Z_scope.

(** Linear arithmetic with division and modulo by constants. *)
Ltac dlia := Z.to_euclidean_division_equations; lia.

(** ** Octets *)

Abbreviation byte := Byte.byte.
Abbreviation bytes := (list Byte.byte).

#[export] Instance byte_eq_dec : EqDecision byte := Byte.byte_eq_dec.

(** The value of an octet, and the octet a C conversion to [uint8_t] keeps. *)
Definition byte_to_Z (b : byte) : Z := Z.of_N (Byte.to_N b).

Definition byte_of_Z (z : Z) : byte :=
  match Byte.of_N (Z.to_N (z mod 256)) with Some b => b | None => Byte.x00 end.

(** A string literal of the source as octets (without its NUL). *)
Definition str (s : string) : bytes := String.list_byte_of_string s.

Lemma nth_take {A} (l : list A) i k d : (i < k)%nat -> nth i (take k l) d = nth i l d.
Proof. revert i k. induction l as [|x l IH]; intros [|i] [|k] H; try done; try lia. cbn. apply IH. lia. Qed.

(** Number of octets, as the [size_t] the code computes with. *)
Definition blen {A} (l : list A) : Z := Z.of_nat (length l).

Lemma byte_to_Z_range b : 0 <= byte_to_Z b < 256.
Proof.
  unfold byte_to_Z. pose proof (Byte.to_N_bounded b). lia.
Qed.

Lemma byte_to_of_Z z : byte_to_Z (byte_of_Z z) = z mod 256.
Proof.
  unfold byte_to_Z, byte_of_Z.
  pose proof (Z.mod_pos_bound z 256 ltac:(lia)) as Hb.
  destruct (Byte.of_N (Z.to_N (z mod 256))) as [b|] eqn:E.
  - apply Byte.to_of_N in E. rewrite E. lia.
  - apply Byte.of_N_None_iff in E. lia.
Qed.

Lemma byte_of_to_Z b : byte_of_Z (byte_to_Z b) = b.
Proof.
  unfold byte_of_Z. rewrite Z.mod_small by apply byte_to_Z_range.
  unfold byte_to_Z. rewrite N2Z.id, Byte.of_to_N. done.
Qed.

Lemma byte_to_Z_inj a b : byte_to_Z a = byte_to_Z b -> a = b.
Proof. intros H. rewrite <- (byte_of_to_Z a), H, byte_of_to_Z. done. Qed.

Lemma byte_of_Z_mod z : byte_of_Z (z mod 256) = byte_of_Z z.
Proof. unfold byte_of_Z. by rewrite Zmod_mod. Qed.

(** ** Machine integers *)

Definition u8 (z : Z) : Z := z mod 2 ^ 8.
Definition u16 (z : Z) : Z := z mod 2 ^ 16.
Definition u32 (z : Z) : Z := z mod 2 ^ 32.
Definition u64 (z : Z) : Z := z mod 2 ^ 64.

Lemma u32_range z : 0 <= u32 z < 2 ^ 32.
Proof. apply Z.mod_pos_bound. lia. Qed.
Lemma u32_small z : 0 <= z < 2 ^ 32 -> u32 z = z.
Proof. apply Z.mod_small. Qed.
Lemma u64_range z : 0 <= u64 z < 2 ^ 64.
Proof. apply Z.mod_pos_bound. lia. Qed.
Lemma u64_small z : 0 <= z < 2 ^ 64 -> u64 z = z.
Proof. apply Z.mod_small. Qed.

Create HintDb wire.
Create Rewrite HintDb wire.
Create Rewrite HintDb blen.
#[export] Hint Rewrite byte_to_of_Z byte_of_to_Z : wire.
#[export] Hint Resolve byte_to_Z_range u32_range u64_range : wire.

Lemma blen_nil {A} : blen (@nil A) = 0.
Proof. done. Qed.
Lemma blen_cons {A} (x : A) l : blen (x :: l) = 1 + blen l.
Proof. unfold blen. rewrite length_cons. lia. Qed.
Lemma blen_app {A} (l k : list A) : blen (l ++ k) = blen l + blen k.
Proof. unfold blen. rewrite length_app. lia. Qed.
Lemma blen_nonneg {A} (l : list A) : 0 <= blen l.
Proof. unfold blen. lia. Qed.
Lemma blen_zero {A} (l : list A) : blen l = 0 -> l = [].
Proof. unfold blen. intros H. apply nil_length_inv. lia. Qed.
#[export] Hint Rewrite @blen_nil @blen_cons @blen_app : blen.

(** ** Big-endian 32-bit words, as the code writes and reads them:
    [(uint8_t)(v >> 24), ..., (uint8_t)v] and
    [(uint32_t)p[0] << 24 | ... | (uint32_t)p[3]]. *)

Definition be32_bytes (v : Z) : bytes :=
  [byte_of_Z (Z.shiftr v 24); byte_of_Z (Z.shiftr v 16);
   byte_of_Z (Z.shiftr v 8); byte_of_Z v].

Definition be32_val (b0 b1 b2 b3 : byte) : Z :=
  Z.lor (Z.lor (Z.lor (Z.shiftl (byte_to_Z b0) 24) (Z.shiftl (byte_to_Z b1) 16))
               (Z.shiftl (byte_to_Z b2) 8)) (byte_to_Z b3).

(** A disjoint bitwise or is a sum. *)
Lemma lor_shiftl_add a x k :
  0 <= k -> 0 <= x < 2 ^ k -> Z.lor (Z.shiftl a k) x = a * 2 ^ k + x.
Proof.
  intros Hk Hx.
  assert (Z.land (Z.shiftl a k) x = 0) as Hl.
  { apply Z.bits_inj'. intros n Hn. rewrite Z.land_spec, Z.bits_0.
    destruct (Z.lt_ge_cases n k) as [Hlt|Hge].
    - by rewrite Z.shiftl_spec_low.
    - destruct (decide (x = 0)) as [->|Hne]; [by rewrite Z.bits_0, andb_false_r|].
      rewrite (Z.bits_above_log2 x n), andb_false_r; [done|lia|].
      apply Z.log2_lt_pow2; [lia|]. eapply Z.lt_le_trans; [apply Hx|].
      apply Z.pow_le_mono_r; lia. }
  pose proof (Z.add_lor_land (Z.shiftl a k) x) as H.
  rewrite Hl, Z.add_0_r in H. rewrite H, Z.shiftl_mul_pow2 by done. done.
Qed.

Lemma be32_val_sum b0 b1 b2 b3 :
  be32_val b0 b1 b2 b3 =
  byte_to_Z b0 * 2 ^ 24 + byte_to_Z b1 * 2 ^ 16 + byte_to_Z b2 * 2 ^ 8 + byte_to_Z b3.
Proof.
  unfold be32_val.
  pose proof (byte_to_Z_range b0). pose proof (byte_to_Z_range b1).
  pose proof (byte_to_Z_range b2). pose proof (byte_to_Z_range b3).
  rewrite (lor_shiftl_add (byte_to_Z b0) (Z.shiftl (byte_to_Z b1) 16) 24);
    [|lia|rewrite Z.shiftl_mul_pow2; lia].
  replace (byte_to_Z b0 * 2 ^ 24 + Z.shiftl (byte_to_Z b1) 16)
    with (Z.shiftl (byte_to_Z b0 * 2 ^ 8 + byte_to_Z b1) 16)
    by (rewrite !Z.shiftl_mul_pow2; lia).
  rewrite (lor_shiftl_add _ (Z.shiftl (byte_to_Z b2) 8) 16);
    [|lia|rewrite Z.shiftl_mul_pow2; lia].
  replace ((byte_to_Z b0 * 2 ^ 8 + byte_to_Z b1) * 2 ^ 16 + Z.shiftl (byte_to_Z b2) 8)
    with (Z.shiftl ((byte_to_Z b0 * 2 ^ 8 + byte_to_Z b1) * 2 ^ 8 + byte_to_Z b2) 8)
    by (rewrite !Z.shiftl_mul_pow2; lia).
  rewrite lor_shiftl_add by lia. lia.
Qed.

Lemma be32_val_range b0 b1 b2 b3 : 0 <= be32_val b0 b1 b2 b3 < 2 ^ 32.
Proof.
  rewrite be32_val_sum.
  pose proof (byte_to_Z_range b0). pose proof (byte_to_Z_range b1).
  pose proof (byte_to_Z_range b2). pose proof (byte_to_Z_range b3). lia.
Qed.

(** Reading back what was written keeps the low 32 bits. *)
Lemma be32_val_bytes v :
  be32_val (byte_of_Z (Z.shiftr v 24)) (byte_of_Z (Z.shiftr v 16))
           (byte_of_Z (Z.shiftr v 8)) (byte_of_Z v) = u32 v.
Proof.
  rewrite be32_val_sum, !byte_to_of_Z, !Z.shiftr_div_pow2 by lia.
  replace (v / 2 ^ 24) with (v / 256 / 256 / 256) by (rewrite !Z.div_div by lia; done).
  replace (v / 2 ^ 16) with (v / 256 / 256) by (rewrite !Z.div_div by lia; done).
  change (v / 2 ^ 8) with (v / 256).
  unfold u32. change (2 ^ 32) with (256 * (256 * (256 * 256))).
  rewrite !Z.rem_mul_r by lia. lia.
Qed.

Lemma be32_bytes_val b0 b1 b2 b3 : be32_bytes (be32_val b0 b1 b2 b3) = [b0; b1; b2; b3].
Proof.
  unfold be32_bytes. rewrite !Z.shiftr_div_pow2, be32_val_sum by lia.
  pose proof (byte_to_Z_range b0). pose proof (byte_to_Z_range b1).
  pose proof (byte_to_Z_range b2). pose proof (byte_to_Z_range b3).
  repeat f_equal; apply byte_to_Z_inj; rewrite byte_to_of_Z.
  all: change (2 ^ 24) with 16777216; change (2 ^ 16) with 65536; change (2 ^ 8) with 256; dlia.
Qed.

Lemma be32_bytes_u32 v : be32_bytes (u32 v) = be32_bytes v.
Proof. rewrite <- be32_val_bytes. by rewrite be32_bytes_val. Qed.

Lemma blen_be32_bytes v : blen (be32_bytes v) = 4.
Proof. done. Qed.
#[export] Hint Rewrite blen_be32_bytes : blen.

(** ** [std::string] operations *)

(** [s.find(c, from)]: the index of the first [c] at or after [from]. *)
Fixpoint find_from (c : byte) (s : bytes) (i : nat) : option nat :=
  match s with
  | [] => None
  | x :: s' => if bool_decide (x = c) then Some i else find_from c s' (S i)
  end.

Definition find_char (c : byte) (s : bytes) (from : nat) : option nat :=
  find_from c (drop from s) from.

(** [s.substr(pos, len)] for [pos <= s.size()]. *)
Definition substr (s : bytes) (pos len : nat) : bytes := take len (drop pos s).

(** [s.compare(pos, len, t) == 0]. *)
Definition compare_eq (s : bytes) (pos len : nat) (t : bytes) : bool :=
  bool_decide (substr s pos len = t).

(** What the C string at the start of a buffer is: the octets before the first NUL. *)
Definition c_str (s : bytes) : bytes :=
  match find_char x00 s 0 with Some n => take n s | None => s end.

(** The xor of two octets is an octet. *)
Lemma lxor_byte_range a b : 0 <= a < 256 -> 0 <= b < 256 -> 0 <= Z.lxor a b < 256.
Proof.
  intros Ha Hb. assert (0 <= Z.lxor a b) as H0 by (apply Z.lxor_nonneg; lia).
  split; [done|]. destruct (Z.eq_dec (Z.lxor a b) 0) as [->|Hne]; [lia|].
  change 256 with (2 ^ 8). apply Z.log2_lt_pow2; [lia|].
  eapply Z.le_lt_trans; [apply Z.log2_lxor; lia|].
  assert (forall z, 0 <= z < 256 -> Z.log2 z < 8) as Hlog.
  { intros z Hz. destruct (Z.eq_dec z 0) as [->|]; [done|]. apply Z.log2_lt_pow2; lia. }
  apply Z.max_lub_lt; by apply Hlog.
Qed.

(** [snprintf(buf, n, ...)] keeps [n - 1] octets. *)
Definition snprintf (n : nat) (s : bytes) : bytes := take (n - 1) s.

(** [%d] and [%u]. *)
Definition fmt_d (z : Z) : bytes := str (pretty z).

Lemma find_from_Some c s i n :
  find_from c s i = Some n ->
  (i <= n)%nat /\ s !! (n - i)%nat = Some c /\
  (forall j, (j < n - i)%nat -> s !! j <> Some c).
Proof.
  revert i. induction s as [|x s IH]; intros i; cbn; [done|].
  case_bool_decide as Hx.
  - intros [= <-]. subst. rewrite Nat.sub_diag. split_and!; [lia|done|lia].
  - intros H. destruct (IH _ H) as (Hle & Hl & Hmin). split_and!; [lia| |].
    + by replace (n - i)%nat with (S (n - S i))%nat by lia.
    + intros [|j] Hj; cbn; [congruence|]. apply Hmin. lia.
Qed.

Lemma find_from_None c s i : find_from c s i = None <-> c ∉ s.
Proof.
  revert i. induction s as [|x s IH]; intros i; cbn; [split; [by intros _ ?%elem_of_nil|done]|].
  rewrite elem_of_cons. case_bool_decide as Hx.
  - split; [done|]. intros H. destruct H. by left.
  - rewrite IH. split; [intros H [->|?]; tauto|tauto].
Qed.

Lemma find_char_Some c s n :
  find_char c s 0 = Some n ->
  exists s1 s2, s = s1 ++ c :: s2 /\ length s1 = n /\ c ∉ s1.
Proof.
  intros H. apply find_from_Some in H as (_ & Hl & Hmin).
  rewrite drop_0, Nat.sub_0_r in Hl. rewrite drop_0, Nat.sub_0_r in Hmin.
  exists (take n s), (drop (S n) s). apply lookup_lt_Some in Hl as Hlt.
  split_and!.
  - symmetry. by apply take_drop_middle.
  - rewrite length_take. lia.
  - intros (j & Hj)%list_elem_of_lookup. apply lookup_take_Some in Hj as [Hj Hjn].
    by apply (Hmin j).
Qed.

Lemma find_char_app c s1 s2 :
  c ∉ s1 -> find_char c (s1 ++ c :: s2) 0 = Some (length s1).
Proof.
  unfold find_char. rewrite drop_0.
  enough (forall i, c ∉ s1 -> find_from c (s1 ++ c :: s2) i = Some (i + length s1)%nat) as E
    by (intros H; by rewrite E).
  induction s1 as [|x s1 IH]; intros i H; cbn.
  - rewrite bool_decide_eq_true_2 by done. by rewrite Nat.add_0_r.
  - apply not_elem_of_cons in H as [? ?].
    rewrite bool_decide_eq_false_2 by congruence. rewrite IH by done. f_equal. lia.
Qed.

(** A step that can fail, where the code leaves by [goto out] or an early [return false]. *)
Notation "'let?' x := m 'in' k" :=
  (match m with Some x => k | None => None end)
  (at level 10, x binder, m at level 200, k at level 200).

(** ** A state monad, with [stdpp]'s notation for bind *)

Definition M (S A : Type) : Type := S -> A * S.

#[export] Instance M_ret S : MRet (M S) := fun A a s => (a, s).
#[export] Instance M_bind S : MBind (M S) :=
  fun A B f m s => let r := m s in f r.1 r.2.

Definition get {S} : M S S := fun s => (s, s).
Definition put {S} (s : S) : M S unit := fun _ => (tt, s).
Definition modify {S} (f : S -> S) : M S unit := fun s => (tt, f s).
Definition gets {S A} (f : S -> A) : M S A := fun s => (f s, s).
Definition when {S} (b : bool) (m : M S unit) : M S unit :=
  if b then m else mret tt.

(** Loops.  [loop n body a] runs [body] from the local state [a] at most [n]
    times: [inl a'] asks for another iteration, [inr b] leaves the loop.  The
    count is a binary number, so that the bound of a loop that runs up to
    [2^32] times can be written down and still be evaluated. *)
Fixpoint loop {S A B} (p : positive) (body : A -> M S (A + B)) (a : A) : M S (A + B) :=
  match p with
  | xH => body a
  | xO q =>
      r ← loop q body a;
      match r with inl a' => loop q body a' | inr b => mret (inr b) end
  | xI q =>
      r0 ← body a;
      match r0 with
      | inl a0 =>
          r ← loop q body a0;
          match r with inl a' => loop q body a' | inr b => mret (inr b) end
      | inr b => mret (inr b)
      end
  end.

(** The unary reading of a loop. *)
Fixpoint loopn {S A B} (n : nat) (body : A -> M S (A + B)) (a : A) : M S (A + B) :=
  match n with
  | O => mret (inl a)
  | S m =>
      r ← body a;
      match r with inl a' => loopn m body a' | inr b => mret (inr b) end
  end.

Section loop.
Context {S A B : Type} (body : A -> M S (A + B)).

Lemma loopn_add n m a s :
  loopn (n + m) body a s =
  match loopn n body a s with
  | (inl a', s') => loopn m body a' s'
  | (inr b, s') => (inr b, s')
  end.
Proof.
  revert a s. induction n as [|n IH]; intros a s; [done|].
  cbn. unfold mbind, M_bind. destruct (body a s) as [[a'|b] s']; cbn; [|done].
  apply IH.
Qed.

Lemma loop_loopn p a s : loop p body a s = loopn (Pos.to_nat p) body a s.
Proof.
  revert a s. induction p as [p IH|p IH|]; intros a s.
  - rewrite Pos2Nat.inj_xI. cbn [loop loopn Nat.mul]. unfold mbind, M_bind.
    destruct (body a s) as [[a0|b] s0]; cbn; [|done].
    rewrite IH, Nat.add_0_r, loopn_add.
    destruct (loopn (Pos.to_nat p) body a0 s0) as [[a1|b1] s1]; cbn; [apply IH|done].
  - rewrite Pos2Nat.inj_xO. cbn [loop Nat.mul]. unfold mbind, M_bind.
    rewrite IH, Nat.add_0_r, loopn_add.
    destruct (loopn (Pos.to_nat p) body a s) as [[a1|b1] s1]; cbn; [apply IH|done].
  - change (Pos.to_nat 1) with 1%nat. cbn. unfold mbind, M_bind.
    destruct (body a s) as [[a0|b] s0]; reflexivity.
Qed.

(** A measure that every continuing iteration decreases: from [mu a s < n]
    the loop leaves before the count runs out, so the count is irrelevant. *)
Context (mu : A -> S -> nat) (I : A -> S -> Prop).
Hypothesis body_dec : forall a s a' s',
  I a s -> body a s = (inl a', s') -> I a' s' /\ (mu a' s' < mu a s)%nat.

Lemma loopn_exits n a s :
  I a s -> (mu a s < n)%nat -> exists b s', loopn n body a s = (inr b, s').
Proof.
  revert a s. induction n as [|n IH]; intros a s HI Hn; [lia|].
  cbn. unfold mbind, M_bind. destruct (body a s) as [[a'|b] s'] eqn:E; cbn; [|by eauto].
  destruct (body_dec _ _ _ _ HI E) as [HI' Hlt]. apply IH; [done|lia].
Qed.

Lemma loopn_stable n m a s :
  I a s -> (mu a s < n)%nat -> (mu a s < m)%nat ->
  loopn n body a s = loopn m body a s.
Proof.
  revert m a s. induction n as [|n IH]; intros m a s HI Hn Hm; [lia|].
  destruct m as [|m]; [lia|].
  cbn. unfold mbind, M_bind. destruct (body a s) as [[a'|b] s'] eqn:E; cbn; [|done].
  destruct (body_dec _ _ _ _ HI E) as [HI' Hlt]. apply IH; [done|lia|lia].
Qed.
End loop.

(** The invariant rule. *)
Lemma loopn_inv {S A B} (body : A -> M S (A + B)) (I : A -> S -> Prop) (Q : B -> S -> Prop) n a s :
  (forall a s, I a s ->
     match body a s with (inl a', s') => I a' s' | (inr b, s') => Q b s' end) ->
  I a s ->
  match loopn n body a s with (inl a', s') => I a' s' | (inr b, s') => Q b s' end.
Proof.
  intros Hb. revert a s. induction n as [|n IH]; intros a s HI; [done|].
  cbn. unfold mbind, M_bind. specialize (Hb a s HI).
  destruct (body a s) as [[a'|b] s']; cbn; [by apply IH|done].
Qed.

(** ** What an operation keeps

    [keeps R m]: every run of [m] relates the state before to the state after by
    [R].  With a preorder [R] the rule for sequencing is plain composition, and
    the leaves are registered in the hint database [keeps]. *)
Definition keeps {S A} (R : S -> S -> Prop) (m : M S A) : Prop :=
  forall s, R s (m s).2.

Section keeps.
Context {S : Type} (R : S -> S -> Prop) `{!PreOrder R}.

Lemma keeps_ret {A} (a : A) : keeps R (mret a).
Proof. intros s. cbn. reflexivity. Qed.
Lemma keeps_bind {A B} (m : M S A) (f : A -> M S B) :
  keeps R m -> (forall a, keeps R (f a)) -> keeps R (m ≫= f).
Proof.
  intros Hm Hf s. unfold mbind, M_bind. cbn. transitivity (m s).2; [apply Hm|apply Hf].
Qed.
Lemma keeps_after {A B} (m : M S A) (f : A -> M S B) s :
  R s (m s).2 -> (forall a, keeps R (f a)) -> R s ((m ≫= f) s).2.
Proof. intros Hm Hf. unfold mbind, M_bind. cbn. transitivity (m s).2; [done|apply Hf]. Qed.
Lemma keeps_get : keeps R get.
Proof. intros s. cbn. reflexivity. Qed.
Lemma keeps_gets {A} (f : S -> A) : keeps R (gets f).
Proof. intros s. cbn. reflexivity. Qed.
Lemma keeps_when b m : keeps R m -> keeps R (when b m).
Proof. destruct b; [done|intros _; apply keeps_ret]. Qed.
Lemma keeps_loopn {A B} n (body : A -> M S (A + B)) a :
  (forall a, keeps R (body a)) -> keeps R (loopn n body a).
Proof.
  intros Hb. revert a. induction n as [|n IH]; intros a; cbn; [apply keeps_ret|].
  apply keeps_bind; [apply Hb|]. intros [a'|b]; [apply IH|apply keeps_ret].
Qed.
Lemma keeps_loop {A B} p (body : A -> M S (A + B)) a :
  (forall a, keeps R (body a)) -> keeps R (loop p body a).
Proof. intros Hb s. rewrite loop_loopn. by apply keeps_loopn. Qed.
End keeps.

(** Taking a run apart. *)
Lemma bind_inv {S A B} (m : M S A) (f : A -> M S B) s r :
  (m ≫= f) s = r -> exists a s', m s = (a, s') /\ f a s' = r.
Proof. intros <-. exists (m s).1, (m s).2. split; [by destruct (m s)|done]. Qed.

Lemma pair_eq {A B} (p : A * B) a : p.1 = a -> p = (a, p.2).
Proof. destruct p. cbn. by intros ->. Qed.

Lemma keeps_run {S A} (R : S -> S -> Prop) (m : M S A) s a s' :
  keeps R m -> m s = (a, s') -> R s s'.
Proof. intros Hm E. specialize (Hm s). by rewrite E in Hm. Qed.

Lemma keeps_weaken {S A} (R R' : S -> S -> Prop) (m : M S A) :
  (forall s s', R s s' -> R' s s') -> keeps R m -> keeps R' m.
Proof. intros H Hm s. apply H, Hm. Qed.

Create HintDb keeps discriminated.
#[export] Hint Constants Opaque : keeps.
#[export] Hint Extern 2 (PreOrder _) => typeclasses eauto : keeps.
#[export] Hint Resolve keeps_ret keeps_get keeps_gets : keeps.

(** Pre- and postconditions, where the result of a step matters. *)
Definition triple {S A} (P : S -> Prop) (m : M S A) (Q : A -> S -> Prop) : Prop :=
  forall s, P s -> Q (m s).1 (m s).2.

Lemma triple_bind {S A B} (P : S -> Prop) (m : M S A) (Q : A -> S -> Prop)
    (f : A -> M S B) (T : B -> S -> Prop) :
  triple P m Q -> (forall a, triple (Q a) (f a) T) -> triple P (m ≫= f) T.
Proof. intros Hm Hf s HP. apply Hf, Hm, HP. Qed.

Lemma triple_ret {S A} (P : S -> Prop) (a : A) (Q : A -> S -> Prop) :
  (forall s, P s -> Q a s) -> triple P (mret a) Q.
Proof. intros H s HP. by apply H. Qed.

Lemma triple_conseq {S A} (P P' : S -> Prop) (m : M S A) (Q Q' : A -> S -> Prop) :
  triple P' m Q' -> (forall s, P s -> P' s) -> (forall a s, Q' a s -> Q a s) -> triple P m Q.
Proof. intros Hm HP HQ s Hs. apply HQ, Hm, HP, Hs. Qed.

Lemma triple_pre {S A} (P P' : S -> Prop) (m : M S A) Q :
  (forall s, P s -> P' s) -> triple P' m Q -> triple P m Q.
Proof. intros HP Hm s Hs. apply Hm, HP, Hs. Qed.

Lemma triple_if {S A} (b : bool) (P : S -> Prop) (m m' : M S A) Q :
  triple P m Q -> triple P m' Q -> triple P (if b then m else m') Q.
Proof. by destruct b. Qed.

Lemma keeps_triple {S A} (R : S -> S -> Prop) (P Q : S -> Prop) (m : M S A) :
  keeps R m -> (forall s s', P s -> R s s' -> Q s') -> triple P m (fun _ => Q).
Proof. intros Hm HR s HP. eapply HR; [done|apply Hm]. Qed.

Lemma triple_loopn {S A B} n (body : A -> M S (A + B)) a (P : A -> S -> Prop) (Q : B -> S -> Prop) :
  (forall a, triple (P a) (body a)
     (fun r s => match r with inl a' => P a' s | inr b => Q b s end)) ->
  triple (P a) (loopn n body a)
    (fun r s => match r with inl a' => P a' s | inr b => Q b s end).
Proof.
  intros Hb. revert a. induction n as [|n IH]; intros a; cbn [loopn].
  - by apply triple_ret.
  - eapply triple_bind; [apply Hb|]. intros [a'|b]; [apply IH|by apply triple_ret].
Qed.

Lemma triple_loop {S A B} p (body : A -> M S (A + B)) a (P : S -> Prop) :
  (forall a, triple P (body a) (fun _ => P)) -> triple P (loop p body a) (fun _ => P).
Proof.
  intros Hb s Hs. rewrite loop_loopn.
  enough (H : triple P (loopn (Pos.to_nat p) body a) (fun _ => P)) by by apply H.
  eapply triple_conseq with (P' := P).
  - apply (triple_loopn _ body a (fun _ => P) (fun _ => P)).
    intros a'. eapply triple_conseq with (P' := P); [apply Hb|done|]. by intros [].
  - done.
  - by intros [].
Qed.

(** ** Tactics *)

(** Destruct the scrutinee of a [match] or [if] of the goal, remembering it. *)
Ltac case_goal :=
  match goal with
  | |- context [match ?x with _ => _ end] =>
      lazymatch x with context [match _ with _ => _ end] => fail | _ => destruct x eqn:? end
  end.

(** Decide the comparisons of the goal by arithmetic. *)
Ltac ltb_false :=
  match goal with
  | |- context [Z.ltb ?a ?b] => rewrite (proj2 (Z.ltb_ge a b)) by lia
  end.
Ltac ltb_true :=
  match goal with
  | |- context [Z.ltb ?a ?b] => rewrite (proj2 (Z.ltb_lt a b)) by lia
  end.

(** One step of a [keeps] proof: a registered leaf, sequencing or branching.  Names
    are not unfolded: what a proof looks into, it unfolds first. *)
Ltac keeps_step :=
  lazymatch goal with
  | |- keeps _ (mbind _ _) => apply keeps_bind; [try apply _| |intros ?]
  | |- keeps _ (when _ _) => apply keeps_when; [try apply _|]
  | |- keeps _ (loop _ _ _) => apply keeps_loop; [try apply _|intros ?]
  | |- keeps _ (let _ := _ in _) => cbv zeta
  | |- keeps _ (match ?x with _ => _ end) => destruct x eqn:?
  | |- keeps _ _ => solve [eauto with keeps]
  end.
Ltac solve_keeps := repeat keeps_step.

(** Run a monadic definition on a concrete state. *)
Ltac run_m :=
  repeat (unfold mbind, M_bind, mret, M_ret, get, put, modify, gets, when; cbn -[Z.add Z.sub Z.mul u32 u64]).
