(* ===== verification/Text.v ===== *)
(** * Text: character classes, trimming, decimal numbers

    What the command and key-store code uses of the C library on text. *)
From S2P Require Import Prelude.

(** ** Character classes of the C locale *)

Definition in_range (lo hi : Z) (b : byte) : bool := (lo <=? byte_to_Z b) && (byte_to_Z b <=? hi).
Definition isspace (b : byte) : bool := in_range 9 13 b || in_range 32 32 b.
Definition isdigit (b : byte) : bool := in_range 48 57 b.
Definition isalnum (b : byte) : bool := isdigit b || in_range 65 90 b || in_range 97 122 b.

(** ** Trimming *)

Fixpoint drop_while (f : byte -> bool) (l : bytes) : bytes :=
  match l with
  | [] => []
  | b :: l' => if f b then drop_while f l' else l
  end.

(** [while (!line.empty() && isspace(line.back())) line.pop_back();] *)
Definition drop_while_end (f : byte -> bool) (l : bytes) : bytes :=
  reverse (drop_while f (reverse l)).

Definition trim (l : bytes) : bytes := drop_while_end isspace (drop_while isspace l).

(** ** Decimal numbers *)

(** The value of a run of digits. *)
Fixpoint digits_val (acc : Z) (l : bytes) : Z :=
  match l with
  | [] => acc
  | b :: l' => if isdigit b then digits_val (acc * 10 + (byte_to_Z b - 48)) l' else acc
  end.

(** [atoi], for values that fit an [int]. *)
Definition atoi (s : bytes) : Z :=
  match drop_while isspace s with
  | [] => 0
  | b :: l =>
      if bool_decide (b = x2d) then - digits_val 0 l
      else if bool_decide (b = x2b) then digits_val 0 l
      else digits_val 0 (b :: l)
  end.

Lemma drop_while_head f l b l' : drop_while f l = b :: l' -> f b = false.
Proof.
  induction l as [|x l IH]; cbn; [done|]. destruct (f x) eqn:E; [done|]. by intros [= <- <-].
Qed.

Lemma drop_while_id f l : match l with [] => True | b :: _ => f b = false end -> drop_while f l = l.
Proof. destruct l as [|b l]; cbn; [done|]. by intros ->. Qed.

Lemma drop_while_suffix f l : exists p, l = p ++ drop_while f l /\ Forall (fun b => f b = true) p.
Proof.
  induction l as [|x l (p & E & H)]; cbn; [by exists []|].
  destruct (f x) eqn:Ex; [|by exists []]. exists (x :: p). split; [by rewrite E at 1|by constructor].
Qed.

Lemma drop_while_end_prefix f l :
  exists p, l = drop_while_end f l ++ p /\ Forall (fun b => f b = true) p.
Proof.
  unfold drop_while_end. destruct (drop_while_suffix f (reverse l)) as (p & E & H).
  exists (reverse p). split; [|by apply Forall_reverse].
  rewrite <- reverse_app, <- E. by rewrite reverse_involutive.
Qed.

Lemma drop_while_end_id f l : drop_while_end f (drop_while_end f l) = drop_while_end f l.
Proof.
  unfold drop_while_end. rewrite reverse_involutive. f_equal. apply drop_while_id.
  destruct (drop_while f (reverse l)) eqn:E; [done|]. by eapply drop_while_head.
Qed.

(** What is left has no space at either end. *)
Lemma trim_head l b l' : trim l = b :: l' -> isspace b = false.
Proof.
  unfold trim. intros E. destruct (drop_while_end_prefix isspace (drop_while isspace l)) as (p & Ep & _).
  rewrite E in Ep. cbn in Ep. by eapply drop_while_head.
Qed.

Lemma trim_idemp l : trim (trim l) = trim l.
Proof.
  unfold trim at 1. rewrite (drop_while_id isspace (trim l)).
  - apply drop_while_end_id.
  - destruct (trim l) eqn:E; [done|]. by eapply trim_head.
Qed.

(** ** What [%d] prints *)

Definition all_digits (l : bytes) : Prop := Forall (fun b => isdigit b = true) l.

Lemma digits_val_app acc l l' :
  all_digits l -> digits_val acc (l ++ l') = digits_val (digits_val acc l) l'.
Proof.
  intros H. revert acc. induction H as [|b l Hb Hl IH]; intros acc; cbn; [done|].
  rewrite Hb. apply IH.
Qed.

Lemma pretty_N_char_digit x :
  (x < 10)%N -> exists b, String.list_byte_of_string (String (pretty_N_char x) EmptyString) = [b] /\
    isdigit b = true /\ byte_to_Z b = 48 + Z.of_N x.
Proof.
  intros H. assert (x = 0 \/ x = 1 \/ x = 2 \/ x = 3 \/ x = 4 \/ x = 5 \/ x = 6 \/ x = 7 \/ x = 8 \/ x = 9)%N
    as Hx by lia.
  repeat destruct Hx as [->|Hx]; try (eexists; split; [vm_compute; reflexivity|by vm_compute]).
  subst x. eexists; split; [vm_compute; reflexivity|by vm_compute].
Qed.

Lemma str_String c s : str (String c s) = String.list_byte_of_string (String c EmptyString) ++ str s.
Proof. done. Qed.

Lemma pretty_N_go_digits x s :
  exists ds, str (pretty_N_go x s) = ds ++ str s /\ all_digits ds /\
    digits_val 0 ds = Z.of_N x /\ (x <> 0%N -> ds <> []) /\
    forall k, Z.of_N x < 10 ^ Z.of_nat k -> (length ds <= k)%nat.
Proof.
  revert s. induction (N.lt_wf_0 x) as [x _ IH]; intros s.
  destruct (decide (x = 0%N)) as [->|Hx].
  { exists []. rewrite pretty_N_go_0. split; [done|]. split; [constructor|]. split; [done|].
    split; [done|]. cbn. lia. }
  rewrite pretty_N_go_step by lia.
  assert (x `div` 10 < x)%N as Hlt by (apply N.div_lt; lia).
  destruct (IH _ Hlt (String (pretty_N_char (x `mod` 10)) s)) as (ds & E & Hd & Hv & _ & Hk).
  assert (x `mod` 10 < 10)%N as Hm by (apply N.mod_lt; lia).
  destruct (pretty_N_char_digit _ Hm) as (b & Eb & Hb & Hbv).
  exists (ds ++ [b]). split_and!.
  - rewrite E, str_String, Eb, <- app_assoc. done.
  - apply Forall_app_2; [done|]. by constructor.
  - rewrite digits_val_app, Hv by done. cbn. rewrite Hb, Hbv, N2Z.inj_mod, N2Z.inj_div. dlia.
  - intros _. by destruct ds.
  - intros [|k] Hk'; [cbn in Hk'; lia|]. rewrite length_app. cbn.
    enough (length ds <= k)%nat by lia. apply Hk.
    rewrite Nat2Z.inj_succ, Z.pow_succ_r in Hk' by lia. rewrite N2Z.inj_div. cbn [Z.of_N]. dlia.
Qed.

(** The decimal form of a number: digits of its value, as many as it takes. *)
Lemma fmt_d_digits z :
  0 <= z ->
  all_digits (fmt_d z) /\ fmt_d z <> [] /\ digits_val 0 (fmt_d z) = z /\
  forall k, (0 < k)%nat -> z < 10 ^ Z.of_nat k -> (length (fmt_d z) <= k)%nat.
Proof.
  intros Hz. unfold fmt_d, pretty.
  destruct z as [|p|p]; [|clear Hz|lia].
  { split; [by repeat constructor|]. split; [done|]. split; [done|]. cbn. lia. }
  change (pretty_Z (Z.pos p)) with (pretty_N_go (N.pos p) "").
  destruct (pretty_N_go_digits (N.pos p) "") as (ds & E & Hd & Hv & Hne & Hk).
  rewrite E. cbn [str String.list_byte_of_string]. rewrite app_nil_r.
  split; [done|]. split; [by apply Hne|]. split; [done|]. intros k _ Hp. by apply Hk.
Qed.

Lemma fmt_d_inj a b : 0 <= a -> 0 <= b -> fmt_d a = fmt_d b -> a = b.
Proof.
  intros Ha Hb E. destruct (fmt_d_digits a Ha) as (_ & _ & <- & _).
  destruct (fmt_d_digits b Hb) as (_ & _ & <- & _). by rewrite E.
Qed.

Lemma isdigit_not_space b : isdigit b = true -> isspace b = false /\ b <> x2d /\ b <> x2b /\ b <> x2e.
Proof.
  unfold isdigit, isspace, in_range. rewrite andb_true_iff. intros [H1%Z.leb_le H2%Z.leb_le].
  split; [|split; [|split]; intros ->; cbn in *; lia].
  apply orb_false_iff. rewrite !andb_false_iff, !Z.leb_gt. lia.
Qed.

Lemma atoi_fmt_d z : 0 <= z -> atoi (fmt_d z) = z.
Proof.
  intros Hz. destruct (fmt_d_digits z Hz) as (Hd & Hne & Hv & _). unfold atoi.
  destruct (fmt_d z) as [|b l] eqn:E; [done|].
  pose proof (Hd : Forall _ _) as Hd'. apply list.Forall_cons in Hd' as [Hb _].
  apply isdigit_not_space in Hb as (Hs & H1 & H2 & _).
  rewrite drop_while_id by done. by rewrite !bool_decide_eq_false_2.
Qed.

(** Two texts that are cut at the same separator are cut in the same place. *)
Lemma split_at_inj {A} (c : A) a a' b b' :
  (c ∉ a) -> (c ∉ a') -> a ++ c :: b = a' ++ c :: b' -> a = a' /\ b = b'.
Proof.
  revert a'. induction a as [|x a IH]; intros [|x' a'] Ha Ha' E; cbn in E.
  - by injection E as ->.
  - injection E as E1 E2. subst. destruct Ha'. by apply list_elem_of_here.
  - injection E as E1 E2. subst. destruct Ha. by apply list_elem_of_here.
  - injection E as E1 E2. subst x'. apply not_elem_of_cons in Ha as [_ Ha].
    apply not_elem_of_cons in Ha' as [_ Ha'].
    destruct (IH a' Ha Ha' E2) as [-> ->]. done.
Qed.

Lemma fmt_d_no_dot z : 0 <= z -> x2e ∉ fmt_d z.
Proof.
  intros Hz Hin. destruct (fmt_d_digits z Hz) as (Hd & _). unfold all_digits in Hd.
  rewrite list.Forall_forall in Hd. apply Hd, isdigit_not_space in Hin as (_ & _ & _ & H). done.
Qed.
