(* ===== verification/Wire.v ===== *)
(** * Wire: the SSH wire format of [sshd_wire.h] (RFC 4251 section 5)

    Encoders append to a caller-owned [std::string]; decoders walk a constant
    byte view and bump a position cursor.  Sizes are the 32-bit [size_t] of the
    target, so the subtraction in [need] is written with its wrap-around. *)
From S2P Require Import Prelude.

(** ** Encoders *)

Definition put_u8 (s : bytes) (v : Z) : bytes := s ++ [byte_of_Z v].

Definition put_u32 (s : bytes) (v : Z) : bytes :=
  let b := [byte_of_Z (Z.shiftr v 24); byte_of_Z (Z.shiftr v 16);
            byte_of_Z (Z.shiftr v 8); byte_of_Z v] in
  s ++ b.

Definition put_bytes (s data : bytes) : bytes := s ++ data.

(** SSH-string: 32-bit big-endian length, then the octets. *)
Definition put_string (s data : bytes) : bytes :=
  put_bytes (put_u32 s (u32 (blen data))) data.

(** The argument is a C string: [strlen] stops at the first NUL. *)
Definition put_cstring (s cstr : bytes) : bytes := put_string s (c_str cstr).

Definition put_namelist (s csv : bytes) : bytes := put_cstring s csv.

(** [while (len > 1 && val[0] == 0) { val++; len--; }] *)
Fixpoint strip_zeros (val : bytes) : bytes :=
  match val with
  | x :: (_ :: _) as rest => if byte_to_Z x =? 0 then strip_zeros rest else val
  | _ => val
  end.

(** [len > 0 && (val[0] & 0x80) != 0] *)
Definition msb_set (val : bytes) : bool :=
  match val with
  | x :: _ => negb (Z.land (byte_to_Z x) 0x80 =? 0)
  | [] => false
  end.

Definition put_mpint_positive (s val : bytes) : bytes :=
  let val := strip_zeros val in
  let needPad := msb_set val in
  let s := put_u32 s (u32 (blen val + (if needPad then 1 else 0))) in
  let s := if needPad then put_u8 s 0 else s in
  put_bytes s val.

(** ** Decoders *)

Record View := mkView {
  vw_p : bytes;      (* const uint8_t* p *)
  vw_n : Z;          (* size_t n *)
  vw_pos : Z;        (* size_t pos *)
  vw_bad : bool
}.

Definition view_init (data : bytes) : View := mkView data (blen data) 0 false.

Definition vw_set_bad (v : View) : View := {| v with vw_bad := true |}.
Definition vw_advance (v : View) (k : Z) : View := {| v with vw_pos := u32 (vw_pos v + k) |}.

(** [v.p[v.pos + i]] *)
Definition vw_at (v : View) (i : Z) : byte :=
  default x00 (vw_p v !! Z.to_nat (vw_pos v + i)).

Definition need (v : View) (n : Z) : bool * View :=
  if vw_bad v || (vw_n v <? vw_pos v) || (u32 (vw_n v - vw_pos v) <? n)
  then (false, vw_set_bad v)
  else (true, v).

Definition get_u8 (v : View) : Z * View :=
  let '(ok, v) := need v 1 in
  if ok then (byte_to_Z (vw_at v 0), vw_advance v 1) else (0, v).

Definition get_u32 (v : View) : Z * View :=
  let '(ok, v) := need v 4 in
  if ok then
    (be32_val (vw_at v 0) (vw_at v 1) (vw_at v 2) (vw_at v 3), vw_advance v 4)
  else (0, v).

(** The result is the range [out], [outLen] of the buffer; [None] is [false]. *)
Definition get_string (v : View) : option bytes * View :=
  let '(len, v) := get_u32 v in
  if vw_bad v then (None, v) else
  let '(ok, v) := need v len in
  if ok then
    (Some (take (Z.to_nat len) (drop (Z.to_nat (vw_pos v)) (vw_p v))), vw_advance v len)
  else (None, v).

Definition skip_string (v : View) : bool * View :=
  let '(r, v) := get_string v in (bool_decide (is_Some r), v).

Definition skip_namelist (v : View) : bool * View := skip_string v.
Definition skip_mpint (v : View) : bool * View := skip_string v.

(** ** Well-formed views

    A view over a buffer that fits the address space, with the cursor inside. *)
Definition view_wf (v : View) : Prop :=
  vw_n v = blen (vw_p v) /\ blen (vw_p v) < 2 ^ 32 /\ 0 <= vw_pos v <= vw_n v.

(** What is left to read. *)
Definition vw_rest (v : View) : bytes := drop (Z.to_nat (vw_pos v)) (vw_p v).

(** A view over [data] whose cursor is [k] octets from the end of what is left. *)
Definition view_at (v : View) (rest : bytes) : Prop :=
  view_wf v /\ vw_bad v = false /\ vw_rest v = rest.

Lemma view_init_wf data : blen data < 2 ^ 32 -> view_wf (view_init data).
Proof. intros H. unfold view_wf, view_init. cbn. pose proof (blen_nonneg data). lia. Qed.

Lemma view_init_at data : blen data < 2 ^ 32 -> view_at (view_init data) data.
Proof. intros H. split_and!; [by apply view_init_wf|done|done]. Qed.

Lemma view_at_pos v rest : view_at v rest -> vw_pos v + blen rest = vw_n v.
Proof.
  intros ((Hn & Hb & Hp) & _ & <-). unfold vw_rest, blen in *.
  rewrite length_drop. lia.
Qed.

(** [need] accepts exactly the requests that stay inside the buffer, on the
    32-bit [size_t] too. *)
Lemma need_spec v n :
  view_wf v -> 0 <= n ->
  need v n = if negb (vw_bad v) && (vw_pos v + n <=? vw_n v) then (true, v)
             else (false, vw_set_bad v).
Proof.
  intros (Hn & Hb & Hp) Hn0. unfold need. rewrite u32_small by lia.
  destruct (vw_bad v); [done|]. cbn.
  destruct (Z.ltb_spec (vw_n v) (vw_pos v)); [lia|]. cbn.
  destruct (Z.ltb_spec (vw_n v - vw_pos v) n), (Z.leb_spec (vw_pos v + n) (vw_n v)); done || lia.
Qed.

Lemma need_at v rest n :
  view_at v rest -> 0 <= n <= blen rest -> need v n = (true, v).
Proof.
  intros H Hn. pose proof (view_at_pos _ _ H) as Hpos. destruct H as (Hw & Hb & _).
  rewrite need_spec by (done || lia). rewrite Hb. cbn.
  destruct (Z.leb_spec (vw_pos v + n) (vw_n v)); [done|lia].
Qed.

Lemma vw_advance_at v a rest :
  view_at v (a ++ rest) -> view_at (vw_advance v (blen a)) rest.
Proof.
  intros H. pose proof (view_at_pos _ _ H) as Hpos. destruct H as ((Hn & Hb & Hp) & Hbad & Hr).
  rewrite blen_app in Hpos. pose proof (blen_nonneg a). pose proof (blen_nonneg rest).
  unfold view_at, view_wf, vw_advance, vw_rest in *. cbn. rewrite u32_small by lia.
  split_and!; [done|lia|lia|lia|done|].
  rewrite Z2Nat.inj_add, <- drop_drop, Hr by lia. unfold blen. rewrite Nat2Z.id.
  by rewrite drop_app_length.
Qed.

Lemma vw_at_at v rest i b :
  view_at v rest -> 0 <= i -> rest !! Z.to_nat i = Some b -> vw_at v i = b.
Proof.
  intros (Hw & _ & <-) Hi H. unfold vw_rest in H. rewrite lookup_drop in H.
  unfold vw_at. destruct Hw as (_ & _ & Hp). rewrite Z2Nat.inj_add by lia. by rewrite H.
Qed.

(** ** Decoding what was encoded *)

Lemma get_u8_at v b rest :
  view_at v (b :: rest) ->
  exists v', get_u8 v = (byte_to_Z b, v') /\ view_at v' rest.
Proof.
  intros H. exists (vw_advance v 1). unfold get_u8.
  rewrite (need_at _ _ _ H) by (rewrite blen_cons; pose proof (blen_nonneg rest); lia).
  rewrite (vw_at_at _ _ 0 b H) by done. split; [done|].
  by apply (vw_advance_at v [b] rest).
Qed.

Lemma get_u32_at v z rest :
  view_at v (be32_bytes z ++ rest) ->
  exists v', get_u32 v = (u32 z, v') /\ view_at v' rest.
Proof.
  intros H. exists (vw_advance v 4). unfold get_u32.
  rewrite (need_at _ _ _ H) by (rewrite blen_app, blen_be32_bytes; pose proof (blen_nonneg rest); lia).
  split; [|by apply (vw_advance_at v (be32_bytes z) rest)].
  rewrite <- be32_val_bytes. f_equal.
  f_equal; eapply vw_at_at; (done || lia).
Qed.

Lemma get_string_at v d rest :
  view_at v (be32_bytes (blen d) ++ d ++ rest) ->
  exists v', get_string v = (Some d, v') /\ view_at v' rest.
Proof.
  intros H. pose proof (view_at_pos _ _ H) as Hpos.
  rewrite !blen_app, blen_be32_bytes in Hpos.
  pose proof (blen_nonneg d) as Hd. pose proof (blen_nonneg rest) as Hrest.
  assert (vw_n v < 2 ^ 32 /\ 0 <= vw_pos v) as [Hn Hp]
    by (destruct H as ((-> & ? & ?) & _ & _); lia).
  destruct (get_u32_at _ _ _ H) as (v1 & E1 & H1).
  unfold get_string. rewrite E1, u32_small by lia.
  pose proof H1 as (_ & Hbad1 & Hr1). rewrite Hbad1.
  rewrite (need_at _ _ _ H1) by (rewrite blen_app; lia).
  exists (vw_advance v1 (blen d)). split; [|by apply vw_advance_at].
  do 2 f_equal. unfold vw_rest in Hr1. rewrite Hr1. unfold blen. rewrite Nat2Z.id.
  by rewrite take_app_length.
Qed.

(** A get that fails leaves the cursor where it was, except that a truncated
    string has consumed its length word; every decoder keeps the view in range. *)
Lemma need_wf v n : view_wf v -> view_wf (need v n).2.
Proof. intros H. unfold need. by destruct (_ || _). Qed.

Lemma need_ok v n v' :
  view_wf v -> 0 <= n -> need v n = (true, v') ->
  v' = v /\ vw_bad v = false /\ vw_pos v + n <= vw_n v.
Proof.
  intros H Hn. rewrite need_spec by done. destruct (vw_bad v); [done|]. cbn.
  destruct (Z.leb_spec (vw_pos v + n) (vw_n v)); intros [=]; done.
Qed.

Lemma vw_advance_wf v n :
  view_wf v -> 0 <= n -> vw_pos v + n <= vw_n v ->
  view_wf (vw_advance v n) /\ vw_pos (vw_advance v n) = vw_pos v + n.
Proof.
  intros (Hn & Hb & Hp) H0 H1. unfold view_wf, vw_advance. cbn.
  rewrite u32_small by lia. split_and!; lia || done.
Qed.

Lemma get_u32_wf v : view_wf v -> view_wf (get_u32 v).2.
Proof.
  intros H. unfold get_u32. destruct (need v 4) as [[] v'] eqn:E; cbn.
  - apply need_ok in E as (-> & _ & Hp); [|done|lia]. by apply vw_advance_wf.
  - pose proof (need_wf v 4 H) as Hw. by rewrite E in Hw.
Qed.

Lemma get_u8_wf v : view_wf v -> view_wf (get_u8 v).2.
Proof.
  intros H. unfold get_u8. destruct (need v 1) as [[] v'] eqn:E; cbn.
  - apply need_ok in E as (-> & _ & Hp); [|done|lia]. by apply vw_advance_wf.
  - pose proof (need_wf v 1 H) as Hw. by rewrite E in Hw.
Qed.

Lemma get_u32_range v : 0 <= (get_u32 v).1 < 2 ^ 32.
Proof.
  unfold get_u32. destruct (need v 4) as [[] v']; cbn; [apply be32_val_range|lia].
Qed.

Lemma get_string_wf v : view_wf v -> view_wf (get_string v).2.
Proof.
  intros H. unfold get_string.
  pose proof (get_u32_wf v H) as H1. pose proof (get_u32_range v) as Hl.
  destruct (get_u32 v) as [len v1]; cbn in *.
  destruct (vw_bad v1); [done|]. pose proof (need_wf v1 len H1) as H2.
  destruct (need v1 len) as [[] v2] eqn:E; cbn; [|done].
  apply need_ok in E as (-> & _ & Hp); [|done|lia]. apply vw_advance_wf; done || lia.
Qed.

(** A decoded string is a range of the buffer that lies inside it: its length is
    the length word, and the range ends where the cursor now stands. *)
Lemma get_string_range v d v' :
  view_wf v -> get_string v = (Some d, v') ->
  vw_bad v' = false /\ vw_p v' = vw_p v /\ vw_pos v' = vw_pos v + 4 + blen d /\
  vw_rest v = be32_bytes (blen d) ++ d ++ vw_rest v'.
Proof.
  intros Hw. unfold get_string, get_u32.
  destruct (need v 4) as [[] v1] eqn:E1.
  2:{ unfold need in E1. destruct (_ || _) in E1; simplify_eq. cbn. done. }
  apply need_ok in E1 as (-> & Hbad & Hp4); [|done|lia].
  set (len := be32_val _ _ _ _).
  assert (Hlen : 0 <= len < 2 ^ 32) by apply be32_val_range.
  destruct (vw_advance_wf v 4 Hw ltac:(lia) Hp4) as [Hw4 Hpos4].
  cbn [vw_bad vw_advance]. rewrite Hbad.
  destruct (need (vw_advance v 4) len) as [[] v2] eqn:E2; [|done].
  apply need_ok in E2 as (-> & _ & Hp5); [|done|lia]. rewrite Hpos4 in *.
  destruct (vw_advance_wf (vw_advance v 4) len Hw4 ltac:(lia)) as [Hw5 Hpos5];
    [rewrite Hpos4; done|].
  intros [= <- <-]. rewrite Hpos5, Hpos4. cbn [vw_p vw_n vw_advance vw_bad] in *.
  destruct Hw as (Hn & Hb & Hp).
  assert (Hl : blen (take (Z.to_nat len) (drop (Z.to_nat (vw_pos v + 4)) (vw_p v))) = len).
  { unfold blen in *. rewrite length_take, length_drop. lia. }
  split_and!; [done|done|lia|]. rewrite Hl. unfold vw_rest at 2. cbn [vw_p vw_advance].
  fold (vw_advance v 4). fold (vw_advance (vw_advance v 4) len). rewrite Hpos5, Hpos4.
  rewrite (Z2Nat.inj_add (vw_pos v + 4) len), <- drop_drop, take_drop by lia.
  rewrite Z2Nat.inj_add, <- drop_drop by lia. unfold vw_rest.
  set (r := drop (Z.to_nat (vw_pos v)) (vw_p v)).
  assert (4 <= length r)%nat as H4 by (unfold r, blen in *; rewrite length_drop; lia).
  transitivity (take 4 r ++ drop 4 r); [by rewrite take_drop|]. f_equal.
  subst len. unfold vw_at. rewrite !Z2Nat.inj_add by lia.
  rewrite <- !(lookup_drop (vw_p v)). fold r.
  destruct r as [|b0 [|b1 [|b2 [|b3 r']]]]; cbn in H4; try lia. cbn -[be32_bytes be32_val].
  by rewrite be32_bytes_val.
Qed.

(** ** Multi-precision integers *)

(** The unsigned big-endian value of an octet string, and its two's-complement
    reading (RFC 4251 section 5). *)
Definition be_val (l : bytes) : Z := fold_left (fun acc b => acc * 256 + byte_to_Z b) l 0.

Definition be_sval (l : bytes) : Z :=
  if msb_set l then be_val l - 2 ^ (8 * blen l) else be_val l.

(** The shortest two's-complement form: no leading octet that only repeats the sign. *)
Definition mpint_minimal (l : bytes) : bool :=
  match l with
  | x :: y :: _ =>
      negb ((byte_to_Z x =? 0) && negb (msb_set (tail l)) ||
            (byte_to_Z x =? 255) && msb_set (tail l))
  | _ => true
  end.

Lemma be_val_acc l a :
  fold_left (fun acc b => acc * 256 + byte_to_Z b) l a = a * 2 ^ (8 * blen l) + be_val l.
Proof.
  unfold be_val. revert a. induction l as [|b l IH]; intros a; cbn -[Z.mul Z.pow].
  - unfold blen. cbn. lia.
  - rewrite IH, (IH (0 * 256 + byte_to_Z b)), blen_cons.
    replace (8 * (1 + blen l)) with (8 + 8 * blen l) by lia.
    rewrite Z.pow_add_r by (pose proof (blen_nonneg l); lia). lia.
Qed.

Lemma be_val_cons b l : be_val (b :: l) = byte_to_Z b * 2 ^ (8 * blen l) + be_val l.
Proof. unfold be_val at 1. cbn -[Z.mul Z.pow]. by rewrite be_val_acc, Z.mul_0_l. Qed.

Lemma be_val_nonneg l : 0 <= be_val l.
Proof.
  induction l as [|b l IH]; [done|]. rewrite be_val_cons.
  pose proof (byte_to_Z_range b). pose proof (blen_nonneg l).
  assert (0 <= 2 ^ (8 * blen l)) by (apply Z.pow_nonneg; lia). nia.
Qed.

Lemma strip_zeros_step x y l :
  strip_zeros (x :: y :: l) =
  if byte_to_Z x =? 0 then strip_zeros (y :: l) else x :: y :: l.
Proof. done. Qed.

Lemma strip_zeros_val l : be_val (strip_zeros l) = be_val l.
Proof.
  induction l as [|x [|y l] IH]; [done|done|]. rewrite strip_zeros_step.
  destruct (Z.eqb_spec (byte_to_Z x) 0) as [E|E]; [|done].
  rewrite IH, (be_val_cons x), E. lia.
Qed.

Lemma strip_zeros_cons x l : exists y r, strip_zeros (x :: l) = y :: r.
Proof.
  revert x. induction l as [|y l IH]; intros x; [by eexists _, _|]. rewrite strip_zeros_step.
  destruct (byte_to_Z x =? 0); [apply IH|by eexists _, _].
Qed.

Lemma strip_zeros_head l x y r : strip_zeros l = x :: y :: r -> byte_to_Z x <> 0.
Proof.
  induction l as [|a [|b l] IH]; [done|done|]. rewrite strip_zeros_step.
  destruct (Z.eqb_spec (byte_to_Z a) 0) as [E|E]; [apply IH|]. by intros [= -> _ _].
Qed.

Lemma strip_zeros_length l : blen (strip_zeros l) <= blen l.
Proof.
  induction l as [|x [|y l] IH]; [done|done|]. rewrite strip_zeros_step.
  destruct (byte_to_Z x =? 0); [|lia]. rewrite (blen_cons x). lia.
Qed.

(** The octets [put_mpint_positive] writes after the length word. *)
Definition mpint_body (val : bytes) : bytes :=
  if msb_set (strip_zeros val) then x00 :: strip_zeros val else strip_zeros val.

Lemma put_mpint_positive_body s val :
  blen val < 2 ^ 32 - 1 ->
  put_mpint_positive s val = s ++ be32_bytes (blen (mpint_body val)) ++ mpint_body val.
Proof.
  intros Hl. pose proof (strip_zeros_length val). pose proof (blen_nonneg (strip_zeros val)).
  unfold put_mpint_positive, mpint_body.
  destruct (msb_set (strip_zeros val)); cbv zeta.
  - rewrite blen_cons, u32_small by lia.
    rewrite (Z.add_comm 1). unfold put_bytes, put_u8, put_u32. by rewrite <- !app_assoc.
  - rewrite Z.add_0_r, u32_small by lia. unfold put_bytes, put_u32. by rewrite <- !app_assoc.
Qed.

Lemma msb_set_spec x l : msb_set (x :: l) = (128 <=? byte_to_Z x).
Proof. by destruct x. Qed.

(** The encoded integer is the value of the magnitude, non-negative, in the
    shortest form the format allows. *)
Lemma mpint_body_val val : val <> [] -> be_sval (mpint_body val) = be_val val.
Proof.
  intros Hne. destruct val as [|a val]; [done|]. rewrite <- (strip_zeros_val (a :: val)).
  unfold mpint_body, be_sval. destruct (strip_zeros_cons a val) as (y & r & ->).
  destruct (msb_set (y :: r)) eqn:E; [|by rewrite E].
  change (msb_set (x00 :: y :: r)) with false. cbv iota.
  rewrite (be_val_cons x00). change (byte_to_Z x00) with 0. lia.
Qed.

Lemma mpint_body_minimal val : mpint_minimal (mpint_body val) = true.
Proof.
  unfold mpint_body. destruct (strip_zeros val) as [|x [|y r]] eqn:E; [done| |].
  - destruct (msb_set [x]) eqn:Ex; [|done]. cbn [mpint_minimal tail].
    rewrite Ex. done.
  - apply strip_zeros_head in E. destruct (msb_set (x :: y :: r)) eqn:Ex.
    + cbn [mpint_minimal tail]. rewrite Ex. done.
    + rewrite msb_set_spec in Ex. apply Z.leb_gt in Ex.
      cbn [mpint_minimal tail].
      destruct (Z.eqb_spec (byte_to_Z x) 0); [done|].
      destruct (Z.eqb_spec (byte_to_Z x) 255); [lia|]. done.
Qed.

(** [get_string] after [put_string] gives back the octets and leaves exactly the
    rest of the buffer, wherever the string sits in it. *)
Lemma put_string_app s d : blen d < 2 ^ 32 ->
  put_string s d = s ++ be32_bytes (blen d) ++ d.
Proof.
  intros H. unfold put_string, put_bytes, put_u32. rewrite u32_small by (pose proof (blen_nonneg d); lia).
  by rewrite <- app_assoc.
Qed.

Lemma put_u32_app s v : put_u32 s v = s ++ be32_bytes v.
Proof. done. Qed.

Lemma c_str_id s : x00 ∉ s -> c_str s = s.
Proof.
  intros H. unfold c_str, find_char. rewrite drop_0.
  by rewrite (proj2 (find_from_None x00 s 0) H).
Qed.

(** ** Properties *)

(** C12: A wire string that was appended with [put_string] anywhere in a packet is
    read back unchanged, and the cursor is left on what follows. *)
Theorem get_string_put_string (s d rest : bytes) (v : View) :
  blen d < 2 ^ 32 ->
  view_at v (put_string [] d ++ rest) ->
  exists v', get_string v = (Some d, v') /\ view_at v' rest.
Proof.
  intros Hd H. rewrite put_string_app in H by done. cbn [app] in H.
  rewrite <- app_assoc in H. by apply get_string_at.
Qed.

(** Whatever 32-bit length a peer puts in a packet, a decoded string is a range
    inside the buffer: no wrap-around of the 32-bit cursor lets it escape. *)
Theorem get_string_in_bounds (data d : bytes) (v v' : View) :
  view_wf v -> get_string v = (Some d, v') ->
  view_wf v' /\ vw_pos v' = vw_pos v + 4 + blen d /\ vw_pos v' <= vw_n v /\
  vw_rest v = be32_bytes (blen d) ++ d ++ vw_rest v'.
Proof.
  intros Hw E. pose proof (get_string_wf v Hw) as Hw'. rewrite E in Hw'. cbn in Hw'.
  apply get_string_range in E as (_ & Hp & Hpos & Hr); [|done].
  split_and!; [done|done| |done]. destruct Hw as (Hn & _ & _). destruct Hw' as (Hn' & _ & Hp').
  rewrite Hp in Hn'. lia.
Qed.

(** [put_mpint_positive] writes the two's-complement form of the unsigned value,
    in the shortest form, and it reads back as that non-negative value. *)
Theorem put_mpint_positive_correct (s val rest : bytes) (v : View) :
  val <> [] -> blen val < 2 ^ 32 - 1 ->
  view_at v (put_mpint_positive [] val ++ rest) ->
  exists body v', get_string v = (Some body, v') /\ view_at v' rest /\
    be_sval body = be_val val /\ 0 <= be_sval body /\ mpint_minimal body = true.
Proof.
  intros Hne Hl H. rewrite put_mpint_positive_body in H by done. cbn [app] in H.
  rewrite <- app_assoc in H. destruct (get_string_at _ _ _ H) as (v' & E & H').
  exists (mpint_body val), v'. rewrite mpint_body_val by done.
  split_and!; [done|done|done|apply be_val_nonneg|apply mpint_body_minimal].
Qed.

(** ** Witnesses *)

Lemma get_string_put_string_witness :
  let v := view_init (put_string [] (str "none") ++ [x01]) in
  exists v', get_string v = (Some (str "none"), v') /\ view_at v' [x01].
Proof.
  apply (get_string_put_string [] (str "none") [x01]); [by vm_compute|].
  apply view_init_at. by vm_compute.
Defined.

(** A length field of 2^32 - 1 does not escape: the string behind it is not read. *)
Lemma get_string_in_bounds_witness :
  let v := view_init (be32_bytes 3 ++ str "abc" ++ be32_bytes (2 ^ 32 - 1)) in
  exists v', get_string v = (Some (str "abc"), v') /\ (get_string v').1 = None /\
    view_wf v' /\ vw_pos v' = vw_pos v + 4 + 3 /\ vw_pos v' <= vw_n v /\
    vw_rest v = be32_bytes 3 ++ str "abc" ++ vw_rest v'.
Proof.
  eexists. split; [by vm_compute|]. split; [by vm_compute|].
  apply (get_string_in_bounds (be32_bytes 3 ++ str "abc" ++ be32_bytes (2 ^ 32 - 1)) (str "abc"));
    [|by vm_compute].
  by vm_compute.
Defined.

Lemma put_mpint_positive_correct_witness :
  let val := [x00; x80; x01] in
  exists body v', get_string (view_init (put_mpint_positive [] val)) = (Some body, v') /\
    view_at v' [] /\ be_sval body = be_val val /\ 0 <= be_sval body /\ mpint_minimal body = true.
Proof.
  apply (put_mpint_positive_correct [] [x00; x80; x01] []); [done|by vm_compute|].
  rewrite app_nil_r. apply view_init_at. by vm_compute.
Defined.
