(* ===== verification/Platform.v ===== *)
(** * Platform: the services the straddle runs on

    None of this code is in the repository: ITS (inter-task streams), storage,
    the password realm, the random generator, the tick counter and the log
    belong to spangap-core and FreeRTOS.  They are parameters.  Every call is
    recorded in a history, and the answer of a call is an arbitrary function of
    the history before it, so a theorem for all [Platform]s covers every
    behaviour these services can show, including other tasks changing the
    storage between two reads. *)
From S2P Require Import Prelude.

(** ** What [itsConnect] can be asked for *)

Inductive cli_mode := CLI_ANSI | CLI_LINE.

Inductive its_target :=
  | CliPort (mode : cli_mode) (color noPrompt : bool)    (* cli:CLI_PORT_TCP, cli_connect_t *)
  | LogPort (ansi : bool)                                (* log:LOG_PORT_TCP, log_connect_t *)
  | NetDial (hostport : bytes).                          (* net:NET_PORT_TCP_DIAL *)

(** [net_port_msg_t], the registration of a listening endpoint with the net task. *)
Record net_port_msg := NetPortMsg {
  itsPort : Z; tcpNoDelay : Z; keepAlive : Z; backlog : Z; defaultPort : Z; nvsKey : bytes
}.

Inductive log_level := LogErr | LogWarn | LogInfo | LogDbg.

Inductive event :=
  | EvRandom (out : bytes)                               (* randomBytes *)
  | EvSend (h : Z) (data : bytes) (ms : Z) (n : Z)       (* itsSend returned n *)
  | EvRecv (h max ms : Z) (got : bytes)                  (* itsRecv *)
  | EvConnect (t : its_target) (ms ref : Z) (h : Z)      (* itsConnect returned h *)
  | EvDisconnect (h : Z)                                 (* itsDisconnect *)
  | EvDrain (h ms : Z)                                   (* itsSendDrain *)
  | EvDelay (ms : Z)                                     (* vTaskDelay *)
  | EvConnected (h : Z) (b : bool)                       (* itsConnected *)
  | EvTicks (now : Z)                                    (* xTaskGetTickCount *)
  | EvLog (l : log_level) (msg : bytes)                  (* err, warn, info, dbg *)
  | EvAuthLogin (pw realm : bytes) (ok : bool)           (* authLogin(..) == AUTH_OK *)
  | EvGetStr (key v : bytes)                             (* storageGetStr *)
  | EvGetInt (key : bytes) (v : Z)                       (* storageGetInt *)
  | EvCount (key : bytes) (n : Z)                        (* storageArrayCount *)
  | EvSetStr (key v : bytes)                             (* storageSet(key, text) *)
  | EvSetInt (key : bytes) (v : Z)                       (* storageSet(key, int) *)
  | EvUnset (key : bytes)                                (* storageUnset *)
  | EvDeleteTree (key : bytes)                           (* storageDeleteTree *)
  | EvBegin | EvEnd                                      (* storageBegin, storageEnd *)
  | EvStreamSend (data : bytes) (n : Z)                  (* xStreamBufferSend *)
  | EvStreamRecv (max : Z) (got : bytes)                 (* xStreamBufferReceive *)
  | EvTermSize (cols rows : Z)                           (* cliTermSize *)
  | EvRef (h r : Z)                                      (* itsRef *)
  | EvSendAux (to : bytes) (reg : net_port_msg) (ok : bool) (* itsSendAux *)
  | EvPrint (line : bytes)                               (* cliPrintf *)
  | EvDefault (key v : bytes)                            (* storageDefault, storageDefaultTree *)
  | EvSubscribe (key : bytes)                            (* storageSubscribeChanges *)
  | EvRegister (what : bytes)                            (* cliRegisterCmd, spawnTask, ITS setup *)
  (* between the ssh command and its worker *)
  | EvUserClose (b : bool)                               (* the worker reads job.userClose *)
  | EvSetUserClose                                       (* job.userClose = true *)
  | EvJobDone (b : bool)                                 (* the command reads job.done *)
  | EvSetDone                                            (* j->done = true *)
  | EvJobResult (rc : Z) (msg : bytes) (exit : option Z) (* what the worker left in the job *)
  | EvStreamNew (size : Z) (ok : bool)                   (* xStreamBufferCreate *)
  | EvStreamDelete                                       (* vStreamBufferDelete *)
  | EvSemTake (sem : bytes) (ok : bool)                  (* xSemaphoreTake *)
  | EvSemGive (sem : bytes)                              (* xSemaphoreGive *)
  | EvSpawn (name : bytes) (ok : bool)                   (* spawnTask(..) != nullptr *)
  | EvWrite (data : bytes)                               (* cliWrite *)
  | EvReadRaw (max ms : Z) (got : option bytes)          (* cliReadRaw, None if < 0 *)
  | EvReadLine (max : Z) (got : option bytes)            (* cliReadLine, None if < 0 *)
  | EvIndeterminate (text : bytes).                      (* a buffer nobody has written to *)

(** The newest event is first. *)
Abbreviation history := (list event).

Class Platform := {
  p_random : history -> nat -> bytes;
  p_send : history -> Z -> bytes -> Z -> Z;
  p_recv : history -> Z -> Z -> Z -> bytes;
  p_connect : history -> its_target -> Z -> Z -> Z;
  p_connected : history -> Z -> bool;
  p_ref : history -> Z -> Z;
  p_send_aux : history -> bytes -> net_port_msg -> bool;
  p_ticks : history -> Z;
  p_auth_login : history -> bytes -> bytes -> bool;
  p_get_str : history -> bytes -> bytes -> bytes;
  p_get_int : history -> bytes -> Z -> Z;
  p_array_count : history -> bytes -> Z;
  p_stream_send : history -> bytes -> Z;
  p_stream_recv : history -> Z -> bytes;
  p_term_size : history -> Z * Z;
  p_user_close : history -> bool;
  p_job_done : history -> bool;
  p_job_result : history -> Z * bytes * option Z;
  p_stream_new : history -> Z -> bool;
  p_sem_take : history -> bytes -> bool;
  p_spawn : history -> bytes -> bool;
  p_read_raw : history -> Z -> Z -> option bytes;
  p_read_line : history -> Z -> option bytes;
  p_indeterminate : history -> bytes;
  pdMS_TO_TICKS : Z -> Z;
  portTICK_PERIOD_MS : Z;
  (* safeStrncpy(dst, src, n) of compat.h: what dst then is as a C string *)
  safeStrncpy : bytes -> Z -> bytes
}.

(** The documented contract of the calls: a request is never over-answered. *)
Class PlatformLaws `{Platform} := {
  p_random_length h n : length (p_random h n) = n;
  p_send_bound h hd d t : 0 <= p_send h hd d t <= blen d;
  p_recv_bound h hd m t : 0 <= m -> blen (p_recv h hd m t) <= m;
  p_stream_send_bound h d : 0 <= p_stream_send h d <= blen d;
  p_stream_recv_bound h m : 0 <= m -> blen (p_stream_recv h m) <= m;
  p_read_raw_bound h m t got : p_read_raw h m t = Some got -> blen got <= m;
  p_read_line_bound h m got : p_read_line h m = Some got -> blen got < m;
  safeStrncpy_spec s n : 0 < n -> safeStrncpy s n = take (Z.to_nat (n - 1)) (c_str s)
}.

(** ** Programs over a local state and the history *)

Record world (L : Type) := World { w_loc : L; w_hist : history }.
Arguments World {L}. Arguments w_loc {L}. Arguments w_hist {L}.

(** The state of the running component. *)
Definition getl {L} : M (world L) L := gets w_loc.
Definition updl {L} (f : L -> L) : M (world L) unit :=
  modify (fun w => {| w with w_loc := f (w_loc w) |}).

(** Call a service: ask for the answer, record the call. *)
Definition call {L R} (answer : history -> R) (ev : R -> event) : M (world L) R :=
  fun w => let r := answer (w_hist w) in (r, World (w_loc w) (ev r :: w_hist w)).

Definition notify {L} (ev : event) : M (world L) unit := call (fun _ => tt) (fun _ => ev).

Section calls.
Context `{Platform} {L : Type}.

Definition randomBytes (n : nat) : M (world L) bytes :=
  call (fun h => p_random h n) EvRandom.
Definition itsSend (hd : Z) (d : bytes) (ms : Z) : M (world L) Z :=
  call (fun h => p_send h hd d ms) (EvSend hd d ms).
Definition itsRecv (hd max ms : Z) : M (world L) bytes :=
  call (fun h => p_recv h hd max ms) (EvRecv hd max ms).
Definition itsConnect (t : its_target) (ms ref : Z) : M (world L) Z :=
  call (fun h => p_connect h t ms ref) (EvConnect t ms ref).
Definition itsDisconnect (hd : Z) : M (world L) unit := notify (EvDisconnect hd).
Definition itsSendDrain (hd ms : Z) : M (world L) unit := notify (EvDrain hd ms).
Definition vTaskDelay (ms : Z) : M (world L) unit := notify (EvDelay ms).
Definition itsConnected (hd : Z) : M (world L) bool :=
  call (fun h => p_connected h hd) (EvConnected hd).
Definition itsRef (hd : Z) : M (world L) Z := call (fun h => p_ref h hd) (EvRef hd).
Definition itsSendAux (to : bytes) (reg : net_port_msg) : M (world L) bool :=
  call (fun h => p_send_aux h to reg) (EvSendAux to reg).
Definition cliPrintf (line : bytes) : M (world L) unit := notify (EvPrint line).
Definition storageDefault (key v : bytes) : M (world L) unit := notify (EvDefault key v).
Definition storageSubscribe (key : bytes) : M (world L) unit := notify (EvSubscribe key).
Definition registerService (what : bytes) : M (world L) unit := notify (EvRegister what).
Definition xTaskGetTickCount : M (world L) Z := call p_ticks EvTicks.
Definition log (l : log_level) (msg : bytes) : M (world L) unit := notify (EvLog l msg).
Definition authLogin (pw realm : bytes) : M (world L) bool :=
  call (fun h => p_auth_login h pw realm) (EvAuthLogin pw realm).
Definition storageGetStr (key dflt : bytes) : M (world L) bytes :=
  call (fun h => p_get_str h key dflt) (EvGetStr key).
Definition storageGetInt (key : bytes) (dflt : Z) : M (world L) Z :=
  call (fun h => p_get_int h key dflt) (EvGetInt key).
Definition storageArrayCount (key : bytes) : M (world L) Z :=
  call (fun h => p_array_count h key) (EvCount key).
Definition storageSet (key v : bytes) : M (world L) unit := notify (EvSetStr key v).
Definition storageSetInt (key : bytes) (v : Z) : M (world L) unit := notify (EvSetInt key v).
Definition storageUnset (key : bytes) : M (world L) unit := notify (EvUnset key).
Definition storageDeleteTree (key : bytes) : M (world L) unit := notify (EvDeleteTree key).
Definition storageBegin : M (world L) unit := notify EvBegin.
Definition storageEnd : M (world L) unit := notify EvEnd.
Definition xStreamBufferSend (d : bytes) : M (world L) Z :=
  call (fun h => p_stream_send h d) (EvStreamSend d).
Definition xStreamBufferReceive (max : Z) : M (world L) bytes :=
  call (fun h => p_stream_recv h max) (EvStreamRecv max).
Definition cliTermSize : M (world L) (Z * Z) :=
  call p_term_size (fun r => EvTermSize r.1 r.2).
Definition readUserClose : M (world L) bool := call p_user_close EvUserClose.
Definition setUserClose : M (world L) unit := notify EvSetUserClose.
Definition readJobDone : M (world L) bool := call p_job_done EvJobDone.
Definition setJobDone : M (world L) unit := notify EvSetDone.
Definition readJobResult : M (world L) (Z * bytes * option Z) :=
  call p_job_result (fun r => EvJobResult r.1.1 r.1.2 r.2).
Definition xStreamBufferCreate (size : Z) : M (world L) bool :=
  call (fun h => p_stream_new h size) (EvStreamNew size).
Definition vStreamBufferDelete : M (world L) unit := notify EvStreamDelete.
Definition xSemaphoreTake (sem : bytes) : M (world L) bool :=
  call (fun h => p_sem_take h sem) (EvSemTake sem).
Definition xSemaphoreGive (sem : bytes) : M (world L) unit := notify (EvSemGive sem).
Definition spawnTask (name : bytes) : M (world L) bool :=
  call (fun h => p_spawn h name) (EvSpawn name).
Definition cliWrite (data : bytes) : M (world L) unit := notify (EvWrite data).
Definition cliReadRaw (max ms : Z) : M (world L) (option bytes) :=
  call (fun h => p_read_raw h max ms) (EvReadRaw max ms).
Definition cliReadLine (max : Z) : M (world L) (option bytes) :=
  call (fun h => p_read_line h max) (EvReadLine max).
Definition indeterminate : M (world L) bytes := call p_indeterminate EvIndeterminate.
End calls.

(** ** What calls keep

    A relation between worlds that only looks at the local state is kept by every
    service call; [hist_grows] is kept by everything. *)
Definition hist_grows {L} (w w' : world L) : Prop :=
  exists evs, w_hist w' = evs ++ w_hist w.

#[export] Instance hist_grows_preorder {L} : PreOrder (@hist_grows L).
Proof.
  split.
  - intros w. by exists [].
  - intros w1 w2 w3 [e1 E1] [e2 E2]. exists (e2 ++ e1). by rewrite E2, E1, app_assoc.
Qed.

(** The local states before and after are related. *)
Definition on_loc {L} (R : L -> L -> Prop) (w w' : world L) : Prop := R (w_loc w) (w_loc w').

#[export] Instance on_loc_preorder {L} (R : L -> L -> Prop) `{!PreOrder R} : PreOrder (on_loc R).
Proof.
  split.
  - intros w. unfold on_loc. reflexivity.
  - intros w1 w2 w3. unfold on_loc. apply transitivity.
Qed.

Lemma call_hist_grows {L R} (answer : history -> R) ev : keeps hist_grows (call (L:=L) answer ev).
Proof. intros w. by exists [ev (answer (w_hist w))]. Qed.

Lemma updl_hist_grows {L} (f : L -> L) : keeps hist_grows (updl f).
Proof. intros w. by exists []. Qed.

Lemma call_on_loc {L R} (Q : L -> L -> Prop) `{!PreOrder Q} (answer : history -> R) ev :
  keeps (on_loc Q) (call answer ev).
Proof. intros w. unfold on_loc. cbn. reflexivity. Qed.

Lemma updl_on_loc {L} (Q : L -> L -> Prop) (f : L -> L) :
  (forall l, Q l (f l)) -> keeps (on_loc Q) (updl f).
Proof. intros Hf w. apply Hf. Qed.

Lemma getl_keeps {L} (R : world L -> world L -> Prop) `{!PreOrder R} : keeps R getl.
Proof. intros w. cbn. reflexivity. Qed.

#[export] Hint Resolve call_hist_grows updl_hist_grows call_on_loc getl_keeps : keeps.

(** ** Running a program one call at a time *)

Lemma run_bind {S A B} (m : M S A) (f : A -> M S B) s a s' :
  m s = (a, s') -> (m ≫= f) s = f a s'.
Proof. intros E. unfold mbind, M_bind. by rewrite E. Qed.
Lemma run_ret {S A B} (a : A) (f : A -> M S B) s : (mret a ≫= f) s = f a s.
Proof. done. Qed.
Lemma run_assoc {S A B C} (m : M S A) (f : A -> M S B) (g : B -> M S C) s :
  ((m ≫= f) ≫= g) s = (m ≫= (fun a => f a ≫= g)) s.
Proof. done. Qed.
Lemma run_notify {L B} ev (f : unit -> M (world L) B) w :
  (notify ev ≫= f) w = f tt (World (w_loc w) (ev :: w_hist w)).
Proof. done. Qed.
Lemma run_call {L R B} (answer : history -> R) ev (f : R -> M (world L) B) w :
  (call answer ev ≫= f) w = f (answer (w_hist w)) (World (w_loc w) (ev (answer (w_hist w)) :: w_hist w)).
Proof. done. Qed.
Lemma run_when_true {S B} b m (f : unit -> M S B) s : b = true -> (when b m ≫= f) s = (m ≫= f) s.
Proof. by intros ->. Qed.
Lemma run_when_false {S B} b m (f : unit -> M S B) s : b = false -> (when b m ≫= f) s = f tt s.
Proof. by intros ->. Qed.
