(* ===== verification/Crypto.v ===== *)
(** * Crypto: the wrappers of [sshd_crypto.cpp]

    mbedTLS is not part of the repository: its primitives are the parameters
    [Mbedtls], their documented behaviour is [MbedtlsLaws].  Ed25519 and ML-KEM
    are vendored; the wrappers use them through the interfaces [Ed25519] and
    [MlKem] (OrlpInstance has the vendored instance of the first).  The wrappers
    themselves are translated. *)
From S2P Require Import Prelude Wire Platform.

(** ** mbedTLS *)

(** A primitive that returns a status is a function to the status (0 is success)
    and the contents of its output buffer, or to [None] where the code never
    looks at the output of a failed call. *)
Class Mbedtls := {
  mbedtls_sha256_context : Type;
  mbedtls_sha256_starts : mbedtls_sha256_context;
  mbedtls_sha256_update : mbedtls_sha256_context -> bytes -> mbedtls_sha256_context;
  mbedtls_sha256_finish : mbedtls_sha256_context -> bytes;
  mbedtls_sha256 : bytes -> bytes;
  (* setkey; starts(nonce, counter); update(input) *)
  mbedtls_chacha20 : bytes -> bytes -> Z -> bytes -> Z * bytes;
  (* starts(key); update of each chunk; finish *)
  mbedtls_poly1305 : bytes -> list bytes -> Z * bytes;
  (* encode/decode with the size of the destination *)
  mbedtls_base64_encode : bytes -> Z -> option bytes;
  mbedtls_base64_decode : bytes -> Z -> option bytes;
  mbedtls_ecp_group : Type;
  mbedtls_mpi : Type;
  mbedtls_ecp_point : Type;
  mbedtls_ecp_group_load_curve25519 : option mbedtls_ecp_group;
  mbedtls_mpi_read_binary : bytes -> option mbedtls_mpi;
  mbedtls_mpi_write_binary : mbedtls_mpi -> Z -> option bytes;
  mbedtls_mpi_lset : Z -> option mbedtls_mpi;
  mbedtls_ecp_point_init : mbedtls_ecp_point;
  mbedtls_ecp_set_X : mbedtls_ecp_point -> mbedtls_mpi -> mbedtls_ecp_point;
  mbedtls_ecp_set_Z : mbedtls_ecp_point -> mbedtls_mpi -> mbedtls_ecp_point;
  mbedtls_ecp_X : mbedtls_ecp_point -> mbedtls_mpi;
  mbedtls_ecp_copy_G : mbedtls_ecp_group -> option mbedtls_ecp_point;
  mbedtls_ecp_mul :
    mbedtls_ecp_group -> mbedtls_mpi -> mbedtls_ecp_point -> option mbedtls_ecp_point
}.

(** Documented behaviour: streaming SHA-256 hashes the concatenation, ChaCha20 is
    an involutive stream cipher, Poly1305 tags have 16 octets. *)
Class MbedtlsLaws `{Mbedtls} := {
  sha256_length d : length (mbedtls_sha256 d) = 32%nat;
  sha256_streaming chunks :
    mbedtls_sha256_finish (fold_left mbedtls_sha256_update chunks mbedtls_sha256_starts) =
    mbedtls_sha256 (concat chunks);
  chacha20_ok k n c x : (mbedtls_chacha20 k n c x).1 = 0;
  chacha20_length k n c x : length (mbedtls_chacha20 k n c x).2 = length x;
  chacha20_involutive k n c x :
    (mbedtls_chacha20 k n c (mbedtls_chacha20 k n c x).2).2 = x;
  poly1305_ok k m : (mbedtls_poly1305 k m).1 = 0;
  poly1305_length k m : length (mbedtls_poly1305 k m).2 = 16%nat
}.

(** ** Vendored primitives, by interface *)

Class Ed25519 := {
  orlp_ed25519_create_keypair : bytes -> bytes * bytes;         (* seed -> (pub, priv64) *)
  orlp_ed25519_sign : bytes -> bytes -> bytes -> bytes;         (* message pub priv64 *)
  orlp_ed25519_verify : bytes -> bytes -> bytes -> Z            (* signature message pub *)
}.

(** What signature users rely on. *)
Class Ed25519Laws `{Ed25519} := {
  ed25519_pub_length seed : length (orlp_ed25519_create_keypair seed).1 = 32%nat;
  ed25519_sig_length m p k : length (orlp_ed25519_sign m p k) = 64%nat;
  ed25519_verify_sign seed m :
    let '(pub, priv) := orlp_ed25519_create_keypair seed in
    orlp_ed25519_verify (orlp_ed25519_sign m pub priv) m pub = 1
}.

Class MlKem := {
  mlk_kem_enc_derand : bytes -> bytes -> option (bytes * bytes)  (* pk coins -> (ct, ss) *)
}.

Definition MLKEM768_PK_BYTES : Z := 1184.
Definition MLKEM768_CT_BYTES : Z := 1088.
Definition MLKEM768_SS_BYTES : Z := 32.

Class MlKemLaws `{MlKem} := {
  mlkem_enc_lengths pk coins ct ss :
    mlk_kem_enc_derand pk coins = Some (ct, ss) ->
    blen ct = MLKEM768_CT_BYTES /\ blen ss = MLKEM768_SS_BYTES
}.

(** ** Constant-time compare *)

(** [for (i = 0; i < 16; i++) d |= a[i] ^ b[i];] *)
Definition ct_memcmp16 (a b : bytes) : Z :=
  fold_left (fun d i =>
      Z.lor d (u8 (Z.lxor (byte_to_Z (default x00 (a !! i))) (byte_to_Z (default x00 (b !! i))))))
    (seq 0 16) 0.

Lemma lor_zero_iff a b : Z.lor a b = 0 <-> a = 0 /\ b = 0.
Proof. apply Z.lor_eq_0_iff. Qed.

Lemma byte_xor_zero x y : u8 (Z.lxor (byte_to_Z x) (byte_to_Z y)) = 0 <-> x = y.
Proof.
  pose proof (byte_to_Z_range x) as Hx. pose proof (byte_to_Z_range y) as Hy.
  pose proof (lxor_byte_range (byte_to_Z x) (byte_to_Z y) ltac:(lia) ltac:(lia)) as Hr.
  unfold u8. rewrite Z.mod_small by lia. rewrite Z.lxor_eq_0_iff.
  split; [apply byte_to_Z_inj|by intros ->].
Qed.

Lemma ct_memcmp_fold (a b : bytes) (idx : list nat) d :
  fold_left (fun d i =>
      Z.lor d (u8 (Z.lxor (byte_to_Z (default x00 (a !! i))) (byte_to_Z (default x00 (b !! i))))))
    idx d = 0 <->
  d = 0 /\ Forall (fun i => default x00 (a !! i) = default x00 (b !! i)) idx.
Proof.
  revert d. induction idx as [|i idx IH]; intros d; cbn.
  - split; [done|by intros [? _]].
  - rewrite IH. rewrite lor_zero_iff. rewrite byte_xor_zero. rewrite list.Forall_cons. tauto.
Qed.

(** The accumulated difference is zero exactly for equal tags. *)
Lemma ct_memcmp16_zero a b :
  length a = 16%nat -> length b = 16%nat -> ct_memcmp16 a b = 0 <-> a = b.
Proof.
  intros Ha Hb. unfold ct_memcmp16. rewrite ct_memcmp_fold. split; [|intros ->; split; [done|]].
  - intros [_ HF]. apply list_eq. intros i. rewrite list.Forall_forall in HF.
    destruct (decide (i < 16)%nat) as [Hi|Hi].
    + specialize (HF i ltac:(apply elem_of_seq; lia)).
      destruct (lookup_lt_is_Some_2 a i) as [x Ex]; [lia|].
      destruct (lookup_lt_is_Some_2 b i) as [y Ey]; [lia|].
      rewrite Ex, Ey in *. cbn in HF. by f_equal.
    + rewrite !lookup_ge_None_2 by lia. done.
  - by apply Forall_true.
Qed.

Section crypto.
Context `{MB : Mbedtls}.

(** ** SHA-256 *)

Definition sha256 (data : bytes) : bytes := mbedtls_sha256 data.

Definition Sha256 : Type := mbedtls_sha256_context.
Definition Sha256_new : Sha256 := mbedtls_sha256_starts.
Definition Sha256_update (h : Sha256) (data : bytes) : Sha256 := mbedtls_sha256_update h data.
Definition Sha256_finish (h : Sha256) : bytes := mbedtls_sha256_finish h.

(** [h] has absorbed [d]. *)
Definition absorbed (h : Sha256) (d : bytes) : Prop :=
  exists chunks, h = fold_left mbedtls_sha256_update chunks mbedtls_sha256_starts /\
                 concat chunks = d.

Lemma absorbed_new : absorbed Sha256_new [].
Proof. by exists []. Qed.

Lemma absorbed_update h d x : absorbed h d -> absorbed (Sha256_update h x) (d ++ x).
Proof.
  intros (chunks & -> & <-). exists (chunks ++ [x]).
  rewrite fold_left_app, concat_app. cbn. by rewrite app_nil_r.
Qed.

Lemma absorbed_finish `{!MbedtlsLaws} h d : absorbed h d -> Sha256_finish h = sha256 d.
Proof. intros (chunks & -> & <-). apply sha256_streaming. Qed.

(** ** X25519 *)

(** [for (i = 0; i < 32; i++) dst[i] = src[31 - i];] *)
Definition reverse32 (src : bytes) : bytes :=
  (fun i => default x00 (src !! (31 - i)%nat)) <$> seq 0 32.

Definition upd_byte (l : bytes) (i : nat) (f : Z -> Z) : bytes :=
  alter (fun b => byte_of_Z (f (byte_to_Z b))) i l.

Definition x25519_compute (scalar : bytes) (point : option bytes) : option bytes :=
  let? grp := mbedtls_ecp_group_load_curve25519 in
  let scalar_le := take 32 scalar in
  let scalar_le := upd_byte scalar_le 0 (fun x => Z.land x 248) in
  let scalar_le := upd_byte scalar_le 31 (fun x => Z.land x 127) in
  let scalar_le := upd_byte scalar_le 31 (fun x => Z.lor x 64) in
  let scalar_be := reverse32 scalar_le in
  let? s := mbedtls_mpi_read_binary scalar_be in
  let? P :=
    match point with
    | None => mbedtls_ecp_copy_G grp
    | Some point =>
        let u_le := upd_byte (take 32 point) 31 (fun x => Z.land x 0x7F) in
        let u_be := reverse32 u_le in
        let? X := mbedtls_mpi_read_binary u_be in
        let? one := mbedtls_mpi_lset 1 in
        Some (mbedtls_ecp_set_Z (mbedtls_ecp_set_X mbedtls_ecp_point_init X) one)
    end in
  let? R := mbedtls_ecp_mul grp s P in
  let? r_be := mbedtls_mpi_write_binary (mbedtls_ecp_X R) 32 in
  Some (reverse32 r_be).

Definition x25519_base (scalar : bytes) : option bytes := x25519_compute scalar None.
Definition x25519_scalar (scalar point : bytes) : option bytes :=
  x25519_compute scalar (Some point).

Lemma reverse32_length l : length (reverse32 l) = 32%nat.
Proof. done. Qed.

Lemma x25519_compute_length s p out : x25519_compute s p = Some out -> length out = 32%nat.
Proof.
  unfold x25519_compute. intros H.
  repeat (case_match; try done). all: by injection H as <-.
Qed.

(** ** ChaCha20-Poly1305, the OpenSSH variant *)

(** [memset(nonce, 0, 4); nonce[4 + i] = (uint8_t)(seq >> (56 - i * 8));] *)
Definition seq_to_nonce (seqno : Z) : bytes :=
  replicate 4 x00 ++
  ((fun i : nat => byte_of_Z (Z.shiftr seqno (56 - Z.of_nat i * 8))) <$> seq 0 8).

(** The status of the cipher is not looked at here. *)
Definition cc20p1305_length (k1 : bytes) (seqno : Z) (in4 : bytes) : bytes :=
  let nonce := seq_to_nonce seqno in
  (mbedtls_chacha20 k1 nonce 0 in4).2.

Definition poly1305_tag (k2 nonce aad ct : bytes) : bool * bytes :=
  let pkey := (mbedtls_chacha20 k2 nonce 0 (replicate 32 x00)).2 in
  let '(r, tag) := mbedtls_poly1305 pkey [aad; ct] in
  (r =? 0, tag).

(** The result is the status, the output buffer and the tag buffer; [tag0] is
    what the tag buffer holds before the call. *)
Definition cc20p1305_seal (k2 : bytes) (seqno : Z) (aad inp tag0 : bytes) :
    bool * bytes * bytes :=
  let nonce := seq_to_nonce seqno in
  let '(r, out) := mbedtls_chacha20 k2 nonce 1 inp in
  if negb (r =? 0) then (false, out, tag0)
  else let '(ok, tag) := poly1305_tag k2 nonce aad out in (ok, out, tag).

Definition cc20p1305_open (k2 : bytes) (seqno : Z) (aad inp tag : bytes) : option bytes :=
  let nonce := seq_to_nonce seqno in
  let '(ok, want) := poly1305_tag k2 nonce aad inp in
  if negb ok then None else
  if negb (ct_memcmp16 want tag =? 0) then None else
  let '(r, out) := mbedtls_chacha20 k2 nonce 1 inp in
  if r =? 0 then Some out else None.

(** ** Base64 without padding *)

Fixpoint drop_trailing_eq (l : bytes) : bytes :=
  match l with
  | [] => []
  | b :: l' =>
      match drop_trailing_eq l' with
      | [] => if bool_decide (b = x3d) then [] else [b]
      | r => b :: r
      end
  end.

(** The characters written; [[]] stands for the error result 0. *)
Definition base64_nopad (inp : bytes) (outLen : Z) : bytes :=
  match mbedtls_base64_encode inp outLen with
  | None => []
  | Some out => drop_trailing_eq out
  end.

(** ** Properties of the cipher *)
Section laws.
Context `{!MbedtlsLaws}.

Lemma poly1305_tag_length k2 nonce aad ct ok tag :
  poly1305_tag k2 nonce aad ct = (ok, tag) -> ok = true /\ length tag = 16%nat.
Proof.
  unfold poly1305_tag. set (pkey := (mbedtls_chacha20 _ _ 0 _).2).
  pose proof (poly1305_ok pkey [aad; ct]) as Hp.
  pose proof (poly1305_length pkey [aad; ct]) as Hpl.
  destruct (mbedtls_poly1305 pkey [aad; ct]) as [r t]. cbn in *. subst r. by intros [= <- <-].
Qed.

Lemma seal_eq k2 seqno aad inp tag0 :
  exists out tag,
    cc20p1305_seal k2 seqno aad inp tag0 = (true, out, tag) /\
    out = (mbedtls_chacha20 k2 (seq_to_nonce seqno) 1 inp).2 /\
    poly1305_tag k2 (seq_to_nonce seqno) aad out = (true, tag) /\
    length out = length inp /\ length tag = 16%nat.
Proof.
  unfold cc20p1305_seal.
  pose proof (chacha20_ok k2 (seq_to_nonce seqno) 1 inp) as Hr.
  pose proof (chacha20_length k2 (seq_to_nonce seqno) 1 inp) as Hl.
  destruct (mbedtls_chacha20 k2 (seq_to_nonce seqno) 1 inp) as [r out]. cbn in Hr, Hl. subst r.
  cbn [negb Z.eqb snd].
  destruct (poly1305_tag k2 (seq_to_nonce seqno) aad out) as [ok tag] eqn:E.
  apply poly1305_tag_length in E as Ht. destruct Ht as [-> Ht]. by exists out, tag.
Qed.

(** Opening releases a plaintext exactly when the tag is the one computed over
    the encrypted length and the ciphertext. *)
Lemma open_spec k2 seqno aad ct tag out :
  length tag = 16%nat ->
  cc20p1305_open k2 seqno aad ct tag = Some out <->
  poly1305_tag k2 (seq_to_nonce seqno) aad ct = (true, tag) /\
  out = (mbedtls_chacha20 k2 (seq_to_nonce seqno) 1 ct).2.
Proof.
  intros Ht. unfold cc20p1305_open.
  destruct (poly1305_tag k2 (seq_to_nonce seqno) aad ct) as [ok want] eqn:E.
  apply poly1305_tag_length in E as [-> Hw]. cbn [negb].
  pose proof (ct_memcmp16_zero want tag Hw Ht) as Hc.
  destruct (Z.eqb_spec (ct_memcmp16 want tag) 0) as [Hz|Hz]; cbn [negb].
  - apply Hc in Hz as ->.
    pose proof (chacha20_ok k2 (seq_to_nonce seqno) 1 ct) as Hr.
    destruct (mbedtls_chacha20 k2 (seq_to_nonce seqno) 1 ct) as [r o]. cbn in Hr. subst r.
    cbn. split; [by intros [= ->]|by intros [_ ->]].
  - split; [done|]. intros [[= ->] _]. tauto.
Qed.

Lemma length_involutive k1 seqno x :
  cc20p1305_length k1 seqno (cc20p1305_length k1 seqno x) = x.
Proof. apply chacha20_involutive. Qed.

Lemma cc_length_length k1 seqno x : length (cc20p1305_length k1 seqno x) = length x.
Proof. apply chacha20_length. Qed.

Lemma open_length k2 seqno aad ct tag out :
  cc20p1305_open k2 seqno aad ct tag = Some out -> length out = length ct.
Proof.
  unfold cc20p1305_open. destruct (poly1305_tag _ _ _ _) as [[] want]; cbn [negb]; [|done].
  destruct (negb _); [done|].
  pose proof (chacha20_length k2 (seq_to_nonce seqno) 1 ct) as Hl.
  destruct (mbedtls_chacha20 k2 (seq_to_nonce seqno) 1 ct) as [r o]. cbn [snd] in Hl.
  destruct (r =? 0); [|done]. by intros [= <-].
Qed.

(** What [cc20p1305_seal] produces, [cc20p1305_open] accepts and decrypts. *)
Lemma open_seal k2 seqno aad inp tag0 ok out tag :
  cc20p1305_seal k2 seqno aad inp tag0 = (ok, out, tag) ->
  cc20p1305_open k2 seqno aad out tag = Some inp.
Proof.
  destruct (seal_eq k2 seqno aad inp tag0) as (o & t & -> & Ho & Ht & _ & Hl).
  intros [= _ -> ->]. apply open_spec; [done|]. split; [done|].
  subst out. by rewrite chacha20_involutive.
Qed.
End laws.
End crypto.

(** ** ML-KEM and Ed25519 wrappers *)

Section vendored.
Context `{!Ed25519} `{!MlKem} `{!Platform} {L : Type}.

(** [crypto_kem_enc] draws its coins from [randombytes] and is deterministic
    after that. *)
Definition mlkem768_encap (pk : bytes) : M (world L) (option (bytes * bytes)) :=
  coins ← randomBytes 32;
  mret (mlk_kem_enc_derand pk coins).

Definition ed25519_pub_from_seed (seed : bytes) : option bytes :=
  let '(pub, priv64) := orlp_ed25519_create_keypair seed in Some pub.

Definition ed25519_sign (seed msg : bytes) : option bytes :=
  let '(pub, priv64) := orlp_ed25519_create_keypair seed in
  Some (orlp_ed25519_sign msg pub priv64).

Definition ed25519_verify (pub msg sg : bytes) : bool :=
  orlp_ed25519_verify sg msg pub =? 1.

Lemma ed25519_verify_sign_ok `{!Ed25519Laws} seed msg pub sg :
  ed25519_pub_from_seed seed = Some pub -> ed25519_sign seed msg = Some sg ->
  ed25519_verify pub msg sg = true.
Proof.
  unfold ed25519_pub_from_seed, ed25519_sign, ed25519_verify.
  pose proof (ed25519_verify_sign seed msg) as Hv.
  destruct (orlp_ed25519_create_keypair seed) as [p k].
  intros [= <-] [= <-]. by rewrite Hv.
Qed.
End vendored.

Lemma mlkem768_encap_hist `{!MlKem, !Platform} {L} pk :
  keeps hist_grows (mlkem768_encap (L:=L) pk).
Proof. unfold mlkem768_encap, randomBytes. solve_keeps. Qed.
Lemma mlkem768_encap_loc `{!MlKem, !Platform} {L} (Q : L -> L -> Prop) `{!PreOrder Q} pk :
  keeps (on_loc Q) (mlkem768_encap (L:=L) pk).
Proof. unfold mlkem768_encap, randomBytes. solve_keeps. Qed.
#[export] Hint Resolve mlkem768_encap_hist mlkem768_encap_loc : keeps.
