(* ===== verification/Base64.v ===== *)
(** * Base64: a concrete base64 codec, and the laws asked of mbedTLS's

    [Base64Laws] is the documented behaviour of [mbedtls_base64_encode] and
    [mbedtls_base64_decode] that the key-line code relies on; the codec of RFC 4648
    below satisfies it and serves the examples. *)
From S2P Require Import Prelude Text Wire Platform Crypto.

Definition is_base64 (c : byte) : bool :=
  isalnum c || bool_decide (c = x2b) || bool_decide (c = x2f) || bool_decide (c = x3d).

(** Four characters for three octets, rounded up; one more for the final NUL. *)
Definition base64_len (n : Z) : Z := 4 * ((n + 2) / 3).

Class Base64Laws `{Mbedtls} := {
  base64_fits x n : base64_len (blen x) < n -> is_Some (mbedtls_base64_encode x n);
  base64_shape x n s : mbedtls_base64_encode x n = Some s ->
    blen s = base64_len (blen x) /\ Forall (fun c => is_base64 c = true) s;
  base64_round x n m s : mbedtls_base64_encode x n = Some s -> blen x <= m ->
    mbedtls_base64_decode s m = Some x;
  base64_room s m x : mbedtls_base64_decode s m = Some x -> blen x <= m
}.

(** ** A codec *)

Definition b64_alphabet : bytes :=
  str "ABCDEFGHIJKLMNOPQRSTUVWXYZabcdefghijklmnopqrstuvwxyz0123456789+/".

Definition b64_char (d : Z) : byte := default x3d (b64_alphabet !! Z.to_nat d).
Definition b64_value (c : byte) : option Z := Z.of_nat <$> (fst <$> list_find (fun x => x = c) b64_alphabet).

Definition enc3 (a b c : Z) : bytes :=
  let n := a * 65536 + b * 256 + c in
  [b64_char (n / 262144); b64_char (n / 4096 mod 64); b64_char (n / 64 mod 64); b64_char (n mod 64)].

Fixpoint b64_encode (l : bytes) : bytes :=
  match l with
  | [] => []
  | [a] => take 2 (enc3 (byte_to_Z a) 0 0) ++ [x3d; x3d]
  | [a; b] => take 3 (enc3 (byte_to_Z a) (byte_to_Z b) 0) ++ [x3d]
  | a :: b :: c :: l => enc3 (byte_to_Z a) (byte_to_Z b) (byte_to_Z c) ++ b64_encode l
  end.

Definition dec4 (w x y z : Z) : bytes :=
  let n := w * 262144 + x * 4096 + y * 64 + z in
  [byte_of_Z (n / 65536); byte_of_Z (n / 256); byte_of_Z n].

Fixpoint b64_decode (s : bytes) : option bytes :=
  match s with
  | [] => Some []
  | w :: x :: y :: z :: s =>
      match b64_value w, b64_value x with
      | Some w, Some x =>
          match b64_value y, b64_value z with
          | Some y, Some z => (fun r => dec4 w x y z ++ r) <$> b64_decode s
          | Some y, None =>
              if bool_decide (z = x3d) && bool_decide (s = []) then Some (take 2 (dec4 w x y 0)) else None
          | None, _ =>
              if bool_decide (y = x3d) && bool_decide (z = x3d) && bool_decide (s = [])
              then Some (take 1 (dec4 w x 0 0)) else None
          end
      | _, _ => None
      end
  | _ => None
  end.

(** ** It satisfies the laws *)

Lemma sextets (f : Z -> bool) : forallb f (seqZ 0 64) = true -> forall d, 0 <= d < 64 -> f d = true.
Proof. intros H d Hd. rewrite forallb_forall in H. apply H, list_elem_of_In, elem_of_seqZ. lia. Qed.

Lemma b64_value_char d : 0 <= d < 64 -> b64_value (b64_char d) = Some d.
Proof.
  intros Hd. apply (bool_decide_eq_true_1 (b64_value (b64_char d) = Some d)). revert d Hd.
  apply (sextets (fun d => bool_decide (b64_value (b64_char d) = Some d))). by vm_compute.
Qed.
Lemma b64_char_ok d : 0 <= d < 64 -> is_base64 (b64_char d) = true.
Proof. apply (sextets (fun d => is_base64 (b64_char d))). by vm_compute. Qed.
Lemma b64_value_pad : b64_value x3d = None.
Proof. by vm_compute. Qed.

Lemma euclid64 n : n = 64 * (n / 64) + n mod 64 /\ 0 <= n mod 64 < 64.
Proof. split; [apply Z.div_mod; lia|apply Z.mod_pos_bound; lia]. Qed.

Lemma enc3_sextets a b c :
  0 <= a < 256 -> 0 <= b < 256 -> 0 <= c < 256 ->
  exists w x y z, enc3 a b c = [b64_char w; b64_char x; b64_char y; b64_char z] /\
    0 <= w < 64 /\ 0 <= x < 64 /\ 0 <= y < 64 /\ 0 <= z < 64 /\
    w * 262144 + x * 4096 + y * 64 + z = a * 65536 + b * 256 + c /\
    (c = 0 -> z = 0) /\ (b = 0 -> c = 0 -> y = 0).
Proof.
  intros Ha Hb Hc. unfold enc3. set (n := a * 65536 + b * 256 + c).
  exists (n / 262144), (n / 4096 mod 64), (n / 64 mod 64), (n mod 64).
  split; [done|].
  replace (n / 262144) with (n / 64 / 64 / 64) by (by rewrite !Z.div_div by lia).
  replace (n / 4096) with (n / 64 / 64) by (by rewrite Z.div_div by lia).
  pose proof (euclid64 n) as [E1 B1]. pose proof (euclid64 (n / 64)) as [E2 B2].
  pose proof (euclid64 (n / 64 / 64)) as [E3 B3].
  remember (n / 64) as q1 eqn:Q1. remember (q1 / 64) as q2 eqn:Q2. remember (q2 / 64) as q3 eqn:Q3.
  remember (n mod 64) as r1 eqn:R1. remember (q1 mod 64) as r2 eqn:R2. remember (q2 mod 64) as r3 eqn:R3.
  clear Q1 Q2 Q3 R1 R2 R3. assert (n = a * 65536 + b * 256 + c) as En by done. clearbody n.
  repeat split; try lia.
Qed.

Lemma dec4_sum a b c w x y z :
  0 <= a < 256 -> 0 <= b < 256 -> 0 <= c < 256 ->
  w * 262144 + x * 4096 + y * 64 + z = a * 65536 + b * 256 + c ->
  dec4 w x y z = [byte_of_Z a; byte_of_Z b; byte_of_Z c].
Proof.
  intros Ha Hb Hc E. unfold dec4. rewrite E.
  rewrite <- (byte_of_Z_mod ((a * 65536 + b * 256 + c) / 256)), <- (byte_of_Z_mod (a * 65536 + b * 256 + c)).
  f_equal; [f_equal; dlia|]. f_equal; [f_equal; dlia|]. f_equal. f_equal. dlia.
Qed.

Lemma list_ind3 {A} (P : list A -> Prop) :
  P [] -> (forall a, P [a]) -> (forall a b, P [a; b]) ->
  (forall a b c l, P l -> P (a :: b :: c :: l)) -> forall l, P l.
Proof.
  intros H0 H1 H2 H3 l. enough (forall n l, (length l <= n)%nat -> P l) as H by by eapply H.
  clear l. induction n as [|n IH]; intros [|a [|b [|c l]]] Hl; cbn in Hl; try done; try lia.
  apply H3, IH. lia.
Qed.

Lemma b64_round l : b64_decode (b64_encode l) = Some l.
Proof.
  induction l as [|a|a b|a b c l IH] using list_ind3; [done|..];
    pose proof (byte_to_Z_range a) as Ha; try pose proof (byte_to_Z_range b) as Hb;
    try pose proof (byte_to_Z_range c) as Hc; cbn [b64_encode].
  - destruct (enc3_sextets (byte_to_Z a) 0 0) as (w & x & y & z & -> & Hw & Hx & Hy & Hz & E & Z0 & Y0); [lia..|].
    rewrite (Y0 eq_refl eq_refl), (Z0 eq_refl) in *. cbn [take app b64_decode].
    rewrite !b64_value_char, b64_value_pad by done. cbn [andb].
    rewrite !bool_decide_eq_true_2 by done. cbn [andb].
    rewrite (dec4_sum (byte_to_Z a) 0 0) by lia. cbn [take]. by rewrite byte_of_to_Z.
  - destruct (enc3_sextets (byte_to_Z a) (byte_to_Z b) 0) as (w & x & y & z & -> & Hw & Hx & Hy & Hz & E & Z0 & _); [lia..|].
    rewrite (Z0 eq_refl) in *. cbn [take app b64_decode].
    rewrite !b64_value_char, b64_value_pad by done.
    rewrite !bool_decide_eq_true_2 by done. cbn [andb].
    rewrite (dec4_sum (byte_to_Z a) (byte_to_Z b) 0) by lia. cbn [take]. by rewrite !byte_of_to_Z.
  - destruct (enc3_sextets (byte_to_Z a) (byte_to_Z b) (byte_to_Z c)) as (w & x & y & z & -> & Hw & Hx & Hy & Hz & E & _); [lia..|].
    cbn [app b64_decode]. rewrite !b64_value_char by done. rewrite IH. cbn [fmap option_fmap option_map].
    rewrite (dec4_sum (byte_to_Z a) (byte_to_Z b) (byte_to_Z c)) by lia. by rewrite !byte_of_to_Z.
Qed.

Lemma b64_shape l :
  blen (b64_encode l) = base64_len (blen l) /\ Forall (fun c => is_base64 c = true) (b64_encode l).
Proof.
  induction l as [|a|a b|a b c l [IH1 IH2]] using list_ind3; [by split; [|constructor]|..];
    pose proof (byte_to_Z_range a) as Ha; try pose proof (byte_to_Z_range b) as Hb;
    try pose proof (byte_to_Z_range c) as Hc; cbn [b64_encode].
  - destruct (enc3_sextets (byte_to_Z a) 0 0) as (w & x & y & z & -> & Hw & Hx & Hy & Hz & _); [lia..|].
    split; [done|]. cbn. repeat constructor; by apply b64_char_ok.
  - destruct (enc3_sextets (byte_to_Z a) (byte_to_Z b) 0) as (w & x & y & z & -> & Hw & Hx & Hy & Hz & _); [lia..|].
    split; [done|]. cbn. repeat constructor; by apply b64_char_ok.
  - destruct (enc3_sextets (byte_to_Z a) (byte_to_Z b) (byte_to_Z c)) as (w & x & y & z & -> & Hw & Hx & Hy & Hz & _); [lia..|].
    split; [|cbn; repeat constructor; by first [apply b64_char_ok|exact IH2]].
    cbn [app]. rewrite !blen_cons, IH1. unfold base64_len. pose proof (blen_nonneg l). dlia.
Qed.
