(* ===== verification/Concrete.v ===== *)
(** * Concrete: instances of the parameters

    Small functions that satisfy the documented behaviour the development relies
    on, so that its hypotheses are seen to hold somewhere and its definitions can
    be run.  They have no cryptographic strength and are used by examples only. *)
From S2P Require Import Prelude Wire Platform Crypto Base64.

Definition pad_to (n : nat) (l : bytes) : bytes := take n (l ++ replicate n x00).

Lemma pad_to_length n l : length (pad_to n l) = n.
Proof. unfold pad_to. rewrite length_take, length_app, length_replicate. lia. Qed.

(** A number from octets, the octets of a number, most significant first. *)
Definition be_number (l : bytes) : Z := fold_left (fun n b => n * 256 + byte_to_Z b) l 0.
Fixpoint number_be (n : nat) (z : Z) : bytes :=
  match n with O => [] | S n => number_be n (z / 256) ++ [byte_of_Z (z mod 256)] end.

Lemma number_be_length n z : length (number_be n z) = n.
Proof. revert z. induction n as [|n IH]; intros z; cbn; [done|]. rewrite length_app, IH. cbn. lia. Qed.

(** A checksum. *)
Definition mix (l : bytes) : Z :=
  fold_left (fun n b => (n * 263 + byte_to_Z b + 1) mod 65536) l 5.
Definition digest (n : nat) (l : bytes) : bytes := number_be n (mix l).

Definition xor_stream (seed : Z) (x : bytes) : bytes :=
  imap (fun i b => byte_of_Z (Z.lxor (byte_to_Z b) (u8 (seed + Z.of_nat i)))) x.

Lemma xor_stream_length seed x : length (xor_stream seed x) = length x.
Proof. apply length_imap. Qed.

Lemma xor_stream_involutive seed x : xor_stream seed (xor_stream seed x) = x.
Proof.
  unfold xor_stream. apply list_eq. intros i. rewrite !list_lookup_imap.
  destruct (x !! i) as [b|]; cbn; [|done]. f_equal.
  set (k := u8 (seed + Z.of_nat i)).
  assert (0 <= k < 2 ^ 8) as Hk by (unfold k, u8; apply Z.mod_pos_bound; lia).
  pose proof (byte_to_Z_range b) as Hb.
  pose proof (lxor_byte_range (byte_to_Z b) k ltac:(lia) ltac:(lia)) as Hr.
  rewrite byte_to_of_Z, Z.mod_small by lia.
  rewrite Z.lxor_assoc, Z.lxor_nilpotent, Z.lxor_0_r. apply byte_of_to_Z.
Qed.

#[export] Instance concrete_mbedtls : Mbedtls := {
  mbedtls_sha256_context := bytes;
  mbedtls_sha256_starts := [];
  mbedtls_sha256_update h d := h ++ d;
  mbedtls_sha256_finish h := digest 32 h;
  mbedtls_sha256 d := digest 32 d;
  mbedtls_chacha20 k n c x := (0, xor_stream (mix (k ++ n) + c) x);
  mbedtls_poly1305 k m := (0, digest 16 (k ++ concat m));
  mbedtls_base64_encode x n := if base64_len (blen x) <? n then Some (b64_encode x) else None;
  mbedtls_base64_decode s n :=
    match b64_decode s with Some x => if blen x <=? n then Some x else None | None => None end;
  mbedtls_ecp_group := unit;
  mbedtls_mpi := Z;
  mbedtls_ecp_point := Z * Z;
  mbedtls_ecp_group_load_curve25519 := Some tt;
  mbedtls_mpi_read_binary x := Some (be_number x);
  mbedtls_mpi_write_binary z n := Some (number_be (Z.to_nat n) z);
  mbedtls_mpi_lset z := Some z;
  mbedtls_ecp_point_init := (0, 0);
  mbedtls_ecp_set_X p x := (x, p.2);
  mbedtls_ecp_set_Z p z := (p.1, z);
  mbedtls_ecp_X p := p.1;
  mbedtls_ecp_copy_G _ := Some (9, 1);
  mbedtls_ecp_mul _ s p := Some ((s * p.1) mod 2 ^ 255, 1)
}.

#[export] Instance concrete_mbedtls_laws : MbedtlsLaws.
Proof.
  split; intros; cbn -[digest]; try done; try apply number_be_length.
  - f_equal. enough (forall h, fold_left (fun h d : bytes => h ++ d) chunks h = h ++ concat chunks)
      as E by apply E.
    induction chunks as [|c chunks IH]; intros h; cbn; [by rewrite app_nil_r|].
    by rewrite IH, app_assoc.
  - apply xor_stream_length.
  - apply xor_stream_involutive.
Qed.

#[export] Instance concrete_base64_laws : Base64Laws.
Proof.
  split; cbn.
  - intros x n H. rewrite (proj2 (Z.ltb_lt _ _) H). by eexists.
  - intros x n s. destruct (_ <? n); [|done]. intros [= <-]. apply b64_shape.
  - intros x n m s. destruct (_ <? n); [|done]. intros [= <-] Hm.
    by rewrite b64_round, (proj2 (Z.leb_le _ _) Hm).
  - intros s m x. destruct (b64_decode s) as [y|]; cbn; [|done].
    destruct (Z.leb_spec (blen y) m); [|done]. by intros [= <-].
Qed.

#[export] Instance concrete_ed25519 : Ed25519 := {
  orlp_ed25519_create_keypair seed := (pad_to 32 seed, pad_to 64 seed);
  orlp_ed25519_sign m p k := digest 32 m ++ digest 32 p;
  orlp_ed25519_verify s m p := if bool_decide (s = digest 32 m ++ digest 32 p) then 1 else 0
}.

#[export] Instance concrete_ed25519_laws : Ed25519Laws.
Proof.
  split; intros; cbn -[digest].
  - apply pad_to_length.
  - unfold digest. by rewrite length_app, !number_be_length.
  - by rewrite bool_decide_eq_true_2.
Qed.

#[export] Instance concrete_mlkem : MlKem := {
  mlk_kem_enc_derand pk coins := Some (pad_to 1088 coins, pad_to 32 coins)
}.

#[export] Instance concrete_mlkem_laws : MlKemLaws.
Proof. split. intros pk coins ct ss [= <- <-]. unfold blen. by rewrite !pad_to_length. Qed.

(** A peer that sends the given chunks, one per receive call; a storage that answers
    by key; an admin password. *)
Section platform.
Context (chunks : list bytes) (store : bytes -> option bytes) (keys : Z) (password : bytes).

Definition is_recv (e : event) : bool := match e with EvRecv _ _ _ _ => true | _ => false end.
Definition recv_calls (h : history) : nat := length (List.filter is_recv h).

Definition scripted : Platform := {|
  p_random _ n := replicate n x07;
  p_send _ _ d _ := blen d;
  p_recv h _ max _ := take (Z.to_nat max) (default [] (chunks !! recv_calls h));
  p_connect _ _ _ ref := ref + 100;
  p_connected _ _ := true;
  p_ref _ h := h - 100;
  p_send_aux _ _ _ := true;
  p_ticks h := Z.of_nat (length h);
  p_auth_login _ pw _ := bool_decide (pw = password);
  p_get_str _ key dflt := default dflt (store key);
  p_get_int _ _ dflt := dflt;
  p_array_count _ _ := keys;
  p_stream_send _ d := blen d;
  p_stream_recv _ _ := [];
  p_term_size _ := (80, 24);
  p_user_close _ := false;
  p_job_done _ := true;
  p_job_result _ := (0, [], None);
  p_stream_new _ _ := true;
  p_sem_take _ _ := true;
  p_spawn _ _ := true;
  p_read_raw _ _ _ := None;
  p_read_line _ _ := None;
  p_indeterminate _ := [];
  pdMS_TO_TICKS ms := ms;
  portTICK_PERIOD_MS := 1;
  safeStrncpy s n := take (Z.to_nat (n - 1)) (c_str s)
|}.

Lemma scripted_laws : @PlatformLaws scripted.
Proof.
  split; intros; cbn in *; unfold blen in *; try done;
    try (rewrite ?length_replicate, ?length_take; lia).
Qed.
End platform.
