(* ===== verification/Framing.v ===== *)
(** * Framing: the binary packet protocol

    [send_packet] and [parse_packet] of [sshd_session.cpp] and [send_packet] and
    [try_parse] of [ssh_client.cpp] are mirrors of each other.  The part of them
    that is a function of key, sequence number and octets is here; the state they
    update is in [Session] and [Client]. *)
From S2P Require Import Prelude Wire Platform Crypto Concrete.

Section framing.
Context `{MB : Mbedtls}.

(** ** Sending *)

Definition BS : Z := 8.

(** Padding: at least four octets, and the inner part a multiple of 8; without
    encryption the whole packet is aligned instead. *)
Definition pad_len (enc : bool) (payLen : Z) : Z :=
  let innerLen := 1 + payLen in
  let pad := BS - innerLen mod BS in
  let pad := if pad <? 4 then pad + BS else pad in
  if negb enc then
    if negb ((4 + 1 + payLen + pad) mod BS =? 0) then pad + 4 else pad
  else pad.

(** [framed], from the payload and the random padding.  [key] is
    [K2 || K1]; the tag buffer is not initialised before the call. *)
Definition frame (enc : bool) (key : bytes) (seqno pad : Z) (payload padBytes : bytes) : bytes :=
  let packetLen := u32 (1 + blen payload + pad) in
  let lenBE := be32_bytes packetLen in
  let inner := byte_of_Z pad :: payload ++ padBytes in
  if enc then
    let K2 := take 32 key in
    let K1 := take 32 (drop 32 key) in
    let encLen := cc20p1305_length K1 seqno lenBE in
    let '(_, encInner, tag) := cc20p1305_seal K2 seqno encLen inner (replicate 16 x00) in
    encLen ++ encInner ++ tag
  else lenBE ++ inner.

(** ** Receiving *)

Inductive parsed :=
  | PNeed                                   (* 0: need more bytes *)
  | PErr                                    (* -1: framing or MAC error *)
  | PPkt (payload rest : bytes).            (* 1: a packet, and what is left in rxBuf *)

Definition parse_plain (rx : bytes) : parsed :=
  match rx with
  | p0 :: p1 :: p2 :: p3 :: p4 :: _ =>
      let plen := be32_val p0 p1 p2 p3 in
      if (plen <? 8) || (35000 <? plen) then PErr else
      if blen rx <? 4 + plen then PNeed else
      let padLen := byte_to_Z p4 in
      if plen <? padLen + 1 then PErr else
      let payLen := plen - padLen - 1 in
      PPkt (substr rx 5 (Z.to_nat payLen)) (drop (Z.to_nat (4 + plen)) rx)
  | _ => PNeed
  end.

Definition parse_enc (key : bytes) (seqno : Z) (rx : bytes) : parsed :=
  if blen rx <? 4 then PNeed else
  let K2 := take 32 key in
  let K1 := take 32 (drop 32 key) in
  let encLen := take 4 rx in
  match cc20p1305_length K1 seqno encLen with
  | [l0; l1; l2; l3] =>
      let plen := be32_val l0 l1 l2 l3 in
      if (plen <? 8) || (35000 <? plen) then PErr else
      if blen rx <? 4 + plen + 16 then PNeed else
      let ct := substr rx 4 (Z.to_nat plen) in
      let tag := substr rx (Z.to_nat (4 + plen)) 16 in
      match cc20p1305_open K2 seqno encLen ct tag with
      | None => PErr
      | Some plain =>
          let pad0 := byte_to_Z (default x00 (plain !! 0%nat)) in
          if plen <? pad0 + 1 then PErr else
          let payLen := plen - pad0 - 1 in
          PPkt (substr plain 1 (Z.to_nat payLen)) (drop (Z.to_nat (4 + plen + 16)) rx)
      end
  | _ => PErr     (* never: four octets in, four out *)
  end.

Definition parse (enc : bool) (key : bytes) (seqno : Z) (rx : bytes) : parsed :=
  if enc then parse_enc key seqno rx else parse_plain rx.

(** ** Padding *)

Lemma pad_len_bounds enc n : 0 <= n -> 4 <= pad_len enc n <= 15.
Proof.
  intros Hn. unfold pad_len, BS.
  pose proof (Z.mod_pos_bound (1 + n) 8 ltac:(lia)).
  destruct (Z.ltb_spec (8 - (1 + n) mod 8) 4); destruct enc; cbn [negb]; try lia;
    destruct (_ =? 0); cbn [negb]; lia.
Qed.

Lemma pad_len_aligned (enc : bool) n :
  0 <= n -> ((if enc then 0 else 4) + 1 + n + pad_len enc n) mod 8 = 0.
Proof.
  intros Hn. unfold pad_len, BS.
  destruct (Z.ltb_spec (8 - (1 + n) mod 8) 4); destruct enc; cbn [negb];
    try dlia;
    match goal with |- context [negb (Z.eqb ?x 0)] => destruct (Z.eqb_spec x 0) end;
    cbn [negb]; dlia.
Qed.

(** ** Round trip *)

Lemma parse_plain_frame key seqno pad payload padBytes more :
  0 <= pad < 256 -> blen padBytes = pad -> 8 <= 1 + blen payload + pad <= 35000 ->
  parse_plain (frame false key seqno pad payload padBytes ++ more) = PPkt payload more.
Proof.
  intros Hp Hpl Hl. unfold frame, parse_plain. pose proof (blen_nonneg payload) as Hpay.
  rewrite u32_small by lia. cbn [app be32_bytes].
  rewrite be32_val_bytes, u32_small by lia.
  destruct (Z.ltb_spec (1 + blen payload + pad) 8); [lia|].
  destruct (Z.ltb_spec 35000 (1 + blen payload + pad)); [lia|]. cbn [orb].
  rewrite !blen_cons, !blen_app, Hpl. pose proof (blen_nonneg more) as Hm.
  ltb_false.
  rewrite byte_to_of_Z, Z.mod_small by lia.
  ltb_false.
  unfold substr. cbn [drop]. f_equal.
  - replace (Z.to_nat (1 + blen payload + pad - pad - 1)) with (length payload)
      by (unfold blen; lia).
    by rewrite drop_0, <- app_assoc, take_app_length.
  - replace (Z.to_nat (4 + (1 + blen payload + pad)))
      with (5 + length (payload ++ padBytes))%nat
      by (rewrite length_app; unfold blen in *; lia).
    cbn [drop Nat.add]. by rewrite drop_app_length.
Qed.

Lemma parse_enc_frame `{!MbedtlsLaws} key seqno pad payload padBytes more :
  0 <= pad < 256 -> blen padBytes = pad -> 8 <= 1 + blen payload + pad <= 35000 ->
  parse_enc key seqno (frame true key seqno pad payload padBytes ++ more) = PPkt payload more.
Proof.
  intros Hp Hpl Hl. unfold frame, parse_enc. pose proof (blen_nonneg payload) as Hpay.
  set (K1 := take 32 (drop 32 key)). set (K2 := take 32 key).
  set (plen := 1 + blen payload + pad) in *. rewrite u32_small by lia.
  set (inner := byte_of_Z pad :: payload ++ padBytes).
  set (encLen := cc20p1305_length K1 seqno (be32_bytes plen)).
  assert (HeL : length encLen = 4%nat) by (unfold encLen; by rewrite cc_length_length).
  destruct (seal_eq K2 seqno encLen inner (replicate 16 x00)) as (ct & tag & E & _ & _ & Hct & Htag).
  pose proof (open_seal _ _ _ _ _ _ _ _ E) as Ho. rewrite E.
  assert (Hil : length inner = Z.to_nat plen).
  { unfold inner. cbn [length]. rewrite length_app. unfold plen, blen in *. lia. }
  assert (Hrx : blen ((encLen ++ ct ++ tag) ++ more) = 4 + plen + 16 + blen more).
  { rewrite !blen_app. unfold blen. rewrite HeL, Hct, Htag, Hil. lia. }
  pose proof (blen_nonneg more) as Hm. rewrite Hrx.
  destruct (Z.ltb_spec (4 + plen + 16 + blen more) 4); [lia|].
  rewrite <- app_assoc, take_app_length' by done.
  unfold encLen at 1. rewrite length_involutive. cbn [be32_bytes].
  rewrite be32_val_bytes, u32_small by lia.
  destruct (Z.ltb_spec plen 8); [lia|]. destruct (Z.ltb_spec 35000 plen); [lia|]. cbn [orb].
  destruct (Z.ltb_spec (4 + plen + 16 + blen more) (4 + plen + 16)); [lia|].
  unfold substr. rewrite drop_app_length' by done.
  replace (Z.to_nat (4 + plen)) with (4 + Z.to_nat plen)%nat by lia.
  rewrite <- drop_drop, (drop_app_length' encLen) by done.
  rewrite <- (app_assoc ct), take_app_length' by (by rewrite Hct).
  rewrite drop_app_length' by (by rewrite Hct). rewrite take_app_length' by done.
  rewrite Ho. cbn [lookup inner]. unfold inner at 1. cbn.
  rewrite byte_to_of_Z, Z.mod_small by lia.
  destruct (Z.ltb_spec plen (pad + 1)); [lia|]. f_equal.
  - replace (Z.to_nat (plen - pad - 1)) with (length payload) by (unfold plen, blen; lia).
    unfold inner. cbn [drop]. by rewrite drop_0, take_app_length.
  - replace (Z.to_nat (4 + plen + 16)) with (4 + (Z.to_nat plen + 16))%nat by lia.
    rewrite <- !drop_drop, drop_app_length' by done.
    rewrite drop_app_length' by (by rewrite Hct). by rewrite drop_app_length' by done.
Qed.

Lemma parse_frame `{!MbedtlsLaws} enc key seqno pad payload padBytes more :
  0 <= pad < 256 -> blen padBytes = pad -> 8 <= 1 + blen payload + pad <= 35000 ->
  parse enc key seqno (frame enc key seqno pad payload padBytes ++ more) = PPkt payload more.
Proof.
  destruct enc; [apply parse_enc_frame|apply parse_plain_frame].
Qed.

(** ** The parser on a stream

    More bytes never change a verdict, a packet takes at least twelve octets off
    the buffer, and the parser asks for more only below a fixed bound. *)
Definition append_rest (r : parsed) (more : bytes) : parsed :=
  match r with
  | PPkt p rest => PPkt p (rest ++ more)
  | r => r
  end.

Lemma substr_app (s more : bytes) pos n :
  (pos + n <= length s)%nat -> substr (s ++ more) pos n = substr s pos n.
Proof.
  intros H. unfold substr. rewrite drop_app_le by lia.
  rewrite take_app_le; [done|]. rewrite length_drop. lia.
Qed.

(** The branch of [parse_plain] that has five octets to look at. *)
Definition parse_plain_at (plen padLen : Z) (rx : bytes) : parsed :=
  if (plen <? 8) || (35000 <? plen) then PErr else
  if blen rx <? 4 + plen then PNeed else
  if plen <? padLen + 1 then PErr else
  PPkt (substr rx 5 (Z.to_nat (plen - padLen - 1))) (drop (Z.to_nat (4 + plen)) rx).

Lemma parse_plain_cases rx :
  (parse_plain rx = PNeed /\ blen rx < 5) \/
  (exists plen padLen, 0 <= padLen /\ 5 <= blen rx /\
     forall more, parse_plain (rx ++ more) = parse_plain_at plen padLen (rx ++ more)).
Proof.
  destruct rx as [|p0 [|p1 [|p2 [|p3 [|p4 rx']]]]]; try (left; done). right.
  exists (be32_val p0 p1 p2 p3), (byte_to_Z p4).
  split_and!; [apply byte_to_Z_range|unfold blen; cbn [length]; lia|done].
Qed.

Lemma parse_plain_app rx more :
  parse_plain rx <> PNeed -> parse_plain (rx ++ more) = append_rest (parse_plain rx) more.
Proof.
  destruct (parse_plain_cases rx) as [[-> _]|(plen & padLen & Hpad & H5 & E)]; [done|].
  rewrite E. rewrite <- (app_nil_r rx) at 1 3. rewrite E, app_nil_r. unfold parse_plain_at.
  destruct ((plen <? 8) || (35000 <? plen)) eqn:E0; [done|].
  apply orb_false_iff in E0 as [E1%Z.ltb_ge E2%Z.ltb_ge].
  destruct (Z.ltb_spec (blen rx) (4 + plen)) as [Hl|Hl]; [done|intros _].
  pose proof (blen_nonneg more). rewrite blen_app. ltb_false.
  destruct (Z.ltb_spec plen (padLen + 1)); [done|].
  cbn [append_rest]. f_equal.
  - apply substr_app. unfold blen in *. lia.
  - apply drop_app_le. unfold blen in *. lia.
Qed.

Lemma parse_enc_app `{!MbedtlsLaws} key seqno rx more :
  parse_enc key seqno rx <> PNeed ->
  parse_enc key seqno (rx ++ more) = append_rest (parse_enc key seqno rx) more.
Proof.
  unfold parse_enc. destruct (Z.ltb_spec (blen rx) 4) as [H4|H4]; [done|].
  pose proof (blen_nonneg more). rewrite blen_app. ltb_false.
  rewrite (take_app_le rx more 4) by (unfold blen in *; lia).
  set (dl := cc20p1305_length _ _ _).
  destruct dl as [|l0 [|l1 [|l2 [|l3 [|]]]]]; try done.
  pose proof (be32_val_range l0 l1 l2 l3). set (plen := be32_val l0 l1 l2 l3) in *.
  destruct ((plen <? 8) || (35000 <? plen)) eqn:E; [done|].
  apply orb_false_iff in E as [E1%Z.ltb_ge E2%Z.ltb_ge].
  destruct (Z.ltb_spec (blen rx) (4 + plen + 16)) as [Hl|Hl]; [done|intros _]. ltb_false.
  rewrite (substr_app rx more 4) by (unfold blen in *; lia).
  rewrite (substr_app rx more (Z.to_nat (4 + plen))) by (unfold blen in *; lia).
  destruct (cc20p1305_open _ _ _ _ _) as [plain|]; [|done].
  destruct (_ <? _); [done|]. cbn [append_rest]. f_equal.
  apply drop_app_le. unfold blen in *. lia.
Qed.

Lemma parse_app `{!MbedtlsLaws} enc key seqno rx more :
  parse enc key seqno rx <> PNeed ->
  parse enc key seqno (rx ++ more) = append_rest (parse enc key seqno rx) more.
Proof. destruct enc; [apply parse_enc_app|apply parse_plain_app]. Qed.

Lemma parse_plain_progress rx p rest :
  parse_plain rx = PPkt p rest ->
  exists used, rx = used ++ rest /\ 12 <= blen used /\ blen p < 35000.
Proof.
  destruct (parse_plain_cases rx) as [[-> _]|(plen & padLen & Hpad & H5 & E)]; [done|].
  rewrite <- (app_nil_r rx) at 1. rewrite E, app_nil_r. unfold parse_plain_at.
  destruct ((plen <? 8) || (35000 <? plen)) eqn:E0; [done|].
  apply orb_false_iff in E0 as [E1%Z.ltb_ge E2%Z.ltb_ge].
  destruct (Z.ltb_spec (blen rx) (4 + plen)) as [Hl|Hl]; [done|].
  destruct (Z.ltb_spec plen (padLen + 1)); [done|].
  intros [= <- <-]. exists (take (Z.to_nat (4 + plen)) rx). split_and!.
  - by rewrite take_drop.
  - unfold blen in *. rewrite length_take. lia.
  - unfold blen, substr in *. rewrite length_take. lia.
Qed.

Lemma parse_enc_progress `{!MbedtlsLaws} key seqno rx p rest :
  parse_enc key seqno rx = PPkt p rest ->
  exists used, rx = used ++ rest /\ 12 <= blen used /\ blen p < 35000.
Proof.
  unfold parse_enc. destruct (Z.ltb_spec (blen rx) 4) as [H4|H4]; [done|].
  destruct (cc20p1305_length _ _ _) as [|l0 [|l1 [|l2 [|l3 [|]]]]]; try done.
  pose proof (be32_val_range l0 l1 l2 l3). set (plen := be32_val l0 l1 l2 l3) in *.
  destruct ((plen <? 8) || (35000 <? plen)) eqn:E; [done|].
  apply orb_false_iff in E as [E1%Z.ltb_ge E2%Z.ltb_ge].
  destruct (Z.ltb_spec (blen rx) (4 + plen + 16)) as [Hl|Hl]; [done|].
  destruct (cc20p1305_open _ _ _ _ _) as [plain|] eqn:Eo; [|done].
  set (pad0 := byte_to_Z (default x00 (plain !! 0%nat))).
  assert (0 <= pad0) by apply byte_to_Z_range.
  destruct (_ <? _); [done|]. intros [= <- <-].
  exists (take (Z.to_nat (4 + plen + 16)) rx). split_and!.
  - by rewrite take_drop.
  - unfold blen in *. rewrite length_take. lia.
  - unfold blen, substr in *. rewrite length_take. lia.
Qed.

Lemma parse_progress `{!MbedtlsLaws} enc key seqno rx p rest :
  parse enc key seqno rx = PPkt p rest ->
  exists used, rx = used ++ rest /\ 12 <= blen used /\ blen p < 35000.
Proof. destruct enc; [apply parse_enc_progress|apply parse_plain_progress]. Qed.

Lemma parse_need_bound `{!MbedtlsLaws} enc key seqno rx :
  parse enc key seqno rx = PNeed -> blen rx < 35020.
Proof.
  destruct enc; cbn [parse].
  - unfold parse_enc. destruct (Z.ltb_spec (blen rx) 4) as [H4|H4]; [intros; lia|].
    destruct (cc20p1305_length _ _ _) as [|l0 [|l1 [|l2 [|l3 [|]]]]]; try done.
    destruct (_ || _) eqn:E; [done|]. apply orb_false_iff in E as [_ E2%Z.ltb_ge].
    destruct (Z.ltb_spec (blen rx) (4 + be32_val l0 l1 l2 l3 + 16)); [intros; lia|].
    destruct (cc20p1305_open _ _ _ _ _); [|done]. by destruct (_ <? _).
  - destruct (parse_plain_cases rx) as [[_ H5]|(plen & padLen & Hpad & H5 & E)]; [lia|].
    rewrite <- (app_nil_r rx) at 1. rewrite E, app_nil_r. unfold parse_plain_at.
    destruct (_ || _) eqn:E0; [done|]. apply orb_false_iff in E0 as [_ E2%Z.ltb_ge].
    destruct (Z.ltb_spec (blen rx) (4 + plen)); [lia|]. by destruct (_ <? _).
Qed.
End framing.

(** ** A receiver fed in pieces

    What the receive loops of both ends do with one key: append what arrived, take
    packets off while there are any.  A framing error ends the stream. *)
Record receiver := Receiver { r_seq : Z; r_buf : bytes; r_dead : bool }.

Section stream.
Context `{MB : Mbedtls} (enc : bool) (key : bytes).

Fixpoint drain (fuel : nat) (r : receiver) : list bytes * receiver :=
  match fuel with
  | O => ([], r)
  | S fuel =>
      if r_dead r then ([], r) else
      match parse enc key (r_seq r) (r_buf r) with
      | PNeed => ([], r)
      | PErr => ([], Receiver (r_seq r) [] true)
      | PPkt payload rest =>
          let '(ps, r') := drain fuel (Receiver (u64 (r_seq r + 1)) rest false) in
          (payload :: ps, r')
      end
  end.

(** Every packet takes octets off the buffer. *)
Definition feed (r : receiver) (chunk : bytes) : list bytes * receiver :=
  if r_dead r then ([], r) else
  let r := Receiver (r_seq r) (r_buf r ++ chunk) false in
  drain (S (length (r_buf r))) r.

Fixpoint feed_all (r : receiver) (chunks : list bytes) : list bytes * receiver :=
  match chunks with
  | [] => ([], r)
  | c :: chunks =>
      let '(ps, r1) := feed r c in
      let '(qs, r2) := feed_all r1 chunks in (ps ++ qs, r2)
  end.

(** The sender's side: payloads with their padding, framed one after the other. *)
Fixpoint frames (seqno : Z) (l : list (bytes * bytes)) : bytes :=
  match l with
  | [] => []
  | (payload, padBytes) :: l =>
      frame enc key seqno (pad_len enc (blen payload)) payload padBytes ++
      frames (u64 (seqno + 1)) l
  end.

(** A payload that fits a packet, with padding of the right length. *)
Definition sendable (p : bytes * bytes) : Prop :=
  blen p.1 <= 34980 /\ blen p.2 = pad_len enc (blen p.1).

Context `{ML : !MbedtlsLaws}.

Lemma parse_sent seqno p more :
  sendable p ->
  parse enc key seqno (frame enc key seqno (pad_len enc (blen p.1)) p.1 p.2 ++ more)
  = PPkt p.1 more.
Proof.
  intros [Hl Hp]. pose proof (blen_nonneg p.1) as H0.
  pose proof (pad_len_bounds enc (blen p.1) H0) as Hb.
  pose proof (pad_len_aligned enc (blen p.1) H0) as Ha.
  apply parse_frame; [lia|done|]. destruct enc; dlia.
Qed.

Lemma drain_fuel n m r :
  (length (r_buf r) < n)%nat -> (length (r_buf r) < m)%nat -> drain n r = drain m r.
Proof.
  revert m r. induction n as [|n IH]; intros m r Hn Hm; [lia|]. destruct m as [|m]; [lia|].
  cbn [drain]. destruct (r_dead r); [done|].
  destruct (parse enc key (r_seq r) (r_buf r)) as [| |p rest] eqn:E; [done..|].
  apply parse_progress in E as (used & Eb & Hu & _). unfold blen in Hu.
  rewrite (IH m); [done|cbn [r_buf]..].
  all: rewrite Eb, length_app in Hn, Hm; lia.
Qed.

(** More octets behind the buffer come out behind what was there. *)
Lemma drain_app n m r chunk ps r1 :
  (length (r_buf r) < n)%nat -> (length (r_buf r ++ chunk) < m)%nat -> r_dead r = false ->
  drain n r = (ps, r1) ->
  drain m (Receiver (r_seq r) (r_buf r ++ chunk) false) =
  let '(qs, r2) := feed r1 chunk in (ps ++ qs, r2).
Proof.
  revert m r ps r1. induction n as [|n IH]; intros m r ps r1 Hn Hm Hd; [lia|].
  cbn [drain]. rewrite Hd.
  destruct (parse enc key (r_seq r) (r_buf r)) as [| |p rest] eqn:E.
  - intros [= <- <-]. unfold feed. rewrite Hd. cbn [r_buf].
    rewrite (drain_fuel m (S (length (r_buf r ++ chunk)))); [|cbn [r_buf]; lia..].
    by destruct (drain _ _).
  - intros [= <- <-]. destruct m as [|m]; [lia|]. cbn [drain r_dead r_seq r_buf feed app].
    rewrite parse_app by congruence. by rewrite E.
  - destruct (drain n _) as [ps' r1'] eqn:Ed. intros [= <- <-].
    destruct m as [|m]; [lia|]. cbn [drain r_dead r_seq r_buf].
    rewrite parse_app by congruence. rewrite E. cbn [append_rest].
    apply parse_progress in E as (used & Eb & Hu & _). unfold blen in Hu.
    rewrite Eb, !length_app in Hm. rewrite Eb, length_app in Hn.
    specialize (IH m (Receiver (u64 (r_seq r + 1)) rest false) ps' r1').
    cbn [r_buf r_seq r_dead] in IH. rewrite IH; [|lia|rewrite length_app; lia|done..].
    by destruct (feed r1' chunk).
Qed.

Lemma feed_app r c1 c2 :
  feed r (c1 ++ c2) =
  let '(ps, r1) := feed r c1 in let '(qs, r2) := feed r1 c2 in (ps ++ qs, r2).
Proof.
  unfold feed at 1 2. destruct (r_dead r) eqn:Hd; [unfold feed; by rewrite Hd|]. cbn [r_buf].
  set (r1 := Receiver (r_seq r) (r_buf r ++ c1) false).
  destruct (drain (S (length (r_buf r ++ c1))) r1) as [ps r2] eqn:E.
  rewrite app_assoc.
  rewrite (drain_app (S (length (r_buf r ++ c1))) _ r1 c2 ps r2);
    [done|cbn; lia|cbn; lia|done|done].
Qed.

Lemma drain_need n r : parse enc key (r_seq r) (r_buf r) = PNeed -> drain n r = ([], r).
Proof. intros H. destruct n; cbn [drain]; [done|]. by destruct (r_dead r); rewrite ?H. Qed.

Lemma parse_nil seqno : parse enc key seqno [] = PNeed.
Proof. by destruct enc. Qed.

Lemma feed_frames seqno l :
  Forall sendable l ->
  exists seq', feed (Receiver seqno [] false) (frames seqno l) = (fst <$> l, Receiver seq' [] false).
Proof.
  revert seqno. induction l as [|[p pb] l IH]; intros seqno H.
  - exists seqno. unfold feed. cbn [r_dead r_seq r_buf app frames]. by rewrite drain_need by apply parse_nil.
  - apply list.Forall_cons in H as [Hp Hl]. destruct (IH (u64 (seqno + 1)) Hl) as [s' E].
    exists s'. cbn [frames]. unfold feed in *. cbn [r_dead r_seq r_buf app] in *.
    cbn [drain r_dead r_seq r_buf].
    pose proof (parse_sent seqno (p, pb) (frames (u64 (seqno + 1)) l) Hp) as Ep. cbn [fst snd] in Ep.
    rewrite Ep. apply parse_progress in Ep as (used & Eb & Hu & _). unfold blen in Hu.
    apply app_inv_tail in Eb.
    erewrite drain_fuel; [rewrite E; done|cbn [r_buf]..]; [|lia].
    rewrite length_app, Eb. lia.
Qed.

Lemma feed_all_concat r chunks : chunks <> [] -> feed_all r chunks = feed r (concat chunks).
Proof.
  intros Hne. destruct chunks as [|c chunks]; [done|]. clear Hne.
  revert r c. induction chunks as [|c' chunks IH]; intros r c.
  - cbn. rewrite app_nil_r. destruct (feed r c). by rewrite app_nil_r.
  - cbn [feed_all concat]. rewrite feed_app. destruct (feed r c) as [ps r1].
    specialize (IH r1 c'). cbn [feed_all concat] in IH. rewrite IH. done.
Qed.

(** ** Properties *)

(** C6: Whatever chunks the stream arrives in, a receiver takes the same packets
    off it and is left in the same state: two ways to cut the same octets into
    pieces cannot be told apart. *)
Theorem feed_chunking r chunks chunks' :
  chunks <> [] -> chunks' <> [] -> concat chunks = concat chunks' ->
  feed_all r chunks = feed_all r chunks'.
Proof. intros H H' E. rewrite !feed_all_concat by done. by rewrite E. Qed.

(** C5: Packets that one end frames, with consecutive sequence numbers and any
    padding octets, the other end takes off the stream unchanged and in order,
    whichever chunks they arrive in; nothing is left over. *)
Theorem feed_delivers seqno l chunks :
  Forall sendable l -> chunks <> [] -> concat chunks = frames seqno l ->
  exists seq', feed_all (Receiver seqno [] false) chunks = (fst <$> l, Receiver seq' [] false).
Proof. intros Hl Hne Hc. rewrite feed_all_concat by done. rewrite Hc. by apply feed_frames. Qed.

(** A receive buffer that waits for the rest of a packet is shorter than
    35020 octets, and a packet that is taken off uses at least 12 octets and
    has a payload below 35000 octets: the length field of a peer bounds what is
    kept for it. *)
Theorem parse_bounds seqno rx :
  match parse enc key seqno rx with
  | PNeed => blen rx < 35020
  | PErr => True
  | PPkt payload rest =>
      exists used, rx = used ++ rest /\ 12 <= blen used /\ blen payload < 35000
  end.
Proof.
  destruct (parse enc key seqno rx) as [| |p rest] eqn:E; [|done|].
  - by eapply parse_need_bound.
  - by eapply parse_progress.
Qed.

(** The padding of a packet is between 4 and 15 octets, and aligns what the
    protocol wants aligned to 8: the whole packet in the clear, the part behind
    the length field under encryption. *)
Theorem pad_len_correct n :
  0 <= n ->
  4 <= pad_len enc n <= 15 /\ ((if enc then 0 else 4) + 1 + n + pad_len enc n) mod 8 = 0.
Proof. split; [by apply pad_len_bounds|by apply pad_len_aligned]. Qed.
End stream.

(** ** Witnesses *)

Definition demo_key : bytes := number_be 64 123456789.
Definition demo_payloads : list (bytes * bytes) :=
  (fun p => (p, replicate (Z.to_nat (pad_len true (blen p))) x21)) <$>
  [str "first"; []; str "the third payload"].
Definition demo_stream : bytes := frames true demo_key 41 demo_payloads.

Lemma feed_chunking_witness :
  feed_all true demo_key (Receiver 41 [] false) [demo_stream] =
  feed_all true demo_key (Receiver 41 [] false)
    [take 3 demo_stream; []; drop 3 demo_stream].
Proof. apply (feed_chunking true demo_key); [done|done|by vm_compute]. Defined.

Lemma demo_sendable : Forall (sendable true) demo_payloads.
Proof. repeat constructor; by vm_compute. Qed.

Lemma feed_delivers_witness :
  exists seq', feed_all true demo_key (Receiver 41 [] false) [take 50 demo_stream; drop 50 demo_stream] =
    (fst <$> demo_payloads, Receiver seq' [] false).
Proof. apply (feed_delivers true demo_key 41); [exact demo_sendable|done|by vm_compute]. Defined.

Lemma parse_bounds_witness :
  exists payload rest used, parse true demo_key 41 demo_stream = PPkt payload rest /\
    demo_stream = used ++ rest /\ 12 <= blen used /\ blen payload < 35000.
Proof.
  assert (exists payload rest, parse true demo_key 41 demo_stream = PPkt payload rest)
    as (payload & rest & E) by (vm_compute; do 2 eexists; reflexivity).
  pose proof (parse_bounds true demo_key 41 demo_stream) as H. rewrite E in H.
  destruct H as (used & H). exists payload, rest, used. exact (conj E H).
Defined.

Lemma pad_len_correct_witness :
  4 <= pad_len false 17 <= 15 /\ (4 + 1 + 17 + pad_len false 17) mod 8 = 0.
Proof. by apply (pad_len_correct false 17). Defined.
