(* ===== verification/SessionState.v ===== *)
(** * SessionState: the server session record and its packet layer

    The state of [sshd_session.h], the message numbers, [Session::reset], the
    functions that put octets on the TCP handle and the one that takes packets
    off the receive buffer. *)
From S2P Require Import Prelude Wire Platform Crypto Framing.

Inductive Phase :=
  | VERSION | KEX_WAIT_KEXINIT | KEX_WAIT_ECDH | KEX_WAIT_NEWKEYS | AUTH | RUN | CLOSED.

Inductive ChanKind := CK_NONE | CK_CLI | CK_LOG.

Inductive KexAlg := CURVE25519_SHA256 | MLKEM768_X25519.

#[export] Instance Phase_eq_dec : EqDecision Phase.
Proof. solve_decision. Defined.
#[export] Instance ChanKind_eq_dec : EqDecision ChanKind.
Proof. solve_decision. Defined.
#[export] Instance KexAlg_eq_dec : EqDecision KexAlg.
Proof. solve_decision. Defined.

Record Session := mkSession {
  s_slot : Z; s_tcp : Z; s_phase : Phase;
  s_rxBuf : bytes;
  s_peerVersion : bytes; s_ourVersion : bytes;
  s_kexAlg : KexAlg;
  s_peerKexInit : bytes; s_ourKexInit : bytes;
  s_ephPriv : bytes; s_ephPub : bytes;
  s_peerEphPub : bytes; s_peerKexBlob : bytes; s_ourKexBlob : bytes;
  s_sharedK : bytes; s_sessionId : bytes; s_haveSessionId : bool;
  s_c2sKey : bytes; s_s2cKey : bytes;
  s_encInbound : bool; s_encOutbound : bool;
  s_seqIn : Z; s_seqOut : Z;
  s_user : bytes; s_authed : bool;
  s_peerChannel : Z; s_localChannel : Z;
  s_peerWindow : Z; s_localWindow : Z; s_peerMaxPacket : Z;
  s_chanKind : ChanKind; s_backendHandle : Z; s_chanOpen : bool; s_backendClosing : bool
}.

(** The message numbers. *)
Definition MSG_DISCONNECT : Z := 1.
Definition MSG_IGNORE : Z := 2.
Definition MSG_UNIMPLEMENTED : Z := 3.
Definition MSG_DEBUG : Z := 4.
Definition MSG_SERVICE_REQUEST : Z := 5.
Definition MSG_SERVICE_ACCEPT : Z := 6.
Definition MSG_KEXINIT : Z := 20.
Definition MSG_NEWKEYS : Z := 21.
Definition MSG_KEX_ECDH_INIT : Z := 30.
Definition MSG_KEX_ECDH_REPLY : Z := 31.
Definition MSG_USERAUTH_REQUEST : Z := 50.
Definition MSG_USERAUTH_FAILURE : Z := 51.
Definition MSG_USERAUTH_SUCCESS : Z := 52.
Definition MSG_USERAUTH_PK_OK : Z := 60.
Definition MSG_GLOBAL_REQUEST : Z := 80.
Definition MSG_REQUEST_FAILURE : Z := 82.
Definition MSG_CHANNEL_OPEN : Z := 90.
Definition MSG_CHANNEL_OPEN_CONFIRM : Z := 91.
Definition MSG_CHANNEL_OPEN_FAILURE : Z := 92.
Definition MSG_CHANNEL_WINDOW_ADJUST : Z := 93.
Definition MSG_CHANNEL_DATA : Z := 94.
Definition MSG_CHANNEL_EOF : Z := 96.
Definition MSG_CHANNEL_CLOSE : Z := 97.
Definition MSG_CHANNEL_REQUEST : Z := 98.
Definition MSG_CHANNEL_SUCCESS : Z := 99.
Definition MSG_CHANNEL_FAILURE : Z := 100.

Definition LOCAL_CHANNEL_ID : Z := 0.
Definition LOCAL_WINDOW : Z := 32768.
Definition LOCAL_MAXPACKET : Z := 16384.

Definition OUR_VERSION_STR : bytes := str "SSH-2.0-spangap-sshd_0.1".

(** The state the session functions run on: the session they are given by
    reference and the slot table of [sshd.cpp] that [sshdSlotFree] updates. *)
Record srv := mkSrv { ses : Session; slotInUse : list bool }.

Definition SSHD_MAX_SESSIONS : Z := 2.

Definition Srv (A : Type) : Type := M (world srv) A.

Definition getS : M (world srv) Session := gets (fun w => ses (w_loc w)).
Definition updS (f : Session -> Session) : M (world srv) unit :=
  updl (fun l => {| l with ses := f (ses l) |}).

(** [Session::reset] does not depend on what the session held before. *)
Definition reset (_ : Session) : Session :=
  let zeros n := replicate n x00 in
  {| s_slot := -1; s_tcp := -1; s_phase := VERSION;
     s_rxBuf := []; s_peerVersion := []; s_ourVersion := [];
     s_kexAlg := CURVE25519_SHA256; s_peerKexInit := []; s_ourKexInit := [];
     s_ephPriv := zeros 32%nat; s_ephPub := zeros 32%nat; s_peerEphPub := zeros 32%nat;
     s_peerKexBlob := []; s_ourKexBlob := [];
     s_sharedK := zeros 32%nat; s_sessionId := zeros 32%nat; s_haveSessionId := false;
     s_c2sKey := zeros 64%nat; s_s2cKey := zeros 64%nat;
     s_encInbound := false; s_encOutbound := false; s_seqIn := 0; s_seqOut := 0;
     s_user := []; s_authed := false;
     s_peerChannel := 0; s_localChannel := 0; s_peerWindow := 0; s_localWindow := 0;
     s_peerMaxPacket := 0;
     s_chanKind := CK_NONE; s_backendHandle := -1; s_chanOpen := false;
     s_backendClosing := false |}.

Section packets.
Context `{PF : Platform} `{MB : Mbedtls}.

Definition send_raw_tcp (data : bytes) : M (world srv) unit :=
  s ← getS;
  if s_tcp s <? 0 then mret tt else
  itsSend (s_tcp s) data 2000;; mret tt.

Definition send_packet (payload : bytes) : M (world srv) unit :=
  s ← getS;
  if bool_decide (s_phase s = CLOSED) || (s_tcp s <? 0) then mret tt else
  let pad := pad_len (s_encOutbound s) (blen payload) in
  padBytes ← randomBytes (Z.to_nat pad);
  let framed := frame (s_encOutbound s) (s_s2cKey s) (s_seqOut s) pad payload padBytes in
  send_raw_tcp framed;;
  updS (fun s => {| s with s_seqOut := u64 (s_seqOut s + 1) |}).

Definition send_disconnect (code : Z) (msg : bytes) : M (world srv) unit :=
  let p := put_u8 [] MSG_DISCONNECT in
  let p := put_u32 p code in
  let p := put_cstring p msg in
  let p := put_cstring p [] in
  send_packet p;;
  updS (fun s => {| s with s_phase := CLOSED |});;
  s ← getS;
  itsDisconnect (s_tcp s).

(** [1] with a payload, [0] or [-1]; a packet leaves the receive buffer and
    advances the sequence number. *)
Definition parse_packet : M (world srv) (Z * bytes) :=
  s ← getS;
  match parse (s_encInbound s) (s_c2sKey s) (s_seqIn s) (s_rxBuf s) with
  | PNeed => mret (0, [])
  | PErr => mret (-1, [])
  | PPkt payload rest =>
      updS (fun s => {| s with s_rxBuf := rest; s_seqIn := u64 (s_seqIn s + 1) |});;
      mret (1, payload)
  end.

End packets.

(** ** What sending keeps

    A relation between sessions that ignores the outgoing sequence number is
    kept by [send_packet]; one that also allows closing is kept by
    [send_disconnect]. *)
Class IgnoresSeqOut (R : Session -> Session -> Prop) : Prop :=
  ignores_seqOut s n : R s {| s with s_seqOut := u64 n |}.
Class AllowsClosed (R : Session -> Session -> Prop) : Prop :=
  allows_closed s : R s {| s with s_phase := CLOSED |}.

(** The session before and after is related, and the slot table is the same. *)
Definition ses_rel (R : Session -> Session -> Prop) (l l' : srv) : Prop :=
  R (ses l) (ses l') /\ slotInUse l' = slotInUse l.

#[export] Instance ses_rel_preorder R `{!PreOrder R} : PreOrder (ses_rel R).
Proof.
  split.
  - intros l. split; [reflexivity|done].
  - intros l1 l2 l3 [H1 E1] [H2 E2]. split; [by transitivity (ses l2)|congruence].
Qed.

(** [keeps_ses R m]: [m] relates the session by [R] and leaves the slots alone. *)
Abbreviation keeps_ses R m := (keeps (on_loc (ses_rel R)) m).

(** The same without a word about the slot table, for the code that frees a slot. *)
Definition any_slots (R : Session -> Session -> Prop) (l l' : srv) : Prop := R (ses l) (ses l').

#[export] Instance any_slots_preorder R `{!PreOrder R} : PreOrder (any_slots R).
Proof.
  split; unfold any_slots.
  - intros l. reflexivity.
  - intros l1 l2 l3 H1 H2. by transitivity (ses l2).
Qed.

Lemma keeps_any_slots {A} R (m : M (world srv) A) :
  keeps_ses R m -> keeps (on_loc (any_slots R)) m.
Proof. apply keeps_weaken. by intros w w' [H _]. Qed.

(** Preservation of a property of the session, as a relation. *)
Definition imp (P : Session -> Prop) (s s' : Session) : Prop := P s -> P s'.

#[export] Instance imp_preorder P : PreOrder (imp P).
Proof. unfold imp. split; [by intros s H|]. intros s1 s2 s3 H1 H2 H. by apply H2, H1. Qed.

Lemma getS_keeps (Q : world srv -> world srv -> Prop) `{!PreOrder Q} : keeps Q getS.
Proof. intros w. cbn. reflexivity. Qed.
#[export] Hint Resolve getS_keeps : keeps.

Lemma keeps_getS {A} R (f : Session -> M (world srv) A) :
  (forall w, R w (f (ses (w_loc w)) w).2) -> keeps R (getS ≫= f).
Proof. intros Hf w. apply Hf. Qed.

Section keeping.
Context `{PF : Platform} `{MB : Mbedtls}.
Context (R : Session -> Session -> Prop) `{!PreOrder R}.

Lemma updS_keeps f : (forall s, R s (f s)) -> keeps_ses R (updS f).
Proof. intros Hf w. split; [apply Hf|done]. Qed.

Lemma send_raw_tcp_keeps d : keeps_ses R (send_raw_tcp d).
Proof. unfold send_raw_tcp, itsSend. solve_keeps. Qed.

Lemma send_packet_keeps `{!IgnoresSeqOut R} p : keeps_ses R (send_packet p).
Proof.
  unfold send_packet, randomBytes. solve_keeps.
  all: first [apply send_raw_tcp_keeps | apply updS_keeps; intros s; apply ignores_seqOut].
Qed.

Lemma send_disconnect_keeps `{!IgnoresSeqOut R, !AllowsClosed R} c m :
  keeps_ses R (send_disconnect c m).
Proof.
  unfold send_disconnect, itsDisconnect, notify. solve_keeps.
  all: first [apply send_packet_keeps | apply updS_keeps; intros s; apply allows_closed].
Qed.
End keeping.

Lemma updS_hist f : keeps hist_grows (updS f).
Proof. apply updl_hist_grows. Qed.
#[export] Hint Extern 2 (IgnoresSeqOut _) => typeclasses eauto : keeps.
#[export] Hint Extern 2 (AllowsClosed _) => typeclasses eauto : keeps.
#[export] Hint Resolve updS_hist send_raw_tcp_keeps send_packet_keeps
  send_disconnect_keeps : keeps.

Lemma send_packet_hist `{Platform, Mbedtls} p : keeps hist_grows (send_packet p).
Proof. unfold send_packet, send_raw_tcp, randomBytes, itsSend. solve_keeps. Qed.
Lemma send_disconnect_hist `{Platform, Mbedtls} c m : keeps hist_grows (send_disconnect c m).
Proof.
  unfold send_disconnect, itsDisconnect, notify. solve_keeps. apply send_packet_hist.
Qed.
#[export] Hint Resolve send_packet_hist send_disconnect_hist : keeps.

(** Sending is silent about the session: only the sequence number moves. *)
Lemma send_packet_ses `{Platform, Mbedtls} p w :
  let s := ses (w_loc w) in
  ses (w_loc (send_packet p w).2) =
  if bool_decide (s_phase s = CLOSED) || (s_tcp s <? 0) then s
  else {| s with s_seqOut := u64 (s_seqOut s + 1) |}.
Proof.
  unfold send_packet, send_raw_tcp. run_m.
  destruct (_ || _) eqn:E; [done|]. run_m.
  apply orb_false_iff in E as [_ E]. rewrite E. run_m. done.
Qed.

(** What a session with a stream does with a payload: one frame under the next
    sequence number. *)
Definition sent_events `{Mbedtls} (s : Session) (payload pad : bytes) (n : Z) : history :=
  [EvSend (s_tcp s) (frame (s_encOutbound s) (s_s2cKey s) (s_seqOut s)
                       (pad_len (s_encOutbound s) (blen payload)) payload pad) 2000 n;
   EvRandom pad].
Definition sent_one (s : Session) : Session := {| s with s_seqOut := u64 (s_seqOut s + 1) |}.

Lemma send_packet_eq `{Platform, Mbedtls} p w :
  s_phase (ses (w_loc w)) <> CLOSED -> 0 <= s_tcp (ses (w_loc w)) ->
  exists pad n, send_packet p w =
    (tt, World {| ses := sent_one (ses (w_loc w)); slotInUse := slotInUse (w_loc w) |}
           (sent_events (ses (w_loc w)) p pad n ++ w_hist w)).
Proof.
  intros Hph Htcp.
  unfold send_packet, send_raw_tcp, randomBytes, itsSend, getS, gets, call, updS, updl, modify,
    mbind, M_bind, mret, M_ret. cbn [fst snd w_loc w_hist ses].
  rewrite bool_decide_eq_false_2 by done. rewrite (proj2 (Z.ltb_ge _ _) Htcp). cbn [orb].
  cbn [fst snd w_loc w_hist ses]. rewrite (proj2 (Z.ltb_ge _ _) Htcp).
  cbn [fst snd w_loc w_hist ses slotInUse]. by do 2 eexists.
Qed.

(** ** Running handlers one call at a time *)

Lemma run_getS {B} (f : Session -> M (world srv) B) w :
  (getS ≫= f) w = f (ses (w_loc w)) w.
Proof. done. Qed.
Lemma run_updS {B} (g : Session -> Session) (f : unit -> M (world srv) B) w :
  (updS g ≫= f) w =
  f tt (World {| ses := g (ses (w_loc w)); slotInUse := slotInUse (w_loc w) |} (w_hist w)).
Proof. done. Qed.

Ltac run_step :=
  first
    [ rewrite run_assoc | rewrite run_getS | rewrite run_updS | rewrite run_notify
    | rewrite run_call | rewrite run_ret
    | rewrite run_when_true by assumption | rewrite run_when_false by assumption ];
  cbn [ses w_loc w_hist slotInUse].
