(* ===== verification/SessionKex.v ===== *)
(** * SessionKex: version exchange and key exchange of the server

    Exchange hash, key derivation, KEXINIT, algorithm selection and the
    [KEX_ECDH] handlers of [sshd_session.cpp]. *)
From S2P Require Import Prelude Wire Platform Crypto Framing SessionState.

Section kex.
Context `{PF : Platform} `{MB : Mbedtls} `{ED : Ed25519} `{KEM : MlKem}.

Definition build_host_key_blob (pub : bytes) : bytes :=
  let b := put_cstring [] (str "ssh-ed25519") in
  put_string b (take 32 pub).

(** ** Hashing *)

Definition hash_update_K (h : Sha256) (s : Session) : Sha256 :=
  if bool_decide (s_kexAlg s = MLKEM768_X25519) then
    let lenBE := [x00; x00; x00; x20] in
    let h := Sha256_update h lenBE in
    Sha256_update h (s_sharedK s)
  else
    let k := strip_zeros (s_sharedK s) in
    let pad := msb_set k in
    let mpLen := u32 (blen k + (if pad then 1 else 0)) in
    let h := Sha256_update h (be32_bytes mpLen) in
    let h := if pad then Sha256_update h [x00] else h in
    Sha256_update h k.

(** The lambda [putString]. *)
Definition hash_put_string (h : Sha256) (d : bytes) : Sha256 :=
  let h := Sha256_update h (be32_bytes (blen d)) in
  if 0 <? blen d then Sha256_update h d else h.

Definition compute_exchange_hash (s : Session) (kBlob : bytes) : bytes :=
  let h := Sha256_new in
  let h := hash_put_string h (s_peerVersion s) in
  let h := hash_put_string h (s_ourVersion s) in
  let h := hash_put_string h (s_peerKexInit s) in
  let h := hash_put_string h (s_ourKexInit s) in
  let h := hash_put_string h kBlob in
  let h :=
    if bool_decide (s_kexAlg s = MLKEM768_X25519) then
      hash_put_string (hash_put_string h (s_peerKexBlob s)) (s_ourKexBlob s)
    else
      hash_put_string (hash_put_string h (s_peerEphPub s)) (s_ephPub s) in
  let h := hash_update_K h s in
  Sha256_finish h.

(** One turn of the loop of [derive_key]; [out] is what was produced so far. *)
Definition derive_block (s : Session) (letter : byte) (first : bool) (out : bytes) : bytes :=
  let h := Sha256_new in
  let h := hash_update_K h s in
  let h := Sha256_update h (s_sessionId s) in
  let h :=
    if first then Sha256_update (Sha256_update h [letter]) (s_sessionId s)
    else Sha256_update h out in
  Sha256_finish h.

Fixpoint derive_loop (fuel : nat) (s : Session) (letter : byte) (first : bool)
    (out : bytes) (outLen : Z) : bytes :=
  match fuel with
  | O => out
  | S fuel =>
      if blen out <? outLen then
        let prev := derive_block s letter first out in
        let take_n := if 32 <? outLen - blen out then 32 else outLen - blen out in
        derive_loop fuel s letter false (out ++ take (Z.to_nat take_n) prev) outLen
      else out
  end.

(** Every turn adds an octet, so [outLen] turns are enough. *)
Definition derive_key (s : Session) (letter : byte) (outLen : Z) : bytes :=
  derive_loop (Z.to_nat outLen) s letter true [] outLen.

(** ** KEXINIT *)

Definition OUR_KEX_NAMES : bytes :=
  str "mlkem768x25519-sha256,curve25519-sha256,curve25519-sha256@libssh.org".

Definition build_kexinit_payload (out : bytes) : M (world srv) bytes :=
  let out := put_u8 out MSG_KEXINIT in
  cookie ← randomBytes 16;
  let out := out ++ cookie in
  let out := put_namelist out OUR_KEX_NAMES in
  let out := put_namelist out (str "ssh-ed25519") in
  let out := put_namelist out (str "chacha20-poly1305@openssh.com") in
  let out := put_namelist out (str "chacha20-poly1305@openssh.com") in
  let out := put_namelist out [] in
  let out := put_namelist out [] in
  let out := put_namelist out (str "none") in
  let out := put_namelist out (str "none") in
  let out := put_namelist out [] in
  let out := put_namelist out [] in
  let out := put_u8 out 0 in
  mret (put_u32 out 0).

(** The inner loop: the index of the next comma, or the end. *)
Definition scan_comma (csv : bytes) (i : nat) : nat :=
  default (length csv) (find_char x2c csv i).

Fixpoint name_in_csv_loop (fuel : nat) (needle csv : bytes) (i : nat) : bool :=
  match fuel with
  | O => false
  | S fuel =>
      if (i <? length csv)%nat then
        let j := scan_comma csv i in
        if bool_decide ((j - i)%nat = length needle) && bool_decide (substr csv i (length needle) = needle)
        then true
        else name_in_csv_loop fuel needle csv (j + 1)
      else false
  end.

(** The index grows at every turn. *)
Definition name_in_csv (needle csv : bytes) : bool :=
  name_in_csv_loop (S (length csv)) needle csv 0.

Definition select_kex_alg (peerKexInitPayload : bytes) : option KexAlg :=
  if blen peerKexInitPayload <? 17 + 4 then None else
  let v := view_init (drop 17 peerKexInitPayload) in
  let '(list, v) := get_string v in
  match list with
  | None => None
  | Some list =>
      if name_in_csv (str "mlkem768x25519-sha256") list then Some MLKEM768_X25519 else
      if name_in_csv (str "curve25519-sha256") list
         || name_in_csv (str "curve25519-sha256@libssh.org") list
      then Some CURVE25519_SHA256
      else None
  end.

(** ** Version exchange *)

Definition send_our_version : M (world srv) unit :=
  updS (fun s => {| s with s_ourVersion := OUR_VERSION_STR |});;
  s ← getS;
  send_raw_tcp (s_ourVersion s ++ [x0d; x0a]).

Definition send_our_kexinit : M (world srv) unit :=
  p ← build_kexinit_payload [];
  updS (fun s => {| s with s_ourKexInit := p |});;
  s ← getS;
  send_packet (s_ourKexInit s).

Definition consume_version : M (world srv) bool :=
  s ← getS;
  match find_char x0a (s_rxBuf s) 0 with
  | None =>
      when (1024 <? blen (s_rxBuf s)) (send_disconnect 2 (str "preamble too long"));;
      mret false
  | Some nl =>
      let lineLen :=
        if (0 <? nl)%nat && bool_decide (s_rxBuf s !! (nl - 1)%nat = Some x0d)
        then (nl - 1)%nat else nl in
      updS (fun s => {| s with s_peerVersion := take lineLen (s_rxBuf s);
                               s_rxBuf := drop (nl + 1) (s_rxBuf s) |});;
      s ← getS;
      if negb (compare_eq (s_peerVersion s) 0 4 (str "SSH-")) then
        send_disconnect 2 (str "not an SSH client");; mret false
      else if negb (compare_eq (s_peerVersion s) 0 8 (str "SSH-2.0-")) then
        send_disconnect 2 (str "SSH protocol version must be 2.0");; mret false
      else
        send_our_kexinit;;
        updS (fun s => {| s with s_phase := KEX_WAIT_KEXINIT |});;
        mret true
  end.

(** ** KEX_ECDH_REPLY *)

Definition load_host_key : M (world srv) (option (bytes * bytes)) :=
  seedB64 ← storageGetStr (str "secrets.sshd.host_seed") [];
  if bool_decide (seedB64 = []) then
    log LogErr (str "sshd: host seed missing");; mret None
  else
  match mbedtls_base64_decode seedB64 32 with
  | Some seed =>
      if negb (blen seed =? 32) then
        log LogErr (str "sshd: host seed bad base64");; mret None
      else
      match ed25519_pub_from_seed seed with
      | Some pub => mret (Some (seed, pub))
      | None =>
          log LogErr (str "sshd: ed25519 pub-from-seed failed (PSA Ed25519 not enabled?)");;
          mret None
      end
  | None => log LogErr (str "sshd: host seed bad base64");; mret None
  end.

Definition kex_compute_classical : M (world srv) bool :=
  priv ← randomBytes 32;
  updS (fun s => {| s with s_ephPriv := priv |});;
  match x25519_base priv with
  | None => log LogErr (str "sshd: x25519 base failed");; mret false
  | Some pub =>
      updS (fun s => {| s with s_ephPub := pub |});;
      s ← getS;
      match x25519_scalar (s_ephPriv s) (s_peerEphPub s) with
      | None => log LogErr (str "sshd: x25519 scalar failed");; mret false
      | Some k => updS (fun s => {| s with s_sharedK := k |});; mret true
      end
  end.

Definition kex_compute_pq : M (world srv) bool :=
  s ← getS;
  if negb (blen (s_peerKexBlob s) =? MLKEM768_PK_BYTES + 32) then
    log LogErr (str "sshd: bad PQ client_blob size");; mret false
  else
  let kemPk := take (Z.to_nat MLKEM768_PK_BYTES) (s_peerKexBlob s) in
  let peerX := take 32 (drop (Z.to_nat MLKEM768_PK_BYTES) (s_peerKexBlob s)) in
  r ← mlkem768_encap kemPk;
  match r with
  | None => log LogErr (str "sshd: mlkem768 encap failed (bad pk?)");; mret false
  | Some (ct, mlSs) =>
      priv ← randomBytes 32;
      updS (fun s => {| s with s_ephPriv := priv |});;
      match x25519_base priv with
      | None => log LogErr (str "sshd: x25519 base failed");; mret false
      | Some pub =>
          updS (fun s => {| s with s_ephPub := pub |});;
          s ← getS;
          match x25519_scalar (s_ephPriv s) peerX with
          | None => log LogErr (str "sshd: x25519 scalar failed");; mret false
          | Some xSs =>
              let h := Sha256_new in
              let h := Sha256_update h mlSs in
              let h := Sha256_update h xSs in
              updS (fun s => {| s with s_sharedK := Sha256_finish h;
                                       s_ourKexBlob := ct ++ s_ephPub s |});;
              mret true
          end
      end
  end.

Definition send_kex_ecdh_reply : M (world srv) bool :=
  key ← load_host_key;
  match key with
  | None => mret false
  | Some (seed, hostPub) =>
      let kBlob := build_host_key_blob hostPub in
      s ← getS;
      ok ← (if bool_decide (s_kexAlg s = MLKEM768_X25519) then kex_compute_pq
            else kex_compute_classical);
      if negb ok then mret false else
      s ← getS;
      let H := compute_exchange_hash s kBlob in
      when (negb (s_haveSessionId s))
        (updS (fun s => {| s with s_sessionId := H; s_haveSessionId := true |}));;
      match ed25519_sign seed H with
      | None => log LogErr (str "sshd: ed25519 sign failed");; mret false
      | Some sg =>
          let sigBlob := put_cstring [] (str "ssh-ed25519") in
          let sigBlob := put_string sigBlob sg in
          s ← getS;
          let p := put_u8 [] MSG_KEX_ECDH_REPLY in
          let p := put_string p kBlob in
          let p := if bool_decide (s_kexAlg s = MLKEM768_X25519)
                   then put_string p (s_ourKexBlob s)
                   else put_string p (s_ephPub s) in
          let p := put_string p sigBlob in
          send_packet p;;
          mret true
      end
  end.

Definition derive_session_keys : M (world srv) unit :=
  updS (fun s => {| s with s_c2sKey := derive_key s x43 64 |});;
  updS (fun s => {| s with s_s2cKey := derive_key s x44 64 |}).

(** ** Handlers *)

Definition handle_kexinit (payload : bytes) : M (world srv) unit :=
  updS (fun s => {| s with s_peerKexInit := payload |});;
  match select_kex_alg payload with
  | None => send_disconnect 3 (str "no common KEX algorithm")
  | Some alg =>
      updS (fun s => {| s with s_kexAlg := alg |});;
      updS (fun s => {| s with s_phase := KEX_WAIT_ECDH |})
  end.

Definition handle_kex_ecdh_init (payload : bytes) : M (world srv) bool :=
  let v := view_init payload in
  let '(blob, v) := get_string v in
  match blob with
  | None => send_disconnect 2 (str "bad KEX_ECDH_INIT");; mret false
  | Some blob =>
      s ← getS;
      let pq := bool_decide (s_kexAlg s = MLKEM768_X25519) in
      if pq && negb (blen blob =? MLKEM768_PK_BYTES + 32) then
        send_disconnect 2 (str "bad PQ KEX_ECDH_INIT size");; mret false
      else if negb pq && negb (blen blob =? 32) then
        send_disconnect 2 (str "bad KEX_ECDH_INIT size");; mret false
      else
      (if pq then updS (fun s => {| s with s_peerKexBlob := blob |})
       else updS (fun s => {| s with s_peerEphPub := blob |}));;
      ok ← send_kex_ecdh_reply;
      if negb ok then send_disconnect 2 (str "KEX failed");; mret false
      else
      send_packet (put_u8 [] MSG_NEWKEYS);;
      derive_session_keys;;
      updS (fun s => {| s with s_encOutbound := true; s_phase := KEX_WAIT_NEWKEYS |});;
      mret true
  end.

Definition handle_newkeys : M (world srv) unit :=
  updS (fun s => {| s with s_encInbound := true; s_phase := AUTH |}).
End kex.
