(* ===== verification/KexFacts.v ===== *)
(** * KexFacts: what the key-exchange functions compute

    The exchange hash and the key derivation against RFC 4253 (sections 8 and
    7.2), and algorithm selection against membership in the peer's name-list. *)
From S2P Require Import Prelude Wire Platform Crypto Concrete Framing SessionState SessionKex.

Section hash.
Context `{MB : Mbedtls} `{ML : !MbedtlsLaws}.

(** ** Specification *)

(** An RFC 4251 string. *)
Definition ssh_string (d : bytes) : bytes := be32_bytes (blen d) ++ d.

(** [K] as it enters the hash: an mpint for curve25519, a string for the hybrid. *)
Definition K_enc (alg : KexAlg) (K : bytes) : bytes :=
  match alg with
  | CURVE25519_SHA256 => put_mpint_positive [] K
  | MLKEM768_X25519 => ssh_string K
  end.

Definition exchange_hash_spec (alg : KexAlg) (V_C V_S I_C I_S K_S Q_C Q_S K : bytes) : bytes :=
  sha256 (ssh_string V_C ++ ssh_string V_S ++ ssh_string I_C ++ ssh_string I_S ++
          ssh_string K_S ++ ssh_string Q_C ++ ssh_string Q_S ++ K_enc alg K).

(** RFC 4253 section 7.2: [K1 = HASH(K || H || X || session_id)],
    [K(n+1) = HASH(K || H || K1 || ... || Kn)]; the key is a prefix of
    [K1 || K2 || ...]. *)
Fixpoint kdf_stream (n : nat) (Kenc H : bytes) (X : byte) (sid : bytes) : bytes :=
  match n with
  | O => []
  | S m =>
      let prev := kdf_stream m Kenc H X sid in
      prev ++ sha256 (Kenc ++ H ++ (if (m =? 0)%nat then X :: sid else prev))
  end.

(** ** The absorbing functions *)

Lemma absorbed_hash_put_string h d x :
  absorbed h d -> absorbed (hash_put_string h x) (d ++ ssh_string x).
Proof.
  intros H. unfold hash_put_string, ssh_string.
  apply (absorbed_update _ _ (be32_bytes (blen x))) in H.
  destruct (Z.ltb_spec 0 (blen x)) as [Hx|Hx].
  - rewrite app_assoc. by apply absorbed_update.
  - pose proof (blen_nonneg x). assert (x = []) as -> by (apply blen_zero; lia).
    by rewrite app_nil_r.
Qed.

Lemma absorbed_hash_update_K h d s :
  length (s_sharedK s) = 32%nat -> absorbed h d ->
  absorbed (hash_update_K h s) (d ++ K_enc (s_kexAlg s) (s_sharedK s)).
Proof.
  intros Hk H. unfold hash_update_K.
  assert (Hb : blen (s_sharedK s) = 32) by (unfold blen; lia).
  destruct (s_kexAlg s) eqn:E; cbn [bool_decide decide decide_rel KexAlg_eq_dec K_enc].
  - rewrite bool_decide_eq_false_2 by done. rewrite put_mpint_positive_body by lia.
    cbn [app]. unfold mpint_body.
    pose proof (strip_zeros_length (s_sharedK s)). pose proof (blen_nonneg (strip_zeros (s_sharedK s))).
    destruct (msb_set (strip_zeros (s_sharedK s))).
    + rewrite u32_small by lia. rewrite blen_cons, (Z.add_comm _ 1).
      change (x00 :: strip_zeros (s_sharedK s)) with ([x00] ++ strip_zeros (s_sharedK s)).
      rewrite !app_assoc. by repeat apply absorbed_update.
    + rewrite Z.add_0_r, u32_small by lia.
      rewrite !app_assoc. by repeat apply absorbed_update.
  - rewrite bool_decide_eq_true_2 by done.
    unfold ssh_string. rewrite Hb, !app_assoc. by repeat apply absorbed_update.
Qed.

(** ** Key derivation *)

Lemma derive_block_spec s letter first out :
  length (s_sharedK s) = 32%nat ->
  derive_block s letter first out =
  sha256 (K_enc (s_kexAlg s) (s_sharedK s) ++ s_sessionId s ++
          (if first then letter :: s_sessionId s else out)).
Proof.
  intros Hk. unfold derive_block. apply absorbed_finish.
  pose proof (absorbed_hash_update_K _ _ _ Hk absorbed_new) as H. cbn [app] in H.
  destruct first.
  - change (letter :: s_sessionId s) with ([letter] ++ s_sessionId s).
    rewrite !app_assoc. by repeat apply absorbed_update.
  - rewrite !app_assoc. by repeat apply absorbed_update.
Qed.

Lemma kdf_stream_length n Kenc H X sid :
  length (kdf_stream n Kenc H X sid) = (32 * n)%nat.
Proof.
  induction n as [|n IH]; [done|]. cbn [kdf_stream]. rewrite length_app, IH.
  rewrite sha256_length. lia.
Qed.

Lemma derive_loop_spec s letter outLen n m :
  length (s_sharedK s) = 32%nat ->
  let st k := kdf_stream k (K_enc (s_kexAlg s) (s_sharedK s)) (s_sessionId s) letter (s_sessionId s) in
  outLen <= 32 * (Z.of_nat n + Z.of_nat m) -> 0 <= outLen ->
  derive_loop m s letter (n =? 0)%nat (take (Z.to_nat outLen) (st n)) outLen =
  take (Z.to_nat outLen) (st (n + m)%nat).
Proof.
  intros Hk st Ho H0. revert n Ho. induction m as [|m IH]; intros n Ho.
  { by rewrite Nat.add_0_r. }
  assert (Hl : length (st n) = (32 * n)%nat) by apply kdf_stream_length.
  assert (Hmono : forall k j, exists t, st (k + j)%nat = st k ++ t).
  { intros k j. induction j as [|j [t IHj]]; [exists []; by rewrite Nat.add_0_r, app_nil_r|].
    rewrite Nat.add_succ_r. unfold st at 1. cbn [kdf_stream]. fold (st (k + j)%nat).
    rewrite IHj, <- app_assoc. by eexists. }
  cbn [derive_loop]. destruct (Z.ltb_spec (blen (take (Z.to_nat outLen) (st n))) outLen) as [Hlt|Hge].
  - assert (Hfull : take (Z.to_nat outLen) (st n) = st n).
    { apply take_ge. unfold blen in Hlt. rewrite length_take in Hlt. lia. }
    rewrite Hfull in *. unfold blen in Hlt. rewrite Hl in Hlt.
    rewrite derive_block_spec by done.
    replace (n + S m)%nat with (S n + m)%nat by lia. rewrite <- (IH (S n)) by lia.
    f_equal.
    change (st (S n)) with
      (st n ++ sha256 (K_enc (s_kexAlg s) (s_sharedK s) ++ s_sessionId s ++
                       (if (n =? 0)%nat then letter :: s_sessionId s else st n))).
    rewrite take_app, Hfull, Hl. f_equal. unfold blen. rewrite Hl.
    set (blk := sha256 _). assert (Hblk : length blk = 32%nat) by apply sha256_length.
    destruct (Z.ltb_spec 32 (outLen - Z.of_nat (32 * n))).
    + rewrite !take_ge by lia. done.
    + f_equal. lia.
  - destruct (Hmono n (S m)) as [t ->]. unfold blen in Hge. rewrite length_take in Hge.
    rewrite take_app_le by lia. done.
Qed.

Lemma derive_key_eq s letter outLen n :
  length (s_sharedK s) = 32%nat -> 0 <= outLen <= 32 * Z.of_nat n ->
  derive_key s letter outLen =
  take (Z.to_nat outLen)
    (kdf_stream n (K_enc (s_kexAlg s) (s_sharedK s)) (s_sessionId s) letter (s_sessionId s)).
Proof.
  intros Hk Ho. unfold derive_key.
  set (st := fun k => kdf_stream k (K_enc (s_kexAlg s) (s_sharedK s)) (s_sessionId s) letter (s_sessionId s)).
  pose proof (derive_loop_spec s letter outLen 0 (Z.to_nat outLen) Hk ltac:(lia) ltac:(lia)) as H.
  cbn [Nat.eqb kdf_stream] in H. rewrite take_nil in H. rewrite H. cbn [Nat.add].
  fold (st n). fold (st (Z.to_nat outLen)).
  assert (Hpre : forall k j, (k <= j)%nat -> (Z.to_nat outLen <= 32 * k)%nat ->
            take (Z.to_nat outLen) (st j) = take (Z.to_nat outLen) (st k)).
  { intros k j Hkj Hlen.
    induction Hkj as [|j Hkj IH]; [done|]. rewrite <- IH.
    unfold st at 1. cbn [kdf_stream]. fold (st j). apply take_app_le.
    unfold st. rewrite kdf_stream_length. lia. }
  destruct (Nat.le_gt_cases n (Z.to_nat outLen)).
  - apply Hpre; lia.
  - symmetry. apply Hpre; lia.
Qed.

(** ** Exchange hash *)

Definition Q_C (s : Session) : bytes :=
  match s_kexAlg s with CURVE25519_SHA256 => s_peerEphPub s | MLKEM768_X25519 => s_peerKexBlob s end.
Definition Q_S (s : Session) : bytes :=
  match s_kexAlg s with CURVE25519_SHA256 => s_ephPub s | MLKEM768_X25519 => s_ourKexBlob s end.

Lemma exchange_hash_eq s kBlob :
  length (s_sharedK s) = 32%nat ->
  compute_exchange_hash s kBlob =
  exchange_hash_spec (s_kexAlg s) (s_peerVersion s) (s_ourVersion s)
    (s_peerKexInit s) (s_ourKexInit s) kBlob (Q_C s) (Q_S s) (s_sharedK s).
Proof.
  intros Hk. unfold compute_exchange_hash, exchange_hash_spec, Q_C, Q_S.
  apply absorbed_finish. rewrite !app_assoc. apply absorbed_hash_update_K; [done|].
  destruct (s_kexAlg s); [rewrite bool_decide_eq_false_2 by done|rewrite bool_decide_eq_true_2 by done];
    repeat apply absorbed_hash_put_string; change (ssh_string (s_peerVersion s)) with
      ([] ++ ssh_string (s_peerVersion s)); apply absorbed_hash_put_string, absorbed_new.
Qed.
End hash.

(** ** Name-lists *)

(** The names of a comma-separated list. *)
Fixpoint split_on (c : byte) (l : bytes) : list bytes :=
  match l with
  | [] => [[]]
  | x :: l' =>
      if bool_decide (x = c) then [] :: split_on c l'
      else match split_on c l' with
           | w :: ws => (x :: w) :: ws
           | [] => [[x]]
           end
  end.

Definition names (csv : bytes) : list bytes := split_on x2c csv.

Lemma split_on_app c s1 s2 : c ∉ s1 -> split_on c (s1 ++ c :: s2) = s1 :: split_on c s2.
Proof.
  induction s1 as [|x s1 IH]; intros H; cbn.
  - by rewrite bool_decide_eq_true_2.
  - apply not_elem_of_cons in H as [Hx H]. rewrite bool_decide_eq_false_2 by congruence.
    by rewrite IH.
Qed.

Lemma split_on_none c s : c ∉ s -> split_on c s = [s].
Proof.
  induction s as [|x s IH]; intros H; cbn; [done|].
  apply not_elem_of_cons in H as [Hx H]. rewrite bool_decide_eq_false_2 by congruence.
  by rewrite IH.
Qed.

Lemma scan_comma_cases csv i :
  (i <= length csv)%nat ->
  (exists s1 s2, drop i csv = s1 ++ x2c :: s2 /\ (x2c ∉ s1) /\
     scan_comma csv i = (i + length s1)%nat /\ drop (scan_comma csv i + 1) csv = s2 /\
     (scan_comma csv i < length csv)%nat) \/
  ((x2c ∉ drop i csv) /\ scan_comma csv i = length csv).
Proof.
  intros Hi. unfold scan_comma, find_char.
  destruct (find_from x2c (drop i csv) i) as [j|] eqn:E; cbn [from_option id]; unfold id.
  - left. apply find_from_Some in E as (Hij & Hl & Hmin).
    exists (take (j - i) (drop i csv)), (drop (S (j - i)) (drop i csv)).
    apply lookup_lt_Some in Hl as Hlt. rewrite length_drop in Hlt. split_and!.
    + symmetry. by apply take_drop_middle.
    + intros (k & Hk)%list_elem_of_lookup. apply lookup_take_Some in Hk as [Hk Hkn].
      by apply (Hmin k).
    + rewrite length_take, length_drop. lia.
    + rewrite drop_drop. f_equal. lia.
    + lia.
  - right. split; [by apply find_from_None in E|done].
Qed.

Lemma name_in_csv_loop_spec fuel needle csv i :
  needle <> [] -> (i <= S (length csv))%nat -> (S (length csv) - i <= fuel)%nat ->
  (name_in_csv_loop fuel needle csv i = true) <-> (i <= length csv)%nat /\ needle ∈ names (drop i csv).
Proof.
  intros Hne. revert i. induction fuel as [|fuel IH]; intros i Hi Hf; cbn [name_in_csv_loop].
  { split; [done|]. intros [? _]. lia. }
  destruct (Nat.ltb_spec i (length csv)) as [Hlt|Hge].
  2:{ split; [done|]. intros [Hle Hin]. rewrite drop_ge in Hin by lia.
      apply list_elem_of_singleton in Hin. done. }
  unfold names. destruct (scan_comma_cases csv i ltac:(lia)) as [(s1 & s2 & Hd & Hs1 & Hj & Hd2 & Hjl)|[Hn Hj]].
  - rewrite Hd, split_on_app, elem_of_cons by done.
    specialize (IH (scan_comma csv i + 1)%nat ltac:(lia) ltac:(lia)).
    unfold names in IH. rewrite Hd2 in IH.
    assert (Hsub : bool_decide ((scan_comma csv i - i)%nat = length needle) &&
                   bool_decide (substr csv i (length needle) = needle) = true <-> (needle = s1)).
    { rewrite andb_true_iff, !bool_decide_eq_true, Hj. unfold substr. rewrite Hd.
      replace (i + length s1 - i)%nat with (length s1) by lia. split.
      - intros [<- <-]. by rewrite take_app_length.
      - intros ->. by rewrite take_app_length. }
    destruct (_ && _).
    { split; [intros _; split; [lia|left; by apply Hsub]|done]. }
    rewrite IH. split; [intros [_ H]; split; [lia|by right]|].
    intros [_ [H|H]]; [apply Hsub in H; done|]. split; [lia|done].
  - rewrite split_on_none, list_elem_of_singleton by done. rewrite Hj.
    assert (Hsub : bool_decide ((length csv - i)%nat = length needle) &&
                   bool_decide (substr csv i (length needle) = needle) = true <-> (needle = drop i csv)).
    { rewrite andb_true_iff, !bool_decide_eq_true. unfold substr. rewrite <- length_drop. split.
      - intros [<- <-]. by rewrite firstn_all.
      - intros ->. by rewrite firstn_all. }
    destruct (_ && _).
    { split; [intros _; split; [lia|by apply Hsub]|done]. }
    split.
    + intros H. apply IH in H; [|lia|lia]. lia.
    + intros [_ H]. by apply Hsub in H.
Qed.

Lemma name_in_csv_iff needle csv :
  needle <> [] -> (name_in_csv needle csv = true) <-> needle ∈ names csv.
Proof.
  intros Hne. unfold name_in_csv. rewrite name_in_csv_loop_spec by (done || lia).
  rewrite drop_0. split; [tauto|intros; split; [lia|done]].
Qed.

(** The first name-list of a KEXINIT payload: after the type octet and the cookie. *)
Definition kexinit_names (payload : bytes) : option (list bytes) :=
  names <$> (get_string (view_init (drop 17 payload))).1.

Definition mlkem_name : bytes := str "mlkem768x25519-sha256".
Definition curve_name : bytes := str "curve25519-sha256".
Definition curve_libssh_name : bytes := str "curve25519-sha256@libssh.org".

(** The server's preference order, as it is documented. *)
Definition server_choice (peer : list bytes) : option KexAlg :=
  if bool_decide (mlkem_name ∈ peer) then Some MLKEM768_X25519
  else if bool_decide (curve_name ∈ peer \/ curve_libssh_name ∈ peer) then Some CURVE25519_SHA256
  else None.

(** RFC 4253 section 7.1: the first name of the client's list that the server has. *)
Definition alg_of_name (n : bytes) : option KexAlg :=
  if bool_decide (n = mlkem_name) then Some MLKEM768_X25519
  else if bool_decide (n = curve_name) || bool_decide (n = curve_libssh_name)
  then Some CURVE25519_SHA256 else None.

Fixpoint rfc_choice (peer : list bytes) : option KexAlg :=
  match peer with
  | [] => None
  | n :: peer => match alg_of_name n with Some a => Some a | None => rfc_choice peer end
  end.

Lemma curve_orb list :
  name_in_csv curve_name list || name_in_csv curve_libssh_name list =
  bool_decide (curve_name ∈ names list \/ curve_libssh_name ∈ names list).
Proof.
  apply Bool.eq_iff_eq_true. rewrite orb_true_iff, bool_decide_eq_true.
  by rewrite !name_in_csv_iff by done.
Qed.

Lemma select_kex_alg_names payload :
  select_kex_alg payload =
  if blen payload <? 17 + 4 then None
  else kexinit_names payload ≫= server_choice.
Proof.
  unfold select_kex_alg, kexinit_names, server_choice.
  destruct (blen payload <? 17 + 4); [done|].
  destruct (get_string (view_init (drop 17 payload))) as [[list|] v]; cbn [fst fmap option_fmap option_map mbind option_bind]; [|done].
  fold mlkem_name curve_name curve_libssh_name. rewrite curve_orb.
  destruct (name_in_csv mlkem_name list) eqn:E.
  - apply name_in_csv_iff in E; [|done]. by rewrite (bool_decide_eq_true_2 (mlkem_name ∈ _)).
  - rewrite (bool_decide_eq_false_2 (mlkem_name ∈ _)); [done|].
    intros H. apply name_in_csv_iff in H; [congruence|done].
Qed.

(** ** The two preference rules *)

Lemma rfc_choice_mlkem l : rfc_choice l = Some MLKEM768_X25519 -> mlkem_name ∈ l.
Proof.
  induction l as [|n l IH]; cbn; [done|]. unfold alg_of_name. rewrite elem_of_cons.
  case_bool_decide as H1; [by left|]. destruct (_ || _); [done|]. intros H. right. by apply IH.
Qed.

Lemma rfc_choice_curve l : mlkem_name ∉ l -> rfc_choice l = server_choice l.
Proof.
  intros H. unfold server_choice. rewrite bool_decide_eq_false_2 by done.
  induction l as [|n l IH]; cbn.
  { rewrite bool_decide_eq_false_2; [done|]. by intros [?%elem_of_nil|?%elem_of_nil]. }
  apply not_elem_of_cons in H as [Hn H]. unfold alg_of_name.
  rewrite bool_decide_eq_false_2 by congruence.
  destruct (bool_decide (n = curve_name) || bool_decide (n = curve_libssh_name)) eqn:E.
  - rewrite bool_decide_eq_true_2; [done|].
    apply orb_true_iff in E as [->%bool_decide_eq_true| ->%bool_decide_eq_true];
      [left|right]; by apply list_elem_of_here.
  - apply orb_false_iff in E as [E1%bool_decide_eq_false E2%bool_decide_eq_false].
    rewrite IH by done.
    case_bool_decide as Hc.
    + rewrite bool_decide_eq_true_2; [done|]. rewrite !elem_of_cons. tauto.
    + rewrite bool_decide_eq_false_2; [done|]. rewrite !elem_of_cons.
      intros [[H1|H1]|[H1|H1]]; [by apply E1|tauto|by apply E2|tauto].
Qed.

Lemma server_rfc_agree l :
  server_choice l = rfc_choice l <-> ~ (mlkem_name ∈ l /\ rfc_choice l <> Some MLKEM768_X25519).
Proof.
  destruct (decide (mlkem_name ∈ l)) as [Hin|Hni].
  - unfold server_choice. rewrite bool_decide_eq_true_2 by done.
    destruct (decide (rfc_choice l = Some MLKEM768_X25519)) as [E|E].
    + rewrite E. intuition.
    + split; [congruence|]. intros []. done.
  - rewrite rfc_choice_curve by done. intuition.
Qed.

(** A KEXINIT payload with the given key-exchange names, as a client sends it. *)
Definition kexinit_with (csv : bytes) : bytes :=
  put_namelist (x14 :: replicate 16 x00) csv.

(** ** Properties *)

(** C7: The server's exchange hash is the one of RFC 4253 section 8 (and of the
    hybrid method): SHA-256 over the two version lines, the two KEXINIT payloads,
    the host key, the two public values and the shared secret, each in its wire
    encoding, whatever the negotiated method. *)
Theorem compute_exchange_hash_correct `{MB : Mbedtls} `{!MbedtlsLaws} s kBlob :
  length (s_sharedK s) = 32%nat ->
  compute_exchange_hash s kBlob =
  exchange_hash_spec (s_kexAlg s) (s_peerVersion s) (s_ourVersion s)
    (s_peerKexInit s) (s_ourKexInit s) kBlob (Q_C s) (Q_S s) (s_sharedK s).
Proof. apply exchange_hash_eq. Qed.

(** C8: The key derivation is the one of RFC 4253 section 7.2: the key is the
    prefix of the asked length of [K1 || K2 || ...], for every length and both
    encodings of the shared secret. *)
Theorem derive_key_correct `{MB : Mbedtls} `{!MbedtlsLaws} s letter outLen n :
  length (s_sharedK s) = 32%nat -> 0 <= outLen <= 32 * Z.of_nat n ->
  derive_key s letter outLen =
  take (Z.to_nat outLen)
    (kdf_stream n (K_enc (s_kexAlg s) (s_sharedK s)) (s_sessionId s) letter (s_sessionId s)).
Proof. apply derive_key_eq. Qed.

(** Algorithm selection reads exactly the first name-list of the peer's
    KEXINIT and applies the server's preference to the set of its names: the
    hybrid if it is listed, else curve25519 under either of its names, else
    nothing; a name that only contains one of ours does not count. *)
Theorem select_kex_alg_correct payload :
  select_kex_alg payload =
  if blen payload <? 17 + 4 then None else kexinit_names payload ≫= server_choice.
Proof. apply select_kex_alg_names. Qed.

(** The result agrees with the first-match-in-the-client's-order rule of RFC
    4253 section 7.1 exactly for the clients that do not list the hybrid behind
    curve25519. *)
Theorem select_kex_alg_rfc payload l :
  17 + 4 <= blen payload -> kexinit_names payload = Some l ->
  select_kex_alg payload = rfc_choice l <->
  ~ (mlkem_name ∈ l /\ rfc_choice l <> Some MLKEM768_X25519).
Proof.
  intros Hl Hn. rewrite select_kex_alg_names. ltb_false. rewrite Hn. apply server_rfc_agree.
Qed.

(** ** Witnesses *)

Definition demo_session (alg : KexAlg) : Session :=
  mkSession 0 1 KEX_WAIT_ECDH [] (str "SSH-2.0-peer") (str "SSH-2.0-host") alg [x14; x01] [x14; x02]
    [] (replicate 32 x03) (replicate 32 x04) (replicate 40 x05) (replicate 50 x06)
    (x00 :: replicate 31 x81) (replicate 32 x07) true [] [] false false 0 0 [] false 0 0 0 0 0
    CK_NONE (-1) false false.

Lemma compute_exchange_hash_correct_witness :
  compute_exchange_hash (demo_session CURVE25519_SHA256) [x09] =
  exchange_hash_spec CURVE25519_SHA256 (str "SSH-2.0-peer") (str "SSH-2.0-host") [x14; x01]
    [x14; x02] [x09] (replicate 32 x04) (replicate 32 x03) (x00 :: replicate 31 x81).
Proof. by apply (compute_exchange_hash_correct (demo_session CURVE25519_SHA256) [x09]). Defined.

Lemma derive_key_correct_witness :
  let s := demo_session MLKEM768_X25519 in
  derive_key s x43 70 =
  take 70 (kdf_stream 3 (K_enc MLKEM768_X25519 (s_sharedK s)) (s_sessionId s) x43 (s_sessionId s)).
Proof. by apply (derive_key_correct (demo_session MLKEM768_X25519) x43 70 3). Defined.

(** A client that would rather have curve25519 gets the hybrid. *)
Lemma select_kex_alg_rfc_witness :
  let l := [curve_name; mlkem_name] in
  kexinit_names (kexinit_with (str "curve25519-sha256,mlkem768x25519-sha256")) = Some l /\
  (select_kex_alg (kexinit_with (str "curve25519-sha256,mlkem768x25519-sha256")) = rfc_choice l <->
   ~ (mlkem_name ∈ l /\ rfc_choice l <> Some MLKEM768_X25519)).
Proof.
  split; [by vm_compute|].
  apply (select_kex_alg_rfc (kexinit_with (str "curve25519-sha256,mlkem768x25519-sha256"))); by vm_compute.
Defined.
