(* ===== verification/SessionAuth.v ===== *)
(** * SessionAuth: the userauth phase of the server *)
From S2P Require Import Prelude Wire Platform Crypto Framing SessionState SessionKex.

Section auth.
Context `{PF : Platform} `{MB : Mbedtls} `{ED : Ed25519} `{KEM : MlKem}.

(** The key a stored [authorized_keys] line offers for comparison; [None] is
    each [continue] of the loop body. *)
Definition line_candidate (v : bytes) : option bytes :=
  if negb (compare_eq v 0 12 (str "ssh-ed25519 ")) then None else
  let? sp1 := find_char x20 v 0 in
  let b64 :=
    match find_char x20 v (sp1 + 1) with
    | None => drop (sp1 + 1) v
    | Some sp2 => substr v (sp1 + 1) (sp2 - sp1 - 1)
    end in
  let? blob := mbedtls_base64_decode b64 80 in
  let v2 := view_init blob in
  let '(alg, v2) := get_string v2 in
  let? alg := alg in
  if negb (bool_decide (alg = str "ssh-ed25519")) then None else
  let '(candidate, v2) := get_string v2 in
  let? candidate := candidate in
  if negb (blen candidate =? 32) then None else Some candidate.

Definition authorized_key_name (i : Z) : bytes :=
  snprintf 80 (str "s.sshd.authorized_keys." ++ fmt_d i ++ str ".line").

(** [k] entries are left, the next one is number [i]. *)
Fixpoint authorized_loop (k : nat) (i : Z) (pub : bytes) : M (world srv) bool :=
  match k with
  | O => mret false
  | S k =>
      v ← storageGetStr (authorized_key_name i) [];
      match line_candidate v with
      | None => authorized_loop k (i + 1) pub
      | Some candidate =>
          if bool_decide (candidate = take 32 pub) then mret true
          else authorized_loop k (i + 1) pub
      end
  end.

Definition authorized_pub_matches (pub : bytes) : M (world srv) bool :=
  n ← storageArrayCount (str "s.sshd.authorized_keys.");
  authorized_loop (Z.to_nat n) 0 pub.

Definition send_userauth_failure (partial : bool) : M (world srv) unit :=
  let p := put_u8 [] MSG_USERAUTH_FAILURE in
  let p := put_cstring p (str "publickey,password") in
  let p := put_u8 p (if partial then 1 else 0) in
  send_packet p.

Definition send_userauth_success : M (world srv) unit :=
  let p := put_u8 [] MSG_USERAUTH_SUCCESS in
  send_packet p;;
  updS (fun s => {| s with s_authed := true; s_phase := RUN |}).

Definition handle_service_request (payload : bytes) : M (world srv) bool :=
  let v := view_init payload in
  let '(name, v) := get_string v in
  match name with
  | None => send_disconnect 2 (str "bad SERVICE_REQUEST");; mret false
  | Some name =>
      if negb (bool_decide (name = str "ssh-userauth")) then
        send_disconnect 7 (str "only ssh-userauth supported");; mret false
      else
      let p := put_u8 [] MSG_SERVICE_ACCEPT in
      let p := put_string p name in
      send_packet p;;
      mret true
  end.

(** [sigBlob] and [pkBlob] are [ssh-string("ssh-ed25519") || ssh-string(body)]. *)
Definition ed25519_blob_body (blob : bytes) (len : Z) : option bytes :=
  let v := view_init blob in
  let '(alg, v) := get_string v in
  let? alg := alg in
  if negb (bool_decide (alg = str "ssh-ed25519")) then None else
  let '(body, v) := get_string v in
  let? body := body in
  if negb (blen body =? len) then None else Some body.

(** The data a publickey signature covers. *)
Definition userauth_signed_data (sessionId user svc pkBlob : bytes) : bytes :=
  let t := put_string [] sessionId in
  let t := put_u8 t MSG_USERAUTH_REQUEST in
  let t := put_string t user in
  let t := put_string t svc in
  let t := put_cstring t (str "publickey") in
  let t := put_u8 t 1 in
  let t := put_cstring t (str "ssh-ed25519") in
  put_string t pkBlob.

Definition userauth_bad : M (world srv) bool :=
  send_disconnect 2 (str "bad USERAUTH_REQUEST");; mret false.

Definition userauth_publickey (v : View) (user svc : bytes) : M (world srv) bool :=
  let '(hasSig, v) := get_u8 v in
  let '(alg, v) := get_string v in
  match alg with None => userauth_bad | Some alg =>
  let '(pkBlob, v) := get_string v in
  match pkBlob with None => userauth_bad | Some pkBlob =>
  if negb (bool_decide (alg = str "ssh-ed25519")) then
    send_userauth_failure false;; mret true
  else
  match ed25519_blob_body pkBlob 32 with
  | None => send_userauth_failure false;; mret true
  | Some pub32 =>
      known ← authorized_pub_matches pub32;
      if negb known then send_userauth_failure false;; mret true
      else if hasSig =? 0 then
        let p := put_u8 [] MSG_USERAUTH_PK_OK in
        let p := put_string p alg in
        let p := put_string p pkBlob in
        send_packet p;;
        mret true
      else
      let '(sigBlob, v) := get_string v in
      match sigBlob with None => userauth_bad | Some sigBlob =>
      match ed25519_blob_body sigBlob 64 with
      | None => send_userauth_failure false;; mret true
      | Some sig64 =>
          s ← getS;
          let toSign := userauth_signed_data (s_sessionId s) user svc pkBlob in
          if negb (ed25519_verify pub32 toSign sig64) then
            send_userauth_failure false;; mret true
          else send_userauth_success;; mret true
      end end
  end end end.

Definition userauth_password (v : View) : M (world srv) bool :=
  let '(hasChange, v) := get_u8 v in
  if negb (hasChange =? 0) then send_userauth_failure false;; mret true
  else
  let '(pass, v) := get_string v in
  match pass with
  | None => userauth_bad
  | Some pw =>
      ok ← authLogin (c_str pw) (str "admin");
      (if (ok : bool) then send_userauth_success else send_userauth_failure false);;
      mret true
  end.

Definition handle_userauth_request (payload : bytes) : M (world srv) bool :=
  let v := view_init payload in
  let '(user, v) := get_string v in
  match user with None => userauth_bad | Some user =>
  let '(svc, v) := get_string v in
  match svc with None => userauth_bad | Some svc =>
  let '(method, v) := get_string v in
  match method with None => userauth_bad | Some method =>
  updS (fun s => {| s with s_user := user |});;
  if bool_decide (method = str "publickey") then userauth_publickey v user svc
  else if bool_decide (method = str "password") then userauth_password v
  else send_userauth_failure false;; mret true
  end end end.
End auth.
