(* ===== verification/SessionChannel.v ===== *)
(** * SessionChannel: the one session channel of the server and its backend *)
From S2P Require Import Prelude Wire Platform Crypto Framing SessionState SessionKex.

Section channel.
Context `{PF : Platform} `{MB : Mbedtls} `{ED : Ed25519} `{KEM : MlKem}.

(** ** Channel messages *)

Definition send_channel_open_failure (peerChan reason : Z) (desc : bytes) : M (world srv) unit :=
  let p := put_u8 [] MSG_CHANNEL_OPEN_FAILURE in
  let p := put_u32 p peerChan in
  let p := put_u32 p reason in
  let p := put_cstring p desc in
  let p := put_cstring p [] in
  send_packet p.

Definition send_channel_open_confirm : M (world srv) unit :=
  s ← getS;
  let p := put_u8 [] MSG_CHANNEL_OPEN_CONFIRM in
  let p := put_u32 p (s_peerChannel s) in
  let p := put_u32 p (s_localChannel s) in
  let p := put_u32 p LOCAL_WINDOW in
  let p := put_u32 p LOCAL_MAXPACKET in
  send_packet p.

Definition send_channel_request_reply (success : bool) : M (world srv) unit :=
  s ← getS;
  let p := put_u8 [] (if success then MSG_CHANNEL_SUCCESS else MSG_CHANNEL_FAILURE) in
  send_packet (put_u32 p (s_peerChannel s)).

Definition channel_data_payload (chan : Z) (data : bytes) : bytes :=
  let p := put_u8 [] MSG_CHANNEL_DATA in
  let p := put_u32 p chan in
  put_string p data.

Definition send_channel_data (data : bytes) : M (world srv) unit :=
  s ← getS;
  send_packet (channel_data_payload (s_peerChannel s) data).

Definition send_channel_window_adjust (add : Z) : M (world srv) unit :=
  s ← getS;
  let p := put_u8 [] MSG_CHANNEL_WINDOW_ADJUST in
  let p := put_u32 p (s_peerChannel s) in
  send_packet (put_u32 p add).

Definition send_channel_close : M (world srv) unit :=
  s ← getS;
  send_packet (put_u32 (put_u8 [] MSG_CHANNEL_CLOSE) (s_peerChannel s)).

Definition send_channel_eof : M (world srv) unit :=
  s ← getS;
  send_packet (put_u32 (put_u8 [] MSG_CHANNEL_EOF) (s_peerChannel s)).

Definition send_exit_status (status : Z) : M (world srv) unit :=
  s ← getS;
  if bool_decide (s_phase s = CLOSED) || (s_tcp s <? 0) then mret tt else
  let p := put_u8 [] MSG_CHANNEL_REQUEST in
  let p := put_u32 p (s_peerChannel s) in
  let p := put_cstring p (str "exit-status") in
  let p := put_u8 p 0 in
  send_packet (put_u32 p status).

(** ** Backend *)

Definition open_backend_with_mode (sessionSlot : Z) (cliMode : cli_mode) : M (world srv) bool :=
  s ← getS;
  (match s_chanKind s with
   | CK_CLI =>
       color ← storageGetInt (str "s.sshd.color") 0;
       let noPrompt := match cliMode with CLI_LINE => true | CLI_ANSI => false end in
       h ← itsConnect (CliPort cliMode (negb (color =? 0)) noPrompt) 500 sessionSlot;
       updS (fun s => {| s with s_backendHandle := h |})
   | CK_LOG =>
       logColor ← storageGetInt (str "s.sshd.logcolor") 0;
       h ← itsConnect (LogPort (negb (logColor =? 0))) 500 sessionSlot;
       updS (fun s => {| s with s_backendHandle := h |})
   | CK_NONE => mret tt
   end);;
  s ← getS;
  mret (0 <=? s_backendHandle s).

Definition open_backend (sessionSlot : Z) : M (world srv) bool :=
  open_backend_with_mode sessionSlot CLI_ANSI.

Definition open_backend_line (sessionSlot : Z) : M (world srv) bool :=
  open_backend_with_mode sessionSlot CLI_LINE.

(** One turn of the drain loop: at most 1024 octets, the peer's window and its
    packet size. *)
Definition backend_want (s : Session) : Z :=
  let want := 1024 in
  let want := if s_peerWindow s <? want then s_peerWindow s else want in
  if negb (s_peerMaxPacket s =? 0) && (s_peerMaxPacket s <? want)
  then s_peerMaxPacket s else want.

Definition backend_data_step (_ : unit) : M (world srv) (unit + unit) :=
  s ← getS;
  if (0 <? s_peerWindow s) && s_chanOpen s then
    got ← itsRecv (s_backendHandle s) (backend_want s) 0;
    if bool_decide (got = []) then mret (inr tt)
    else
      send_channel_data got;;
      updS (fun s => {| s with s_peerWindow := u32 (s_peerWindow s - u32 (blen got)) |});;
      mret (inl tt)
  else mret (inr tt).

(** The window shrinks at every turn, so its value bounds the turns. *)
Definition session_on_backend_data : M (world srv) unit :=
  s ← getS;
  if negb (s_chanOpen s) || (s_backendHandle s <? 0) then mret tt
  else loop (Z.to_pos (s_peerWindow s + 1)) backend_data_step tt;; mret tt.

(** [sshdSlotFree] of [sshd.cpp]. *)
Definition sshdSlotFree (slot : Z) : M (world srv) unit :=
  when ((0 <=? slot) && (slot <? SSHD_MAX_SESSIONS))
    (updl (fun l => {| l with slotInUse := <[Z.to_nat slot := false]> (slotInUse l) |})).

Definition close_backend : M (world srv) unit :=
  s ← getS;
  when (0 <=? s_backendHandle s)
    (itsDisconnect (s_backendHandle s);;
     updS (fun s => {| s with s_backendHandle := -1 |})).

Definition session_close : M (world srv) unit :=
  s ← getS;
  if bool_decide (s_phase s = CLOSED) && (s_slot s <? 0) then mret tt else
  close_backend;;
  s ← getS;
  when (0 <=? s_tcp s)
    (itsSendDrain (s_tcp s) 1000;;
     vTaskDelay 100;;
     itsDisconnect (s_tcp s);;
     updS (fun s => {| s with s_tcp := -1 |}));;
  updS (fun s => {| s with s_phase := CLOSED; s_chanOpen := false |});;
  s ← getS;
  when (0 <=? s_slot s)
    (sshdSlotFree (s_slot s);;
     updS (fun s => {| s with s_slot := -1 |})).

Definition session_on_backend_close : M (world srv) unit :=
  s ← getS;
  if negb (s_chanOpen s) then mret tt else
  session_on_backend_data;;
  close_backend;;
  send_exit_status 0;;
  send_channel_eof;;
  send_channel_close;;
  updS (fun s => {| s with s_chanOpen := false |});;
  session_close.

(** ** Handlers *)

Definition handle_channel_open (payload : bytes) : M (world srv) bool :=
  let v := view_init payload in
  let '(typ, v) := get_string v in
  match typ with None => mret false | Some typ =>
  let '(peerCh, v) := get_u32 v in
  let '(peerWin, v) := get_u32 v in
  let '(peerMax, v) := get_u32 v in
  if vw_bad v then mret false else
  s ← getS;
  if s_chanOpen s then
    send_channel_open_failure peerCh 2 (str "only one channel allowed");; mret true
  else if negb (bool_decide (typ = str "session")) then
    send_channel_open_failure peerCh 3 (str "only session channels");; mret true
  else
  updS (fun s => {| s with s_peerChannel := peerCh; s_localChannel := LOCAL_CHANNEL_ID;
                           s_peerWindow := peerWin; s_peerMaxPacket := peerMax;
                           s_localWindow := LOCAL_WINDOW; s_chanOpen := true |});;
  send_channel_open_confirm;;
  mret true
  end.

Definition kex_name (s : Session) : bytes :=
  if bool_decide (s_kexAlg s = MLKEM768_X25519) then str "mlkem768x25519-sha256"
  else str "curve25519-sha256".

Definition log_accepted (sessionSlot : Z) (cmd : option bytes) : M (world srv) unit :=
  s ← getS;
  let line := str "sshd: accepted (" ++ fmt_d sessionSlot ++ str "), peer '" ++
              c_str (s_peerVersion s) ++ str "', KEX " ++ kex_name s in
  match cmd with
  | Some cmd => log LogInfo (line ++ str ", cmd: " ++ c_str cmd)
  | None => log LogInfo line
  end.

Definition request_reply (wantReply : Z) (ok : bool) : M (world srv) unit :=
  when (negb (wantReply =? 0)) (send_channel_request_reply ok).

Definition request_shell (wantReply sessionSlot : Z) : M (world srv) bool :=
  updS (fun s => {| s with s_chanKind := CK_CLI |});;
  ok ← open_backend sessionSlot;
  if negb ok then request_reply wantReply false;; mret true
  else
  log_accepted sessionSlot None;;
  request_reply wantReply true;;
  mret true.

Definition request_exec (v : View) (wantReply sessionSlot : Z) : M (world srv) bool :=
  let '(cmd, v) := get_string v in
  match cmd with
  | None => request_reply wantReply false;; mret true
  | Some cmd =>
      if 256 <? blen cmd then request_reply wantReply false;; mret true
      else
      updS (fun s => {| s with s_chanKind := CK_CLI |});;
      ok ← open_backend_line sessionSlot;
      if negb ok then request_reply wantReply false;; mret true
      else
      log_accepted sessionSlot (Some cmd);;
      request_reply wantReply true;;
      s ← getS;
      let line := cmd ++ [x3b; x0a] in
      itsSend (s_backendHandle s) line 500;;
      mret true
  end.

Definition request_subsystem (v : View) (wantReply sessionSlot : Z) : M (world srv) bool :=
  let '(sub, v) := get_string v in
  match sub with
  | None => request_reply wantReply false;; mret true
  | Some sub =>
      if bool_decide (sub = str "log") then
        updS (fun s => {| s with s_chanKind := CK_LOG |});;
        ok ← open_backend sessionSlot;
        if negb ok then request_reply wantReply false;; mret true
        else
        log_accepted sessionSlot None;;
        request_reply wantReply true;;
        mret true
      else request_reply wantReply false;; mret true
  end.

Definition handle_channel_request (payload : bytes) (sessionSlot : Z) : M (world srv) bool :=
  let v := view_init payload in
  let '(recipient, v) := get_u32 v in
  let '(typ, v) := get_string v in
  match typ with None => mret false | Some typ =>
  let '(wantReply, v) := get_u8 v in
  if bool_decide (typ = str "pty-req") then request_reply wantReply true;; mret true
  else if bool_decide (typ = str "shell") then request_shell wantReply sessionSlot
  else if bool_decide (typ = str "exec") then request_exec v wantReply sessionSlot
  else if bool_decide (typ = str "subsystem") then request_subsystem v wantReply sessionSlot
  else if bool_decide (typ = str "env") then request_reply wantReply true;; mret true
  else request_reply wantReply false;; mret true
  end.

Definition handle_channel_data (payload : bytes) : M (world srv) unit :=
  let v := view_init payload in
  let '(recipient, v) := get_u32 v in
  let '(d, v) := get_string v in
  match d with None => mret tt | Some d =>
  s ← getS;
  if s_backendHandle s <? 0 then mret tt else
  written ← itsSend (s_backendHandle s) d 500;
  when (0 <? written)
    (updS (fun s => {| s with s_localWindow := u32 (s_localWindow s - u32 written) |});;
     s ← getS;
     when (s_localWindow s <? LOCAL_WINDOW / 2)
       (let add := u32 (LOCAL_WINDOW - s_localWindow s) in
        updS (fun s => {| s with s_localWindow := u32 (s_localWindow s + add) |});;
        send_channel_window_adjust add))
  end.

Definition handle_channel_window_adjust (payload : bytes) : M (world srv) unit :=
  let v := view_init payload in
  let '(_, v) := get_u32 v in
  let '(add, v) := get_u32 v in
  updS (fun s => {| s with s_peerWindow := u32 (s_peerWindow s + add) |});;
  session_on_backend_data.

Definition handle_channel_close : M (world srv) unit :=
  s ← getS;
  if negb (s_chanOpen s) then mret tt else
  close_backend;;
  send_channel_close;;
  updS (fun s => {| s with s_chanOpen := false |});;
  updS (fun s => {| s with s_phase := CLOSED |}).
End channel.
