(* ===== verification/SessionLoop.v ===== *)
(** * SessionLoop: dispatch and the entry points of the server session *)
From S2P Require Import Prelude Wire Platform Crypto Framing SessionState SessionKex SessionAuth SessionChannel.

Section session.
Context `{PF : Platform} `{MB : Mbedtls} `{ED : Ed25519} `{KEM : MlKem}.

Definition handle_global_request (body : bytes) : M (world srv) bool :=
  let v := view_init body in
  let '(ok, v) := skip_string v in
  if negb ok then mret true else
  let '(wantReply, v) := get_u8 v in
  when (negb (wantReply =? 0)) (send_packet (put_u8 [] MSG_REQUEST_FAILURE));;
  mret true.

Definition in_phase (s : Session) (p : Phase) : bool := bool_decide (s_phase s = p).

Definition dispatch_packet (payload : bytes) (sessionSlot : Z) : M (world srv) bool :=
  match payload with
  | [] => mret false
  | t :: body =>
      let type := byte_to_Z t in
      s ← getS;
      if type =? MSG_DISCONNECT then
        updS (fun s => {| s with s_phase := CLOSED |});;
        itsDisconnect (s_tcp s);;
        mret false
      else if (type =? MSG_IGNORE) || (type =? MSG_DEBUG) then mret true
      else if type =? MSG_KEXINIT then
        if negb (in_phase s KEX_WAIT_KEXINIT) && negb (in_phase s RUN) then mret false
        else handle_kexinit payload;; mret true
      else if type =? MSG_KEX_ECDH_INIT then
        if negb (in_phase s KEX_WAIT_ECDH) then mret false
        else handle_kex_ecdh_init body
      else if type =? MSG_NEWKEYS then
        if negb (in_phase s KEX_WAIT_NEWKEYS) then mret false
        else handle_newkeys;; mret true
      else if type =? MSG_SERVICE_REQUEST then
        if negb (in_phase s AUTH) then mret false else handle_service_request body
      else if type =? MSG_USERAUTH_REQUEST then
        if negb (in_phase s AUTH) then mret false else handle_userauth_request body
      else if type =? MSG_GLOBAL_REQUEST then handle_global_request body
      else if type =? MSG_CHANNEL_OPEN then
        if negb (in_phase s RUN) then mret false else handle_channel_open body
      else if type =? MSG_CHANNEL_REQUEST then
        if negb (in_phase s RUN) then mret false else handle_channel_request body sessionSlot
      else if type =? MSG_CHANNEL_DATA then
        if negb (in_phase s RUN) then mret false else handle_channel_data body;; mret true
      else if type =? MSG_CHANNEL_WINDOW_ADJUST then
        if negb (in_phase s RUN) then mret false
        else handle_channel_window_adjust body;; mret true
      else if type =? MSG_CHANNEL_EOF then mret true
      else if type =? MSG_CHANNEL_CLOSE then handle_channel_close;; mret true
      else
        let p := put_u8 [] MSG_UNIMPLEMENTED in
        let p := put_u32 p (u32 (s_seqIn s - 1)) in
        send_packet p;;
        mret true
  end.

(** ** Entry points *)

Definition session_open (tcpHandle slot : Z) : M (world srv) unit :=
  updS reset;;
  updS (fun s => {| s with s_slot := slot; s_tcp := tcpHandle; s_phase := VERSION |});;
  send_our_version.

(** One turn of the receive loop. *)
Definition recv_step (_ : unit) : M (world srv) (unit + unit) :=
  s ← getS;
  got ← itsRecv (s_tcp s) 1024 0;
  if bool_decide (got = []) then mret (inr tt)
  else updS (fun s => {| s with s_rxBuf := s_rxBuf s ++ got |});; mret (inl tt).

(** One turn of the dispatch loop. *)
Definition dispatch_step (_ : unit) : M (world srv) (unit + unit) :=
  s ← getS;
  if in_phase s CLOSED then mret (inr tt)
  else if in_phase s VERSION then
    ok ← consume_version;
    if negb ok then mret (inr tt) else mret (inl tt)
  else
  r ← parse_packet;
  let '(r, payload) := r in
  if r =? 0 then mret (inr tt)
  else if r <? 0 then send_disconnect 2 (str "framing error");; mret (inr tt)
  else
  ok ← dispatch_packet payload (s_slot s);
  if negb ok then
    s ← getS;
    when (negb (in_phase s CLOSED)) (send_disconnect 2 (str "protocol error"));;
    mret (inr tt)
  else mret (inl tt).

(** The dispatch loop: every turn takes octets off the receive buffer. *)
Definition dispatch_loop : M (world srv) (unit + unit) :=
  s ← getS;
  loop (Pos.of_succ_nat (length (s_rxBuf s))) dispatch_step tt.

(** [fuel] bounds the receive loop, whose length is up to the network; the
    result says whether the function came to its end. *)
Definition session_on_tcp_data (fuel : positive) : M (world srv) bool :=
  r ← loop fuel recv_step tt;
  match r with
  | inl _ => mret false
  | inr _ =>
      r ← dispatch_loop;
      match r with
      | inl _ => mret false
      | inr _ =>
          s ← getS;
          when (in_phase s CLOSED) session_close;;
          mret true
      end
  end.
End session.
