(* ===== verification/Runs.v ===== *)
(** * Runs: one concrete server session

    A peer's whole conversation (version, key exchange, password login, a
    channel, a command, a close) against the session functions, with the
    parameters of [Concrete].  The examples of later files evaluate it. *)
From S2P Require Import Prelude Wire Platform Crypto Base64 Concrete Framing SessionState SessionKex SessionAuth SessionChannel SessionLoop.

Definition peer_store (key : bytes) : option bytes :=
  if bool_decide (key = str "secrets.sshd.host_seed") then Some (b64_encode (replicate 32 x2a)) else None.

Definition plain_packet (payload : bytes) : bytes :=
  let pad := pad_len false (blen payload) in
  frame false [] 0 pad payload (replicate (Z.to_nat pad) x00).
Definition sealed_packet (key : bytes) (seqno : Z) (payload : bytes) : bytes :=
  let pad := pad_len true (blen payload) in
  frame true key seqno pad payload (replicate (Z.to_nat pad) x00).

Definition peer_kexinit : bytes :=
  put_u8 [] MSG_KEXINIT ++ replicate 16 x11 ++
  put_namelist [] (str "curve25519-sha256") ++ put_namelist [] (str "ssh-ed25519").

(** Everything up to NEWKEYS travels in the clear. *)
Definition peer_hello : bytes :=
  str "SSH-2.0-peer" ++ [x0d; x0a] ++ plain_packet peer_kexinit ++
  plain_packet (put_string (put_u8 [] MSG_KEX_ECDH_INIT) (replicate 32 x05)) ++
  plain_packet (put_u8 [] MSG_NEWKEYS).

Definition password_request (pw : bytes) : bytes :=
  put_string (put_u8 (put_cstring (put_cstring (put_cstring (put_u8 [] MSG_USERAUTH_REQUEST)
    (str "admin")) (str "ssh-connection")) (str "password")) 0) pw.

Definition open_request : bytes :=
  put_u32 (put_u32 (put_u32 (put_cstring (put_u8 [] MSG_CHANNEL_OPEN) (str "session")) 0) 4096) 2048.
Definition exec_request (cmd : bytes) : bytes :=
  put_string (put_u8 (put_cstring (put_u32 (put_u8 [] MSG_CHANNEL_REQUEST) 0) (str "exec")) 1) cmd.

(** The host of the session: the peer sends [chunks]. *)
Definition host (chunks : list bytes) : Platform :=
  scripted chunks peer_store 0 (str "secret").

(** Static storage before the first [reset]. *)
Definition blank : Session :=
  mkSession 0 0 VERSION [] [] [] CURVE25519_SHA256 [] [] [] [] [] [] [] [] [] false [] []
    false false 0 0 [] false 0 0 0 0 0 CK_NONE 0 false false.
Definition idle : world srv := World {| ses := blank; slotInUse := [true; false] |} [].

Definition run_open (chunks : list bytes) : world srv :=
  (session_open (PF := host chunks) 7 0 idle).2.
Definition run_data (chunks : list bytes) (w : world srv) : world srv :=
  (session_on_tcp_data (PF := host chunks) 100 w).2.

(** The state after the key exchange, and the key the peer then uses. *)
Definition run_keyed : world srv := run_data [peer_hello; []] (run_open [peer_hello; []]).
Definition peer_key : bytes := Eval vm_compute in s_c2sKey (ses (w_loc run_keyed)).

Definition peer_login : bytes :=
  sealed_packet peer_key 3 (put_cstring (put_u8 [] MSG_SERVICE_REQUEST) (str "ssh-userauth")) ++
  sealed_packet peer_key 4 (password_request (str "secret")).
Definition peer_exec : bytes :=
  sealed_packet peer_key 5 open_request ++
  sealed_packet peer_key 6 (exec_request (str "uptime")).

(** One chunk per receive call: a callback receives until nothing is left.  The last
    is what the backend answers. *)
Definition peer_chunks : list bytes :=
  [peer_hello; []; peer_login; []; peer_exec; []; str "up 3 days"; []].
Definition run0 : world srv := run_open peer_chunks.
Definition run1 : world srv := run_data peer_chunks run0.
Definition run2 : world srv := run_data peer_chunks run1.
Definition run3 : world srv := run_data peer_chunks run2.

Definition summary (w : world srv) : Phase * bool * bool * Z :=
  let s := ses (w_loc w) in (s_phase s, s_authed s, s_chanOpen s, s_backendHandle s).

Example run_phases :
  summary <$> [run0; run1; run2; run3] =
  [(VERSION, false, false, -1); (AUTH, false, false, -1); (RUN, true, false, -1);
   (RUN, true, true, 100)].
Proof. vm_compute. reflexivity. Qed.
