(* ===== verification/SessionSafety.v ===== *)
(** * SessionSafety: the authentication gate of the server

    The invariant that ties phase, authentication, encryption, channel and
    backend together, its preservation by every handler, and what a session has
    to be shown before it counts as authenticated. *)
From S2P Require Import Prelude Wire Platform Crypto Framing SessionState SessionKex SessionAuth SessionChannel SessionLoop.

(** ** The invariant *)

Record safe (s : Session) : Prop := {
  safe_run : s_phase s = RUN -> s_authed s = true;
  safe_chan : s_chanOpen s = true -> s_authed s = true;
  safe_backend : 0 <= s_backendHandle s -> s_authed s = true;
  safe_authed : s_authed s = true ->
    s_encInbound s = true /\ s_encOutbound s = true /\ s_haveSessionId s = true;
  safe_auth : s_phase s = AUTH ->
    s_encInbound s = true /\ s_encOutbound s = true /\ s_haveSessionId s = true;
  safe_newkeys : s_phase s = KEX_WAIT_NEWKEYS ->
    s_encOutbound s = true /\ s_haveSessionId s = true
}.

(** Inside a handler of the running phase, and inside one of the auth phase. *)
Definition safe_in_run (s : Session) : Prop := safe s /\ s_authed s = true.
Definition safe_in_auth (s : Session) : Prop :=
  safe s /\ s_encInbound s = true /\ s_encOutbound s = true /\ s_haveSessionId s = true.

Lemma safe_reset s : safe (reset s).
Proof. split; cbn; try done; lia. Qed.

Definition safe_keyed (s : Session) : Prop := safe s /\ s_haveSessionId s = true.

Ltac break_safe :=
  repeat match goal with
  | H : safe_in_run _ |- _ => destruct H
  | H : safe_keyed _ |- _ => destruct H
  | H : safe_in_auth _ |- _ => destruct H as (? & ? & ? & ?)
  | H : safe _ |- _ => destruct H
  end.

(** Close a goal about the fields of an updated session. *)
Ltac safe_done :=
  break_safe; unfold safe_in_run, safe_in_auth, safe_keyed; repeat split; cbn in *;
  intros; first [done | congruence | tauto | lia | intuition congruence].

(** A field update keeps the invariant at hand. *)
Ltac upd_safe :=
  lazymatch goal with |- keeps _ (updS _) => idtac end;
  apply updS_keeps; let s := fresh "s" in let H := fresh "H" in intros s H; safe_done.

#[export] Instance safe_seq : IgnoresSeqOut (imp safe).
Proof. intros s n H. safe_done. Qed.
#[export] Instance safe_closed : AllowsClosed (imp safe).
Proof. intros s H. safe_done. Qed.
#[export] Instance safe_in_run_seq : IgnoresSeqOut (imp safe_in_run).
Proof. intros s n H. safe_done. Qed.
#[export] Instance safe_in_run_closed : AllowsClosed (imp safe_in_run).
Proof. intros s H. safe_done. Qed.
#[export] Instance safe_in_auth_seq : IgnoresSeqOut (imp safe_in_auth).
Proof. intros s n H. safe_done. Qed.
#[export] Instance safe_in_auth_closed : AllowsClosed (imp safe_in_auth).
Proof. intros s H. safe_done. Qed.
#[export] Instance safe_keyed_seq : IgnoresSeqOut (imp safe_keyed).
Proof. intros s n H. safe_done. Qed.
#[export] Instance safe_keyed_closed : AllowsClosed (imp safe_keyed).
Proof. intros s H. safe_done. Qed.

(** The calls of the platform, unfolded where a proof looks into a handler. *)
Ltac unfold_calls :=
  unfold randomBytes, itsSend, itsRecv, itsConnect, itsDisconnect, itsSendDrain, vTaskDelay,
    log, authLogin, storageGetStr, storageGetInt, storageArrayCount, notify.
Ltac solve_safe := unfold_calls; solve_keeps; try upd_safe.

(** A property of the session, at a world. *)
Definition at_ses (P : Session -> Prop) (w : world srv) : Prop := P (ses (w_loc w)).

Lemma imp_triple {A} (P : Session -> Prop) (m : M (world srv) A) :
  keeps_ses (imp P) m -> triple (at_ses P) m (fun _ => at_ses P).
Proof. intros Hm w Hw. by apply (Hm w). Qed.

Lemma triple_getS {A} (P : world srv -> Prop) (f : Session -> M (world srv) A) Q :
  (forall s, triple (fun w => P w /\ ses (w_loc w) = s) (f s) Q) ->
  triple P (getS ≫= f) Q.
Proof. intros Hf w HP. by apply (Hf (ses (w_loc w))). Qed.

Section safety.
Context `{PF : Platform} `{MB : Mbedtls} `{ED : Ed25519} `{KEM : MlKem}.

(** ** Key exchange *)

Lemma safe_consume_version : keeps_ses (imp safe) consume_version.
Proof. unfold consume_version, send_our_kexinit, build_kexinit_payload. solve_safe. Qed.

Lemma safe_handle_kexinit p : keeps_ses (imp safe) (handle_kexinit p).
Proof. unfold handle_kexinit. solve_safe. Qed.

Lemma safe_send_version : keeps_ses (imp safe) send_our_version.
Proof. unfold send_our_version. solve_safe. Qed.

Lemma safe_load_host_key : keeps_ses (imp safe) load_host_key.
Proof. unfold load_host_key. solve_safe. Qed.

Lemma safe_kex_compute_classical : keeps_ses (imp safe) kex_compute_classical.
Proof. unfold kex_compute_classical. solve_safe. Qed.

Lemma safe_kex_compute_pq : keeps_ses (imp safe) kex_compute_pq.
Proof. unfold kex_compute_pq, mlkem768_encap. solve_safe. Qed.

Hint Resolve safe_load_host_key safe_kex_compute_classical safe_kex_compute_pq : keeps.

(** A reply that was sent leaves a session id behind. *)
Lemma safe_send_kex_ecdh_reply :
  triple (at_ses safe) send_kex_ecdh_reply
    (fun ok w => at_ses safe w /\ (ok = true -> at_ses safe_keyed w)).
Proof.
  unfold send_kex_ecdh_reply.
  eapply triple_bind; [apply imp_triple, safe_load_host_key|intros [[seed hostPub]|]];
    [|by apply triple_ret].
  eapply triple_bind; [apply imp_triple; solve_keeps|intros s0].
  eapply triple_bind; [apply imp_triple; solve_keeps|intros [|]]; [|by apply triple_ret].
  apply triple_getS. intros s1.
  eapply triple_bind with (Q := fun _ => at_ses safe_keyed).
  { intros w [H <-]. unfold at_ses in *.
    destruct (s_haveSessionId (ses (w_loc w))) eqn:E; cbn; safe_done. }
  intros [].
  destruct (ed25519_sign seed _) as [sg|].
  - eapply triple_conseq with (Q' := fun _ => at_ses safe_keyed);
      [apply imp_triple; solve_keeps|done|intros ok w H; split; [apply H|done]].
  - eapply triple_conseq with (Q' := fun ok w => ok = false /\ at_ses safe_keyed w);
      [|done|intros ok w [-> H]; split; [apply H|done]].
    intros w H. split; [done|apply H].
Qed.

Lemma safe_handle_kex_ecdh_init p : 
  triple (at_ses safe) (handle_kex_ecdh_init p) (fun _ => at_ses safe).
Proof.
  unfold handle_kex_ecdh_init. destruct (get_string (view_init p)) as [[blob|] v];
    [|apply imp_triple; solve_keeps].
  eapply triple_bind; [apply imp_triple; solve_keeps|intros s0]. cbv zeta.
  do 2 (case_goal; [apply imp_triple; solve_keeps|]).
  eapply triple_bind; [apply imp_triple; solve_safe|intros []].
  eapply triple_bind; [apply safe_send_kex_ecdh_reply|intros [|]]; cbn [negb].
  - eapply triple_pre with (P' := at_ses safe_keyed); [intros w [_ H]; by apply H|].
    eapply triple_bind; [apply imp_triple; solve_keeps|intros []].
    unfold derive_session_keys.
    eapply triple_bind; [apply imp_triple; solve_safe|intros []].
    intros w H. unfold at_ses in *. cbn. safe_done.
  - eapply triple_pre with (P' := at_ses safe); [by intros w []|].
    apply imp_triple. solve_keeps.
Qed.
Lemma safe_handle_newkeys :
  triple (fun w => at_ses safe w /\ s_phase (ses (w_loc w)) = KEX_WAIT_NEWKEYS) handle_newkeys
    (fun _ => at_ses safe).
Proof. intros w [H Hp]. unfold at_ses in *. cbn. safe_done. Qed.

(** ** Authentication *)

Lemma safe_in_auth_success : keeps_ses (imp safe_in_auth) send_userauth_success.
Proof. unfold send_userauth_success. solve_safe. Qed.
Lemma keeps_userauth_failure R `{!PreOrder R, !IgnoresSeqOut R} b :
  keeps_ses R (send_userauth_failure b).
Proof. unfold send_userauth_failure. solve_keeps. Qed.
Lemma keeps_userauth_bad R `{!PreOrder R, !IgnoresSeqOut R, !AllowsClosed R} :
  keeps_ses R userauth_bad.
Proof. unfold userauth_bad. solve_keeps. Qed.
Lemma keeps_authorized_loop R `{!PreOrder R} k i pub : keeps_ses R (authorized_loop k i pub).
Proof.
  revert i. induction k as [|k IH]; intros i; cbn [authorized_loop]; [solve_keeps|].
  unfold_calls. solve_keeps; apply IH.
Qed.
Lemma keeps_authorized_pub_matches R `{!PreOrder R} pub :
  keeps_ses R (authorized_pub_matches pub).
Proof. unfold authorized_pub_matches. unfold_calls. solve_keeps. by apply keeps_authorized_loop. Qed.
Hint Resolve keeps_userauth_failure keeps_userauth_bad keeps_authorized_pub_matches : keeps.
Hint Resolve safe_in_auth_success : keeps.

Lemma safe_handle_userauth_request p :
  keeps_ses (imp safe_in_auth) (handle_userauth_request p).
Proof. unfold handle_userauth_request, userauth_publickey, userauth_password. solve_safe. Qed.

Lemma safe_handle_service_request p : keeps_ses (imp safe) (handle_service_request p).
Proof. unfold handle_service_request. solve_safe. Qed.

(** ** The channel *)

Lemma keeps_backend_data_step R `{!PreOrder R, !IgnoresSeqOut R} u :
  (forall s n, R s {| s with s_peerWindow := u32 n |}) -> keeps_ses R (backend_data_step u).
Proof.
  intros HR. unfold backend_data_step, send_channel_data. unfold_calls. solve_keeps.
  apply updS_keeps. intros s. apply HR.
Qed.
Lemma keeps_backend_data R `{!PreOrder R, !IgnoresSeqOut R} :
  (forall s n, R s {| s with s_peerWindow := u32 n |}) -> keeps_ses R session_on_backend_data.
Proof.
  intros HR. unfold session_on_backend_data. solve_keeps. by apply keeps_backend_data_step.
Qed.
Lemma safe_backend_data : keeps_ses (imp safe) session_on_backend_data.
Proof. apply keeps_backend_data; [apply _..|]. intros s n H. safe_done. Qed.
Lemma safe_in_run_backend_data : keeps_ses (imp safe_in_run) session_on_backend_data.
Proof. apply keeps_backend_data; [apply _..|]. intros s n H. safe_done. Qed.
Hint Resolve safe_backend_data safe_in_run_backend_data : keeps.

Lemma safe_close_backend : keeps_ses (imp safe) close_backend.
Proof. unfold close_backend. solve_safe. Qed.
Hint Resolve safe_close_backend : keeps.

Lemma safe_handle_channel_open p : keeps_ses (imp safe_in_run) (handle_channel_open p).
Proof.
  unfold handle_channel_open, send_channel_open_failure, send_channel_open_confirm. solve_safe.
Qed.

Lemma safe_open_backend slot m : keeps_ses (imp safe_in_run) (open_backend_with_mode slot m).
Proof. unfold open_backend_with_mode. solve_safe. Qed.
Hint Resolve safe_open_backend : keeps.

Lemma safe_handle_channel_request p slot :
  keeps_ses (imp safe_in_run) (handle_channel_request p slot).
Proof.
  unfold handle_channel_request, request_shell, request_exec, request_subsystem, request_reply,
    open_backend, open_backend_line, log_accepted, send_channel_request_reply. solve_safe.
Qed.

Lemma safe_handle_channel_data p : keeps_ses (imp safe_in_run) (handle_channel_data p).
Proof. unfold handle_channel_data, send_channel_window_adjust. solve_safe. Qed.

Lemma safe_handle_channel_window_adjust p :
  keeps_ses (imp safe_in_run) (handle_channel_window_adjust p).
Proof. unfold handle_channel_window_adjust. solve_safe. Qed.

Lemma safe_handle_channel_close : keeps_ses (imp safe) handle_channel_close.
Proof. unfold handle_channel_close, send_channel_close. solve_safe. Qed.

Lemma safe_handle_global_request p : keeps_ses (imp safe) (handle_global_request p).
Proof. unfold handle_global_request. solve_safe. Qed.

(** ** Dispatch and the entry points *)

Hint Resolve safe_consume_version safe_handle_kexinit safe_send_version
  safe_handle_service_request safe_handle_channel_close safe_handle_global_request : keeps.

(** What [dispatch_packet] knows when it looks at the phase. *)
Abbreviation seen s := (fun w => at_ses safe w /\ ses (w_loc w) = s).

Lemma gate_run s m : keeps_ses (imp safe_in_run) m ->
  triple (seen s) (if negb (in_phase s RUN) then mret false else m) (fun _ => at_ses safe).
Proof.
  intros Hm w [H <-]. unfold in_phase. case_bool_decide as Hp; cbn; [|done].
  apply (Hm w). split; [exact H|by apply (safe_run _ H)].
Qed.

Lemma gate_auth s m : keeps_ses (imp safe_in_auth) m ->
  triple (seen s) (if negb (in_phase s AUTH) then mret false else m) (fun _ => at_ses safe).
Proof.
  intros Hm w [H <-]. unfold in_phase. case_bool_decide as Hp; cbn; [|done].
  apply (Hm w). split; [exact H|by apply (safe_auth _ H)].
Qed.

Lemma gate_safe (b : bool) s (m : M (world srv) bool) : triple (at_ses safe) m (fun _ => at_ses safe) ->
  triple (seen s) (if b then mret false else m) (fun _ => at_ses safe).
Proof.
  intros Hm. destruct b; [apply triple_ret; by intros w []|].
  eapply triple_pre; [|apply Hm]. by intros w [].
Qed.

Lemma seen_safe {A} s (m : M (world srv) A) : keeps_ses (imp safe) m -> triple (seen s) m (fun _ => at_ses safe).
Proof. intros Hm w [H _]. by apply (Hm w). Qed.

Lemma safe_dispatch_packet p slot :
  triple (at_ses safe) (dispatch_packet p slot) (fun _ => at_ses safe).
Proof.
  unfold dispatch_packet. destruct p as [|t body]; [by apply triple_ret|]. cbv zeta.
  apply triple_getS; intros s.
  apply triple_if; [apply seen_safe; solve_safe|].                       (* DISCONNECT *)
  apply triple_if; [apply seen_safe; solve_safe|].                       (* IGNORE, DEBUG *)
  apply triple_if; [apply gate_safe, imp_triple; solve_safe|].           (* KEXINIT *)
  apply triple_if; [apply gate_safe, safe_handle_kex_ecdh_init|].
  apply triple_if; [|].
  { intros w [H <-]. unfold in_phase. case_bool_decide as Hp; [|done].
    by apply safe_handle_newkeys. }
  apply triple_if; [apply gate_safe, imp_triple, safe_handle_service_request|].
  apply triple_if; [apply gate_auth, safe_handle_userauth_request|].
  apply triple_if; [apply seen_safe, safe_handle_global_request|].
  apply triple_if; [apply gate_run, safe_handle_channel_open|].
  apply triple_if; [apply gate_run, safe_handle_channel_request|].
  apply triple_if; [apply gate_run; solve_keeps; apply safe_handle_channel_data|].
  apply triple_if; [apply gate_run; solve_keeps; apply safe_handle_channel_window_adjust|].
  apply seen_safe. solve_safe.
Qed.

Lemma safe_parse_packet : keeps_ses (imp safe) parse_packet.
Proof. unfold parse_packet. solve_safe. Qed.

Lemma safe_recv_step u : keeps_ses (imp safe) (recv_step u).
Proof. unfold recv_step. solve_safe. Qed.

Lemma safe_dispatch_step u : triple (at_ses safe) (dispatch_step u) (fun _ => at_ses safe).
Proof.
  unfold dispatch_step. apply triple_getS; intros s.
  apply triple_if; [apply seen_safe; solve_keeps|].
  apply triple_if; [apply seen_safe; solve_keeps|].
  eapply triple_bind; [apply seen_safe, safe_parse_packet|intros [r payload]]. cbv zeta.
  do 2 (apply triple_if; [apply imp_triple; solve_keeps|]).
  eapply triple_bind; [apply safe_dispatch_packet|intros ok].
  apply imp_triple. solve_keeps.
Qed.

Lemma safe_dispatch_loop : triple (at_ses safe) dispatch_loop (fun _ => at_ses safe).
Proof.
  unfold dispatch_loop. eapply triple_bind; [apply imp_triple; solve_keeps|intros s].
  apply triple_loop. intros u. eapply triple_conseq with (P' := at_ses safe); [apply safe_dispatch_step|done|].
  by intros [].
Qed.

Lemma safe_session_close : keeps (on_loc (any_slots (imp safe))) session_close.
Proof.
  unfold session_close, sshdSlotFree. unfold_calls. solve_keeps.
  all: try (apply keeps_any_slots; first [apply safe_close_backend|upd_safe]).
  apply updl_on_loc. intros l H. exact H.
Qed.

Lemma slots_triple {A} (P : Session -> Prop) (m : M (world srv) A) :
  keeps (on_loc (any_slots (imp P))) m -> triple (at_ses P) m (fun _ => at_ses P).
Proof. intros Hm w Hw. by apply (Hm w). Qed.

Lemma safe_session_on_backend_close :
  triple (at_ses safe) session_on_backend_close (fun _ => at_ses safe).
Proof.
  apply slots_triple.
  unfold session_on_backend_close, send_exit_status, send_channel_eof, send_channel_close.
  solve_keeps.
  all: try apply safe_session_close.
  all: apply keeps_any_slots; first [solve [solve_keeps]|upd_safe].
Qed.

Lemma safe_session_on_tcp_data fuel :
  triple (at_ses safe) (session_on_tcp_data fuel) (fun _ => at_ses safe).
Proof.
  unfold session_on_tcp_data.
  eapply triple_bind; [apply imp_triple; solve_keeps; apply safe_recv_step|intros [_|_]];
    [by apply triple_ret|].
  eapply triple_bind; [apply safe_dispatch_loop|intros [_|_]]; [by apply triple_ret|].
  apply slots_triple. solve_keeps. apply safe_session_close.
Qed.

Lemma safe_session_open tcp slot :
  triple (fun _ => True) (session_open tcp slot) (fun _ => at_ses safe).
Proof.
  unfold session_open, send_our_version.
  eapply triple_bind with (Q := fun _ => at_ses safe);
    [intros w _; apply safe_reset|intros []].
  apply imp_triple. solve_safe.
Qed.
End safety.
