(* ===== verification/SessionReach.v ===== *)
(** * SessionReach: every history of one server session

    The callbacks of [sshd.cpp] drive a session as a step relation; what holds
    in every state it can reach, above all what an authenticated session has been
    shown. *)
From S2P Require Import Prelude Wire Platform Crypto Framing SessionState SessionKex SessionAuth SessionChannel SessionLoop Concrete Runs SessionSafety.

(** ** Quiet code

    Code that authenticates nobody and never replaces a session id. *)
Definition quiet_ses (s s' : Session) : Prop :=
  (s_haveSessionId s = true -> s_haveSessionId s' = true /\ s_sessionId s' = s_sessionId s) /\
  (s_authed s' = true -> s_authed s = true).

#[export] Instance quiet_ses_preorder : PreOrder quiet_ses.
Proof.
  split; [by intros s|]. intros s1 s2 s3 [A1 B1] [A2 B2]. split; [|by auto].
  intros H. destruct (A1 H) as [H2 E2]. destruct (A2 H2) as [H3 E3]. split; [done|congruence].
Qed.
#[export] Instance quiet_seq : IgnoresSeqOut quiet_ses.
Proof. by intros s n. Qed.
#[export] Instance quiet_closed : AllowsClosed quiet_ses.
Proof. by intros s. Qed.

Definition is_connect (e : event) : bool :=
  match e with EvConnect _ _ _ _ => true | _ => false end.

(** Events were added, none of which opens a stream to another task. *)
Definition no_connect {L} (w w' : world L) : Prop :=
  exists evs, w_hist w' = evs ++ w_hist w /\ Forall (fun e => is_connect e = false) evs.

#[export] Instance no_connect_preorder {L} : PreOrder (@no_connect L).
Proof.
  split.
  - intros w. exists []. by split.
  - intros w1 w2 w3 (e1 & E1 & F1) (e2 & E2 & F2). exists (e2 ++ e1).
    rewrite E2, E1, app_assoc. split; [done|]. by apply Forall_app_2.
Qed.

Definition loud (w w' : world srv) : Prop :=
  hist_grows w w' /\ quiet_ses (ses (w_loc w)) (ses (w_loc w')).
Definition quiet (w w' : world srv) : Prop :=
  no_connect w w' /\ quiet_ses (ses (w_loc w)) (ses (w_loc w')).

#[export] Instance loud_preorder : PreOrder loud.
Proof.
  split; [intros w; split; reflexivity|].
  intros w1 w2 w3 [H1 Q1] [H2 Q2]. split; etrans; eassumption.
Qed.
#[export] Instance quiet_preorder : PreOrder quiet.
Proof.
  split; [intros w; split; reflexivity|].
  intros w1 w2 w3 [H1 Q1] [H2 Q2]. split; etrans; eassumption.
Qed.

Lemma quiet_loud {A} (m : M (world srv) A) : keeps quiet m -> keeps loud m.
Proof.
  apply keeps_weaken. intros w w' [(evs & E & _) H]. split; [by exists evs|done].
Qed.

Lemma loud_of {A} (m : M (world srv) A) :
  keeps hist_grows m -> keeps_ses quiet_ses m -> keeps loud m.
Proof. intros Hh Hq w. split; [apply Hh|apply (Hq w)]. Qed.

Lemma updS_quiet f : (forall s, quiet_ses s (f s)) -> keeps quiet (updS f).
Proof. intros Hf w. split; [by exists []|apply Hf]. Qed.

Lemma call_quiet {R} (answer : history -> R) ev :
  (forall r, is_connect (ev r) = false) -> keeps quiet (call answer ev).
Proof. intros H w. split; [|reflexivity]. eexists [_]. split; [done|]. by constructor. Qed.

Lemma call_loud {R} (answer : history -> R) ev : keeps loud (call answer ev).
Proof. apply loud_of; [apply call_hist_grows|]. apply call_on_loc, _. Qed.

#[export] Hint Extern 1 (is_connect _ = false) => reflexivity : keeps.
#[export] Hint Resolve call_quiet call_loud : keeps.

Lemma send_packet_quiet `{Platform, Mbedtls} p : keeps quiet (send_packet p).
Proof.
  unfold send_packet, send_raw_tcp. unfold_calls. solve_keeps. by apply updS_quiet.
Qed.
Lemma send_raw_tcp_quiet `{Platform} d : keeps quiet (send_raw_tcp d).
Proof. unfold send_raw_tcp, itsSend. solve_keeps. Qed.
Lemma send_disconnect_quiet `{Platform, Mbedtls} c m : keeps quiet (send_disconnect c m).
Proof.
  unfold send_disconnect. unfold_calls. solve_keeps; [apply send_packet_quiet|by apply updS_quiet].
Qed.

#[export] Hint Resolve send_packet_quiet send_raw_tcp_quiet send_disconnect_quiet : keeps.

Ltac solve_quiet :=
  unfold_calls; solve_keeps; try solve [apply updS_quiet; intros ?; split; cbn; (done || tauto)].

Section quiet.
Context `{PF : Platform} `{MB : Mbedtls} `{ED : Ed25519} `{KEM : MlKem}.

Lemma quiet_consume_version : keeps quiet consume_version.
Proof. unfold consume_version, send_our_kexinit, build_kexinit_payload. solve_quiet. Qed.
Lemma quiet_handle_kexinit p : keeps quiet (handle_kexinit p).
Proof. unfold handle_kexinit. solve_quiet. Qed.
Lemma quiet_load_host_key : keeps quiet load_host_key.
Proof. unfold load_host_key. solve_quiet. Qed.
Lemma quiet_kex_compute_classical : keeps quiet kex_compute_classical.
Proof. unfold kex_compute_classical. solve_quiet. Qed.
Lemma quiet_kex_compute_pq : keeps quiet kex_compute_pq.
Proof. unfold kex_compute_pq, mlkem768_encap. solve_quiet. Qed.

Hint Resolve quiet_load_host_key quiet_kex_compute_classical quiet_kex_compute_pq : keeps.

(** The session id is written where there is none. *)
Lemma quiet_first_session_id (H : bytes) w :
  quiet w (when (negb (s_haveSessionId (ses (w_loc w))))
             (updS (fun s => {| s with s_sessionId := H; s_haveSessionId := true |})) w).2.
Proof.
  destruct (s_haveSessionId (ses (w_loc w))) eqn:E; cbn; [reflexivity|].
  split; [by exists []; split|]. split; cbn; [congruence|done].
Qed.

Lemma quiet_send_kex_ecdh_reply : keeps quiet send_kex_ecdh_reply.
Proof.
  unfold send_kex_ecdh_reply.
  apply keeps_bind; [apply _|solve_keeps|intros [[seed hostPub]|]]; [|solve_keeps].
  apply keeps_bind; [apply _|solve_keeps|intros s0].
  apply keeps_bind; [apply _|solve_keeps|intros [|]]; cbn [negb]; [|solve_keeps].
  apply keeps_getS. intros w.
  apply keeps_after; [apply _|apply quiet_first_session_id|intros []]. solve_quiet.
Qed.

Lemma quiet_handle_kex_ecdh_init p : keeps quiet (handle_kex_ecdh_init p).
Proof.
  unfold handle_kex_ecdh_init, derive_session_keys.
  solve_quiet. all: apply quiet_send_kex_ecdh_reply.
Qed.
Lemma quiet_handle_newkeys : keeps quiet handle_newkeys.
Proof. unfold handle_newkeys. solve_quiet. Qed.
Lemma quiet_handle_service_request p : keeps quiet (handle_service_request p).
Proof. unfold handle_service_request. solve_quiet. Qed.
Lemma quiet_handle_global_request p : keeps quiet (handle_global_request p).
Proof. unfold handle_global_request. solve_quiet. Qed.
Lemma quiet_handle_channel_open p : keeps quiet (handle_channel_open p).
Proof.
  unfold handle_channel_open, send_channel_open_failure, send_channel_open_confirm. solve_quiet.
Qed.
Lemma loud_handle_channel_request p slot : keeps loud (handle_channel_request p slot).
Proof.
  unfold handle_channel_request, request_shell, request_exec, request_subsystem, request_reply,
    open_backend, open_backend_line, open_backend_with_mode, log_accepted,
    send_channel_request_reply. unfold_calls. solve_keeps.
  all: apply quiet_loud; solve_quiet.
Qed.
Lemma quiet_handle_channel_data p : keeps quiet (handle_channel_data p).
Proof. unfold handle_channel_data, send_channel_window_adjust. solve_quiet. Qed.
Lemma quiet_backend_data : keeps quiet session_on_backend_data.
Proof.
  unfold session_on_backend_data, backend_data_step, send_channel_data. solve_quiet.
Qed.
Lemma quiet_close_backend : keeps quiet close_backend.
Proof. unfold close_backend. solve_quiet. Qed.
Hint Resolve quiet_backend_data quiet_close_backend : keeps.
Lemma quiet_handle_channel_window_adjust p : keeps quiet (handle_channel_window_adjust p).
Proof. unfold handle_channel_window_adjust. solve_quiet. Qed.
Lemma quiet_handle_channel_close : keeps quiet handle_channel_close.
Proof. unfold handle_channel_close, send_channel_close. solve_quiet. Qed.

Lemma quiet_slot_free n : keeps quiet (sshdSlotFree n).
Proof.
  unfold sshdSlotFree. apply keeps_when; [apply _|]. intros w. split; [by exists []|].
  cbn. reflexivity.
Qed.
Hint Resolve quiet_slot_free : keeps.
Lemma quiet_session_close : keeps quiet session_close.
Proof. unfold session_close. solve_quiet. Qed.
Hint Resolve quiet_session_close : keeps.
Lemma quiet_session_on_backend_close : keeps quiet session_on_backend_close.
Proof.
  unfold session_on_backend_close, send_exit_status, send_channel_eof, send_channel_close.
  solve_quiet.
Qed.
End quiet.

(** ** What an authenticated session was shown

    A password that the admin realm accepted, or a stored key under which a
    signature over this session's id verifies. *)
Definition auth_evidence `{Ed25519} `{Mbedtls} (sid : bytes) (evs : history) : Prop :=
  (exists pw, EvAuthLogin pw (str "admin") true ∈ evs) \/
  (exists i v user svc pkBlob pub sg,
     0 <= i /\ EvGetStr (authorized_key_name i) v ∈ evs /\ line_candidate v = Some pub /\
     ed25519_blob_body pkBlob 32 = Some pub /\
     ed25519_verify pub (userauth_signed_data sid user svc pkBlob) sg = true).

Section evidence.
Context `{PF : Platform} `{MB : Mbedtls} `{ED : Ed25519} `{KEM : MlKem}.
(** The history when the session was opened. *)
Context (h0 : history).

Lemma auth_evidence_grows sid evs evs' :
  auth_evidence sid evs -> auth_evidence sid (evs' ++ evs).
Proof.
  intros [(pw & H)|(i & v & user & svc & pk & pub & sg & Hi & H & Hr)].
  - left. exists pw. rewrite elem_of_app. by right.
  - right. exists i, v, user, svc, pk, pub, sg. split; [done|]. split; [|done].
    rewrite elem_of_app. by right.
Qed.

Definition shown (w : world srv) : Prop :=
  exists evs, w_hist w = evs ++ h0 /\ auth_evidence (s_sessionId (ses (w_loc w))) evs.
(** Every stream to another task was opened after the evidence was seen. *)
Definition connects_shown (sid : bytes) (evs : history) : Prop :=
  forall a e b, evs = a ++ e :: b -> is_connect e = true -> auth_evidence sid b.
Definition accounted (w : world srv) : Prop :=
  exists evs, w_hist w = evs ++ h0 /\
    (s_authed (ses (w_loc w)) = true -> auth_evidence (s_sessionId (ses (w_loc w))) evs) /\
    (s_haveSessionId (ses (w_loc w)) = false -> Forall (fun e => is_connect e = false) evs) /\
    connects_shown (s_sessionId (ses (w_loc w))) evs.
(** The invariant of a session, and its form inside the userauth handler. *)
Definition sound (w : world srv) : Prop := at_ses safe w /\ accounted w.
Definition sound_in_auth (w : world srv) : Prop := at_ses safe_in_auth w /\ accounted w.
Definition sound_in_run (w : world srv) : Prop := at_ses safe_in_run w /\ accounted w.

Lemma app_split_silent (evs' evs a b : history) e :
  evs' ++ evs = a ++ e :: b -> is_connect e = true ->
  Forall (fun e => is_connect e = false) evs' -> exists a', evs = a' ++ e :: b.
Proof.
  revert a. induction evs' as [|x evs' IH]; intros a E He HF; [by exists a|].
  apply list.Forall_cons in HF as [Hx HF]. destruct a as [|y a]; cbn in E; injection E as -> E.
  - congruence.
  - by apply (IH a).
Qed.

Lemma app_split_loud (evs' evs a b : history) e :
  evs' ++ evs = a ++ e :: b ->
  (exists a', evs = a' ++ e :: b) \/ (exists b', b = b' ++ evs).
Proof.
  revert a. induction evs' as [|x evs' IH]; intros a E; [left; by exists a|].
  destruct a as [|y a]; cbn in E; injection E as -> E.
  - right. by exists evs'.
  - by apply (IH a).
Qed.

Lemma accounted_quiet w w' : at_ses safe w -> quiet w w' -> accounted w -> accounted w'.
Proof.
  intros Hs ((evs' & E' & HF) & Hq & Ha) (evs & E & H & Hn & Hc). exists (evs' ++ evs).
  split_and!.
  - by rewrite E', E, app_assoc.
  - intros Hw'. specialize (Ha Hw'). apply auth_evidence_grows.
    destruct (safe_authed _ Hs Ha) as (_ & _ & Hh).
    destruct (Hq Hh) as [_ ->]. by apply H.
  - intros Hh. apply Forall_app_2; [done|]. apply Hn.
    destruct (s_haveSessionId (ses (w_loc w))) eqn:Ei; [|done].
    destruct (Hq eq_refl). congruence.
  - intros a e b Eb He. apply app_split_silent in Eb as [a' Eb]; [|done..].
    destruct (s_haveSessionId (ses (w_loc w))) eqn:Ei.
    + destruct (Hq eq_refl) as [_ ->]. by apply (Hc a' e b).
    + specialize (Hn eq_refl). rewrite Eb in Hn.
      apply list.Forall_app in Hn as [_ Hn]. apply list.Forall_cons in Hn as [Hx _]. congruence.
Qed.

Lemma accounted_loud w w' :
  at_ses safe_in_run w -> loud w w' -> accounted w -> accounted w'.
Proof.
  intros [Hs Hr] ([evs' E'] & Hq & Ha) (evs & E & H & Hn & Hc). exists (evs' ++ evs).
  destruct (safe_authed _ Hs Hr) as (_ & _ & Hh). destruct (Hq Hh) as [Hh' ->].
  split_and!.
  - by rewrite E', E, app_assoc.
  - intros _. by apply auth_evidence_grows, H.
  - congruence.
  - intros a e b Eb He. apply app_split_loud in Eb as [[a' ->]|[b' ->]].
    + by apply (Hc a' e b).
    + by apply auth_evidence_grows, H.
Qed.

Lemma sound_quiet {A} (m : M (world srv) A) :
  keeps quiet m -> triple (at_ses safe) m (fun _ => at_ses safe) ->
  triple sound m (fun _ => sound).
Proof.
  intros Hq Hs w [Hw Ha]. split; [by apply Hs|]. eapply accounted_quiet; [done|apply Hq|done].
Qed.

Lemma sound_auth_quiet {A} (m : M (world srv) A) :
  keeps quiet m -> keeps_ses (imp safe_in_auth) m ->
  triple sound_in_auth m (fun _ => sound_in_auth).
Proof.
  intros Hq Hs w [Hw Ha]. split; [by apply (Hs w)|].
  eapply accounted_quiet; [apply Hw|apply Hq|done].
Qed.

Lemma sound_run_loud {A} (m : M (world srv) A) :
  keeps loud m -> keeps_ses (imp safe_in_run) m ->
  triple sound_in_run m (fun _ => sound).
Proof.
  intros Hq Hs w [Hw Ha]. split; [by apply (Hs w)|].
  eapply accounted_loud; [apply Hw|apply Hq|done].
Qed.

Lemma shown_quiet {A} (m : M (world srv) A) :
  keeps quiet m -> keeps_ses (imp safe_in_auth) m ->
  triple (fun w => sound_in_auth w /\ shown w) m (fun _ w => sound_in_auth w /\ shown w).
Proof.
  intros Hq Hs w [Hw (evs & E & H)]. split; [by apply (sound_auth_quiet m Hq Hs)|].
  destruct (Hq w) as ((evs' & E' & _) & Hk & _). destruct Hw as [(_ & _ & _ & Hh) _].
  destruct (Hk Hh) as [_ Es]. exists (evs' ++ evs).
  rewrite E', E, Es, app_assoc. split; [done|]. by apply auth_evidence_grows.
Qed.

Lemma success_sound :
  triple (fun w => sound_in_auth w /\ shown w) send_userauth_success (fun _ => sound_in_auth).
Proof.
  unfold send_userauth_success. eapply triple_bind.
  { apply shown_quiet; [solve_quiet|solve_keeps]. }
  intros [] w [[Hw (evs & E & Ha)] (evs' & E' & H)]. split.
  - unfold at_ses in *. cbn. safe_done.
  - rewrite E in E'. apply app_inv_tail in E' as <-. exists evs. cbn.
    split; [done|]. split; [by intros _|apply Ha].
Qed.

(** ** The userauth handler *)

Lemma quiet_userauth_failure b : keeps quiet (send_userauth_failure b).
Proof. unfold send_userauth_failure. solve_quiet. Qed.
Lemma quiet_userauth_bad : keeps quiet userauth_bad.
Proof. unfold userauth_bad. solve_quiet. Qed.
Lemma quiet_authorized_loop k i pub : keeps quiet (authorized_loop k i pub).
Proof.
  revert i. induction k as [|k IH]; intros i; cbn [authorized_loop]; solve_quiet; apply IH.
Qed.
Lemma quiet_authorized_pub_matches pub : keeps quiet (authorized_pub_matches pub).
Proof. unfold authorized_pub_matches. solve_quiet. apply quiet_authorized_loop. Qed.
Hint Resolve quiet_userauth_failure quiet_userauth_bad quiet_authorized_pub_matches : keeps.
Hint Resolve keeps_userauth_failure keeps_userauth_bad keeps_authorized_pub_matches : keeps.

Ltac auth_leaf := apply sound_auth_quiet; [solve [solve_quiet]|solve [solve_safe]].

Lemma authorized_loop_sound k i pub w :
  0 <= i ->
  (authorized_loop k i pub w).1 = true ->
  exists evs j v, w_hist (authorized_loop k i pub w).2 = evs ++ w_hist w /\
    0 <= j /\ EvGetStr (authorized_key_name j) v ∈ evs /\ line_candidate v = Some (take 32 pub).
Proof.
  revert i w. induction k as [|k IH]; intros i w Hi; [done|].
  cbn [authorized_loop]. unfold storageGetStr, call, mbind, M_bind. cbn [fst snd].
  set (v := p_get_str _ _ _).
  set (w1 := World _ _).
  assert (Hnext : (authorized_loop k (i + 1) pub w1).1 = true ->
    exists evs j v, w_hist (authorized_loop k (i + 1) pub w1).2 = evs ++ w_hist w /\
      0 <= j /\ EvGetStr (authorized_key_name j) v ∈ evs /\ line_candidate v = Some (take 32 pub)).
  { intros H. destruct (IH (i + 1) w1 ltac:(lia) H) as (evs & j & v' & E & Hj & Hin & Hc).
    exists (evs ++ [EvGetStr (authorized_key_name i) v]), j, v'. split.
    - rewrite E. unfold w1. by rewrite <- app_assoc.
    - split; [done|]. split; [|done]. rewrite elem_of_app. by left. }
  destruct (line_candidate v) as [c|] eqn:Ec; [|exact Hnext].
  case_bool_decide as Hc; [|exact Hnext].
  intros _. exists [EvGetStr (authorized_key_name i) v], i, v. subst c.
  split; [done|]. split; [done|]. split; [by apply list_elem_of_here|done].
Qed.

(** A known key comes with the stored line that lists it. *)
Definition listed (pub : bytes) (w : world srv) : Prop :=
  exists evs j v, w_hist w = evs ++ h0 /\ 0 <= j /\
    EvGetStr (authorized_key_name j) v ∈ evs /\ line_candidate v = Some (take 32 pub).

Lemma authorized_pub_matches_sound pub :
  triple sound_in_auth (authorized_pub_matches pub)
    (fun known w => sound_in_auth w /\ (known = true -> listed pub w)).
Proof.
  intros w Hw. split.
  { revert w Hw. change (triple sound_in_auth (authorized_pub_matches pub) (fun _ => sound_in_auth)).
    auth_leaf. }
  destruct Hw as [_ (evs0 & E0 & _)].
  unfold authorized_pub_matches, storageArrayCount, call, mbind, M_bind. cbn [fst snd].
  intros H. apply authorized_loop_sound in H as (evs & j & v & E & Hj & Hin & Hc); [|done].
  eexists (evs ++ _ :: evs0), j, v.
  split; [|split; [done|split; [|done]]].
  - rewrite E. cbn [w_hist]. rewrite E0, <- app_assoc. reflexivity.
  - rewrite elem_of_app. by left.
Qed.

Lemma ed25519_blob_body_length blob n body :
  ed25519_blob_body blob n = Some body -> blen body = n.
Proof.
  unfold ed25519_blob_body. destruct (get_string _) as [[alg|] v]; [|done].
  destruct (negb _); [done|]. destruct (get_string v) as [[b|] v']; [|done].
  destruct (negb (blen b =? n)) eqn:E; [done|]. intros [= ->]. lia.
Qed.

Lemma sound_userauth_publickey v user svc :
  triple sound_in_auth (userauth_publickey v user svc) (fun _ => sound_in_auth).
Proof.
  unfold userauth_publickey.
  destruct (get_u8 v) as [hasSig v1], (get_string v1) as [[alg|] v2]; [|auth_leaf].
  destruct (get_string v2) as [[pk|] v3]; [|auth_leaf].
  apply triple_if; [auth_leaf|].
  destruct (ed25519_blob_body pk 32) as [pub|] eqn:Epk; [|auth_leaf].
  apply ed25519_blob_body_length in Epk as Hlen.
  eapply triple_bind; [apply authorized_pub_matches_sound|intros known].
  destruct known; cbn [negb];
    [|eapply triple_pre; [|auth_leaf]; by intros w []].
  apply triple_if; [eapply triple_pre; [|auth_leaf]; by intros w []|].
  destruct (get_string v3) as [[sigb|] v4];
    [|eapply triple_pre; [|auth_leaf]; by intros w []].
  destruct (ed25519_blob_body sigb 64) as [sg|];
    [|eapply triple_pre; [|auth_leaf]; by intros w []].
  apply triple_getS. intros s.
  destruct (ed25519_verify _ _ _) eqn:Ever; cbn [negb];
    [|eapply triple_pre; [|auth_leaf]; by intros w [[] _]].
  eapply triple_bind with (Q := fun _ => sound_in_auth); [|intros []; by apply triple_ret].
  eapply triple_pre; [|apply success_sound].
  intros w [[Hw Hl] <-]. split; [done|].
  destruct (Hl eq_refl) as (evs & j & line & E & Hj & Hin & Hc).
  exists evs. split; [done|]. right.
  exists j, line, user, svc, pk, pub, sg. split; [done|]. split; [done|].
  rewrite take_ge in Hc by (unfold blen in Hlen; lia). by rewrite Hc.
Qed.

Lemma sound_userauth_password v :
  triple sound_in_auth (userauth_password v) (fun _ => sound_in_auth).
Proof.
  unfold userauth_password. destruct (get_u8 v) as [hasChange v1].
  apply triple_if; [auth_leaf|]. destruct (get_string v1) as [[pw|] v2]; [|auth_leaf].
  eapply triple_bind with (Q := fun ok w => sound_in_auth w /\ (ok = true -> shown w)).
  - intros w Hw. split; [|intros H].
    { revert w Hw. change (triple sound_in_auth (authLogin (c_str pw) (str "admin"))
        (fun _ => sound_in_auth)). auth_leaf. }
    destruct Hw as [Hw (evs & E & Ha)].
    unfold authLogin, call in *. cbn [fst] in H.
    exists (EvAuthLogin (c_str pw) (str "admin") true :: evs).
    split; [cbn [snd w_hist]; by rewrite H, E|].
    left. exists (c_str pw). by apply list_elem_of_here.
  - intros [|].
    + eapply triple_bind with (Q := fun _ => sound_in_auth); [|intros []; by apply triple_ret].
      eapply triple_pre; [|apply success_sound]. intros w [Hw Hs]. split; [done|by apply Hs].
    + eapply triple_pre; [|auth_leaf]. by intros w [].
Qed.

Lemma sound_handle_userauth_request p :
  triple sound_in_auth (handle_userauth_request p) (fun _ => sound_in_auth).
Proof.
  unfold handle_userauth_request.
  destruct (get_string (view_init p)) as [[user|] v1]; [|auth_leaf].
  destruct (get_string v1) as [[svc|] v2]; [|auth_leaf].
  destruct (get_string v2) as [[method|] v3]; [|auth_leaf].
  eapply triple_bind; [auth_leaf|intros []].
  apply triple_if; [apply sound_userauth_publickey|].
  apply triple_if; [apply sound_userauth_password|]. auth_leaf.
Qed.

(** ** Dispatch and the entry points *)

Hint Resolve quiet_consume_version quiet_handle_kexinit quiet_handle_kex_ecdh_init
  quiet_handle_newkeys quiet_handle_service_request quiet_handle_global_request
  quiet_handle_channel_open quiet_handle_channel_data
  quiet_handle_channel_window_adjust quiet_handle_channel_close quiet_session_close
  quiet_backend_data quiet_session_on_backend_close : keeps.

(** Only two messages lead to code that is not quiet. *)
Lemma quiet_dispatch_packet t body slot :
  byte_to_Z t <> MSG_USERAUTH_REQUEST -> byte_to_Z t <> MSG_CHANNEL_REQUEST ->
  keeps quiet (dispatch_packet (t :: body) slot).
Proof.
  intros H1 H2. unfold dispatch_packet. solve_quiet. all: lia.
Qed.

Lemma dispatch_userauth t body slot : byte_to_Z t = MSG_USERAUTH_REQUEST ->
  dispatch_packet (t :: body) slot =
  (s ← getS; if negb (in_phase s AUTH) then mret false else handle_userauth_request body).
Proof. unfold dispatch_packet. by intros ->. Qed.
Lemma dispatch_channel_request t body slot : byte_to_Z t = MSG_CHANNEL_REQUEST ->
  dispatch_packet (t :: body) slot =
  (s ← getS; if negb (in_phase s RUN) then mret false else handle_channel_request body slot).
Proof. unfold dispatch_packet. by intros ->. Qed.

Lemma sound_dispatch_packet p slot :
  triple sound (dispatch_packet p slot) (fun _ => sound).
Proof.
  destruct p as [|t body]; [by apply triple_ret|].
  destruct (decide (byte_to_Z t = MSG_USERAUTH_REQUEST)) as [Ht|Ht].
  { rewrite dispatch_userauth by done. apply triple_getS. intros s w [[Hw Ha] <-].
    unfold in_phase. case_bool_decide as Hp; [|by split].
    enough (sound_in_auth (handle_userauth_request body w).2) as [[H _] H'] by by split.
    apply sound_handle_userauth_request. split; [|done].
    split; [exact Hw|by apply (safe_auth _ Hw)]. }
  destruct (decide (byte_to_Z t = MSG_CHANNEL_REQUEST)) as [Hr|Hr].
  { rewrite dispatch_channel_request by done. apply triple_getS. intros s w [[Hw Ha] <-].
    unfold in_phase. case_bool_decide as Hp; [|by split].
    apply (sound_run_loud (handle_channel_request body slot));
      [apply loud_handle_channel_request|apply safe_handle_channel_request|].
    split; [|done]. split; [exact Hw|by apply (safe_run _ Hw)]. }
  apply sound_quiet; [by apply quiet_dispatch_packet|apply safe_dispatch_packet].
Qed.

Lemma sound_imp {A} (m : M (world srv) A) :
  keeps quiet m -> keeps_ses (imp safe) m -> triple sound m (fun _ => sound).
Proof. intros Hq Hs. apply sound_quiet; [done|by apply imp_triple]. Qed.

Lemma quiet_parse_packet : keeps quiet parse_packet.
Proof. unfold parse_packet. solve_quiet. Qed.

Hint Resolve safe_consume_version : keeps.

Lemma sound_dispatch_step u : triple sound (dispatch_step u) (fun _ => sound).
Proof.
  unfold dispatch_step.
  eapply triple_bind; [apply sound_imp; solve_keeps|intros s].
  apply triple_if; [by apply triple_ret|].
  apply triple_if; [apply sound_imp; solve_keeps|].
  eapply triple_bind; [apply sound_imp; [apply quiet_parse_packet|apply safe_parse_packet]|].
  intros [r payload]. cbv zeta.
  do 2 (apply triple_if; [apply sound_imp; solve_keeps|]).
  eapply triple_bind; [apply sound_dispatch_packet|intros ok].
  apply sound_imp; solve_keeps.
Qed.

Lemma sound_session_on_tcp_data fuel :
  triple sound (session_on_tcp_data fuel) (fun _ => sound).
Proof.
  unfold session_on_tcp_data.
  eapply triple_bind with (Q := fun _ => sound); [|intros [?|?]; [by apply triple_ret|]].
  { apply sound_imp; unfold recv_step; [solve_quiet|solve_safe]. }
  eapply triple_bind with (Q := fun _ => sound); [|intros [?|?]; [by apply triple_ret|]].
  { unfold dispatch_loop. eapply triple_bind; [apply sound_imp; solve_keeps|intros s].
    apply triple_loop, sound_dispatch_step. }
  apply sound_quiet; [solve_keeps|]. apply slots_triple. solve_keeps. apply safe_session_close.
Qed.
End evidence.

(** ** Reachable states *)

(** The callbacks of [sshd.cpp] for the session of one slot, and the other
    session of the task taking or freeing its slot. *)
Inductive step `{PF : Platform} `{MB : Mbedtls} `{ED : Ed25519} `{KEM : MlKem} : world srv -> world srv -> Prop :=
  | step_tcp_data fuel w :                                   (* onTcpRecv *)
      (session_on_tcp_data fuel w).1 = true -> step w (session_on_tcp_data fuel w).2
  | step_backend_data w : step w (session_on_backend_data w).2
  | step_backend_close w : step w (session_on_backend_close w).2
  | step_close w : step w (session_close w).2                (* onTcpDisconnect, sshd reset *)
  | step_slots w slots :
      step w (World {| ses := ses (w_loc w); slotInUse := slots |} (w_hist w)).

(** [reachable h0 w]: the connection was accepted when the history was [h0]. *)
Inductive reachable `{PF : Platform} `{MB : Mbedtls} `{ED : Ed25519} `{KEM : MlKem} (h0 : history) :
    world srv -> Prop :=
  | reach_open l tcp slot : reachable h0 (session_open tcp slot (World l h0)).2
  | reach_step w w' : reachable h0 w -> step w w' -> reachable h0 w'.

Section reach.
Context `{PF : Platform} `{MB : Mbedtls} `{ED : Ed25519} `{KEM : MlKem}.

Lemma reachable_sound h0 w : reachable h0 w -> sound h0 w.
Proof.
  induction 1 as [l tcp slot|w w' _ IH Hst].
  - split; [by apply safe_session_open|].
    unfold session_open. set (w0 := World _ _).
    assert (accounted h0 (updS reset w0).2) as Ha.
    { exists []. split; [done|]. split; [done|]. split; [done|].
      intros a e b E. by destruct a. }
    assert (safe (ses (w_loc (updS reset w0).2))) as Hs by apply safe_reset.
    unfold mbind at 1, M_bind at 1.
    eapply accounted_quiet; [exact Hs| |exact Ha].
    revert Hs Ha. generalize ((updS reset w0).2) as w1. intros w1 _ _.
    match goal with |- quiet w1 (?m _).2 => apply (fun H : keeps quiet m => H w1) end.
    unfold send_our_version. solve_quiet.
  - destruct Hst as [fuel w _|w|w|w|w slots].
    + by apply sound_session_on_tcp_data.
    + revert IH. apply sound_quiet; [apply quiet_backend_data|].
      apply imp_triple, safe_backend_data.
    + revert IH. apply sound_quiet; [apply quiet_session_on_backend_close|].
      apply safe_session_on_backend_close.
    + revert IH. apply sound_quiet; [apply quiet_session_close|].
      apply slots_triple, safe_session_close.
    + exact IH.
Qed.

(** C3: In every state a session can reach, from the running phase, an open
    channel or a connected backend follows that the peer has authenticated, that
    both directions are encrypted and that the session id is fixed. *)
Theorem session_gate h0 w :
  reachable h0 w ->
  let s := ses (w_loc w) in
  s_phase s = RUN \/ s_chanOpen s = true \/ 0 <= s_backendHandle s ->
  s_authed s = true /\ s_encInbound s = true /\ s_encOutbound s = true /\
  s_haveSessionId s = true.
Proof.
  intros [Hs _]%reachable_sound s Hr.
  assert (s_authed s = true) as Ha.
  { destruct Hr as [H|[H|H]]; [by apply (safe_run _ Hs)|by apply (safe_chan _ Hs)|].
    by apply (safe_backend _ Hs). }
  split; [done|]. by apply (safe_authed _ Hs).
Qed.

(** C1: A session that counts as authenticated has, since its connection was
    accepted, been given a password that the admin realm accepted, or has read a
    stored key line under whose key a signature verified that covers this
    session's id. *)
Theorem session_authenticated h0 w :
  reachable h0 w -> s_authed (ses (w_loc w)) = true ->
  exists evs, w_hist w = evs ++ h0 /\ auth_evidence (s_sessionId (ses (w_loc w))) evs.
Proof. intros [_ (evs & E & H & _)]%reachable_sound Ha. exists evs. split; [done|by apply H]. Qed.

(** C2: Order of events: whenever the server opened a stream to the CLI or the
    log, the evidence that authenticates the peer was already in the history
    before that event. *)
Theorem backend_after_auth h0 w a e b :
  reachable h0 w -> w_hist w = a ++ e :: b ++ h0 -> is_connect e = true ->
  auth_evidence (s_sessionId (ses (w_loc w))) b.
Proof.
  intros [_ (evs & E & _ & _ & H)]%reachable_sound Eh He. apply (H a e b); [|done].
  rewrite E in Eh. apply (app_inv_tail h0). by rewrite Eh, <- app_assoc.
Qed.
End reach.

(** The concrete session is such a history. *)
Lemma run_data_step chunks w :
  (session_on_tcp_data (PF := host chunks) 100 w).1 = true ->
  step (PF := host chunks) w (run_data chunks w).
Proof. apply step_tcp_data. Qed.

Lemma run_data_reachable chunks w :
  reachable (PF := host chunks) [] w ->
  (session_on_tcp_data (PF := host chunks) 100 w).1 = true ->
  reachable (PF := host chunks) [] (run_data chunks w).
Proof. intros H Hd. eapply reach_step; [exact H|by apply run_data_step]. Qed.

Lemma run3_reachable : reachable (PF := host peer_chunks) [] run3.
Proof.
  unfold run3. apply run_data_reachable; [|by vm_compute].
  unfold run2. apply run_data_reachable; [|by vm_compute].
  unfold run1. apply run_data_reachable; [|by vm_compute].
  unfold run0, run_open. apply (reach_open (PF := host peer_chunks)).
Qed.

Lemma session_gate_witness :
  let s := ses (w_loc run3) in
  0 <= s_backendHandle s /\ s_authed s = true /\ s_encInbound s = true /\
  s_encOutbound s = true /\ s_haveSessionId s = true.
Proof.
  split; [by vm_compute|].
  apply (session_gate (PF := host peer_chunks) [] run3 run3_reachable). right; right. by vm_compute.
Defined.

Lemma session_authenticated_witness :
  exists evs, w_hist run3 = evs ++ [] /\ auth_evidence (s_sessionId (ses (w_loc run3))) evs.
Proof.
  apply (session_authenticated (PF := host peer_chunks) [] run3 run3_reachable). by vm_compute.
Defined.

Definition connect_at (w : world srv) : option (history * event * history) :=
  match list_find (fun e => is_connect e = true) (w_hist w) with
  | Some (i, e) => Some (take i (w_hist w), e, drop (S i) (w_hist w))
  | None => None
  end.

Lemma connect_at_spec w a e b :
  connect_at w = Some (a, e, b) -> w_hist w = a ++ e :: b ++ [] /\ is_connect e = true.
Proof.
  unfold connect_at. destruct (list_find _ _) as [[i x]|] eqn:Ef; [|done].
  apply list_find_Some in Ef as (El & Hx & _). intros [= <- <- <-]. split; [|done].
  rewrite app_nil_r. symmetry. by apply take_drop_middle.
Qed.

Lemma backend_after_auth_witness :
  exists a e b, w_hist run3 = a ++ e :: b ++ [] /\ is_connect e = true /\
    auth_evidence (s_sessionId (ses (w_loc run3))) b.
Proof.
  assert (is_Some (connect_at run3)) as [[[a e] b] E] by (vm_compute; by eexists).
  apply connect_at_spec in E as [Eh He].
  exists a, e, b. split; [exact Eh|]. split; [exact He|].
  exact (backend_after_auth (PF := host peer_chunks) [] run3 a e b run3_reachable Eh He).
Defined.
