(* ===== verification/SessionTypes.v ===== *)
(** * SessionTypes: the session record is well formed

    The model keeps the arrays of [sshd_session.h] as lists.  Every one of them has the
    length of its declaration, and the two keys are those of the exchange, in every state
    a session can reach. *)
From S2P Require Import Prelude Wire Platform Crypto Framing SessionState SessionKex SessionAuth SessionChannel SessionLoop Concrete Runs KexFacts SessionSafety SessionReach.

(** The arrays of [struct Session], whole: nothing is written past one of them, and no
    copy leaves one short. *)
Record arrays (s : Session) : Prop := {
  ar_ephPriv : length (s_ephPriv s) = 32%nat;
  ar_ephPub : length (s_ephPub s) = 32%nat;
  ar_peerEphPub : length (s_peerEphPub s) = 32%nat;
  ar_sharedK : length (s_sharedK s) = 32%nat;
  ar_sessionId : length (s_sessionId s) = 32%nat;
  ar_c2sKey : length (s_c2sKey s) = 64%nat;
  ar_s2cKey : length (s_s2cKey s) = 64%nat
}.

(** The phases between the key exchange and the next KEXINIT. *)
Definition keyed_phase (p : Phase) : bool :=
  match p with KEX_WAIT_NEWKEYS | AUTH | RUN => true | _ => false end.

(** The key of RFC 4253 section 7.2 for a letter, from the secret and the id of the session. *)
Definition rfc_key `{Mbedtls} (s : Session) (X : byte) : bytes :=
  take 64 (kdf_stream 2 (K_enc (s_kexAlg s) (s_sharedK s)) (s_sessionId s) X (s_sessionId s)).
Definition has_keys `{Mbedtls} (s : Session) : Prop :=
  s_encOutbound s = true /\ s_c2sKey s = rfc_key s x43 /\ s_s2cKey s = rfc_key s x44.

Definition well_formed `{Mbedtls} (s : Session) : Prop :=
  arrays s /\ (keyed_phase (s_phase s) = true -> has_keys s).

(** Inside the handlers of a keyed phase, and inside a key exchange. *)
Definition keyed_arrays `{Mbedtls} (s : Session) : Prop := arrays s /\ has_keys s.
Definition unkeyed_arrays (s : Session) : Prop := arrays s /\ keyed_phase (s_phase s) = false.

Lemma well_formed_reset `{Mbedtls} s : well_formed (reset s).
Proof. split; [|done]. split; apply length_replicate. Qed.
Lemma keyed_well_formed `{Mbedtls} s : keyed_arrays s -> well_formed s.
Proof. by intros []. Qed.
Lemma unkeyed_well_formed `{Mbedtls} s : unkeyed_arrays s -> well_formed s.
Proof. intros [Ha Hp]. split; [done|]. by rewrite Hp. Qed.

(** Close a goal about an update, given the lengths of the values written. *)
Ltac typed_done :=
  unfold imp, well_formed, keyed_arrays, unkeyed_arrays, has_keys, rfc_key;
  let Ha := fresh in let Hk := fresh in intros [Ha Hk]; split;
  [revert Ha; intros []; split; cbn in *; assumption|cbn in *; first [assumption|discriminate|done]].
Ltac upd_typed :=
  lazymatch goal with |- keeps _ (updS _) => idtac end;
  apply updS_keeps; let s := fresh "s" in intros s; typed_done.
Ltac solve_typed := unfold_calls; solve_keeps; try upd_typed.

#[export] Instance typed_seq `{Mbedtls} : IgnoresSeqOut (imp well_formed).
Proof. intros s n. typed_done. Qed.
#[export] Instance typed_closed `{Mbedtls} : AllowsClosed (imp well_formed).
Proof. intros s. typed_done. Qed.
#[export] Instance keyed_seq `{Mbedtls} : IgnoresSeqOut (imp keyed_arrays).
Proof. intros s n. typed_done. Qed.
#[export] Instance keyed_closed `{Mbedtls} : AllowsClosed (imp keyed_arrays).
Proof. intros s. typed_done. Qed.
#[export] Instance unkeyed_seq : IgnoresSeqOut (imp unkeyed_arrays).
Proof. intros s n. typed_done. Qed.
#[export] Instance unkeyed_closed : AllowsClosed (imp unkeyed_arrays).
Proof. intros s. typed_done. Qed.

Section types.
Context `{PF : Platform} `{PL : !PlatformLaws} `{MB : Mbedtls} `{ML : !MbedtlsLaws}.
Context `{ED : Ed25519} `{KEM : MlKem}.

Lemma triple_updS (P Q : Session -> Prop) f :
  (forall s, P s -> Q (f s)) -> triple (at_ses P) (updS f) (fun _ => at_ses Q).
Proof. intros H w. apply H. Qed.

(** The random octets that were asked for. *)
Lemma keeps_random {A} (R : world srv -> world srv -> Prop) `{!PreOrder R} n (f : bytes -> M (world srv) A) :
  keeps R (randomBytes n) -> (forall r, length r = n -> keeps R (f r)) -> keeps R (randomBytes n ≫= f).
Proof.
  intros Hr Hf w. transitivity (randomBytes n w).2; [apply Hr|].
  apply Hf. apply p_random_length.
Qed.

Lemma finish_length h d : absorbed h d -> length (Sha256_finish h) = 32%nat.
Proof. intros H. rewrite (absorbed_finish h d H). apply sha256_length. Qed.

Lemma derived_key s letter : arrays s ->
  derive_key s letter 64 = rfc_key s letter /\ length (derive_key s letter 64) = 64%nat.
Proof.
  intros Hs. rewrite (derive_key_eq s letter 64 2); [|apply (ar_sharedK _ Hs)|lia].
  split; [done|]. rewrite length_take, kdf_stream_length. lia.
Qed.

(** ** Key exchange *)

Lemma typed_consume_version : keeps_ses (imp well_formed) consume_version.
Proof. unfold consume_version, send_our_kexinit, build_kexinit_payload. solve_typed. Qed.
(** The new algorithm belongs to the exchange that starts, not to the keys at hand. *)
Lemma typed_handle_kexinit p : keeps_ses (imp well_formed) (handle_kexinit p).
Proof.
  unfold handle_kexinit. apply keeps_bind; [apply _|upd_typed|intros []].
  destruct (select_kex_alg p) as [alg|]; [|solve_keeps].
  intros w. split; [|done]. intros [Ha _]. split; [|done]. revert Ha. intros []. by split.
Qed.
Lemma typed_load_host_key : keeps_ses (imp unkeyed_arrays) load_host_key.
Proof. unfold load_host_key. solve_typed. Qed.

Lemma typed_random n : keeps_ses (imp unkeyed_arrays) (randomBytes n).
Proof. unfold randomBytes. solve_keeps. Qed.
Hint Resolve typed_random typed_load_host_key : keeps.

Lemma typed_kex_compute_classical : keeps_ses (imp unkeyed_arrays) kex_compute_classical.
Proof.
  unfold kex_compute_classical, x25519_base, x25519_scalar.
  apply keeps_random; [apply _|solve_keeps|intros priv Hp].
  solve_typed; repeat match goal with E : x25519_compute _ _ = Some _ |- _ =>
    apply x25519_compute_length in E end; upd_typed.
Qed.

Lemma absorbed_two a b :
  absorbed (Sha256_update (Sha256_update Sha256_new a) b) (a ++ b).
Proof. apply (absorbed_update _ ([] ++ a)), absorbed_update, absorbed_new. Qed.

Lemma typed_kex_compute_pq : keeps_ses (imp unkeyed_arrays) kex_compute_pq.
Proof.
  unfold kex_compute_pq, mlkem768_encap, x25519_base, x25519_scalar.
  apply keeps_bind; [apply _|solve_keeps|intros s0]. case_goal; [solve_typed|]. cbv zeta.
  apply keeps_bind; [apply _|solve_keeps|intros [[ct ss]|]]; [|solve_typed].
  apply keeps_random; [apply _|solve_keeps|intros priv Hp].
  solve_typed; repeat match goal with E : x25519_compute _ _ = Some _ |- _ =>
    apply x25519_compute_length in E end; try upd_typed.
  match goal with |- context [Sha256_finish (Sha256_update (Sha256_update _ ?a) ?b)] =>
    pose proof (finish_length _ _ (absorbed_two a b)) end. upd_typed.
Qed.
Hint Resolve typed_kex_compute_classical typed_kex_compute_pq : keeps.

(** The exchange hash has the length of a SHA-256 digest, whatever is hashed. *)
Lemma exchange_hash_length s k : arrays s -> length (compute_exchange_hash s k) = 32%nat.
Proof. intros Hs. rewrite exchange_hash_eq; [apply sha256_length|apply (ar_sharedK _ Hs)]. Qed.

Lemma typed_send_kex_ecdh_reply : keeps_ses (imp unkeyed_arrays) send_kex_ecdh_reply.
Proof.
  unfold send_kex_ecdh_reply.
  apply keeps_bind; [apply _|solve_keeps|intros [[seed hostPub]|]]; [|solve_keeps].
  apply keeps_bind; [apply _|solve_keeps|intros s0].
  apply keeps_bind; [apply _|solve_keeps|intros [|]]; cbn [negb]; [|solve_keeps].
  apply keeps_getS. intros w. cbv zeta. apply keeps_after; [apply _| |intros []; solve_typed].
  destruct (negb _); cbn [when]; [|split; [by intros ?|done]].
  split; [|done]. intros Hs. pose proof (exchange_hash_length _ (build_host_key_blob hostPub) (proj1 Hs)).
  revert H. generalize (compute_exchange_hash (ses (w_loc w)) (build_host_key_blob hostPub)).
  intros d Hd. revert Hs. cbn [fst snd updS updl modify w_loc ses ses_rel]. typed_done.
Qed.
Hint Resolve typed_send_kex_ecdh_reply : keeps.

(** The keys are those of the secret and the id, whatever they were before. *)
Lemma typed_new_keys :
  triple (at_ses unkeyed_arrays)
    (send_packet (put_u8 [] MSG_NEWKEYS);; derive_session_keys;;
     updS (fun s => {| s with s_encOutbound := true; s_phase := KEX_WAIT_NEWKEYS |});; mret true)
    (fun _ => at_ses well_formed).
Proof.
  eapply triple_bind; [apply imp_triple; solve_keeps|intros []]. unfold derive_session_keys.
  eapply triple_bind with (Q := fun _ => at_ses (fun s => arrays s /\ s_c2sKey s = rfc_key s x43 /\ s_s2cKey s = rfc_key s x44));
    [eapply triple_bind with (Q := fun _ => at_ses (fun s => arrays s /\ s_c2sKey s = rfc_key s x43))|];
    [|intros []|intros []].
  - apply triple_updS. intros s [Ha _]. destruct (derived_key s x43 Ha) as [E L]. split; [destruct Ha; by split|exact E].
  - apply triple_updS. intros s [Ha E1]. destruct (derived_key s x44 Ha) as [E2 L2].
    split; [destruct Ha; by split|]. split; [exact E1|exact E2].
  - eapply triple_bind; [apply triple_updS with (Q := well_formed)|intros []; by apply triple_ret].
    intros s ([] & E1 & E2). split; [by split|]. intros _. split; [done|]. split; [exact E1|exact E2].
Qed.

Lemma typed_handle_kex_ecdh_init p :
  triple (at_ses unkeyed_arrays) (handle_kex_ecdh_init p) (fun _ => at_ses well_formed).
Proof.
  assert (forall m : M (world srv) bool, keeps_ses (imp unkeyed_arrays) m ->
    triple (at_ses unkeyed_arrays) m (fun _ => at_ses well_formed)) as Hm.
  { intros m Hm w Hw. apply unkeyed_well_formed, (Hm w), Hw. }
  unfold handle_kex_ecdh_init. destruct (get_string (view_init p)) as [[blob|] v]; [|apply Hm; solve_keeps].
  eapply triple_bind; [apply imp_triple; solve_keeps|intros s0]. cbv zeta.
  apply triple_if; [apply Hm; solve_typed|]. case_goal; [apply Hm; solve_typed|].
  eapply triple_bind; [apply imp_triple|intros []].
  { destruct (bool_decide _); cbn [negb andb] in *; [upd_typed|].
    assert (length blob = 32%nat) by (unfold blen in *; lia). upd_typed. }
  eapply triple_bind; [apply imp_triple, typed_send_kex_ecdh_reply|intros [|]]; cbn [negb].
  - apply typed_new_keys.
  - apply Hm. solve_keeps.
Qed.

(** ** The other handlers *)

Lemma typed_handle_newkeys : keeps_ses (imp keyed_arrays) handle_newkeys.
Proof. unfold handle_newkeys. solve_typed. Qed.
Lemma typed_handle_service_request p : keeps_ses (imp well_formed) (handle_service_request p).
Proof. unfold handle_service_request. solve_typed. Qed.
Lemma typed_handle_userauth_request p : keeps_ses (imp keyed_arrays) (handle_userauth_request p).
Proof.
  unfold handle_userauth_request, userauth_publickey, userauth_password, send_userauth_success.
  solve_typed.
  all: first [apply keeps_userauth_failure | apply keeps_userauth_bad
             | apply keeps_authorized_pub_matches]; apply _.
Qed.
Lemma typed_handle_global_request p : keeps_ses (imp well_formed) (handle_global_request p).
Proof. unfold handle_global_request. solve_typed. Qed.

Lemma typed_handle_channel_open p : keeps_ses (imp well_formed) (handle_channel_open p).
Proof. unfold handle_channel_open, send_channel_open_failure, send_channel_open_confirm. solve_typed. Qed.

Lemma typed_backend_data : keeps_ses (imp well_formed) session_on_backend_data.
Proof. apply keeps_backend_data; [apply _..|]. intros s n. typed_done. Qed.
Hint Resolve typed_backend_data : keeps.
Lemma typed_close_backend : keeps_ses (imp well_formed) close_backend.
Proof. unfold close_backend. solve_typed. Qed.
Hint Resolve typed_close_backend : keeps.
Lemma typed_open_backend slot m : keeps_ses (imp well_formed) (open_backend_with_mode slot m).
Proof. unfold open_backend_with_mode. solve_typed. Qed.
Hint Resolve typed_open_backend : keeps.
Lemma typed_handle_channel_request p slot :
  keeps_ses (imp well_formed) (handle_channel_request p slot).
Proof.
  unfold handle_channel_request, request_shell, request_exec, request_subsystem, request_reply,
    open_backend, open_backend_line, log_accepted, send_channel_request_reply. solve_typed.
Qed.

Lemma typed_handle_channel_data p : keeps_ses (imp well_formed) (handle_channel_data p).
Proof. unfold handle_channel_data, send_channel_window_adjust. solve_typed. Qed.
Lemma typed_handle_channel_window_adjust p :
  keeps_ses (imp well_formed) (handle_channel_window_adjust p).
Proof. unfold handle_channel_window_adjust. solve_typed. Qed.
Lemma typed_handle_channel_close : keeps_ses (imp well_formed) handle_channel_close.
Proof. unfold handle_channel_close, send_channel_close. solve_typed. Qed.

(** ** Dispatch and the entry points *)

Hint Resolve typed_consume_version typed_handle_kexinit typed_handle_service_request
  typed_handle_global_request typed_handle_channel_close : keeps.

(** What [dispatch_packet] knows when it looks at the phase. *)
Abbreviation seen_ses s := (fun w => at_ses well_formed w /\ ses (w_loc w) = s).

Lemma seen_typed {A} s (m : M (world srv) A) :
  keeps_ses (imp well_formed) m -> triple (seen_ses s) m (fun _ => at_ses well_formed).
Proof. intros Hm w [H _]. by apply (Hm w). Qed.
Lemma gate_typed (b : bool) s (m : M (world srv) bool) : keeps_ses (imp well_formed) m ->
  triple (seen_ses s) (if b then mret false else m) (fun _ => at_ses well_formed).
Proof. intros Hm. destruct b; apply seen_typed; [solve_keeps|done]. Qed.

Lemma keyed_triple {A} (m : M (world srv) A) : keeps_ses (imp keyed_arrays) m ->
  triple (at_ses keyed_arrays) m (fun _ => at_ses well_formed).
Proof. intros Hm w Hw. by apply keyed_well_formed, (Hm w). Qed.

(** A handler of one phase starts with what that phase grants. *)
Lemma gate_phase (p : Phase) s (m : M (world srv) bool) :
  triple (at_ses (if keyed_phase p then keyed_arrays else unkeyed_arrays)) m (fun _ => at_ses well_formed) ->
  triple (seen_ses s) (if negb (in_phase s p) then mret false else m) (fun _ => at_ses well_formed).
Proof.
  intros Hm w [H <-]. unfold in_phase. case_bool_decide as Hp; [|exact H]. cbn [negb].
  apply Hm. destruct H as [Ha Hk]. unfold at_ses. subst p.
  destruct (keyed_phase _) eqn:E; (split; [exact Ha|]); [by apply Hk|exact E].
Qed.

Lemma typed_dispatch_packet p slot :
  triple (at_ses well_formed) (dispatch_packet p slot) (fun _ => at_ses well_formed).
Proof.
  unfold dispatch_packet. destruct p as [|t body]; [by apply triple_ret|]. cbv zeta.
  apply triple_getS; intros s.
  apply triple_if; [apply seen_typed; solve_typed|].                       (* DISCONNECT *)
  apply triple_if; [apply seen_typed; solve_keeps|].                       (* IGNORE, DEBUG *)
  apply triple_if; [apply gate_typed; solve_keeps|].                       (* KEXINIT *)
  apply triple_if; [apply (gate_phase KEX_WAIT_ECDH), typed_handle_kex_ecdh_init|].
  apply triple_if; [apply (gate_phase KEX_WAIT_NEWKEYS), keyed_triple; solve_keeps; apply typed_handle_newkeys|].
  apply triple_if; [apply gate_typed, typed_handle_service_request|].
  apply triple_if; [apply (gate_phase AUTH), keyed_triple, typed_handle_userauth_request|].
  apply triple_if; [apply seen_typed, typed_handle_global_request|].
  apply triple_if; [apply gate_typed, typed_handle_channel_open|].
  apply triple_if; [apply gate_typed, typed_handle_channel_request|].
  apply triple_if; [apply gate_typed; solve_keeps; apply typed_handle_channel_data|].
  apply triple_if; [apply gate_typed; solve_keeps; apply typed_handle_channel_window_adjust|].
  apply seen_typed. solve_typed.
Qed.

Lemma typed_parse_packet : keeps_ses (imp well_formed) parse_packet.
Proof. unfold parse_packet. solve_typed. Qed.
Hint Resolve typed_parse_packet : keeps.
Lemma typed_recv_step u : keeps_ses (imp well_formed) (recv_step u).
Proof. unfold recv_step. solve_typed. Qed.

Lemma typed_dispatch_step u : triple (at_ses well_formed) (dispatch_step u) (fun _ => at_ses well_formed).
Proof.
  unfold dispatch_step. apply triple_getS; intros s.
  apply triple_if; [apply seen_typed; solve_keeps|].
  apply triple_if; [apply seen_typed; solve_keeps|].
  eapply triple_bind; [apply seen_typed, typed_parse_packet|intros [r payload]]. cbv zeta.
  do 2 (apply triple_if; [apply imp_triple; solve_keeps|]).
  eapply triple_bind; [apply typed_dispatch_packet|intros ok].
  apply imp_triple. solve_keeps.
Qed.
Lemma typed_dispatch_loop : triple (at_ses well_formed) dispatch_loop (fun _ => at_ses well_formed).
Proof.
  unfold dispatch_loop. eapply triple_bind; [apply imp_triple; solve_keeps|intros s].
  apply triple_loop. intros u. eapply triple_conseq with (P' := at_ses well_formed); [apply typed_dispatch_step|done|].
  by intros [].
Qed.

Lemma typed_session_close : keeps (on_loc (any_slots (imp well_formed))) session_close.
Proof.
  unfold session_close, sshdSlotFree. unfold_calls. solve_keeps.
  all: try (apply keeps_any_slots; first [apply typed_close_backend|upd_typed]).
  apply updl_on_loc. intros l H. exact H.
Qed.
Lemma typed_session_on_backend_close :
  keeps (on_loc (any_slots (imp well_formed))) session_on_backend_close.
Proof.
  unfold session_on_backend_close, send_exit_status, send_channel_eof, send_channel_close.
  solve_keeps.
  all: try apply typed_session_close.
  all: apply keeps_any_slots; first [solve [solve_keeps]|upd_typed].
Qed.
Lemma typed_session_on_tcp_data fuel :
  triple (at_ses well_formed) (session_on_tcp_data fuel) (fun _ => at_ses well_formed).
Proof.
  unfold session_on_tcp_data.
  eapply triple_bind; [apply imp_triple; solve_keeps; apply typed_recv_step|intros [_|_]];
    [by apply triple_ret|].
  eapply triple_bind; [apply typed_dispatch_loop|intros [_|_]]; [by apply triple_ret|].
  apply slots_triple. solve_keeps. apply typed_session_close.
Qed.

End types.

