(* ===== verification/SessionFlow.v ===== *)
(** * SessionFlow: loops, flow control and closing of the server session

    The dispatch loop ends because every turn takes octets off the receive buffer;
    the relay from the backend to the channel respects the peer's window and packet
    size, loses nothing and writes no log line; a closed session has given back
    everything it held. *)
From S2P Require Import Prelude Wire Platform Crypto Concrete Framing SessionState SessionKex SessionAuth SessionChannel SessionLoop Runs SessionSafety.

(** ** Nobody but the two consumers touches the receive buffer *)

Definition same_rx (s s' : Session) : Prop :=
  s_rxBuf s' = s_rxBuf s /\ s_slot s' = s_slot s.
#[export] Instance same_rx_preorder : PreOrder same_rx.
Proof. split; [by intros s|]. intros s1 s2 s3 [] []. split; congruence. Qed.
#[export] Instance same_rx_seq : IgnoresSeqOut same_rx.
Proof. by intros s n. Qed.
#[export] Instance same_rx_closed : AllowsClosed same_rx.
Proof. by intros s. Qed.

Ltac solve_rx := unfold_calls; solve_keeps; try (apply updS_keeps; by intros ?).

Section rx.
Context `{PF : Platform} `{MB : Mbedtls} `{ED : Ed25519} `{KEM : MlKem}.

Lemma rx_send_kex_ecdh_reply : keeps_ses same_rx send_kex_ecdh_reply.
Proof.
  unfold send_kex_ecdh_reply, load_host_key, kex_compute_classical, kex_compute_pq,
    mlkem768_encap. solve_rx.
Qed.
Lemma rx_handle_kex_ecdh_init p : keeps_ses same_rx (handle_kex_ecdh_init p).
Proof.
  unfold handle_kex_ecdh_init, derive_session_keys. solve_rx. all: apply rx_send_kex_ecdh_reply.
Qed.
Lemma rx_handle_userauth_request p : keeps_ses same_rx (handle_userauth_request p).
Proof.
  unfold handle_userauth_request, userauth_publickey, userauth_password, userauth_bad,
    send_userauth_failure, send_userauth_success. solve_rx.
  all: apply keeps_authorized_pub_matches, _.
Qed.
Lemma rx_handle_channel_open p : keeps_ses same_rx (handle_channel_open p).
Proof.
  unfold handle_channel_open, send_channel_open_failure, send_channel_open_confirm. solve_rx.
Qed.
Lemma rx_handle_channel_request p slot : keeps_ses same_rx (handle_channel_request p slot).
Proof.
  unfold handle_channel_request, request_shell, request_exec, request_subsystem, request_reply,
    open_backend, open_backend_line, open_backend_with_mode, log_accepted,
    send_channel_request_reply. solve_rx.
Qed.
Lemma rx_backend_data : keeps_ses same_rx session_on_backend_data.
Proof. apply keeps_backend_data; [apply _..|]. by intros s n. Qed.
Lemma rx_handle_channel_data p : keeps_ses same_rx (handle_channel_data p).
Proof. unfold handle_channel_data, send_channel_window_adjust. solve_rx. Qed.
Hint Resolve rx_handle_kex_ecdh_init rx_handle_userauth_request rx_handle_channel_open
  rx_handle_channel_request rx_backend_data rx_handle_channel_data : keeps.

Lemma rx_dispatch_packet p slot : keeps_ses same_rx (dispatch_packet p slot).
Proof.
  unfold dispatch_packet, handle_kexinit, handle_newkeys, handle_service_request,
    handle_global_request, handle_channel_window_adjust, handle_channel_close, close_backend,
    send_channel_close. solve_rx.
Qed.

(** ** The dispatch loop ends *)

Definition rx_len (w : world srv) : nat := length (s_rxBuf (ses (w_loc w))).

(** Code that leaves the buffer alone keeps a bound on it. *)
Lemma rx_triple {A} n (m : M (world srv) A) :
  keeps_ses same_rx m ->
  triple (fun w => (rx_len w < n)%nat) m (fun _ w => (rx_len w < n)%nat).
Proof. intros Hm w Hw. unfold rx_len in *. destruct (Hm w) as [[E _] _]. by rewrite E. Qed.

Lemma rx_triple_true n (m : M (world srv) bool) :
  keeps_ses same_rx m ->
  triple (fun w => (rx_len w < n)%nat) m (fun ok w => ok = true -> (rx_len w < n)%nat).
Proof. intros Hm w Hw _. by apply (rx_triple n m Hm). Qed.

Lemma triple_fails (P : world srv -> Prop) {A} (m : M (world srv) A) Q :
  triple P (m;; mret false) (fun ok w => ok = true -> Q w).
Proof. by intros w _. Qed.

Lemma consume_version_shrinks w0 :
  triple (fun w => w = w0) consume_version
    (fun ok w => ok = true -> (rx_len w < rx_len w0)%nat).
Proof.
  unfold consume_version. apply triple_getS. intros s.
  destruct (find_char x0a (s_rxBuf s) 0) as [nl|] eqn:E; [|apply triple_fails].
  eapply triple_bind with (Q := fun _ w => (rx_len w < rx_len w0)%nat).
  - intros w [-> <-]. apply find_char_Some in E as (s1 & s2 & E & _ & _).
    unfold rx_len. cbn. rewrite length_drop, E, length_app. cbn. lia.
  - intros []. apply rx_triple_true. unfold send_our_kexinit, build_kexinit_payload. solve_rx.
Qed.

Lemma parse_packet_shrinks `{!MbedtlsLaws} w0 :
  triple (fun w => w = w0) parse_packet
    (fun r w => 0 < r.1 -> (rx_len w < rx_len w0)%nat).
Proof.
  unfold parse_packet. apply triple_getS. intros s w [-> <-].
  destruct (parse _ _ _ _) as [| |p rest] eqn:E; [done..|]. intros _.
  apply parse_progress in E as (used & E & Hu & _). unfold blen in Hu.
  change (length rest < length (s_rxBuf (ses (w_loc w0))))%nat. rewrite E, length_app. lia.
Qed.

Lemma dispatch_step_shrinks `{!MbedtlsLaws} w0 :
  triple (fun w => w = w0) (dispatch_step tt)
    (fun r w => r = inl tt -> (rx_len w < rx_len w0)%nat).
Proof.
  unfold dispatch_step. apply triple_getS. intros s.
  apply triple_if; [by intros w _|]. apply triple_if.
  { eapply triple_bind; [eapply triple_pre; [|apply consume_version_shrinks]; by intros w []|].
    intros [|]; [|by intros w _]. intros w Hw _. by apply Hw. }
  eapply triple_bind; [eapply triple_pre; [|apply parse_packet_shrinks]; by intros w []|].
  intros [r payload]. cbv zeta. cbn [fst]. destruct (Z.eqb_spec r 0); [by intros w _|].
  destruct (Z.ltb_spec r 0); [by intros w _|].
  eapply triple_bind with (Q := fun _ w => (rx_len w < rx_len w0)%nat).
  - eapply triple_pre; [|apply rx_triple, rx_dispatch_packet]. intros w Hw. apply Hw. lia.
  - intros [|]; [|by intros w _]. intros w Hw _. exact Hw.
Qed.

Lemma dispatch_loop_exits `{!MbedtlsLaws} w : exists w', dispatch_loop w = (inr tt, w').
Proof.
  unfold dispatch_loop, getS, gets, mbind, M_bind. cbn [fst snd]. rewrite loop_loopn.
  destruct (loopn_exits dispatch_step (fun _ => rx_len) (fun _ _ => True)
    ltac:(intros [] w1 [] w2 _ E; split; [done|];
          pose proof (dispatch_step_shrinks w1 w1 eq_refl) as Hs; rewrite E in Hs; by apply Hs)
    (Pos.to_nat (Pos.of_succ_nat (rx_len w))) tt w I ltac:(lia)) as ([] & w' & E).
  by exists w'.
Qed.

(** ** The receive loop ends when the network pauses *)

(** [avail h] octets can be received after [h] before more arrive. *)
Definition drains (avail : history -> nat) : Prop :=
  forall h hd, p_recv h hd 1024 0 <> [] ->
    (avail (EvRecv hd 1024 0 (p_recv h hd 1024 0) :: h) < avail h)%nat.

Lemma recv_loop_exits (avail : history -> nat) w :
  drains avail ->
  exists fuel w', loop fuel recv_step tt w = (inr tt, w').
Proof.
  intros Ha.
  destruct (loopn_exits recv_step (fun _ w => avail (w_hist w)) (fun _ _ => True)
    ltac:(intros [] w1 [] w2 _ E; split; [done|];
          unfold recv_step, getS, gets, itsRecv, call, mbind, M_bind in E; cbn [fst snd] in E;
          case_bool_decide as Hg; [done|]; injection E as <-; by apply Ha)
    (S (avail (w_hist w))) tt w I ltac:(lia)) as ([] & w' & E).
  exists (Pos.of_succ_nat (avail (w_hist w))), w'. rewrite loop_loopn.
  by rewrite SuccNat2Pos.id_succ.
Qed.

(** C9: [session_on_tcp_data] comes to its end whenever the stream pauses: the
    receive loop needs a fuel that depends on what is available, and the dispatch
    loop needs none, because every packet it handles takes octets off the
    buffer. *)
Theorem session_on_tcp_data_terminates `{!MbedtlsLaws} (avail : history -> nat) w :
  drains avail ->
  exists fuel, (session_on_tcp_data fuel w).1 = true.
Proof.
  intros Ha. destruct (recv_loop_exits avail w Ha) as (fuel & w1 & E1).
  exists fuel. unfold session_on_tcp_data, mbind, M_bind. rewrite E1. cbn [fst snd].
  destruct (dispatch_loop_exits w1) as [w2 E2]. rewrite E2. done.
Qed.
End rx.

(** ** The relay from the backend to the channel *)

Section relay.
Context `{PF : Platform} `{MB : Mbedtls} `{ED : Ed25519} `{KEM : MlKem}.

(** One packet of channel data: what was received from the backend is framed with
    the next sequence number, sent, and taken off the peer's window. *)
Definition relay_one (s : Session) (got : bytes) : Session :=
  {| s with s_seqOut := u64 (s_seqOut s + 1);
            s_peerWindow := s_peerWindow s - blen got |}.
Definition relay_events (s : Session) (got pad : bytes) (n : Z) : history :=
  sent_events s (channel_data_payload (s_peerChannel s) got) pad n ++
  [EvRecv (s_backendHandle s) (backend_want s) 0 got].

(** [relayed s h gots s' h']: the chunks [gots] went from the backend to the peer,
    in this order, and nothing else happened. *)
Inductive relayed : Session -> history -> list bytes -> Session -> history -> Prop :=
  | relayed_nil s h : relayed s h [] s h
  | relayed_cons s h got pad n gots s' h' :
      0 < blen got <= s_peerWindow s -> blen got <= 1024 ->
      (s_peerMaxPacket s <> 0 -> blen got <= s_peerMaxPacket s) ->
      relayed (relay_one s got) (relay_events s got pad n ++ h) gots s' h' ->
      relayed s h (got :: gots) s' h'.

(** The loop has stopped: no window is left, or the backend had nothing. *)
Definition relay_stopped (s : Session) (h h' : history) : Prop :=
  (s_peerWindow s = 0 /\ h' = h) \/
  (0 < s_peerWindow s /\ h' = EvRecv (s_backendHandle s) (backend_want s) 0 [] :: h).

(** A session whose packets reach the TCP stream. *)
Definition live (s : Session) : Prop :=
  s_phase s <> CLOSED /\ 0 <= s_tcp s /\ s_chanOpen s = true /\ 0 <= s_backendHandle s /\
  0 <= s_peerWindow s < 2 ^ 32 /\ 0 <= s_peerMaxPacket s < 2 ^ 32.

Lemma backend_want_bounds s :
  live s -> 0 < s_peerWindow s ->
  0 <= backend_want s /\ backend_want s <= 1024 /\ backend_want s <= s_peerWindow s /\
  (s_peerMaxPacket s <> 0 -> backend_want s <= s_peerMaxPacket s).
Proof.
  intros (_ & _ & _ & _ & Hw & Hm) Hp. unfold backend_want.
  destruct (Z.ltb_spec (s_peerWindow s) 1024);
    destruct (Z.eqb_spec (s_peerMaxPacket s) 0); cbn [negb andb]; try lia;
    match goal with |- context [?a <? ?b] => destruct (Z.ltb_spec a b) end; lia.
Qed.

Lemma relay_one_live s got :
  live s -> 0 <= blen got <= s_peerWindow s -> live (relay_one s got).
Proof. unfold live, relay_one. cbn. intuition lia. Qed.

(** One turn of the loop, on a live session with window. *)
Lemma backend_data_step_eq `{!PlatformLaws} w :
  let s := ses (w_loc w) in
  live s -> 0 < s_peerWindow s ->
  let got := p_recv (w_hist w) (s_backendHandle s) (backend_want s) 0 in
  if bool_decide (got = []) then
    backend_data_step tt w =
      (inr tt, World (w_loc w) (EvRecv (s_backendHandle s) (backend_want s) 0 [] :: w_hist w))
  else exists pad n,
    backend_data_step tt w =
      (inl tt, World {| ses := relay_one s got; slotInUse := slotInUse (w_loc w) |}
                 (relay_events s got pad n ++ w_hist w)).
Proof.
  intros s Hl Hp got. pose proof Hl as (Hph & Htcp & Hop & Hbh & Hw & _).
  pose proof (backend_want_bounds s Hl Hp) as (H0 & _ & Hww & _).
  pose proof (p_recv_bound (w_hist w) (s_backendHandle s) (backend_want s) 0 H0) as Hb.
  fold got in Hb. pose proof (blen_nonneg got) as Hg0.
  unfold backend_data_step, getS, gets, mbind, M_bind. cbn [fst snd]. fold s.
  rewrite (proj2 (Z.ltb_lt _ _) Hp), Hop. cbn [andb].
  unfold itsRecv, call. cbn [fst snd w_hist w_loc]. fold s. fold got.
  case_bool_decide as Hg; [by rewrite Hg|].
  unfold send_channel_data, getS, gets, mbind, M_bind. cbn [fst snd w_loc ses]. fold s.
  set (w1 := World (w_loc w) _).
  destruct (send_packet_eq (channel_data_payload (s_peerChannel s) got) w1 Hph Htcp)
    as (pad & n & E). exists pad, n. rewrite E.
  unfold updS, updl, modify, mret, M_ret. cbn [fst snd w_loc w_hist ses slotInUse].
  unfold relay_one, relay_events, sent_one, w1. rewrite <- app_assoc. cbn [app w_hist w_loc].
  fold s. cbn [s_peerWindow]. rewrite (u32_small (blen got)), u32_small by lia. done.
Qed.

Lemma relay_loop `{!PlatformLaws} n w :
  live (ses (w_loc w)) -> (Z.to_nat (s_peerWindow (ses (w_loc w))) < n)%nat ->
  exists gots s1 h1 h', relayed (ses (w_loc w)) (w_hist w) gots s1 h1 /\ live s1 /\
    relay_stopped s1 h1 h' /\
    loopn n backend_data_step tt w =
      (inr tt, World {| ses := s1; slotInUse := slotInUse (w_loc w) |} h').
Proof.
  revert w. induction n as [|n IH]; intros w Hl Hn; [lia|].
  cbn [loopn]. unfold mbind, M_bind.
  pose proof Hl as (_ & _ & Hop & _ & Hw & _).
  assert (Hself : World {| ses := ses (w_loc w); slotInUse := slotInUse (w_loc w) |} (w_hist w) = w)
    by (destruct w as [[] ?]; done).
  destruct (Z.ltb_spec 0 (s_peerWindow (ses (w_loc w)))) as [Hp|Hp].
  2:{ exists [], (ses (w_loc w)), (w_hist w), (w_hist w).
      split; [constructor|]. split; [done|]. split; [left; split; [lia|done]|].
      unfold backend_data_step, getS, gets, mbind, M_bind. cbn [fst snd].
      rewrite (proj2 (Z.ltb_ge 0 (s_peerWindow (ses (w_loc w))))) by lia. cbn [andb]. rewrite Hself. done. }
  pose proof (backend_data_step_eq w Hl Hp) as Hstep. cbv zeta in Hstep.
  pose proof (backend_want_bounds _ Hl Hp) as (H0 & H1 & H2 & H3).
  set (got := p_recv _ _ _ _) in *.
  pose proof (p_recv_bound (w_hist w) (s_backendHandle (ses (w_loc w)))
    (backend_want (ses (w_loc w))) 0 H0) as Hb. fold got in Hb.
  case_bool_decide as Hg.
  - rewrite Hstep. cbn [fst snd].
    exists [], (ses (w_loc w)), (w_hist w), (EvRecv (s_backendHandle (ses (w_loc w)))
      (backend_want (ses (w_loc w))) 0 [] :: w_hist w).
    split; [constructor|]. split; [done|]. split; [by right|].
    by destruct w as [[] ?].
  - destruct Hstep as (pad & k & ->). cbn [fst snd].
    assert (0 < blen got) as Hpos.
    { pose proof (blen_nonneg got). destruct (Z.eq_dec (blen got) 0) as [Hz|]; [|lia].
      by apply blen_zero in Hz. }
    set (w1 := World {| ses := relay_one _ _; slotInUse := _ |} _).
    destruct (IH w1) as (gots & s1 & h1 & h' & Hr & Hl1 & Hs & E).
    { apply relay_one_live; [done|]. lia. }
    { unfold w1, relay_one. cbn. lia. }
    exists (got :: gots), s1, h1, h'. split; [|split; [done|split; [done|exact E]]].
    econstructor; [lia|lia|intros; specialize (H3 ltac:(done)); lia|exact Hr].
Qed.

Lemma backend_data_relays `{!PlatformLaws} w :
  live (ses (w_loc w)) ->
  exists gots s1 h1 h', relayed (ses (w_loc w)) (w_hist w) gots s1 h1 /\ live s1 /\
    relay_stopped s1 h1 h' /\
    session_on_backend_data w =
      (tt, World {| ses := s1; slotInUse := slotInUse (w_loc w) |} h').
Proof.
  intros Hl. pose proof Hl as (_ & _ & Hop & Hbh & Hw & _).
  destruct (relay_loop (Pos.to_nat (Z.to_pos (s_peerWindow (ses (w_loc w)) + 1))) w Hl ltac:(lia))
    as (gots & s1 & h1 & h' & Hr & Hl1 & Hs & E).
  exists gots, s1, h1, h'. split; [done|]. split; [done|]. split; [done|].
  unfold session_on_backend_data, getS, gets, mbind, M_bind. cbn [fst snd].
  rewrite Hop, (proj2 (Z.ltb_ge _ _) Hbh). cbn [negb orb]. rewrite loop_loopn, E. done.
Qed.

Lemma relayed_window s h gots s' h' :
  relayed s h gots s' h' -> s_peerWindow s' = s_peerWindow s - blen (concat gots).
Proof.
  induction 1 as [s h|s h got pad n gots s' h' Hb _ _ _ IH].
  { cbn [concat]. change (blen []) with 0. lia. }
  rewrite IH. cbn [concat relay_one s_peerWindow]. rewrite blen_app. lia.
Qed.

(** C4: The relay from the backend to the channel comes to an end, and what it
    does is exactly this: it sends the chunks it received from the backend, in
    order and unchanged, each as one CHANNEL_DATA packet of at most 1024 octets
    that fits the peer's packet size, and stops when the peer's window is used up
    or the backend has nothing more.  The window shrinks by what was sent and
    never wraps around; nothing else happens, no log line in particular. *)
Theorem session_on_backend_data_correct `{!PlatformLaws} w :
  let s := ses (w_loc w) in
  live s ->
  exists gots s' h1 h', relayed s (w_hist w) gots s' h1 /\ relay_stopped s' h1 h' /\
    session_on_backend_data w = (tt, World {| ses := s'; slotInUse := slotInUse (w_loc w) |} h') /\
    s_peerWindow s' = s_peerWindow s - blen (concat gots) /\ 0 <= s_peerWindow s'.
Proof.
  intros s Hl. destruct (backend_data_relays w Hl) as (gots & s1 & h1 & h' & Hr & Hl1 & Hs & E).
  exists gots, s1, h1, h'. split; [done|]. split; [done|]. split; [done|].
  split; [by eapply relayed_window|]. apply Hl1.
Qed.
End relay.

(** ** Closing *)

Section closing.
Context `{PF : Platform} `{MB : Mbedtls} `{ED : Ed25519} `{KEM : MlKem}.

Definition release (h : Z) : Z := if 0 <=? h then -1 else h.

(** The session after [session_close], the slots, and the calls, newest first. *)
Definition closed (s : Session) : Session :=
  {| s with s_tcp := release (s_tcp s); s_backendHandle := release (s_backendHandle s);
            s_phase := CLOSED; s_chanOpen := false; s_slot := -1 |}.
Definition freed (slot : Z) (slots : list bool) : list bool :=
  if slot <? SSHD_MAX_SESSIONS then <[Z.to_nat slot := false]> slots else slots.
Definition closing_events (s : Session) : history :=
  (if 0 <=? s_tcp s then [EvDisconnect (s_tcp s); EvDelay 100; EvDrain (s_tcp s) 1000] else []) ++
  (if 0 <=? s_backendHandle s then [EvDisconnect (s_backendHandle s)] else []).

Definition drop_backend (s : Session) : Session :=
  {| s with s_backendHandle := release (s_backendHandle s) |}.
Definition drop_tcp (s : Session) : Session := {| s with s_tcp := release (s_tcp s) |}.

Lemma close_backend_eq w :
  close_backend w =
    (tt, World {| ses := drop_backend (ses (w_loc w));
                  slotInUse := slotInUse (w_loc w) |}
           ((if 0 <=? s_backendHandle (ses (w_loc w))
             then [EvDisconnect (s_backendHandle (ses (w_loc w)))] else []) ++ w_hist w)).
Proof.
  unfold close_backend, itsDisconnect, drop_backend, release. rewrite run_getS.
  destruct (0 <=? s_backendHandle (ses (w_loc w))); [done|]. by destruct w as [[[] ?] ?].
Qed.

(** The second half of [session_close]: drain and drop the TCP stream. *)
Lemma close_tcp_eq {B} (f : unit -> M (world srv) B) w :
  (when (0 <=? s_tcp (ses (w_loc w)))
     (itsSendDrain (s_tcp (ses (w_loc w))) 1000;;
      vTaskDelay 100;;
      itsDisconnect (s_tcp (ses (w_loc w)));;
      updS (fun s => {| s with s_tcp := -1 |})) ≫= f) w =
  f tt (World {| ses := drop_tcp (ses (w_loc w));
                 slotInUse := slotInUse (w_loc w) |}
          ((if 0 <=? s_tcp (ses (w_loc w))
            then [EvDisconnect (s_tcp (ses (w_loc w))); EvDelay 100;
                  EvDrain (s_tcp (ses (w_loc w))) 1000] else []) ++ w_hist w)).
Proof.
  unfold drop_tcp, release. destruct (0 <=? s_tcp (ses (w_loc w))); [done|].
  by destruct w as [[[] ?] ?].
Qed.

Lemma session_close_eq w :
  let s := ses (w_loc w) in
  0 <= s_slot s ->
  session_close w =
    (tt, World {| ses := closed s; slotInUse := freed (s_slot s) (slotInUse (w_loc w)) |}
           (closing_events s ++ w_hist w)).
Proof.
  intros s Hs. unfold session_close. rewrite run_getS. fold s.
  rewrite (proj2 (Z.ltb_ge (s_slot s) 0)) by lia. rewrite andb_false_r.
  erewrite run_bind by apply close_backend_eq. rewrite run_getS.
  rewrite close_tcp_eq. run_step. run_step. cbn [s_slot s_tcp s_backendHandle]. fold s.
  change (s_slot (drop_tcp (drop_backend s))) with (s_slot s).
  unfold sshdSlotFree. rewrite (proj2 (Z.leb_le 0 (s_slot s)) Hs). cbn [andb].
  unfold closed, closing_events, freed. rewrite <- app_assoc.
  destruct (s_slot s <? SSHD_MAX_SESSIONS); reflexivity.
Qed.

(** C10: [session_close] gives everything back, in this order: the backend is
    disconnected, the TCP stream is drained, given 100 ms and disconnected, the
    slot is free again; afterwards the session holds no handle and no slot, and
    closing it once more does nothing. *)
Theorem session_close_correct w :
  let s := ses (w_loc w) in
  0 <= s_slot s ->
  let w' := World {| ses := closed s; slotInUse := freed (s_slot s) (slotInUse (w_loc w)) |}
              (closing_events s ++ w_hist w) in
  session_close w = (tt, w') /\ session_close w' = (tt, w') /\
  s_tcp (closed s) < 0 /\ s_backendHandle (closed s) < 0 /\ s_slot (closed s) < 0 /\
  s_chanOpen (closed s) = false.
Proof.
  intros s Hs w'. split; [by apply session_close_eq|]. split; [done|].
  unfold closed, release. cbn.
  destruct (Z.leb_spec 0 (s_tcp s)), (Z.leb_spec 0 (s_backendHandle s)); lia.
Qed.

(** The messages that end a channel. *)
Definition exit_status_payload (chan status : Z) : bytes :=
  put_u32 (put_u8 (put_cstring (put_u32 (put_u8 [] MSG_CHANNEL_REQUEST) chan)
    (str "exit-status")) 0) status.
Definition eof_payload (chan : Z) : bytes := put_u32 (put_u8 [] MSG_CHANNEL_EOF) chan.
Definition close_payload (chan : Z) : bytes := put_u32 (put_u8 [] MSG_CHANNEL_CLOSE) chan.

Lemma send_exit_status_eq status w :
  s_phase (ses (w_loc w)) <> CLOSED -> 0 <= s_tcp (ses (w_loc w)) ->
  send_exit_status status w =
  send_packet (exit_status_payload (s_peerChannel (ses (w_loc w))) status) w.
Proof.
  intros Hp Ht. unfold send_exit_status. rewrite run_getS.
  by rewrite bool_decide_eq_false_2, (proj2 (Z.ltb_ge _ _) Ht).
Qed.
Lemma send_channel_eof_eq w :
  send_channel_eof w = send_packet (eof_payload (s_peerChannel (ses (w_loc w)))) w.
Proof. done. Qed.
Lemma send_channel_close_eq w :
  send_channel_close w = send_packet (close_payload (s_peerChannel (ses (w_loc w)))) w.
Proof. done. Qed.

(** When the backend hangs up, the peer gets what the backend still had as
    channel data, then exit-status 0, EOF and CLOSE for its channel, in this
    order and under consecutive sequence numbers; then the session is closed. *)
Theorem session_on_backend_close_correct `{!PlatformLaws} w :
  let s := ses (w_loc w) in
  live s -> 0 <= s_slot s ->
  exists gots s1 h1 h2 p1 p2 p3 n1 n2 n3,
    relayed s (w_hist w) gots s1 h1 /\ relay_stopped s1 h1 h2 /\
    let s2 := drop_backend s1 in
    let chan := s_peerChannel s in
    let h3 := sent_events s2 (exit_status_payload chan 0) p1 n1 ++
              EvDisconnect (s_backendHandle s1) :: h2 in
    let h4 := sent_events (sent_one s2) (eof_payload chan) p2 n2 ++ h3 in
    let h5 := sent_events (sent_one (sent_one s2)) (close_payload chan) p3 n3 ++ h4 in
    let s3 := sent_one (sent_one (sent_one s2)) in
    session_on_backend_close w =
      (tt, World {| ses := closed s3; slotInUse := freed (s_slot s) (slotInUse (w_loc w)) |}
             (closing_events s3 ++ h5)).
Proof.
  intros s Hl Hslot.
  destruct (backend_data_relays w Hl) as (gots & s1 & h1 & h2 & Hr & Hl1 & Hs & E).
  assert (s_peerChannel s1 = s_peerChannel s /\ s_slot s1 = s_slot s) as [Ec Esl].
  { fold s in Hr. clear -Hr. induction Hr as [|? ? ? ? ? ? ? ? ? ? ? _ IH]; [done|exact IH]. }
  pose proof Hl as (_ & _ & Hop & _). pose proof Hl1 as (Hph1 & Htcp1 & _ & Hbh1 & _).
  set (s2 := drop_backend s1).
  set (wa := World {| ses := s2; slotInUse := slotInUse (w_loc w) |}
               (EvDisconnect (s_backendHandle s1) :: h2)).
  destruct (send_packet_eq (exit_status_payload (s_peerChannel s) 0) wa Hph1 Htcp1)
    as (p1 & n1 & E1).
  set (wb := (send_packet (exit_status_payload (s_peerChannel s) 0) wa).2).
  destruct (send_packet_eq (eof_payload (s_peerChannel s)) wb) as (p2 & n2 & E2);
    [by unfold wb; rewrite E1..|].
  set (wc := (send_packet (eof_payload (s_peerChannel s)) wb).2).
  destruct (send_packet_eq (close_payload (s_peerChannel s)) wc) as (p3 & n3 & E3);
    [by unfold wc; rewrite E2; unfold wb; rewrite E1..|].
  exists gots, s1, h1, h2, p1, p2, p3, n1, n2, n3. split; [done|]. split; [done|].
  cbv zeta.
  unfold wc, wb in E2, E3. rewrite E1 in E2, E3. cbn [snd] in E2, E3. rewrite E2 in E3. cbn [snd] in E3.
  rewrite <- Ec in E1, E2, E3 |- *.
  unfold session_on_backend_close. rewrite run_getS. fold s. rewrite Hop. cbn [negb].
  erewrite run_bind by apply E. erewrite run_bind by apply close_backend_eq.
  cbn [w_loc w_hist ses slotInUse].
  rewrite (proj2 (Z.leb_le _ _) Hbh1). cbn [app]. fold s2. fold wa.
  erewrite run_bind by (rewrite send_exit_status_eq by done; exact E1).
  erewrite run_bind by exact E2. erewrite run_bind by exact E3.
  run_step. rewrite session_close_eq; [|cbn [w_loc ses]; change (0 <= s_slot s1); by rewrite Esl].
  cbn [w_loc w_hist ses slotInUse].
  rewrite <- Esl. reflexivity.
Qed.
End closing.

(** ** Messages out of their phase *)

(** The phases in which a message is looked at at all. *)
Definition gate (t : Z) : option (list Phase) :=
  if t =? MSG_KEXINIT then Some [KEX_WAIT_KEXINIT; RUN]
  else if t =? MSG_KEX_ECDH_INIT then Some [KEX_WAIT_ECDH]
  else if t =? MSG_NEWKEYS then Some [KEX_WAIT_NEWKEYS]
  else if (t =? MSG_SERVICE_REQUEST) || (t =? MSG_USERAUTH_REQUEST) then Some [AUTH]
  else if (t =? MSG_CHANNEL_OPEN) || (t =? MSG_CHANNEL_REQUEST) || (t =? MSG_CHANNEL_DATA)
          || (t =? MSG_CHANNEL_WINDOW_ADJUST) then Some [RUN]
  else None.

(** C11: A message that belongs to another phase is refused without any effect:
    nothing of the session changes, no service is called, and the caller is told to
    end the connection. *)
Theorem dispatch_out_of_phase `{PF : Platform} `{MB : Mbedtls} `{ED : Ed25519} `{KEM : MlKem}
    t body slot w phases :
  gate (byte_to_Z t) = Some phases -> (s_phase (ses (w_loc w)) ∉ phases) ->
  dispatch_packet (t :: body) slot w = (false, w).
Proof.
  unfold gate. intros Hg Hp.
  assert (Hin : forall p, p ∈ phases -> in_phase (ses (w_loc w)) p = false).
  { intros p Hin. unfold in_phase. apply bool_decide_eq_false_2. by intros <-. }
  unfold dispatch_packet. rewrite run_getS.
  repeat match type of Hg with
  | (if ?b then _ else _) = _ => let E := fresh "E" in destruct b eqn:E
  end; [injection Hg as <-..|done].
  all: repeat match goal with H : _ || _ = true |- _ => apply orb_true_iff in H as [H|H] end.
  all: repeat match goal with H : (?x =? ?m) = true |- _ => apply Z.eqb_eq in H; rewrite H end.
  all: cbn [Z.eqb Pos.eqb orb]; unfold MSG_KEXINIT, MSG_KEX_ECDH_INIT, MSG_NEWKEYS, MSG_SERVICE_REQUEST,
    MSG_USERAUTH_REQUEST, MSG_CHANNEL_OPEN, MSG_CHANNEL_REQUEST, MSG_CHANNEL_DATA,
    MSG_CHANNEL_WINDOW_ADJUST, MSG_DISCONNECT, MSG_IGNORE, MSG_DEBUG, MSG_GLOBAL_REQUEST;
    cbn [Z.eqb Pos.eqb orb].
  all: rewrite ?(Hin KEX_WAIT_KEXINIT), ?(Hin RUN), ?(Hin KEX_WAIT_ECDH), ?(Hin KEX_WAIT_NEWKEYS),
    ?(Hin AUTH) by (repeat first [apply list_elem_of_here|apply list_elem_of_further]); done.
Qed.

(** ** Witnesses *)

Definition PFh : Platform := host peer_chunks.
#[local] Instance PFh_laws : @PlatformLaws PFh := scripted_laws _ _ _ _.

Definition chunks_left (h : history) : nat := length peer_chunks - recv_calls h.

Lemma session_on_tcp_data_terminates_witness :
  exists fuel, (session_on_tcp_data (PF := PFh) fuel run1).1 = true.
Proof.
  apply (session_on_tcp_data_terminates (PF := PFh) chunks_left run1).
  intros h hd Hg. unfold chunks_left, recv_calls. cbn [List.filter is_recv length].
  assert (recv_calls h < length peer_chunks)%nat; [|unfold recv_calls in *; lia].
  destruct (lookup_lt_is_Some peer_chunks (recv_calls h)) as [Hl _]. apply Hl.
  destruct (peer_chunks !! recv_calls h) as [c|] eqn:E; [done|]. destruct Hg.
  unfold PFh, host, scripted, p_recv. rewrite E. apply take_nil.
Defined.

Lemma run3_live : live (ses (w_loc run3)).
Proof. vm_compute. intuition congruence. Qed.

Lemma session_on_backend_data_correct_witness :
  exists gots s' h1 h', relayed (ses (w_loc run3)) (w_hist run3) gots s' h1 /\
    relay_stopped s' h1 h' /\
    session_on_backend_data (PF := PFh) run3 =
      (tt, World {| ses := s'; slotInUse := slotInUse (w_loc run3) |} h') /\
    s_peerWindow s' = s_peerWindow (ses (w_loc run3)) - blen (concat gots) /\ 0 <= s_peerWindow s'.
Proof. exact (session_on_backend_data_correct (PF := PFh) run3 run3_live). Defined.

Lemma run3_slot : 0 <= s_slot (ses (w_loc run3)).
Proof. by vm_compute. Qed.

Lemma session_close_correct_witness :
  let s := ses (w_loc run3) in
  let w' := World {| ses := closed s; slotInUse := freed (s_slot s) (slotInUse (w_loc run3)) |}
              (closing_events s ++ w_hist run3) in
  session_close run3 = (tt, w') /\ session_close w' = (tt, w') /\
  s_tcp (closed s) < 0 /\ s_backendHandle (closed s) < 0 /\ s_slot (closed s) < 0 /\
  s_chanOpen (closed s) = false.
Proof. exact (session_close_correct run3 run3_slot). Defined.

Lemma session_on_backend_close_correct_witness :
  exists gots s1 h1 h2 p1 p2 p3 n1 n2 n3, relayed (ses (w_loc run3)) (w_hist run3) gots s1 h1 /\
    relay_stopped s1 h1 h2 /\
    let s2 := drop_backend s1 in
    let chan := s_peerChannel (ses (w_loc run3)) in
    let h3 := sent_events s2 (exit_status_payload chan 0) p1 n1 ++
              EvDisconnect (s_backendHandle s1) :: h2 in
    let h4 := sent_events (sent_one s2) (eof_payload chan) p2 n2 ++ h3 in
    let h5 := sent_events (sent_one (sent_one s2)) (close_payload chan) p3 n3 ++ h4 in
    let s3 := sent_one (sent_one (sent_one s2)) in
    session_on_backend_close (PF := PFh) run3 =
      (tt, World {| ses := closed s3;
                    slotInUse := freed (s_slot (ses (w_loc run3))) (slotInUse (w_loc run3)) |}
             (closing_events s3 ++ h5)).
Proof. exact (session_on_backend_close_correct (PF := PFh) run3 run3_live run3_slot). Defined.

(** A shell request before authentication. *)
Lemma dispatch_out_of_phase_witness :
  dispatch_packet (PF := PFh) (exec_request (str "reboot")) 0 run1 = (false, run1).
Proof.
  apply (dispatch_out_of_phase (PF := PFh) x62 _ 0 run1 [RUN]); [done|].
  assert (s_phase (ses (w_loc run1)) = AUTH) as -> by by vm_compute.
  by intros [H|H%elem_of_nil]%elem_of_cons.
Defined.
