(* ===== verification/SshdTask.v ===== *)
(** * SshdTask: slots, callbacks and listener of the server task

    The wiring half of [sshd.cpp]: the table of sessions, the ITS callbacks that
    hand events to the session of a slot, the listener state. *)
From S2P Require Import Prelude Wire Platform Crypto Concrete Framing SessionState SessionKex SessionAuth SessionChannel SessionLoop Runs SessionSafety SessionFlow.

(** ** The state of the task *)

Record sshd := mkSshd {
  s_sessions : list Session;
  s_slotInUse : list bool;
  s_endpointRegistered : bool;
  s_ack : Z                      (* the static counter of keyAck, without its overflow *)
}.

Section task.
Context `{PF : Platform} `{MB : Mbedtls} `{ED : Ed25519} `{KEM : MlKem}.

(** A function of [sshd_session.cpp] called on the session of a slot. *)
Definition on_session (slot : Z) {A} (dflt : A) (m : M (world srv) A) : M (world sshd) A :=
  fun w =>
    let t := w_loc w in
    match s_sessions t !! Z.to_nat slot with
    | None => (dflt, w)
    | Some s =>
        let r := m (World {| ses := s; slotInUse := s_slotInUse t |} (w_hist w)) in
        (r.1, World {| t with s_sessions := <[Z.to_nat slot := ses (w_loc r.2)]> (s_sessions t);
                              s_slotInUse := slotInUse (w_loc r.2) |} (w_hist r.2))
    end.

Definition slot_in_use (slot : Z) (t : sshd) : bool :=
  default false (s_slotInUse t !! Z.to_nat slot).

(** ** Slots *)

(** [for (i = 0; i < SSHD_MAX_SESSIONS; i++) if (!s_slotInUse[i]) return i;] *)
Fixpoint find_free_from (k : nat) (i : Z) (t : sshd) : Z :=
  match k with
  | O => -1
  | S k => if negb (slot_in_use i t) then i else find_free_from k (i + 1) t
  end.
Definition findFreeSlot (t : sshd) : Z := find_free_from (Z.to_nat SSHD_MAX_SESSIONS) 0 t.

Definition sshdActiveSessions (t : sshd) : Z :=
  blen (List.filter (fun i => slot_in_use i t) (seqZ 0 SSHD_MAX_SESSIONS)).

Definition slot_in_range (slot : Z) : bool := (0 <=? slot) && (slot <? SSHD_MAX_SESSIONS).

Definition sshdSessionAt (slot : Z) (t : sshd) : option Session :=
  if negb (slot_in_range slot) then None
  else if negb (slot_in_use slot t) then None
  else s_sessions t !! Z.to_nat slot.

(** ** Callbacks *)

Definition onTcpConnect (handle : Z) : M (world sshd) Z :=
  t ← getl;
  let slot := findFreeSlot t in
  if slot <? 0 then
    log LogWarn (str "sshd: rejecting connection — all 2 session slots in use");;
    mret (-1)
  else
    updl (fun t => {| t with s_slotInUse := <[Z.to_nat slot := true]> (s_slotInUse t) |});;
    on_session slot tt (session_open handle slot);;
    mret slot.

Definition onTcpDisconnect (ref : Z) : M (world sshd) unit :=
  if negb (slot_in_range ref) then mret tt else on_session ref tt session_close.

(** [fuel] is the one of the receive loop. *)
Definition onTcpRecv (fuel : positive) (handle : Z) : M (world sshd) bool :=
  ref ← itsRef handle;
  if negb (slot_in_range ref) then mret true else
  t ← getl;
  if negb (slot_in_use ref t) then mret true else
  on_session ref true (session_on_tcp_data fuel).

Definition on_backend_recv_cb (handle : Z) : M (world sshd) unit :=
  slot ← itsRef handle;
  t ← getl;
  match sshdSessionAt slot t with
  | None => mret tt
  | Some s =>
      if negb (s_chanOpen s) then mret tt else on_session slot tt session_on_backend_data
  end.

Definition on_backend_disconnect_cb (ref : Z) : M (world sshd) unit :=
  t ← getl;
  match sshdSessionAt ref t with
  | None => mret tt
  | Some _ => on_session ref tt session_on_backend_close
  end.

(** [sshd reset]: [k] slots are left, [i] is the next one. *)
Fixpoint reset_from (k : nat) (i killed : Z) : M (world sshd) Z :=
  match k with
  | O => mret killed
  | S k =>
      t ← getl;
      if negb (slot_in_use i t) then reset_from k (i + 1) killed
      else on_session i tt session_close;; reset_from k (i + 1) (killed + 1)
  end.
Definition cmd_reset : M (world sshd) unit :=
  killed ← reset_from (Z.to_nat SSHD_MAX_SESSIONS) 0 0;
  cliPrintf (str "killed " ++ fmt_d killed ++ str " session(s)" ++ [x0a]).

(** ** The listener *)

Definition SSHD_PORT_TCP : Z := 22.

Definition registerEndpointOnce : M (world sshd) unit :=
  t ← getl;
  if s_endpointRegistered t then mret tt else
  ok ← itsSendAux (str "net") {| itsPort := SSHD_PORT_TCP; tcpNoDelay := 1; keepAlive := 1;
         backlog := 4; defaultPort := 0; nvsKey := str "sshd_port" |};
  if negb (ok : bool) then log LogErr (str "sshd: net endpoint registration failed")
  else updl (fun t => {| t with s_endpointRegistered := true |}).

Definition applyListenerState : M (world sshd) unit :=
  en ← storageGetInt (str "s.sshd.enabled") 1;
  let enabled := negb (en =? 0) in
  port ← storageGetInt (str "s.sshd.port") SSHD_PORT_TCP;
  let want := if enabled then port else 0 in
  cur ← storageGetInt (str "s.net.sshd_port") (-1);
  if cur =? want then mret tt else
  storageSetInt (str "s.net.sshd_port") want;;
  if want =? 0 then log LogInfo (str "sshd: listener disabled")
  else log LogInfo (str "sshd: requesting listen on TCP " ++ fmt_d want).
End task.

(** ** What the session functions do to their slot *)

(** The slot and the table are as they were, or the session gave its slot back. *)
Definition slot_rel (l l' : srv) : Prop :=
  (s_slot (ses l') = s_slot (ses l) /\ slotInUse l' = slotInUse l) \/
  (0 <= s_slot (ses l) /\ s_slot (ses l') = -1 /\
   slotInUse l' = freed (s_slot (ses l)) (slotInUse l)).

#[export] Instance slot_rel_preorder : PreOrder slot_rel.
Proof.
  split; [by left|]. unfold slot_rel. intros l1 l2 l3 [[E1 U1]|(H1 & E1 & U1)] [[E2 U2]|(H2 & E2 & U2)].
  - left. split; congruence.
  - right. rewrite E1, U1 in *. done.
  - right. rewrite E2, U2. done.
  - lia.
Qed.

Definition same_slot (s s' : Session) : Prop := s_slot s' = s_slot s.
#[export] Instance same_slot_preorder : PreOrder same_slot.
Proof. split; [by intros s|]. intros s1 s2 s3 H1 H2. unfold same_slot in *. congruence. Qed.
#[export] Instance same_slot_seq : IgnoresSeqOut same_slot.
Proof. by intros s n. Qed.
#[export] Instance same_slot_closed : AllowsClosed same_slot.
Proof. by intros s. Qed.

Lemma slot_of_ses {A} (m : M (world srv) A) : keeps_ses same_slot m -> keeps (on_loc slot_rel) m.
Proof. apply keeps_weaken. intros w w' [H1 H2]. left. by split. Qed.
Lemma slot_of_rx {A} (m : M (world srv) A) : keeps_ses same_rx m -> keeps (on_loc slot_rel) m.
Proof. apply keeps_weaken. intros w w' [[_ H1] H2]. left. by split. Qed.

Section slots.
Context `{PF : Platform} `{MB : Mbedtls} `{ED : Ed25519} `{KEM : MlKem}.

Ltac solve_slot := apply slot_of_ses; unfold_calls; solve_keeps; try (apply updS_keeps; by intros ?).

Lemma slot_session_close : keeps (on_loc slot_rel) session_close.
Proof.
  unfold session_close. apply keeps_bind; [apply _|solve_slot|intros s0].
  destruct (_ && _); [solve_slot|].
  apply keeps_bind; [apply _|unfold close_backend; solve_slot|intros []].
  apply keeps_bind; [apply _|solve_slot|intros s1].
  apply keeps_bind; [apply _|solve_slot|intros []].
  apply keeps_bind; [apply _|solve_slot|intros []].
  apply keeps_getS. intros w. unfold sshdSlotFree.
  destruct (Z.leb_spec 0 (s_slot (ses (w_loc w)))) as [Hs|Hs]; [|cbn; reflexivity].
  right. cbn [when andb]. split; [done|]. unfold freed.
  destruct (_ <? _); by split.
Qed.

Lemma slot_backend_data : keeps (on_loc slot_rel) session_on_backend_data.
Proof. apply slot_of_rx, rx_backend_data. Qed.

Lemma slot_backend_close : keeps (on_loc slot_rel) session_on_backend_close.
Proof.
  unfold session_on_backend_close. apply keeps_bind; [apply _|solve_slot|intros s0].
  destruct (negb _); [solve_slot|].
  apply keeps_bind; [apply _|apply slot_backend_data|intros []].
  do 5 (apply keeps_bind;
    [apply _|unfold close_backend, send_exit_status, send_channel_eof, send_channel_close; solve_slot
    |intros []]).
  apply slot_session_close.
Qed.

Lemma slot_consume_version : keeps_ses same_slot consume_version.
Proof.
  unfold consume_version, send_our_kexinit, build_kexinit_payload. unfold_calls. solve_keeps.
  all: apply updS_keeps; by intros ?.
Qed.

Lemma slot_dispatch_step u : keeps (on_loc slot_rel) (dispatch_step u).
Proof.
  unfold dispatch_step. apply keeps_bind; [apply _|solve_slot|intros s].
  destruct (in_phase s CLOSED); [solve_slot|]. destruct (in_phase s VERSION).
  { apply keeps_bind; [apply _|apply slot_of_ses, slot_consume_version|intros ok]. solve_slot. }
  apply keeps_bind; [apply _|unfold parse_packet; solve_slot|intros [r p]]. cbv zeta.
  destruct (r =? 0); [solve_slot|]. destruct (r <? 0); [solve_slot|].
  apply keeps_bind; [apply _|apply slot_of_rx, rx_dispatch_packet|intros ok]. solve_slot.
Qed.

Lemma slot_on_tcp_data fuel : keeps (on_loc slot_rel) (session_on_tcp_data fuel).
Proof.
  unfold session_on_tcp_data.
  apply keeps_bind; [apply _|apply keeps_loop; [apply _|intros ?; unfold recv_step; solve_slot]|].
  intros [?|?]; [solve_slot|].
  apply keeps_bind; [apply _| |intros [?|?]; [solve_slot|]].
  - unfold dispatch_loop. apply keeps_bind; [apply _|solve_slot|intros s].
    apply keeps_loop; [apply _|]. apply slot_dispatch_step.
  - apply keeps_bind; [apply _|solve_slot|intros s].
    apply keeps_bind; [apply _| |intros ?; solve_slot].
    apply keeps_when; [apply _|apply slot_session_close].
Qed.

Lemma session_open_slot tcp slot w :
  s_slot (ses (w_loc (session_open tcp slot w).2)) = slot /\
  slotInUse (w_loc (session_open tcp slot w).2) = slotInUse (w_loc w).
Proof.
  unfold session_open. rewrite run_updS, run_updS. cbn [ses w_loc w_hist slotInUse].
  set (w1 := World _ _).
  assert (keeps_ses same_slot send_our_version) as Hk by (unfold send_our_version; unfold_calls;
    solve_keeps; apply updS_keeps; by intros ?).
  destruct (Hk w1) as [H1 H2]. unfold same_slot in H1. by rewrite H1, H2.
Qed.
End slots.

(** ** Every state of the task *)

Definition boot : sshd := mkSshd [blank; blank] [false; false] false 0.

(** A slot is in use exactly while the session in it knows that it holds it. *)
Definition slots_ok (t : sshd) : Prop :=
  length (s_sessions t) = 2%nat /\ length (s_slotInUse t) = 2%nat /\
  forall i s, s_sessions t !! i = Some s ->
    if slot_in_use (Z.of_nat i) t then s_slot s = Z.of_nat i
    else s_slot s = -1 \/ s = blank.

Section task_steps.
Context `{PF : Platform} `{MB : Mbedtls} `{ED : Ed25519} `{KEM : MlKem}.

(** ITS calls back with what [onTcpConnect] returned, so a disconnect is about a
    slot that has held a session. *)
Inductive task_step : world sshd -> world sshd -> Prop :=
  | task_connect handle w : task_step w (onTcpConnect handle w).2
  | task_disconnect ref w :
      (forall s, s_sessions (w_loc w) !! Z.to_nat ref = Some s -> s <> blank) ->
      task_step w (onTcpDisconnect ref w).2
  | task_recv fuel handle w : (onTcpRecv fuel handle w).1 = true ->
      task_step w (onTcpRecv fuel handle w).2
  | task_backend_recv handle w : task_step w (on_backend_recv_cb handle w).2
  | task_backend_disconnect ref w : task_step w (on_backend_disconnect_cb ref w).2
  | task_reset w : task_step w (cmd_reset w).2
  | task_listener w : task_step w (applyListenerState w).2
  | task_endpoint w : task_step w (registerEndpointOnce w).2.

Inductive task_reachable (h0 : history) : world sshd -> Prop :=
  | task_boot : task_reachable h0 (World boot h0)
  | task_next w w' : task_reachable h0 w -> task_step w w' -> task_reachable h0 w'.

Lemma slot_in_range_spec i : slot_in_range i = true <-> 0 <= i < 2.
Proof. unfold slot_in_range, SSHD_MAX_SESSIONS. rewrite andb_true_iff. lia. Qed.

Lemma slot_in_use_lookup i t b :
  0 <= i -> s_slotInUse t !! Z.to_nat i = Some b -> slot_in_use i t = b.
Proof. intros _ E. unfold slot_in_use. by rewrite E. Qed.

Lemma on_session_ok {A} slot (dflt : A) m w :
  0 <= slot < 2 -> keeps (on_loc slot_rel) m ->
  (slot_in_use slot (w_loc w) = true \/
   forall s, s_sessions (w_loc w) !! Z.to_nat slot = Some s -> s <> blank) ->
  slots_ok (w_loc w) -> slots_ok (w_loc (on_session slot dflt m w).2).
Proof.
  intros Hs Hm Hb (Hl1 & Hl2 & Hok). unfold on_session. set (t := w_loc w) in *.
  destruct (s_sessions t !! Z.to_nat slot) as [s|] eqn:E; [|done].
  specialize (Hm (World {| ses := s; slotInUse := s_slotInUse t |} (w_hist w))).
  set (r := m _) in *. cbn [snd w_loc].
  pose proof (Hok _ _ E) as Hslot. rewrite Z2Nat.id in Hslot by lia.
  set (t' := {| s_sessions := _; s_slotInUse := _; s_endpointRegistered := _; s_ack := _ |}).
  assert (Hses : s_sessions t' = <[Z.to_nat slot := ses (w_loc r.2)]> (s_sessions t)) by done.
  assert (Hfree : s_slotInUse t' = s_slotInUse t /\ s_slot (ses (w_loc r.2)) = s_slot s \/
    s_slotInUse t' = <[Z.to_nat slot := false]> (s_slotInUse t) /\ s_slot (ses (w_loc r.2)) = -1).
  { change (s_slotInUse t') with (slotInUse (w_loc r.2)).
    destruct Hm as [[H1 H2]|(H0 & H1 & H2)]; cbn [ses w_loc slotInUse] in *; [by left|].
    right. destruct (slot_in_use slot t) eqn:Eu.
    - rewrite Hslot in *. split; [|done]. rewrite H2. unfold freed.
      rewrite (proj2 (Z.ltb_lt _ _)) by (unfold SSHD_MAX_SESSIONS; lia). done.
    - destruct Hb as [Hb|Hb]; [done|]. destruct Hslot as [Hn|Hn]; [lia|]. by destruct (Hb s eq_refl). }
  clearbody t'. split; [|split].
  - by rewrite Hses, length_insert.
  - destruct Hfree as [[-> _]|[-> _]]; [done|by rewrite length_insert].
  - intros i s' Hi. rewrite Hses in Hi. unfold slot_in_use in *. rewrite Nat2Z.id.
    destruct (decide (i = Z.to_nat slot)) as [->|Hne].
    + rewrite list_lookup_insert_eq in Hi by (apply lookup_lt_Some in E; lia).
      injection Hi as <-. destruct Hfree as [[-> ->]|[-> ->]].
      * rewrite Z2Nat.id by lia. destruct (default false _) eqn:Eu; [done|].
        destruct Hb as [Hb|Hb]; [done|]. destruct Hslot as [Hn|Hn]; [by left|].
        by destruct (Hb s eq_refl).
      * rewrite list_lookup_insert_eq by lia. by left.
    + rewrite list_lookup_insert_ne in Hi by done. specialize (Hok i s' Hi).
      rewrite Nat2Z.id in Hok. destruct Hfree as [[-> _]|[-> _]]; [done|].
      by rewrite list_lookup_insert_ne by done.
Qed.

Lemma find_free_from_spec k i t :
  0 <= i ->
  (find_free_from k i t = -1 /\ forall j, i <= j < i + Z.of_nat k -> slot_in_use j t = true) \/
  (i <= find_free_from k i t < i + Z.of_nat k /\ slot_in_use (find_free_from k i t) t = false /\
   forall j, i <= j < find_free_from k i t -> slot_in_use j t = true).
Proof.
  revert i. induction k as [|k IH]; intros i Hi; cbn [find_free_from]; [left; split; [done|lia]|].
  destruct (slot_in_use i t) eqn:E; cbn [negb].
  - destruct (IH (i + 1) ltac:(lia)) as [[H1 H2]|(H1 & H2 & H3)].
    + left. split; [done|]. intros j Hj. destruct (Z.eq_dec j i) as [->|]; [done|]. apply H2. lia.
    + right. split; [lia|]. split; [done|]. intros j Hj.
      destruct (Z.eq_dec j i) as [->|]; [done|]. apply H3. lia.
  - right. split; [lia|]. split; [done|]. lia.
Qed.

Lemma findFreeSlot_spec t :
  (findFreeSlot t = -1 /\ forall j, 0 <= j < 2 -> slot_in_use j t = true) \/
  (0 <= findFreeSlot t < 2 /\ slot_in_use (findFreeSlot t) t = false /\
   forall j, 0 <= j < findFreeSlot t -> slot_in_use j t = true).
Proof.
  pose proof (find_free_from_spec (Z.to_nat SSHD_MAX_SESSIONS) 0 t ltac:(lia)) as H.
  fold (findFreeSlot t) in H. unfold SSHD_MAX_SESSIONS in H.
  destruct H as [[H1 H2]|(H1 & H2 & H3)]; [left|right]; (split; [lia|]).
  - intros j Hj. apply H2. lia.
  - split; [done|]. intros j Hj. apply H3. lia.
Qed.

Lemma onTcpConnect_ok handle w : slots_ok (w_loc w) -> slots_ok (w_loc (onTcpConnect handle w).2).
Proof.
  intros (Hl1 & Hl2 & Hok). unfold onTcpConnect, getl, gets, mbind, M_bind. cbn [fst snd].
  destruct (findFreeSlot_spec (w_loc w)) as [[-> _]|(Hr & Hu & _)]; [by split|].
  set (slot := findFreeSlot (w_loc w)) in *. rewrite (proj2 (Z.ltb_ge slot 0)) by lia.
  unfold updl, modify, on_session. cbn [fst snd w_loc w_hist s_sessions s_slotInUse].
  destruct (lookup_lt_is_Some_2 (s_sessions (w_loc w)) (Z.to_nat slot)) as [s E]; [lia|].
  rewrite E. set (w1 := World {| ses := s; slotInUse := _ |} _).
  destruct (session_open_slot handle slot w1) as [Hslot Huse]. set (r := session_open _ _ w1) in *.
  cbn [mret M_ret snd w_loc]. unfold w1 in Huse. cbn [w_loc slotInUse] in Huse.
  split; [|split]; cbn [s_sessions s_slotInUse].
  - by rewrite length_insert.
  - by rewrite Huse, length_insert.
  - intros i s' Hi. unfold slot_in_use in *. cbn [s_slotInUse]. rewrite Huse, Nat2Z.id.
    destruct (decide (i = Z.to_nat slot)) as [->|Hne].
    + rewrite list_lookup_insert_eq in Hi by lia. injection Hi as <-.
      rewrite list_lookup_insert_eq by lia. cbn [default from_option id]. lia.
    + rewrite list_lookup_insert_ne in Hi by done. rewrite list_lookup_insert_ne by done.
      specialize (Hok i s' Hi). by rewrite Nat2Z.id in Hok.
Qed.

Lemma session_at_in_use slot t s :
  sshdSessionAt slot t = Some s -> 0 <= slot < 2 /\ slot_in_use slot t = true.
Proof.
  unfold sshdSessionAt. destruct (slot_in_range slot) eqn:Er; [|done]. cbn [negb].
  destruct (slot_in_use slot t); [|done]. intros _. by apply slot_in_range_spec in Er.
Qed.

Lemma reset_from_ok k i n w :
  0 <= i -> i + Z.of_nat k <= 2 -> slots_ok (w_loc w) -> slots_ok (w_loc (reset_from k i n w).2).
Proof.
  revert i n w. induction k as [|k IH]; intros i n w Hi Hk Hok; [done|].
  cbn [reset_from]. unfold getl, gets, mbind, M_bind. cbn [fst snd].
  destruct (slot_in_use i (w_loc w)) eqn:E; cbn [negb]; [|apply IH; [lia..|done]].
  cbn [fst snd]. apply IH; [lia..|].
  apply on_session_ok; [lia|apply slot_session_close|by left|done].
Qed.

Lemma keeps_loc_applyListenerState w : w_loc (applyListenerState w).2 = w_loc w.
Proof.
  assert (keeps (on_loc (fun l l' => l' = l)) applyListenerState) as H; [|apply (H w)].
  assert (PreOrder (fun l l' : sshd => l' = l)) by (split; [by intros l|by intros l1 l2 l3 -> ->]).
  unfold applyListenerState, storageSetInt. unfold_calls. solve_keeps.
Qed.

Lemma task_reachable_ok h0 w : task_reachable h0 w -> slots_ok (w_loc w).
Proof.
  induction 1 as [|w w' _ IH Hst].
  { split; [done|]. split; [done|]. intros [|[|i]] s Hi; cbn in Hi; injection Hi as <- || done; by right. }
  destruct Hst as [handle w|ref w Hb|fuel handle w _|handle w|ref w|w|w|w].
  - by apply onTcpConnect_ok.
  - unfold onTcpDisconnect. destruct (slot_in_range ref) eqn:Er; [|done]. cbn [negb].
    apply on_session_ok; [by apply slot_in_range_spec|apply slot_session_close|by right|done].
  - unfold onTcpRecv, itsRef, call, getl, gets, mbind, M_bind. cbn [fst snd w_loc w_hist].
    destruct (slot_in_range _) eqn:Er; [|done]. cbn [negb fst snd w_loc].
    destruct (slot_in_use _ _) eqn:Eu; [|done]. cbn [negb].
    apply on_session_ok; [by apply slot_in_range_spec|apply slot_on_tcp_data|by left|done].
  - unfold on_backend_recv_cb, itsRef, call, getl, gets, mbind, M_bind. cbn [fst snd w_loc w_hist].
    destruct (sshdSessionAt _ _) as [s|] eqn:Es; [|done]. destruct (s_chanOpen s); [|done]. cbn [negb].
    apply session_at_in_use in Es as [Er Eu].
    apply on_session_ok; [done|apply slot_backend_data|by left|done].
  - unfold on_backend_disconnect_cb, getl, gets, mbind, M_bind. cbn [fst snd].
    destruct (sshdSessionAt _ _) as [s|] eqn:Es; [|done]. apply session_at_in_use in Es as [Er Eu].
    apply on_session_ok; [done|apply slot_backend_close|by left|done].
  - unfold cmd_reset, cliPrintf, notify, call, mbind, M_bind. cbn [fst snd w_loc].
    apply reset_from_ok; [unfold SSHD_MAX_SESSIONS; lia..|done].
  - by rewrite keeps_loc_applyListenerState.
  - unfold registerEndpointOnce, getl, gets, mbind, M_bind. cbn [fst snd].
    destruct (s_endpointRegistered (w_loc w)); [done|]. unfold itsSendAux, call. cbn [fst snd].
    by destruct (p_send_aux _ _).
Qed.

(** What [session_open] leaves behind: a fresh session, and the banner sent. *)
Definition opened (tcp slot : Z) : Session :=
  let s := reset blank in
  {| s with s_slot := slot; s_tcp := tcp; s_ourVersion := OUR_VERSION_STR |}.

Lemma session_open_eq tcp slot w :
  exists evs, session_open tcp slot w =
    (tt, World {| ses := opened tcp slot; slotInUse := slotInUse (w_loc w) |} (evs ++ w_hist w)).
Proof.
  unfold session_open, send_our_version, send_raw_tcp, itsSend.
  rewrite run_updS, run_updS, run_updS, run_getS, run_getS. cbn [ses w_loc w_hist slotInUse].
  cbn [s_tcp]. destruct (tcp <? 0); [by exists []|]. rewrite run_call. by eexists [_].
Qed.

(** C40: In every state the task can reach, a slot is marked as in use exactly while
    the session stored in it knows that it holds that slot: no connection is ever
    handed to a slot whose session is alive, and a session that closes frees its
    own slot and no other. *)
Theorem slots_reachable h0 w : task_reachable h0 w -> slots_ok (w_loc w).
Proof. apply task_reachable_ok. Qed.

(** A connection is refused exactly when both slots are in use, and then
    nothing changes but a warning in the log; otherwise it gets the lowest free
    slot, in which nothing of an earlier session is left: no authentication, no
    keys, no octets. *)
Theorem onTcpConnect_correct handle w :
  length (s_sessions (w_loc w)) = 2%nat -> length (s_slotInUse (w_loc w)) = 2%nat ->
  let t := w_loc w in
  let r := onTcpConnect handle w in
  ((forall j, 0 <= j < 2 -> slot_in_use j t = true) /\ r.1 = -1 /\ w_loc r.2 = t) \/
  (exists slot, 0 <= slot < 2 /\ r.1 = slot /\ slot_in_use slot t = false /\
    (forall j, 0 <= j < slot -> slot_in_use j t = true) /\
    s_sessions (w_loc r.2) = <[Z.to_nat slot := opened handle slot]> (s_sessions t) /\
    s_slotInUse (w_loc r.2) = <[Z.to_nat slot := true]> (s_slotInUse t)).
Proof.
  intros Hl1 Hl2 t r. unfold r, onTcpConnect, getl, gets, mbind, M_bind. cbn [fst snd]. fold t.
  destruct (findFreeSlot_spec t) as [[-> Hall]|(Hr & Hu & Hmin)]; [by left|right].
  set (slot := findFreeSlot t) in *. exists slot. rewrite (proj2 (Z.ltb_ge slot 0)) by lia.
  unfold updl, modify, on_session. cbn [fst snd w_loc w_hist s_sessions s_slotInUse]. fold t.
  destruct (lookup_lt_is_Some_2 (s_sessions t) (Z.to_nat slot)) as [s E]; [unfold t in *; lia|].
  rewrite E. set (w1 := World {| ses := s; slotInUse := _ |} _).
  destruct (session_open_eq handle slot w1) as [evs ->]. done.
Qed.
End task_steps.

(** ** Witnesses *)

Definition PFt : Platform := host peer_chunks.
Definition two_up : world sshd :=
  (onTcpConnect (PF := PFt) 8 (onTcpConnect (PF := PFt) 7 (World boot [])).2).2.

Lemma slots_reachable_witness :
  slots_ok (w_loc two_up) /\ sshdActiveSessions (w_loc two_up) = 2.
Proof.
  split; [|by vm_compute].
  apply (slots_reachable (PF := PFt) []). unfold two_up.
  eapply task_next; [eapply task_next; [apply task_boot|]|]; apply (task_connect (PF := PFt)).
Defined.

Lemma onTcpConnect_correct_witness :
  let r := onTcpConnect (PF := PFt) 9 two_up in
  ((forall j, 0 <= j < 2 -> slot_in_use j (w_loc two_up) = true) /\ r.1 = -1 /\
   w_loc r.2 = w_loc two_up) \/
  (exists slot, 0 <= slot < 2 /\ r.1 = slot /\ slot_in_use slot (w_loc two_up) = false /\
    (forall j, 0 <= j < slot -> slot_in_use j (w_loc two_up) = true) /\
    s_sessions (w_loc r.2) = <[Z.to_nat slot := opened 9 slot]> (s_sessions (w_loc two_up)) /\
    s_slotInUse (w_loc r.2) = <[Z.to_nat slot := true]> (s_slotInUse (w_loc two_up))).
Proof. apply (onTcpConnect_correct (PF := PFt) 9 two_up); by vm_compute. Defined.
