(* ===== verification/SshdKeys.v ===== *)
(** * SshdKeys: the authorized-key store, the host key and the commands

    The rest of [sshd.cpp].  The store is an array of objects with the fields
    [id], [line] and [label]; every change goes through the functions here. *)
From S2P Require Import Prelude Text Wire Platform Crypto Base64 Concrete Framing SessionState SessionKex SessionAuth SessionChannel SessionLoop SessionFlow SshdTask.

(** cJSON and the command-line helpers are not in the repository. *)
Class Cli := {
  cJSON_line : bytes -> option bytes;    (* the string item "line" of the parsed object *)
  cliWantsHelp : bytes -> bool;
  CLI_HELP_COL : nat
}.

(** ** Text of a key line *)

Definition ellipsis : bytes := [xe2; x80; xa6].

(** The second field of a line, from the index of the first space. *)
Definition second_field (line : bytes) (sp1 : nat) : bytes :=
  match find_char x20 line (sp1 + 1) with
  | None => drop (sp1 + 1) line
  | Some sp2 => substr line (sp1 + 1) (sp2 - sp1 - 1)
  end.

Definition keyLabel (line : bytes) : bytes :=
  match find_char x20 line 0 with
  | None => line
  | Some sp1 =>
      let type := take sp1 line in
      let blob := second_field line sp1 in
      let comment :=
        match find_char x20 line (sp1 + 1) with
        | None => []
        | Some sp2 => drop (sp2 + 1) line
        end in
      let tail := if 12 <? blen blob then ellipsis ++ drop (length blob - 12) blob else blob in
      type ++ [x20] ++ tail ++ (if bool_decide (comment = []) then [] else [x20; x20] ++ comment)
  end.

Definition keyNormalize (raw : bytes) : bytes := trim raw.

Definition keyRejection (raw : bytes) : bytes :=
  let line := trim raw in
  if bool_decide (line = []) then str "Empty." else
  match find_char x20 line 0 with
  | None => str "Expected: ssh-ed25519 <base64> [comment]"
  | Some sp1 =>
      if negb (bool_decide (take sp1 line = str "ssh-ed25519")) then
        str "Only ssh-ed25519 keys are accepted (got " ++ [x22] ++ take sp1 line ++ [x22] ++ str ")."
      else
      let blob := second_field line sp1 in
      if negb (forallb is_base64 blob) then str "Key body is not valid base64."
      else if blen blob <? 64 then str "Key body looks too short for ed25519."
      else []
  end.

Section keys.
Context `{PF : Platform} `{MB : Mbedtls} `{ED : Ed25519} `{KEM : MlKem} `{CL : Cli}.

(** ** The store *)

Definition keys_prefix : bytes := str "s.sshd.authorized_keys.".

Definition keyCount : M (world sshd) Z := storageArrayCount keys_prefix.

Definition field_name (idx : Z) (field : bytes) : bytes :=
  snprintf 80 (keys_prefix ++ fmt_d idx ++ [x2e] ++ field).
Definition item_name (idx : Z) : bytes := snprintf 80 (keys_prefix ++ fmt_d idx).

Definition keyField (idx : Z) (field : bytes) : M (world sshd) bytes :=
  storageGetStr (field_name idx field) [].

Definition keyWrite (idx : Z) (id line : bytes) : M (world sshd) unit :=
  storageSet (field_name idx (str "id")) (c_str id);;
  storageSet (field_name idx (str "line")) (c_str line);;
  storageSet (field_name idx (str "label")) (c_str (keyLabel line)).

(** [k] items are left, the next one is [i]. *)
Fixpoint next_id_from (k : nat) (i best : Z) : M (world sshd) Z :=
  match k with
  | O => mret best
  | S k =>
      id ← keyField i (str "id");
      let v := atoi (c_str id) in
      next_id_from k (i + 1) (if best <? v then v else best)
  end.
Definition keyNextId : M (world sshd) bytes :=
  n ← keyCount;
  best ← next_id_from (Z.to_nat n) 0 0;
  mret (snprintf 12 (fmt_d (best + 1))).

Definition keyAck : M (world sshd) unit :=
  updl (fun t => {| t with s_ack := s_ack t + 1 |});;
  t ← getl;
  storageSetInt (str "sshd.key.done") (s_ack t).

(** The first item from [i] whose field has the value, or -1. *)
Fixpoint index_from (k : nat) (i : Z) (field v : bytes) : M (world sshd) Z :=
  match k with
  | O => mret (-1)
  | S k =>
      x ← keyField i field;
      if bool_decide (x = v) then mret i else index_from k (i + 1) field v
  end.
Definition keyIndexOfId (id : bytes) : M (world sshd) Z :=
  n ← keyCount;
  index_from (Z.to_nat n) 0 (str "id") id.

Definition key_error (why : bytes) : M (world sshd) unit :=
  storageSet (str "sshd.key.error") why.

Definition keyAdd (raw : bytes) : M (world sshd) unit :=
  let line := keyNormalize raw in
  let why := keyRejection line in
  if negb (bool_decide (why = [])) then key_error (c_str why) else
  n ← keyCount;
  dup ← index_from (Z.to_nat n) 0 (str "line") line;
  if 0 <=? dup then key_error (str "That key is already authorized.") else
  storageBegin;;
  id ← keyNextId;
  keyWrite n id line;;
  key_error [];;
  storageEnd;;
  keyAck.

(** [for (i = idx; i < n - 1; i++) keyWrite(i, field of i + 1, ...);] *)
Fixpoint shift_from (k : nat) (i : Z) : M (world sshd) unit :=
  match k with
  | O => mret tt
  | S k =>
      id ← keyField (i + 1) (str "id");
      line ← keyField (i + 1) (str "line");
      keyWrite i id line;;
      shift_from k (i + 1)
  end.

Definition keyRemove (id : bytes) : M (world sshd) unit :=
  idx ← keyIndexOfId id;
  n ← keyCount;
  if idx <? 0 then key_error (str "No such key.") else
  storageBegin;;
  shift_from (Z.to_nat (n - 1 - idx)) idx;;
  storageUnset (item_name (n - 1));;
  key_error [];;
  storageEnd;;
  keyAck.

(** [None] where an item is not a plain string: nothing to move. *)
Fixpoint flat_from (k : nat) (i : Z) : M (world sshd) (option (list bytes)) :=
  match k with
  | O => mret (Some [])
  | S k =>
      flat ← storageGetStr (item_name i) [];
      if bool_decide (flat = []) then mret None else
      rest ← flat_from k (i + 1);
      mret (match rest with None => None | Some l => Some (flat :: l) end)
  end.
Fixpoint write_all (i : Z) (lines : list bytes) : M (world sshd) unit :=
  match lines with
  | [] => mret tt
  | line :: lines => keyWrite i (snprintf 12 (fmt_d (i + 1))) line;; write_all (i + 1) lines
  end.
Definition keyMigrate : M (world sshd) unit :=
  n ← keyCount;
  if n =? 0 then mret tt else
  lines ← flat_from (Z.to_nat n) 0;
  match lines with
  | None => mret tt
  | Some lines =>
      storageBegin;;
      storageDeleteTree (str "s.sshd.authorized_keys");;
      write_all 0 lines;;
      storageEnd;;
      log LogInfo (str "migrated " ++ fmt_d (blen lines) ++
                   str " authorized key(s) to the per-field shape" ++ [x0a])
  end.

Definition keySentinel (key val : bytes) : M (world sshd) unit :=
  if bool_decide (val = []) then mret tt
  else if bool_decide (key = str "sshd.key.add") then
    keyAdd (default [] (cJSON_line val));;
    storageSet (str "sshd.key.add") []
  else if bool_decide (key = str "sshd.key.remove") then
    keyRemove val;;
    storageSet (str "sshd.key.remove") []
  else mret tt.

(** ** The host key *)

Definition b64Encode (inp : bytes) (outLen : Z) : option bytes := mbedtls_base64_encode inp outLen.
Definition b64Decode (inp : bytes) (outLen : Z) : option bytes := mbedtls_base64_decode inp outLen.

Definition decode_seed (s : bytes) : option bytes :=
  let? seed := b64Decode s 32 in
  if negb (blen seed =? 32) then None else Some seed.

Definition loadHostSeed : M (world sshd) (option bytes) :=
  s ← storageGetStr (str "secrets.sshd.host_seed") [];
  if bool_decide (s = []) then mret None else mret (decode_seed s).

Definition generateHostSeed : M (world sshd) unit :=
  seed ← randomBytes 32;
  match b64Encode seed 64 with
  | None => log LogErr (str "sshd: base64 encode of host seed failed")
  | Some b64 =>
      storageSet (str "secrets.sshd.host_seed") b64;;
      log LogInfo (str "sshd: generated 32-byte Ed25519 host seed")
  end.

(** [u32(11) || "ssh-ed25519" || u32(32) || pub], written out octet by octet. *)
Definition pubkey_blob (pub : bytes) : bytes :=
  [x00; x00; x00; x0b] ++ str "ssh-ed25519" ++ [x00; x00; x00; x20] ++ take 32 pub.

Definition opensshPubkeyLine (pub : bytes) : bytes :=
  match b64Encode (pubkey_blob pub) 120 with
  | None => []
  | Some b64 => str "ssh-ed25519 " ++ b64
  end.

Definition fingerprint_of_blob (blob : bytes) (room : Z) : option bytes :=
  let fp := sha256 blob in
  match base64_nopad fp room with
  | [] => None
  | b => Some (str "SHA256:" ++ b)
  end.

Definition sshdHostFingerprint (bufLen : Z) : M (world sshd) (option bytes) :=
  b64 ← storageGetStr (str "secrets.sshd.host_seed") [];
  if bool_decide (b64 = []) then mret None else
  mret (let? seed := decode_seed b64 in
        let? pub := ed25519_pub_from_seed seed in
        if bufLen <? 8 + 43 + 1 then None
        else fingerprint_of_blob (pubkey_blob pub) (bufLen - 7)).
End keys.

(** ** Commands *)

Section commands.
Context `{PF : Platform} `{MB : Mbedtls} `{ED : Ed25519} `{KEM : MlKem} `{CL : Cli}.

Definition nl : bytes := [x0a].
Definition print_line (l : bytes) : M (world sshd) unit := cliPrintf (l ++ nl).

(** ["%-*s text\n"] with the column of the help output. *)
Definition help_line (left text : bytes) : M (world sshd) unit :=
  print_line (left ++ replicate (CLI_HELP_COL - length left) x20 ++ [x20] ++ text).

Definition sshd_help : M (world sshd) unit :=
  help_line (str "sshd") (str "show current state");;
  help_line (str "sshd enable") (str "start the server (s.sshd.enabled=1)");;
  help_line (str "sshd disable") (str "stop the server (s.sshd.enabled=0)");;
  help_line (str "sshd fingerprint") (str "SHA256 of host public key");;
  help_line (str "sshd keys") (str "list authorized keys");;
  help_line (str "sshd add <key>") (str "append an ssh-ed25519 public key");;
  help_line (str "sshd del <id>") (str "remove the key with this id");;
  help_line (str "sshd reset") (str "force-close all active sessions").

Definition no_host_key : bytes := str "(no host key — run sshd-keygen)".

Definition sshd_enable (on : bool) : M (world sshd) unit :=
  storageSetInt (str "s.sshd.enabled") (if on then 1 else 0);;
  print_line (str "sshd " ++ if on then str "enabled" else str "disabled").

Definition on_off (v : Z) : bytes := if v =? 0 then str "off" else str "on".

Definition sshd_status : M (world sshd) unit :=
  en ← storageGetInt (str "s.sshd.enabled") 1;
  port ← storageGetInt (str "s.sshd.port") SSHD_PORT_TCP;
  print_line (str "enabled:  " ++ if en =? 0 then str "no" else str "yes");;
  print_line (str "port:     " ++ fmt_d port);;
  t ← getl;
  print_line (str "sessions: " ++ fmt_d (sshdActiveSessions t) ++ str " / " ++ fmt_d SSHD_MAX_SESSIONS);;
  n ← keyCount;
  print_line (str "keys:     " ++ fmt_d n ++ str " authorized");;
  color ← storageGetInt (str "s.sshd.color") 0;
  logcolor ← storageGetInt (str "s.sshd.logcolor") 0;
  print_line (str "color:    cli=" ++ on_off color ++ str "  log=" ++ on_off logcolor);;
  fp ← sshdHostFingerprint 64;
  match fp with
  | Some fp => print_line (str "hostkey:  " ++ fp)
  | None => print_line (str "hostkey:  " ++ str "(none — run sshd-keygen)")
  end.

Definition sshd_fingerprint : M (world sshd) unit :=
  fp ← sshdHostFingerprint 64;
  match fp with Some fp => print_line fp | None => print_line no_host_key end.

Fixpoint list_keys (k : nat) (i : Z) : M (world sshd) unit :=
  match k with
  | O => mret tt
  | S k =>
      id ← keyField i (str "id");
      label ← keyField i (str "label");
      print_line (str "[" ++ c_str id ++ str "] " ++ c_str label);;
      list_keys k (i + 1)
  end.
Definition sshd_keys : M (world sshd) unit :=
  n ← keyCount;
  if n =? 0 then print_line (str "(no authorized keys)") else list_keys (Z.to_nat n) 0.

Definition skip_spaces (l : bytes) : bytes := drop_while (fun b => bool_decide (b = x20)) l.

Definition sshd_add (line : bytes) : M (world sshd) unit :=
  keyAdd (skip_spaces line);;
  why ← storageGetStr (str "sshd.key.error") [];
  if bool_decide (why = []) then
    n ← keyCount;
    id ← keyField (n - 1) (str "id");
    print_line (str "added as [" ++ c_str id ++ str "]")
  else print_line (c_str why).

Definition sshd_del (arg : bytes) : M (world sshd) unit :=
  let id := skip_spaces arg in
  keyRemove id;;
  why ← storageGetStr (str "sshd.key.error") [];
  if bool_decide (why = []) then
    n ← keyCount;
    print_line (str "removed [" ++ id ++ str "] (" ++ fmt_d n ++ str " remain)")
  else print_line (c_str why).

Definition cmdSshd (a : bytes) : M (world sshd) unit :=
  if bool_decide (a = str "help") then
    help_line (str "sshd [...]") (str "SSH server status + key management")
  else if cliWantsHelp a then sshd_help
  else if bool_decide (a = str "enable") then sshd_enable true
  else if bool_decide (a = str "disable") then sshd_enable false
  else if bool_decide (a = str "reset") then cmd_reset
  else if bool_decide (a = []) then sshd_status
  else if bool_decide (a = str "fingerprint") then sshd_fingerprint
  else if bool_decide (a = str "keys") then sshd_keys
  else if bool_decide (take 4 a = str "add ") then sshd_add (drop 4 a)
  else if bool_decide (take 4 a = str "del ") then sshd_del (drop 4 a)
  else print_line (str "unknown subcommand. try `sshd -h`").

Definition cmdSshdKeygen (a : bytes) : M (world sshd) unit :=
  if cliWantsHelp a then
    help_line (str "sshd-keygen") (str "regenerate the SSH host key (secrets.sshd.host_seed)")
  else
  seed ← randomBytes 32;
  match b64Encode seed 64 with
  | None => print_line (str "sshd-keygen: encode failed")
  | Some b64 =>
      storageSet (str "secrets.sshd.host_seed") b64;;
      log LogInfo (str "sshd: host key regenerated");;
      fp ← sshdHostFingerprint 64;
      match fp with
      | Some fp => print_line (str "new host key: " ++ fp)
      | None => print_line (str "new host key generated")
      end
  end.

Definition cmdSshdShowkey (a : bytes) : M (world sshd) unit :=
  if cliWantsHelp a then
    help_line (str "sshd-showkey") (str "print the SSH host public key (ssh-ed25519 …)")
  else
  seed ← loadHostSeed;
  match seed with
  | None => print_line no_host_key
  | Some seed =>
      match ed25519_pub_from_seed seed with
      | None => print_line (str "sshd-showkey: derive failed")
      | Some pub =>
          let line := opensshPubkeyLine pub in
          if bool_decide (line = []) then print_line (str "sshd-showkey: encode failed") else
          host ← storageGetStr (str "s.net.hostname") (str "spangap");
          print_line (line ++ [x20] ++ snprintf 48 (c_str host))
      end
  end.

(** ** Start-up *)

Definition SSHD_VERSION : Z := 1.

(** The task up to its event loop. *)
Definition sshdTask : M (world sshd) unit :=
  registerService (str "itsServerInit");;
  registerService (str "itsClientInit");;
  registerService (str "itsServerPortOpen");;
  registerService (str "itsServerOnConnect");;
  registerService (str "itsServerOnRecv");;
  registerService (str "itsServerOnDisconnect");;
  registerEndpointOnce;;
  storageSubscribe (str "s.sshd.enabled");;
  applyListenerState;;
  storageSubscribe (str "s.sshd.port").

(** [SshdService::onInit]. *)
Definition onInit : M (world sshd) unit :=
  v ← storageGetInt (str "s.sshd.version") 0;
  when (v <? SSHD_VERSION)
    (storageBegin;;
     storageDefault (str "s.sshd.port") (fmt_d SSHD_PORT_TCP);;
     storageDefault (str "s.sshd.color") (fmt_d 0);;
     storageDefault (str "s.sshd.logcolor") (fmt_d 0);;
     storageDefault (str "s.sshd") (str "{" ++ [x22] ++ str "authorized_keys" ++ [x22] ++ str ":[]}");;
     storageSetInt (str "s.sshd.version") SSHD_VERSION;;
     storageEnd);;
  keyMigrate;;
  storageSubscribe (str "sshd.key.add");;
  storageSubscribe (str "sshd.key.remove");;
  storageDefault (str "s.net.mdns.ssh") (str "s.sshd.port");;
  seed ← loadHostSeed;
  when (bool_decide (seed = None)) generateHostSeed;;
  registerService (str "sshd");;
  registerService (str "sshd-keygen");;
  registerService (str "sshd-showkey");;
  registerService (str "sshClientInit");;
  registerService (str "spawnTask sshd").
End commands.
