(* ===== verification/KeysFacts.v ===== *)
(** * KeysFacts: the authorized-key store does what it says

    The store is read as a list of (id, line) pairs; adding appends under a fresh
    id, removing deletes and compacts.  Reads see the committed tree while the
    writes of a call are queued; what is committed afterwards is the effect of the
    queued writes, in order. *)
From S2P Require Import Prelude Text Wire Platform Crypto Concrete Framing SessionState SessionKex SessionAuth SessionChannel SessionLoop Runs SessionFlow SshdTask SshdKeys.

(** ** The tree *)

Abbreviation tree := (bytes -> option bytes).

Definition under (key x : bytes) : bool :=
  bool_decide (x = key) || bool_decide ((key ++ [x2e]) `prefix_of` x).

(** The effect of a queued write. *)
Definition apply_event (e : event) (st : tree) : tree :=
  match e with
  | EvSetStr k v => fun x => if bool_decide (x = k) then Some v else st x
  | EvSetInt k z => fun x => if bool_decide (x = k) then Some (fmt_d z) else st x
  | EvUnset k | EvDeleteTree k => fun x => if under k x then None else st x
  | _ => st
  end.

(** The newest event is first. *)
Definition apply_events (evs : history) (st : tree) : tree := fold_right apply_event st evs.

Lemma apply_events_app e1 e2 st : apply_events (e1 ++ e2) st = apply_events e1 (apply_events e2 st).
Proof. apply fold_right_app. Qed.

(** ** Names *)

Definition is_field (f : bytes) : Prop := f = str "id" \/ f = str "line" \/ f = str "label".

Definition INT_MAX : Z := 2 ^ 31 - 1.

Lemma fmt_d_length z : 0 <= z <= INT_MAX -> (length (fmt_d z) <= 10)%nat.
Proof.
  intros Hz. destruct (fmt_d_digits z) as (_ & _ & _ & H); [lia|]. apply (H 10%nat); [lia|].
  unfold INT_MAX in Hz. cbn. lia.
Qed.

Lemma field_name_eq i f :
  0 <= i <= INT_MAX -> is_field f -> field_name i f = keys_prefix ++ fmt_d i ++ x2e :: f.
Proof.
  intros Hi Hf. unfold field_name, snprintf. apply take_ge.
  pose proof (fmt_d_length i Hi). rewrite !length_app. cbn.
  destruct Hf as [->|[->| ->]]; cbn; lia.
Qed.

Lemma item_name_eq i : 0 <= i <= INT_MAX -> item_name i = keys_prefix ++ fmt_d i.
Proof.
  intros Hi. unfold item_name, snprintf. apply take_ge.
  pose proof (fmt_d_length i Hi). rewrite length_app. cbn. lia.
Qed.

Lemma field_name_inj i j f g :
  0 <= i <= INT_MAX -> 0 <= j <= INT_MAX -> is_field f -> is_field g ->
  field_name i f = field_name j g -> i = j /\ f = g.
Proof.
  intros Hi Hj Hf Hg. rewrite !field_name_eq by done. intros E%app_inv_head.
  apply split_at_inj in E as [E ->]; [|apply fmt_d_no_dot; lia..].
  split; [|done]. apply fmt_d_inj; [lia..|done].
Qed.

(** Removing one item touches the fields of that item only. *)
Lemma under_field i j f :
  0 <= i <= INT_MAX -> 0 <= j <= INT_MAX -> is_field f ->
  under (item_name i) (field_name j f) = bool_decide (i = j).
Proof.
  intros Hi Hj Hf. rewrite item_name_eq, field_name_eq by done. unfold under.
  apply Bool.eq_iff_eq_true. rewrite orb_true_iff, !bool_decide_eq_true. split.
  - intros [E|[k E]].
    + apply app_inv_head in E. exfalso.
      assert (x2e ∈ fmt_d i) as Hin by (rewrite <- E; apply elem_of_app; right; apply list_elem_of_here).
      revert Hin. apply fmt_d_no_dot. lia.
    + rewrite <- !app_assoc in E. apply app_inv_head in E.
      change ([x2e] ++ k) with (x2e :: k) in E.
      apply split_at_inj in E as [E _]; [|apply fmt_d_no_dot; lia..].
      symmetry. apply fmt_d_inj; [lia..|done].
  - intros ->. right. exists f. by rewrite <- !app_assoc.
Qed.

(** No field is called like one of the other keys the functions write. *)
Lemma field_name_other i f k :
  0 <= i <= INT_MAX -> is_field f -> take 2 k = str "ss" -> field_name i f <> k.
Proof. intros Hi Hf Hk E. rewrite field_name_eq in E by done. subst k. by cbn in Hk. Qed.

(** ** The store as a list *)

(** An item: its id and its line.  The label is a function of the line. *)
Abbreviation item := (bytes * bytes)%type.

Definition stored (st : tree) (l : list item) : Prop :=
  forall i : nat, Z.of_nat i <= INT_MAX ->
    st (field_name (Z.of_nat i) (str "id")) = fst <$> l !! i /\
    st (field_name (Z.of_nat i) (str "line")) = snd <$> l !! i /\
    st (field_name (Z.of_nat i) (str "label")) = (fun a => keyLabel a.2) <$> l !! i.

(** Texts that fit a C string. *)
Definition plain (s : bytes) : Prop := x00 ∉ s.
Definition plain_items (l : list item) : Prop := Forall (fun a => plain a.1 /\ plain a.2) l.

Lemma plain_c_str s : plain s -> c_str s = s.
Proof. apply c_str_id. Qed.

Lemma plain_app a b : plain a -> plain b -> plain (a ++ b).
Proof. unfold plain. rewrite elem_of_app. tauto. Qed.
Lemma plain_incl s t : plain t -> s ⊆ t -> plain s.
Proof. intros Ht Hs Hin. by apply Ht, Hs. Qed.
Lemma plain_take n s : plain s -> plain (take n s).
Proof. intros H. eapply plain_incl; [exact H|apply subseteq_take]. Qed.
Lemma plain_drop n s : plain s -> plain (drop n s).
Proof. intros H. eapply plain_incl; [exact H|apply subseteq_drop]. Qed.

Lemma plain_second_field line sp1 : plain line -> plain (second_field line sp1).
Proof.
  intros H. unfold second_field, substr. destruct (find_char _ _ _); [|by apply plain_drop].
  by apply plain_take, plain_drop.
Qed.

Lemma plain_keyLabel line : plain line -> plain (keyLabel line).
Proof.
  intros H. unfold keyLabel. destruct (find_char x20 line 0) as [sp1|]; [|done].
  pose proof (plain_second_field line sp1 H) as Hb.
  assert (Hconst : forall l, bool_decide (x00 ∈ l) = false -> plain l)
    by (intros l; apply bool_decide_eq_false_1).
  repeat apply plain_app; [by apply plain_take|by apply Hconst| |].
  - destruct (12 <? _); [|done]. apply plain_app; [by apply Hconst|by apply plain_drop].
  - destruct (bool_decide _); [by apply Hconst|]. apply plain_app; [by apply Hconst|].
    destruct (find_char _ _ _); [by apply plain_drop|by apply Hconst].
Qed.

(** ** The effect of writing one item *)

Definition write_events (i : Z) (id line : bytes) : history :=
  [EvSetStr (field_name i (str "label")) (keyLabel line);
   EvSetStr (field_name i (str "line")) line;
   EvSetStr (field_name i (str "id")) id].

Lemma run_keyWrite {B} i id line (f : unit -> M (world sshd) B) w :
  plain id -> plain line ->
  (keyWrite i id line ≫= f) w = f tt (World (w_loc w) (write_events i id line ++ w_hist w)).
Proof.
  intros H1 H2. unfold keyWrite, storageSet. pose proof (plain_keyLabel line H2).
  by rewrite (plain_c_str id), (plain_c_str line), (plain_c_str (keyLabel line)).
Qed.

Ltac field_cases := first [by left | by right; left | by right; right].

Lemma stored_write st l i id line :
  stored st l -> (i <= length l)%nat -> Z.of_nat i <= INT_MAX ->
  stored (apply_events (write_events (Z.of_nat i) id line) st)
    (take i l ++ (id, line) :: drop (S i) l).
Proof.
  intros Hs Hi Hmax j Hj. destruct (Hs j Hj) as (H1 & H2 & H3).
  assert (Hne : forall f g, is_field f -> is_field g ->
    bool_decide (field_name (Z.of_nat j) f = field_name (Z.of_nat i) g) = bool_decide (j = i /\ f = g)).
  { intros f g Hf Hg. apply bool_decide_ext. split.
    - intros E. apply field_name_inj in E as [E ->]; [split; [lia|done]|lia|lia|done|done].
    - by intros [-> ->]. }
  cbn [apply_events fold_right write_events apply_event].
  rewrite !Hne by field_cases.
  destruct (decide (j = i)) as [->|Hji].
  - assert ((take i l ++ (id, line) :: drop (S i) l) !! i = Some (id, line)) as ->.
    { rewrite lookup_app_r by (rewrite length_take; lia). rewrite length_take.
      by replace (i - i `min` length l)%nat with 0%nat by lia. }
    split_and!; repeat first [rewrite bool_decide_eq_true_2 by done
      |rewrite bool_decide_eq_false_2 by (intros [_ E]; discriminate E)]; done.
  - assert ((take i l ++ (id, line) :: drop (S i) l) !! j = l !! j) as ->.
    { destruct (decide (j < i)%nat).
      - rewrite lookup_app_l by (rewrite length_take; lia). by rewrite lookup_take_lt by lia.
      - rewrite lookup_app_r by (rewrite length_take; lia). rewrite length_take.
        replace (j - i `min` length l)%nat with (S (j - S i)) by lia.
        trans (drop (S i) l !! (j - S i)%nat); [done|]. rewrite lookup_drop. f_equal. lia. }
    rewrite !bool_decide_eq_false_2 by (by intros [? _]). done.
Qed.

(** Other keys do not matter. *)
Lemma stored_other st l e :
  match e with
  | EvSetStr k _ | EvSetInt k _ => take 2 k = str "ss"
  | EvUnset _ | EvDeleteTree _ => False
  | _ => True
  end -> stored st l -> stored (apply_event e st) l.
Proof.
  intros He Hs i Hi. specialize (Hs i Hi).
  destruct e; cbn [apply_event]; try done.
  all: rewrite !bool_decide_eq_false_2; [done|apply field_name_other; [lia|field_cases|done]..].
Qed.

Lemma stored_unset st l n :
  stored st l -> length l = S n -> Z.of_nat n <= INT_MAX ->
  stored (apply_event (EvUnset (item_name (Z.of_nat n))) st) (take n l).
Proof.
  intros Hs Hl Hn i Hi. destruct (Hs i Hi) as (H1 & H2 & H3). cbn [apply_event].
  rewrite !under_field by (lia || field_cases). case_bool_decide as E.
  - assert (i = n) as -> by lia. rewrite lookup_take_ge by lia. done.
  - destruct (decide (i < n)%nat).
    + by rewrite lookup_take_lt by lia.
    + rewrite lookup_take_ge by lia. rewrite (lookup_ge_None_2 l i) in H1, H2, H3 by lia. done.
Qed.

(** ** Searching *)

(** The index of the first item from [i] on that satisfies the test. *)
Fixpoint first_from (P : item -> bool) (i : nat) (m : list item) : option nat :=
  match m with
  | [] => None
  | a :: m => if P a then Some i else first_from P (S i) m
  end.

Lemma first_from_Some P i m n :
  first_from P i m = Some n -> (i <= n)%nat /\ exists a, m !! (n - i)%nat = Some a /\ P a = true.
Proof.
  revert i. induction m as [|a m IH]; intros i; cbn; [done|]. destruct (P a) eqn:E.
  - intros [= <-]. split; [done|]. exists a. by rewrite Nat.sub_diag.
  - intros (Hle & b & Hb & HP)%IH. split; [lia|]. exists b.
    by replace (n - i)%nat with (S (n - S i))%nat by lia.
Qed.

Lemma first_from_None P i m a : first_from P i m = None -> a ∈ m -> P a = false.
Proof.
  revert i. induction m as [|b m IH]; intros i; cbn; [by intros _ ?%elem_of_nil|].
  destruct (P b) eqn:E; [done|]. rewrite elem_of_cons. intros H [->|Hin]; [done|by eapply IH].
Qed.

Definition field_is (f v : bytes) (a : item) : bool :=
  bool_decide ((if bool_decide (f = str "id") then a.1 else a.2) = v).

(** The largest id. *)
Definition max_id (best : Z) (m : list item) : Z :=
  fold_left (fun best a => if best <? atoi a.1 then atoi a.1 else best) m best.

Lemma max_id_ge best m : best <= max_id best m /\ Forall (fun a => atoi a.1 <= max_id best m) m.
Proof.
  revert best. induction m as [|a m IH]; intros best; cbn; [split; [lia|constructor]|].
  destruct (IH (if best <? atoi a.1 then atoi a.1 else best)) as [H1 H2].
  assert (best <= max_id best (a :: m) /\ atoi a.1 <= max_id best (a :: m)) as [H3 H4].
  { cbn. fold (max_id (if best <? atoi a.1 then atoi a.1 else best) m).
    destruct (Z.ltb_spec best (atoi a.1)); lia. }
  split; [exact H3|]. constructor; [exact H4|exact H2].
Qed.

(** ** Reading *)

Section reads.
Context `{PF : Platform} `{MB : Mbedtls} `{ED : Ed25519} `{KEM : MlKem} `{CL : Cli}.
(** What is committed when the function starts, and nothing is committed while it
    runs. *)
Context (st : tree) (l : list item) (h0 : history).
Hypothesis reads : forall evs key d, p_get_str (evs ++ h0) key d = default d (st key).
Hypothesis counts : forall evs, p_array_count (evs ++ h0) keys_prefix = Z.of_nat (length l).
Hypothesis Hst : stored st l.
Hypothesis Hlen : Z.of_nat (length l) <= INT_MAX.
Hypothesis Hplain : plain_items l.

(** The history is an extension of the one at the start. *)
Definition ext (w : world sshd) : Prop := exists evs, w_hist w = evs ++ h0.

Lemma ext_add e w : ext w -> ext (World (w_loc w) (e :: w_hist w)).
Proof. intros [evs E]. exists (e :: evs). cbn. by rewrite E. Qed.

Lemma run_keyField {B} (i : nat) a f v (k : bytes -> M (world sshd) B) w :
  ext w -> l !! i = Some a ->
  (f = str "id" /\ v = a.1) \/ (f = str "line" /\ v = a.2) ->
  (keyField (Z.of_nat i) f ≫= k) w =
  k v (World (w_loc w) (EvGetStr (field_name (Z.of_nat i) f) v :: w_hist w)).
Proof.
  intros [evs E] Hi Hf. unfold keyField, storageGetStr. rewrite run_call. cbv beta.
  rewrite E, !reads.
  apply lookup_lt_Some in Hi as Hlt. destruct (Hst i) as (H1 & H2 & _); [lia|].
  rewrite Hi in H1, H2. cbn [fmap option_fmap option_map] in H1, H2.
  destruct Hf as [[-> ->]|[-> ->]]; rewrite ?H1, ?H2; reflexivity.
Qed.

Lemma run_keyCount {B} (k : Z -> M (world sshd) B) w :
  ext w -> (keyCount ≫= k) w =
  k (Z.of_nat (length l)) (World (w_loc w) (EvCount keys_prefix (Z.of_nat (length l)) :: w_hist w)).
Proof. intros [evs E]. unfold keyCount, storageArrayCount. rewrite run_call. cbv beta.
  by rewrite E, !counts. Qed.

(** Events that read only. *)
Definition silent_read (e : event) : Prop :=
  match e with EvGetStr _ _ | EvCount _ _ | EvBegin | EvEnd => True | _ => False end.

Lemma apply_reads evs s : Forall silent_read evs -> apply_events evs s = s.
Proof.
  induction 1 as [|e evs He _ IH]; [done|].
  change (apply_events (e :: evs) s) with (apply_event e (apply_events evs s)).
  rewrite IH. by destruct e.
Qed.

Lemma index_from_spec k (i : nat) f v w :
  f = str "id" \/ f = str "line" ->
  ext w -> (i + k)%nat = length l ->
  exists evs, Forall silent_read evs /\
    index_from k (Z.of_nat i) f v w =
      (match first_from (field_is f v) i (drop i l) with Some n => Z.of_nat n | None => -1 end,
       World (w_loc w) (evs ++ w_hist w)).
Proof.
  intros Hf. revert i w. induction k as [|k IH]; intros i w Hw Hi.
  - exists []. split; [constructor|]. rewrite drop_ge by lia. by destruct w.
  - cbn [index_from]. destruct (lookup_lt_is_Some_2 l i) as [a Ha]; [lia|].
    rewrite (run_keyField i a f (if bool_decide (f = str "id") then a.1 else a.2) _ w Hw Ha)
      by (destruct Hf as [->| ->]; [left|right]; done).
    rewrite (drop_S l a i Ha). cbn [first_from]. unfold field_is at 1.
    destruct (bool_decide (_ = v)).
    + eexists [_]. split; [|reflexivity]. by repeat constructor.
    + replace (Z.of_nat i + 1) with (Z.of_nat (S i)) by lia.
      destruct (IH (S i) (World (w_loc w) (EvGetStr (field_name (Z.of_nat i) f)
        (if bool_decide (f = str "id") then a.1 else a.2) :: w_hist w))) as (evs & He & E);
        [by apply ext_add|lia|].
      rewrite E. cbn [w_loc w_hist]. eexists (evs ++ [_]). split; [|rewrite <- app_assoc; reflexivity].
      apply Forall_app_2; [done|by repeat constructor].
Qed.

(** ** Fresh ids *)

Lemma next_id_from_spec k (i : nat) best w :
  ext w -> (i + k)%nat = length l ->
  exists evs, Forall silent_read evs /\
    next_id_from k (Z.of_nat i) best w =
      (max_id best (drop i l), World (w_loc w) (evs ++ w_hist w)).
Proof.
  revert i best w. induction k as [|k IH]; intros i best w Hw Hi.
  - exists []. split; [constructor|]. rewrite drop_ge by lia. by destruct w.
  - cbn [next_id_from]. destruct (lookup_lt_is_Some_2 l i) as [a Ha]; [lia|].
    rewrite (run_keyField i a (str "id") a.1 _ w Hw Ha) by by left.
    assert (plain a.1) as Hp.
    { apply (list.Forall_lookup_1 _ _ _ _ Hplain Ha). }
    rewrite (plain_c_str a.1 Hp). cbv zeta. rewrite (drop_S l a i Ha).
    replace (Z.of_nat i + 1) with (Z.of_nat (S i)) by lia.
    destruct (IH (S i) (if best <? atoi a.1 then atoi a.1 else best)
      (World (w_loc w) (EvGetStr (field_name (Z.of_nat i) (str "id")) a.1 :: w_hist w)))
      as (evs & He & E); [by apply ext_add|lia|].
    rewrite E. cbn [w_loc w_hist]. eexists (evs ++ [_]). split; [|rewrite <- app_assoc; reflexivity].
    apply Forall_app_2; [done|by repeat constructor].
Qed.

Definition fresh_id : bytes := fmt_d (max_id 0 l + 1).

Lemma keyNextId_spec {B} (k : bytes -> M (world sshd) B) w :
  ext w -> max_id 0 l < INT_MAX ->
  exists evs, Forall silent_read evs /\
    (keyNextId ≫= k) w = k fresh_id (World (w_loc w) (evs ++ w_hist w)).
Proof.
  intros Hw Hm. destruct (max_id_ge 0 l) as [H0 _].
  unfold keyNextId. rewrite run_assoc, run_keyCount by done. rewrite Nat2Z.id.
  destruct (next_id_from_spec (length l) 0 0
    (World (w_loc w) (EvCount keys_prefix (Z.of_nat (length l)) :: w_hist w))) as (evs & He & E);
    [by apply ext_add|done|].
  rewrite run_assoc. erewrite run_bind by exact E. rewrite run_ret. cbn [w_loc w_hist].
  exists (evs ++ [EvCount keys_prefix (Z.of_nat (length l))]).
  split; [apply Forall_app_2; [done|by repeat constructor]|].
  rewrite <- app_assoc. cbn [app]. unfold fresh_id, snprintf. rewrite take_ge; [done|].
  pose proof (fmt_d_length (max_id 0 (drop 0 l) + 1)). rewrite drop_0 in *. cbn. lia.
Qed.

Lemma fresh_id_new : fresh_id ∉ l.*1.
Proof.
  destruct (max_id_ge 0 l) as [H0 Hall]. intros (a & Ha & Hin)%list_elem_of_fmap.
  rewrite list.Forall_forall in Hall. specialize (Hall a Hin).
  rewrite <- Ha in Hall. unfold fresh_id in Hall. rewrite atoi_fmt_d in Hall; lia.
Qed.
End reads.

(** ** The mutations *)

(** The platform answers from the committed tree [st], which holds the items [l],
    from the history [h0] on. *)
Definition commits `{PF : Platform} (st : tree) (l : list item) (h0 : history) : Prop :=
  (forall evs key d, p_get_str (evs ++ h0) key d = default d (st key)) /\
  (forall evs, p_array_count (evs ++ h0) keys_prefix = Z.of_nat (length l)) /\
  stored st l /\ Z.of_nat (length l) < INT_MAX /\ plain_items l /\ max_id 0 l < INT_MAX.

Definition error_key : bytes := str "sshd.key.error".
Definition done_key : bytes := str "sshd.key.done".

Definition acked (t : sshd) : sshd := {| t with s_ack := s_ack t + 1 |}.

Section mutations.
Context `{PF : Platform} `{MB : Mbedtls} `{ED : Ed25519} `{KEM : MlKem} `{CL : Cli}.

Lemma keyAck_eq w :
  keyAck w = (tt, World (acked (w_loc w)) (EvSetInt done_key (s_ack (w_loc w) + 1) :: w_hist w)).
Proof. done. Qed.

Lemma trim_incl raw : trim raw ⊆ raw.
Proof.
  unfold trim. destruct (drop_while_suffix isspace raw) as (p & E & _).
  destruct (drop_while_end_prefix isspace (drop_while isspace raw)) as (q & E' & _).
  intros x Hx. rewrite E. apply elem_of_app. right. rewrite E'. apply elem_of_app. by left.
Qed.

(** A set of one of the other keys, on top of what is there. *)
Lemma stored_error st l v : stored st l -> stored (apply_event (EvSetStr error_key v) st) l.
Proof. by apply (stored_other _ _ (EvSetStr error_key v)). Qed.

Lemma stored_ack st l n : stored st l -> stored (apply_event (EvSetInt done_key n) st) l.
Proof. by apply (stored_other _ _ (EvSetInt done_key n)). Qed.

Lemma field_is_line v a : field_is (str "line") v a = bool_decide (a.2 = v).
Proof. done. Qed.
Lemma field_is_id v a : field_is (str "id") v a = bool_decide (a.1 = v).
Proof. done. Qed.

Lemma first_line_iff l line :
  first_from (field_is (str "line") line) 0 l = None <-> line ∉ l.*2.
Proof.
  split.
  - intros H (a & Ha & Hin)%list_elem_of_fmap. pose proof (first_from_None _ _ _ _ H Hin) as Hf.
    rewrite field_is_line in Hf. by apply bool_decide_eq_false in Hf.
  - intros H. destruct (first_from _ _ _) as [n|] eqn:E; [|done].
    apply first_from_Some in E as (_ & a & Ha & Hf). rewrite field_is_line in Hf.
    apply bool_decide_eq_true in Hf. destruct H. rewrite <- Hf.
    apply list_elem_of_fmap. exists a. split; [done|].
    by eapply list_elem_of_lookup_2.
Qed.

(** Adding a key line either leaves the store alone and says why (the line is
    not acceptable, or it is already there), or appends the trimmed line, its label
    and an id that no stored key has, clears the error and acknowledges; on every
    path the store stays well formed. *)
Theorem keyAdd_correct raw st l w :
  commits st l (w_hist w) -> plain raw ->
  let line := keyNormalize raw in
  exists evs t', keyAdd raw w = (tt, World t' (evs ++ w_hist w)) /\
    (keyRejection line <> [] /\ stored (apply_events evs st) l /\
       apply_events evs st error_key = Some (c_str (keyRejection line)) /\ t' = w_loc w \/
     keyRejection line = [] /\ (line ∈ l.*2) /\ stored (apply_events evs st) l /\
       apply_events evs st error_key = Some (str "That key is already authorized.") /\ t' = w_loc w \/
     keyRejection line = [] /\ (line ∉ l.*2) /\
       exists id, (id ∉ l.*1) /\ stored (apply_events evs st) (l ++ [(id, line)]) /\
         apply_events evs st error_key = Some [] /\ t' = acked (w_loc w)).
Proof.
  intros (Hr & Hc & Hst & Hlen & Hpl & Hmax) Hraw line. unfold keyAdd. fold line.
  assert (plain line) as Hline by (eapply plain_incl; [exact Hraw|apply trim_incl]).
  case_bool_decide as Hrej; cbn [negb].
  2:{ eexists [_], _. split; [reflexivity|]. left. split; [done|].
      split; [by apply stored_error|]. split; [|done]. cbn. by rewrite bool_decide_eq_true_2. }
  assert (ext (w_hist w) w) as Hw by by exists [].
  rewrite (run_keyCount l (w_hist w)) by done. rewrite Nat2Z.id.
  set (e1 := EvCount keys_prefix (Z.of_nat (length l))).
  destruct (index_from_spec st l (w_hist w) Hr Hst ltac:(lia) (length l) 0 (str "line") line
    (World (w_loc w) (e1 :: w_hist w))) as (r1 & Hr1 & E1); [by right|by apply ext_add|done|].
  change (Z.of_nat 0) with 0 in E1. erewrite run_bind by exact E1. clear E1. cbn [w_loc w_hist].
  rewrite drop_0. destruct (first_from _ 0 l) as [n|] eqn:Ef.
  - rewrite (proj2 (Z.leb_le 0 _)) by lia.
    eexists (_ :: r1 ++ [e1]), _. split; [cbn; rewrite <- app_assoc; reflexivity|].
    right; left. split; [done|].
    assert (apply_events (r1 ++ [e1]) st = st) as Eid
      by (apply apply_reads, Forall_app_2; [done|by repeat constructor]).
    cbn [apply_events fold_right]. fold (apply_events (r1 ++ [e1]) st). rewrite Eid.
    split.
    { destruct (decide (line ∈ l.*2)) as [|Hn]; [done|]. apply first_line_iff in Hn. congruence. }
    split; [by apply stored_error|]. split; [|done]. cbn. by rewrite bool_decide_eq_true_2.
  - rewrite (proj2 (Z.leb_gt 0 (-1))) by lia. unfold storageBegin. rewrite run_notify. cbn [w_loc w_hist].
    destruct (keyNextId_spec st l (w_hist w) Hr Hc Hst ltac:(lia) Hpl
      (fun id => keyWrite (Z.of_nat (length l)) id line;; key_error [];; storageEnd;; keyAck)
      (World (w_loc w) (EvBegin :: r1 ++ e1 :: w_hist w))) as (r2 & Hr2 & E2);
      [exists (EvBegin :: r1 ++ [e1]); cbn; by rewrite <- app_assoc|done|].
    rewrite E2. cbn [w_loc w_hist].
    assert (plain (fresh_id l)) as Hid.
    { destruct (max_id_ge 0 l) as [H0 _]. unfold plain, fresh_id. intros Hin.
      destruct (fmt_d_digits (max_id 0 l + 1)) as (Hd & _); [lia|].
      unfold all_digits in Hd. rewrite list.Forall_forall in Hd. by specialize (Hd _ Hin). }
    rewrite run_keyWrite by done. unfold key_error, storageSet, storageEnd.
    rewrite !run_notify. rewrite keyAck_eq. cbn [w_loc w_hist].
    exists (EvSetInt done_key (s_ack (w_loc w) + 1) :: EvEnd :: EvSetStr error_key [] ::
      write_events (Z.of_nat (length l)) (fresh_id l) line ++ r2 ++ EvBegin :: r1 ++ [e1]), (acked (w_loc w)).
    split; [f_equal; f_equal; cbn; by rewrite <- !app_assoc; cbn; rewrite <- !app_assoc|].
    right; right. split; [done|]. split; [by apply first_line_iff|].
    exists (fresh_id l). split; [apply fresh_id_new|].
    set (evs1 := write_events _ _ _ ++ _).
    assert (apply_events evs1 st = apply_events (write_events (Z.of_nat (length l)) (fresh_id l) line) st) as Ea.
    { unfold evs1. rewrite apply_events_app. f_equal. apply apply_reads.
      apply Forall_app_2; [done|]. constructor; [done|]. apply Forall_app_2; [done|by repeat constructor]. }
    change (apply_events (EvSetInt ?a ?b :: EvEnd :: EvSetStr ?c [] :: evs1) st) with
      (apply_event (EvSetInt a b) (apply_event (EvSetStr c []) (apply_events evs1 st))).
    rewrite Ea. split; [|split; [|done]].
    + apply stored_ack, stored_error.
      pose proof (stored_write st l (length l) (fresh_id l) line Hst ltac:(lia) ltac:(lia)) as Hs.
      rewrite take_ge, drop_ge in Hs by lia. exact Hs.
    + cbn [apply_event]. rewrite bool_decide_eq_false_2 by done. by rewrite bool_decide_eq_true_2.
Qed.

(** Item [i + 1] of the committed list goes to position [i], for [k] positions. *)
Definition shifted (l : list item) (i k : nat) (m : list item) : list item :=
  take i m ++ take k (drop (S i) l) ++ drop (i + k) m.

Lemma shift_from_spec st l (w0 : world sshd) k (i : nat) w :
  commits st l (w_hist w0) -> ext (w_hist w0) w -> (i + k < length l)%nat ->
  exists evs, shift_from k (Z.of_nat i) w = (tt, World (w_loc w) (evs ++ w_hist w)) /\
    forall st' m, length m = length l -> stored st' m ->
      stored (apply_events evs st') (shifted l i k m).
Proof.
  intros (Hr & Hc & Hst & Hlen & Hpl & _). revert i w.
  induction k as [|k IH]; intros i w Hw Hi.
  - exists []. split; [by destruct w|]. intros st' m Hm Hs. unfold shifted.
    rewrite Nat.add_0_r, firstn_O, app_nil_l, take_drop. exact Hs.
  - cbn [shift_from]. destruct (lookup_lt_is_Some_2 l (S i)) as [a Ha]; [lia|].
    assert (plain a.1 /\ plain a.2) as [Hp1 Hp2] by apply (list.Forall_lookup_1 _ _ _ _ Hpl Ha).
    replace (Z.of_nat i + 1) with (Z.of_nat (S i)) by lia.
    rewrite (run_keyField st l (w_hist w0) Hr Hst ltac:(lia) (S i) a (str "id") a.1 _ w Hw Ha)
      by by left.
    set (e1 := EvGetStr (field_name (Z.of_nat (S i)) (str "id")) a.1).
    rewrite (run_keyField st l (w_hist w0) Hr Hst ltac:(lia) (S i) a (str "line") a.2 _
      (World (w_loc w) (e1 :: w_hist w))) by (by apply ext_add || done || by right).
    set (e2 := EvGetStr _ a.2). cbn [w_loc w_hist].
    rewrite run_keyWrite by done. cbn [w_loc w_hist].
    set (w1 := World (w_loc w) _).
    assert (ext (w_hist w0) w1) as Hw1.
    { destruct Hw as [evs E]. exists (write_events (Z.of_nat i) a.1 a.2 ++ e2 :: e1 :: evs).
      unfold w1. cbn. by rewrite E. }
    destruct (IH (S i) w1 Hw1 ltac:(lia)) as (evs & E & Hev). rewrite E.
    exists (evs ++ write_events (Z.of_nat i) a.1 a.2 ++ [e2; e1]). split.
    { f_equal. f_equal. unfold w1. cbn. by rewrite <- !app_assoc. }
    intros st' m Hm Hs. rewrite !apply_events_app.
    rewrite (apply_reads [e2; e1]) by by repeat constructor.
    apply (stored_write _ _ i a.1 a.2) in Hs; [|lia..].
    apply (Hev _ (take i m ++ (a.1, a.2) :: drop (S i) m)) in Hs.
    2:{ rewrite length_app. cbn [length]. rewrite length_take, length_drop. lia. }
    assert (shifted l (S i) k (take i m ++ (a.1, a.2) :: drop (S i) m) = shifted l i (S k) m) as <-; [|exact Hs].
    unfold shifted. rewrite (drop_S l a (S i) Ha). cbn [take].
    rewrite take_app, length_take, take_take.
    replace (S i - i `min` length m)%nat with 1%nat by lia.
    replace (S i `min` i)%nat with i by lia. cbn [take]. rewrite <- app_assoc. f_equal.
    cbn [app]. rewrite take_0. destruct a; cbn [fst snd]. f_equal. cbn [app]. f_equal.
    rewrite drop_app, length_take, drop_ge by (rewrite length_take; lia). cbn [app].
    replace (S i + k - i `min` length m)%nat with (S k) by lia. cbn [drop].
    rewrite drop_drop. f_equal. lia.
Qed.

(** Shifting everything behind [n] and dropping the last item deletes item [n]. *)
Lemma shifted_delete (l : list item) n :
  (n < length l)%nat ->
  take (length l - 1) (shifted l n (length l - 1 - n) l) = delete n l.
Proof.
  intros Hn. unfold shifted. rewrite delete_take_drop.
  rewrite take_app, length_take, (take_ge (take n l)) by (rewrite length_take; lia). f_equal.
  replace (n `min` length l)%nat with n by lia.
  rewrite (take_ge (drop (S n) l)) by (rewrite length_drop; lia).
  rewrite take_app_le by (rewrite length_drop; lia).
  apply take_ge. rewrite length_drop. lia.
Qed.

(** C35: Removing by id deletes exactly the first item with that id and moves the
    items behind it up, so that the array stays contiguous; the removal clears the
    error and acknowledges.  An unknown id changes nothing and is reported. *)
Theorem keyRemove_correct id st l w :
  commits st l (w_hist w) ->
  exists evs t', keyRemove id w = (tt, World t' (evs ++ w_hist w)) /\
    match first_from (field_is (str "id") id) 0 l with
    | Some n => stored (apply_events evs st) (delete n l) /\
                apply_events evs st error_key = Some [] /\ t' = acked (w_loc w)
    | None => (id ∉ l.*1) /\ stored (apply_events evs st) l /\
              apply_events evs st error_key = Some (str "No such key.") /\ t' = w_loc w
    end.
Proof.
  intros Hcm. pose proof Hcm as (Hr & Hc & Hst & Hlen & Hpl & Hmax).
  assert (ext (w_hist w) w) as Hw by by exists [].
  unfold keyRemove, keyIndexOfId. rewrite run_assoc, (run_keyCount l (w_hist w)) by done.
  rewrite Nat2Z.id. set (e1 := EvCount keys_prefix (Z.of_nat (length l))).
  destruct (index_from_spec st l (w_hist w) Hr Hst ltac:(lia) (length l) 0 (str "id") id
    (World (w_loc w) (e1 :: w_hist w))) as (r1 & Hr1 & E1); [by left|by apply ext_add|done|].
  change (Z.of_nat 0) with 0 in E1. erewrite run_bind by exact E1. clear E1. cbn [w_loc w_hist].
  rewrite drop_0.
  assert (ext (w_hist w) (World (w_loc w) (r1 ++ e1 :: w_hist w))) as Hw1
    by (exists (r1 ++ [e1]); cbn; by rewrite <- app_assoc).
  rewrite (run_keyCount l (w_hist w)) by done. fold e1. cbn [w_loc w_hist].
  assert (apply_events (e1 :: r1 ++ [e1]) st = st) as Eid.
  { apply apply_reads. constructor; [done|]. apply Forall_app_2; [done|by repeat constructor]. }
  destruct (first_from _ 0 l) as [n|] eqn:Ef.
  - apply first_from_Some in Ef as (_ & a & Ha & _). rewrite Nat.sub_0_r in Ha.
    apply lookup_lt_Some in Ha as Hn. rewrite (proj2 (Z.ltb_ge _ 0)) by lia.
    unfold storageBegin. rewrite run_notify. cbn [w_loc w_hist].
    replace (Z.to_nat (Z.of_nat (length l) - 1 - Z.of_nat n)) with (length l - 1 - n)%nat by lia.
    set (w2 := World (w_loc w) (EvBegin :: e1 :: r1 ++ e1 :: w_hist w)).
    destruct (shift_from_spec st l w (length l - 1 - n) n w2) as (evs & Es & Hev); [done| |lia|].
    { exists (EvBegin :: e1 :: r1 ++ [e1]). cbn. by rewrite <- app_assoc. }
    erewrite run_bind by exact Es. unfold storageUnset, key_error, storageSet, storageEnd.
    rewrite !run_notify, keyAck_eq. unfold w2. cbn [w_loc w_hist].
    exists (EvSetInt done_key (s_ack (w_loc w) + 1) :: EvEnd :: EvSetStr error_key [] ::
      EvUnset (item_name (Z.of_nat (length l) - 1)) :: evs ++ EvBegin :: e1 :: r1 ++ [e1]), (acked (w_loc w)).
    split; [f_equal; f_equal; cbn; by rewrite <- !app_assoc; cbn; rewrite <- !app_assoc|].
    specialize (Hev (apply_events (EvBegin :: e1 :: r1 ++ [e1]) st) l eq_refl).
    change (apply_events (EvBegin :: ?es) st) with (apply_events es st) in Hev.
    rewrite Eid in Hev. specialize (Hev Hst).
    set (evs1 := evs ++ _).
    assert (apply_events evs1 st = apply_events evs st) as Ea.
    { unfold evs1. rewrite apply_events_app. f_equal. exact Eid. }
    change (apply_events (EvSetInt ?a ?b :: EvEnd :: EvSetStr ?c [] :: EvUnset ?d :: evs1) st) with
      (apply_event (EvSetInt a b) (apply_event (EvSetStr c [])
        (apply_event (EvUnset d) (apply_events evs1 st)))).
    rewrite Ea. split; [|split; [|done]].
    + apply stored_ack, stored_error. rewrite <- shifted_delete by done.
      replace (Z.of_nat (length l) - 1) with (Z.of_nat (length l - 1)) by lia.
      apply stored_unset; [done| |lia]. unfold shifted.
      rewrite !length_app, !length_take, !length_drop. lia.
    + cbn [apply_event]. rewrite bool_decide_eq_false_2 by done. by rewrite bool_decide_eq_true_2.
  - rewrite (proj2 (Z.ltb_lt (-1) 0)) by lia.
    eexists (_ :: e1 :: r1 ++ [e1]), _. split; [cbn; rewrite <- app_assoc; reflexivity|].
    change (apply_events (?e :: e1 :: r1 ++ [e1]) st) with (apply_event e (apply_events (e1 :: r1 ++ [e1]) st)).
    rewrite Eid. split; [|split; [by apply stored_error|split; [|done]]].
    + intros (b & Hb & Hin)%list_elem_of_fmap. pose proof (first_from_None _ _ _ _ Ef Hin) as Hf.
      rewrite field_is_id in Hf. by apply bool_decide_eq_false in Hf.
    + cbn [apply_event]. by rewrite bool_decide_eq_true_2.
Qed.
End mutations.
