(* ===== verification/KeyLines.v ===== *)
(** * KeyLines: the text form of a public key, from one end to the other

    The line [opensshPubkeyLine] prints is a line [keyAdd] accepts, and the server
    finds the key in it again when a client offers that key: the three pieces of
    code that know the format agree. *)
From S2P Require Import Prelude Text Wire Platform Crypto Base64 Concrete Framing SessionState SessionKex SessionAuth SessionChannel SessionLoop Runs SessionFlow SshdTask SshdKeys KeysFacts.

(** ** Lines *)

Lemma find_from_shift c s i k : find_from c s (k + i) = Nat.add k <$> find_from c s i.
Proof.
  revert i. induction s as [|x s IH]; intros i; cbn; [done|].
  case_bool_decide; [done|]. by rewrite <- IH, Nat.add_succ_r.
Qed.

Lemma find_char_after c a s : find_char c (a ++ s) (length a) = Nat.add (length a) <$> find_char c s 0.
Proof.
  unfold find_char. rewrite drop_app_length, drop_0, <- find_from_shift. by rewrite Nat.add_0_r.
Qed.

(** The end of the body: the line ends there or a space follows. *)
Definition line_tail (tail : bytes) : Prop := tail = [] \/ exists c, tail = x20 :: c.

Lemma second_field_app a b tail :
  x20 ∉ b -> line_tail tail -> second_field (a ++ x20 :: b ++ tail) (length a) = b.
Proof.
  intros Hb Ht. unfold second_field.
  replace (a ++ x20 :: b ++ tail) with ((a ++ [x20]) ++ b ++ tail) by (by rewrite <- app_assoc).
  replace (length a + 1)%nat with (length (a ++ [x20])) by (by rewrite length_app).
  rewrite find_char_after. destruct Ht as [->|[c ->]].
  - rewrite app_nil_r. assert (find_char x20 b 0 = None) as -> by (by apply find_from_None).
    by rewrite drop_app_length.
  - rewrite find_char_app by done. cbn [fmap option_fmap option_map].
    unfold substr. rewrite drop_app_length. apply take_app_length'. rewrite length_app. cbn. lia.
Qed.

Lemma base64_char_plain c : is_base64 c = true -> isspace c = false /\ c <> x20 /\ c <> x00.
Proof. destruct c; vm_compute; by intros. Qed.

Lemma base64_no_space b : Forall (fun c => is_base64 c = true) b -> x20 ∉ b.
Proof.
  intros H Hin. rewrite list.Forall_forall in H. by destruct (base64_char_plain _ (H _ Hin)) as (_ & ? & _).
Qed.

(** ** The line of a key *)

Section lines.
Context `{MB : Mbedtls} `{BL : !Base64Laws}.

Lemma pubkey_blob_strings pub : length pub = 32%nat ->
  pubkey_blob pub = put_string (put_cstring [] (str "ssh-ed25519")) pub /\ blen (pubkey_blob pub) = 51.
Proof.
  intros H. unfold pubkey_blob. rewrite take_ge by lia. split.
  - unfold put_string, put_cstring. assert (blen pub = 32) as -> by (unfold blen; lia). done.
  - rewrite !blen_app. assert (blen pub = 32) as -> by (unfold blen; lia). done.
Qed.

(** The base64 form of the blob, and the line built from it. *)
Lemma opensshPubkeyLine_eq pub : length pub = 32%nat ->
  exists b, opensshPubkeyLine pub = str "ssh-ed25519" ++ x20 :: b /\
    Forall (fun c => is_base64 c = true) b /\ blen b = 68 /\
    mbedtls_base64_decode b 80 = Some (pubkey_blob pub).
Proof.
  intros H. destruct (pubkey_blob_strings pub H) as [_ Hlen].
  unfold opensshPubkeyLine, b64Encode.
  destruct (base64_fits (pubkey_blob pub) 120) as [b Hb]; [by rewrite Hlen|].
  destruct (base64_shape _ _ _ Hb) as [Hl Hs]. rewrite Hb. exists b.
  split_and!; [done|done|by rewrite Hl, Hlen|].
  eapply base64_round; [exact Hb|]. by rewrite Hlen.
Qed.

Lemma find_first_space b : find_char x20 (str "ssh-ed25519" ++ x20 :: b) 0 = Some 11%nat.
Proof. rewrite find_char_app; [done|]. by apply (bool_decide_eq_false_1 (x20 ∈ str "ssh-ed25519")). Qed.

Lemma keyRejection_line b tail :
  Forall (fun c => is_base64 c = true) b -> 64 <= blen b -> line_tail tail ->
  let line := str "ssh-ed25519" ++ x20 :: b ++ tail in
  trim line = line -> keyRejection line = [].
Proof.
  intros Hb Hl Ht line Htrim. unfold keyRejection. rewrite Htrim.
  rewrite bool_decide_eq_false_2 by done. unfold line. rewrite find_first_space.
  rewrite (take_app_length' (str "ssh-ed25519")) by done. rewrite bool_decide_eq_true_2 by done. cbn [negb].
  change 11%nat with (length (str "ssh-ed25519")).
  rewrite second_field_app by (by first [apply base64_no_space|idtac]).
  rewrite (proj2 (forallb_forall is_base64 b)).
  2:{ intros c Hc. rewrite list.Forall_forall in Hb. by apply Hb, list_elem_of_In. }
  cbn [negb]. by rewrite (proj2 (Z.ltb_ge _ _)).
Qed.

(** ** What a stored line says

    The line of a key: the name of the algorithm, a space, and in base64, up to the
    next space or the end, the SSH strings of that name and of the key's 32 octets.
    Whatever follows them in the blob, and in the line, is not looked at. *)
Definition key_blob (pub junk : bytes) : bytes :=
  be32_bytes 11 ++ str "ssh-ed25519" ++ be32_bytes 32 ++ pub ++ junk.
Definition names_key (line pub : bytes) : Prop :=
  length pub = 32%nat /\
  exists b tail junk, line = str "ssh-ed25519" ++ x20 :: b ++ tail /\ (x20 ∉ b) /\ line_tail tail /\
    mbedtls_base64_decode b 80 = Some (key_blob pub junk).

(** The field behind the space is what [second_field] cuts out. *)
Lemma second_field_split a s :
  exists tail, s = second_field (a ++ x20 :: s) (length a) ++ tail /\
    (x20 ∉ second_field (a ++ x20 :: s) (length a)) /\ line_tail tail.
Proof.
  destruct (decide (x20 ∈ s)) as [Hin|Hni].
  - apply (list_elem_of_split_l s x20) in Hin as (b & c & -> & Hb). exists (x20 :: c).
    assert (line_tail (x20 :: c)) as Ht by (right; by eexists).
    by rewrite (second_field_app a b (x20 :: c) Hb Ht).
  - exists []. pose proof (second_field_app a s [] Hni (or_introl eq_refl)) as E. rewrite app_nil_r in E.
    rewrite E, app_nil_r. split; [done|]. split; [done|by left].
Qed.

(** The two strings at the head of a blob. *)
Lemma blob_strings blob pub : blen blob < 2 ^ 32 ->
  (exists v1 v2, get_string (view_init blob) = (Some (str "ssh-ed25519"), v1) /\ get_string v1 = (Some pub, v2) /\
     length pub = 32%nat) <->
  length pub = 32%nat /\ exists junk, blob = key_blob pub junk.
Proof.
  intros Hl. split.
  - intros (v1 & v2 & E1 & E2 & Hp). split; [done|]. exists (vw_rest v2).
    pose proof (view_init_wf _ Hl) as W0. pose proof (get_string_wf _ W0) as W1. rewrite E1 in W1.
    apply get_string_range in E1 as (_ & _ & _ & R1); [|done]. apply get_string_range in E2 as (_ & _ & _ & R2); [|done].
    change (vw_rest (view_init blob)) with blob in R1. rewrite R1, R2.
    assert (blen pub = 32) as -> by (unfold blen; lia). reflexivity.
  - intros [Hp [junk ->]]. pose proof (view_init_at _ Hl) as H0. unfold key_blob in H0 at 2.
    change (be32_bytes 11) with (be32_bytes (blen (str "ssh-ed25519"))) in H0.
    assert (be32_bytes 32 = be32_bytes (blen pub)) as E by (f_equal; unfold blen; lia). rewrite E in H0.
    destruct (get_string_at _ _ _ H0) as (v1 & E1 & H1). destruct (get_string_at _ _ _ H1) as (v2 & E2 & _).
    by exists v1, v2.
Qed.

(** The code finds a key in a line exactly if the line is the line of that key. *)
Lemma line_candidate_iff line pub : line_candidate line = Some pub <-> names_key line pub.
Proof.
  unfold line_candidate, compare_eq, names_key. split.
  - case_bool_decide as Hpre; [|done]. cbn [negb].
    assert (exists s, line = str "ssh-ed25519" ++ x20 :: s) as [s ->].
    { exists (drop 12 line). rewrite <- (take_drop 12 line) at 1. change (take 12 line) with (substr line 0 12). by rewrite Hpre. }
    rewrite find_first_space. cbn [mbind option_bind].
    fold (second_field (str "ssh-ed25519" ++ x20 :: s) 11). destruct (second_field_split (str "ssh-ed25519") s) as (tail & Es & Hb & Ht).
    change (length (str "ssh-ed25519")) with 11%nat in *. revert Es Hb.
    generalize (second_field (str "ssh-ed25519" ++ x20 :: s) 11). intros b -> Hb.
    destruct (mbedtls_base64_decode b 80) as [blob|] eqn:Ed; [|done]. cbn [mbind option_bind].
    destruct (get_string (view_init blob)) as [[alg|] v1] eqn:E1; [|done]. cbn [mbind option_bind].
    case_bool_decide as Ha; [subst alg|done]. cbn [negb].
    destruct (get_string v1) as [[cand|] v2] eqn:E2; [|done]. cbn [mbind option_bind].
    destruct (Z.eqb_spec (blen cand) 32) as [Hc|]; [|done]. cbn [negb]. intros [= ->].
    assert (length pub = 32%nat) as Hp by (unfold blen in Hc; lia).
    pose proof (base64_room _ _ _ Ed) as Hr.
    destruct (proj1 (blob_strings blob pub ltac:(lia))) as [_ [junk ->]]; [by exists v1, v2|].
    split; [done|]. by exists b, tail, junk.
  - intros (Hp & b & tail & junk & -> & Hb & Ht & Hd).
    assert (substr (str "ssh-ed25519" ++ x20 :: b ++ tail) 0 12 = str "ssh-ed25519 ") as -> by done.
    rewrite bool_decide_eq_true_2 by done. cbn [negb]. rewrite find_first_space. cbn [mbind option_bind].
    pose proof (second_field_app (str "ssh-ed25519") b tail Hb Ht) as Hf.
    unfold second_field in Hf. change (length (str "ssh-ed25519")) with 11%nat in Hf. rewrite Hf, Hd.
    cbn [mbind option_bind]. pose proof (base64_room _ _ _ Hd) as Hr.
    destruct (proj2 (blob_strings (key_blob pub junk) pub ltac:(lia))) as (v1 & v2 & -> & E2 & _); [by eauto|].
    rewrite bool_decide_eq_true_2 by done. cbn [negb mbind option_bind]. rewrite E2.
    by rewrite (proj2 (Z.eqb_eq _ _)) by (unfold blen; lia).
Qed.

Lemma line_candidate_line pub b tail :
  length pub = 32%nat -> Forall (fun c => is_base64 c = true) b ->
  mbedtls_base64_decode b 80 = Some (pubkey_blob pub) -> line_tail tail ->
  line_candidate (str "ssh-ed25519" ++ x20 :: b ++ tail) = Some pub.
Proof.
  intros Hp Hb Hd Ht. apply line_candidate_iff. split; [done|]. exists b, tail, [].
  split; [done|]. split; [by apply base64_no_space|]. split; [done|]. rewrite Hd. f_equal.
  unfold pubkey_blob, key_blob. rewrite take_ge, app_nil_r by lia. reflexivity.
Qed.
End lines.

(** ** The server looks the key up *)

Section lookup.
Context `{PF : Platform} `{MB : Mbedtls} `{ED : Ed25519} `{KEM : MlKem} `{CL : Cli}.

(** One of the items has a line that offers the key. *)
Definition offers (l : list item) (pub : bytes) : bool :=
  existsb (fun a => bool_decide (line_candidate a.2 = Some (take 32 pub))) l.

Lemma authorized_loop_spec st l h0 pub k (i : nat) (w : world srv) :
  commits st l h0 -> (exists evs, w_hist w = evs ++ h0) -> (i + k)%nat = length l ->
  exists evs, Forall silent_read evs /\
    authorized_loop k (Z.of_nat i) pub w =
      (offers (drop i l) pub, World (w_loc w) (evs ++ w_hist w)).
Proof.
  intros (Hr & Hc & Hst & Hlen & _). revert i w. induction k as [|k IH]; intros i w [evs Ew] Hi.
  - exists []. split; [constructor|]. rewrite drop_ge by lia. by destruct w.
  - destruct (lookup_lt_is_Some_2 l i) as [a Ha]; [lia|].
    destruct (Hst i) as (_ & H2 & _); [lia|]. rewrite Ha in H2. cbn [fmap option_fmap option_map] in H2.
    cbn [authorized_loop]. unfold storageGetStr. rewrite run_call. cbv beta.
    change (authorized_key_name (Z.of_nat i)) with (field_name (Z.of_nat i) (str "line")).
    rewrite Ew, Hr, H2. cbn [from_option id]. rewrite (drop_S l a i Ha).
    cbn [offers existsb]. fold (offers (drop (S i) l) pub).
    replace (Z.of_nat i + 1) with (Z.of_nat (S i)) by lia.
    set (e := EvGetStr _ _). rewrite <- Ew.
    destruct (IH (S i) (World (w_loc w) (e :: w_hist w))) as (es & He & E);
      [exists (e :: evs); cbn; by rewrite Ew|lia|]. cbn [w_loc w_hist] in E.
    assert (exists es', Forall silent_read es' /\ es' ++ w_hist w = es ++ e :: w_hist w) as (es' & He' & Ee).
    { exists (es ++ [e]). split; [apply Forall_app_2; [done|by repeat constructor]|by rewrite <- app_assoc]. }
    destruct (line_candidate a.2) as [c|].
    + destruct (decide (c = take 32 pub)) as [->|Hne].
      * rewrite !bool_decide_eq_true_2 by done. exists [e]. split; [by repeat constructor|done].
      * rewrite !bool_decide_eq_false_2 by congruence. exists es'. by rewrite Ee, E.
    + rewrite bool_decide_eq_false_2 by done. exists es'. by rewrite Ee, E.
Qed.

Lemma authorized_walk st l pub (w : world srv) :
  commits st l (w_hist w) ->
  exists evs, Forall silent_read evs /\
    authorized_pub_matches pub w = (offers l pub, World (w_loc w) (evs ++ w_hist w)).
Proof.
  intros Hcm. pose proof Hcm as (_ & Hc & _). unfold authorized_pub_matches, storageArrayCount.
  rewrite run_call. cbv beta. change (str "s.sshd.authorized_keys.") with keys_prefix.
  specialize (Hc []). cbn [app] in Hc. rewrite Hc, Nat2Z.id. set (e := EvCount _ _).
  destruct (authorized_loop_spec st l (w_hist w) pub (length l) 0 (World (w_loc w) (e :: w_hist w)))
    as (evs & He & E); [done|by exists [e]|done|]. cbn [w_loc w_hist] in E.
  change (Z.of_nat 0) with 0 in E. rewrite E, drop_0. exists (evs ++ [e]). rewrite <- app_assoc.
  split; [apply Forall_app_2; [done|by repeat constructor]|done].
Qed.

Lemma offers_iff `{!Base64Laws} l pub : offers l pub = true <-> exists a, a ∈ l /\ names_key a.2 (take 32 pub).
Proof.
  unfold offers. rewrite existsb_exists. split; intros (a & Ha & Hk); exists a; split.
  - by apply list_elem_of_In.
  - by apply line_candidate_iff, (bool_decide_eq_true_1 _ Hk).
  - by apply list_elem_of_In.
  - by apply bool_decide_eq_true_2, line_candidate_iff.
Qed.

(** C36: The walk over the authorized keys answers true exactly if one of the stored
    lines is a line of the offered key: it starts with [ssh-ed25519] and a space, and
    the base64 up to the next space, or the end, is that of the SSH strings
    [ssh-ed25519] and the 32 octets of the key.  The walk does nothing but read. *)
Theorem authorized_pub_matches_correct `{!Base64Laws} st l pub (w : world srv) :
  commits st l (w_hist w) ->
  exists evs ok, Forall silent_read evs /\
    authorized_pub_matches pub w = (ok, World (w_loc w) (evs ++ w_hist w)) /\
    (ok = true <-> exists a, a ∈ l /\ names_key a.2 (take 32 pub)).
Proof.
  intros Hst. destruct (authorized_walk st l pub w Hst) as (evs & He & E). exists evs, (offers l pub).
  split; [done|]. split; [done|]. apply offers_iff.
Qed.

(** The line printed for a public key, with any comment behind it, is a line the
    key store accepts as it is, and a line in which the server finds that key. *)
Theorem opensshPubkeyLine_accepted `{!Base64Laws} pub tail :
  length pub = 32%nat -> line_tail tail ->
  keyNormalize (opensshPubkeyLine pub ++ tail) = opensshPubkeyLine pub ++ tail ->
  keyRejection (opensshPubkeyLine pub ++ tail) = [] /\
  line_candidate (opensshPubkeyLine pub ++ tail) = Some pub.
Proof.
  intros Hp Ht Hn. destruct (opensshPubkeyLine_eq pub Hp) as (b & E & Hb & Hl & Hd).
  unfold keyNormalize in Hn. rewrite E in *. rewrite <- app_assoc in *.
  split; [apply keyRejection_line; (done || lia)|by apply line_candidate_line].
Qed.
End lookup.

(** ** Examples *)

(** A committed tree with one key, and a platform that answers from it. *)
Definition demo_pub : bytes := replicate 32 x61.
Definition demo_line : bytes := opensshPubkeyLine demo_pub ++ str " me@home".
Definition demo_items : list item := [(str "7", demo_line)].
Definition demo_tree : tree := fun x =>
  if bool_decide (x = field_name 0 (str "id")) then Some (str "7")
  else if bool_decide (x = field_name 0 (str "line")) then Some demo_line
  else if bool_decide (x = field_name 0 (str "label")) then Some (keyLabel demo_line)
  else None.
Definition demo : Platform := scripted [] demo_tree 1 [].

Lemma demo_stored : stored demo_tree demo_items.
Proof.
  intros i Hi.
  assert (He : forall f g, is_field f -> is_field g ->
    bool_decide (field_name (Z.of_nat i) f = field_name 0 g) = bool_decide (i = 0%nat /\ f = g)).
  { intros f g Hf Hg. apply bool_decide_ext. split.
    - intros E. apply field_name_inj in E as [E ->]; [split; [lia|done]|unfold INT_MAX in *; lia..|done|done].
    - by intros [-> ->]. }
  unfold demo_tree. rewrite !He by field_cases. destruct i as [|i]; [by vm_compute|].
  rewrite !bool_decide_eq_false_2 by (by intros [? _]). done.
Qed.

Lemma demo_commits h : commits (PF := demo) demo_tree demo_items h.
Proof.
  split; [done|]. split; [done|]. split; [apply demo_stored|].
  split; [by vm_compute|]. split; [|by vm_compute].
  apply (bool_decide_eq_true_1 (Forall (fun a => (x00 ∉ a.1) /\ (x00 ∉ a.2)) demo_items)). by vm_compute.
Qed.

Definition demo_world : world sshd := World {| s_sessions := []; s_slotInUse := []; s_endpointRegistered := false; s_ack := 0 |} [].
Definition demo_srv : world srv := idle.

Lemma authorized_pub_matches_correct_witness :
  exists evs ok, Forall silent_read evs /\
    authorized_pub_matches (PF := demo) demo_pub demo_srv =
      (ok, World (w_loc demo_srv) (evs ++ w_hist demo_srv)) /\
    (ok = true <-> exists a, a ∈ demo_items /\ names_key a.2 (take 32 demo_pub)).
Proof.
  apply (authorized_pub_matches_correct (PF := demo) demo_tree demo_items demo_pub demo_srv).
  apply demo_commits.
Defined.

(** The stored line names its key, and another key is not found. *)
Example demo_line_names : offers demo_items demo_pub = true /\ offers demo_items (replicate 32 x62) = false.
Proof. by vm_compute. Qed.

Lemma opensshPubkeyLine_accepted_witness :
  keyRejection demo_line = [] /\ line_candidate demo_line = Some demo_pub.
Proof.
  apply (opensshPubkeyLine_accepted demo_pub (str " me@home")); [done|right; by eexists|by vm_compute].
Defined.

Lemma keyAdd_correct_witness :
  exists evs t', keyAdd (PF := demo) (demo_line ++ [x0a]) demo_world = (tt, World t' (evs ++ [])) /\
    apply_events evs demo_tree error_key = Some (str "That key is already authorized.").
Proof.
  destruct (keyAdd_correct (PF := demo) (demo_line ++ [x0a]) demo_tree demo_items demo_world)
    as (evs & t' & E & [(H & _)|[(_ & _ & _ & H & _)|(_ & H & _)]]).
  - apply demo_commits.
  - apply (bool_decide_eq_false_1 (x00 ∈ demo_line ++ [x0a])). by vm_compute.
  - exfalso. apply H. by vm_compute.
  - exists evs, t'. split; [exact E|exact H].
  - exfalso. apply H. apply (bool_decide_eq_true_1 (keyNormalize (demo_line ++ [x0a]) ∈ demo_items.*2)).
    by vm_compute.
Defined.

Lemma keyRemove_correct_witness :
  exists evs t', keyRemove (PF := demo) (str "7") demo_world = (tt, World t' (evs ++ [])) /\
    stored (apply_events evs demo_tree) [] /\
    apply_events evs demo_tree error_key = Some [] /\ t' = acked (w_loc demo_world).
Proof.
  apply (keyRemove_correct (PF := demo) (str "7") demo_tree demo_items demo_world), demo_commits.
Defined.
