(* ===== verification/ClientState.v ===== *)
(** * ClientState: the state and the packet layer of the outbound client

    [SshJob], [Csess], the message numbers, the packet functions and the receive
    loop of [ssh_client.cpp].  The packet format is the one of [Framing]; only the
    key directions differ from the server. *)
From S2P Require Import Prelude Text Wire Platform Crypto Framing.

Definition MSG_DISCONNECT : Z := 1.
Definition MSG_IGNORE : Z := 2.
Definition MSG_UNIMPLEMENTED : Z := 3.
Definition MSG_DEBUG : Z := 4.
Definition MSG_SERVICE_REQUEST : Z := 5.
Definition MSG_SERVICE_ACCEPT : Z := 6.
Definition MSG_KEXINIT : Z := 20.
Definition MSG_NEWKEYS : Z := 21.
Definition MSG_KEX_ECDH_INIT : Z := 30.
Definition MSG_KEX_ECDH_REPLY : Z := 31.
Definition MSG_USERAUTH_REQUEST : Z := 50.
Definition MSG_USERAUTH_FAILURE : Z := 51.
Definition MSG_USERAUTH_SUCCESS : Z := 52.
Definition MSG_USERAUTH_BANNER : Z := 53.
Definition MSG_USERAUTH_INFO_REQUEST : Z := 60.
Definition MSG_USERAUTH_INFO_RESPONSE : Z := 61.
Definition MSG_GLOBAL_REQUEST : Z := 80.
Definition MSG_REQUEST_SUCCESS : Z := 81.
Definition MSG_REQUEST_FAILURE : Z := 82.
Definition MSG_CHANNEL_OPEN : Z := 90.
Definition MSG_CHANNEL_OPEN_CONFIRM : Z := 91.
Definition MSG_CHANNEL_OPEN_FAILURE : Z := 92.
Definition MSG_CHANNEL_WINDOW_ADJUST : Z := 93.
Definition MSG_CHANNEL_DATA : Z := 94.
Definition MSG_CHANNEL_EXTENDED_DATA : Z := 95.
Definition MSG_CHANNEL_EOF : Z := 96.
Definition MSG_CHANNEL_CLOSE : Z := 97.
Definition MSG_CHANNEL_REQUEST : Z := 98.
Definition MSG_CHANNEL_SUCCESS : Z := 99.
Definition MSG_CHANNEL_FAILURE : Z := 100.

Definition OUR_VERSION_STR : bytes := str "SSH-2.0-spangap-ssh_0.1".
Definition LOCAL_CHANNEL_ID : Z := 0.
Definition LOCAL_WINDOW : Z := 1048576.
Definition LOCAL_MAXPACKET : Z := 32768.

(** [out] and [in] say whether the stream buffer exists.  [userClose] and [done],
    which the other task writes and reads, are calls of [Platform]. *)
Record SshJob := mkSshJob {
  j_host : bytes; j_port : Z; j_user : bytes;
  j_haveCmd : bool; j_command : bytes;
  j_havePassword : bool; j_password : bytes;
  j_tryPubkey : bool; j_seed : bytes;
  j_out : bool; j_in : bool;
  j_rc : Z; j_msg : bytes; j_haveExit : bool; j_exitStatus : Z
}.

Record Csess := mkCsess {
  c_handle : Z; c_rxBuf : bytes;
  c_ourVersion : bytes; c_peerVersion : bytes;
  c_ourKexInit : bytes; c_peerKexInit : bytes;
  c_ephPriv : bytes; c_ephPub : bytes; c_peerEphPub : bytes;
  c_sharedK : bytes; c_sessionId : bytes;
  c_sendKey : bytes; c_recvKey : bytes;
  c_encOut : bool; c_encIn : bool; c_seqOut : Z; c_seqIn : Z;
  c_peerChannel : Z; c_peerWindow : Z; c_peerMaxPacket : Z; c_localWindow : Z
}.

(** [Csess cs;] *)
Definition new_Csess : Csess :=
  let zeros n := replicate n x00 in
  {| c_handle := -1; c_rxBuf := []; c_ourVersion := []; c_peerVersion := [];
     c_ourKexInit := []; c_peerKexInit := [];
     c_ephPriv := zeros 32%nat; c_ephPub := zeros 32%nat; c_peerEphPub := zeros 32%nat;
     c_sharedK := zeros 32%nat; c_sessionId := zeros 32%nat;
     c_sendKey := zeros 64%nat; c_recvKey := zeros 64%nat;
     c_encOut := false; c_encIn := false; c_seqOut := 0; c_seqIn := 0;
     c_peerChannel := 0; c_peerWindow := 0; c_peerMaxPacket := 0; c_localWindow := 0 |}.

(** What the worker runs on: the session, its job and the static list of the methods
    a server offered last. *)
Record client := mkClient { cs : Csess; job : SshJob; s_offeredMethods : bytes }.

Definition getC : M (world client) Csess := gets (fun w => cs (w_loc w)).
Definition getJ : M (world client) SshJob := gets (fun w => job (w_loc w)).
Definition updC (f : Csess -> Csess) : M (world client) unit :=
  updl (fun l => {| l with cs := f (cs l) |}).
Definition updJ (f : SshJob -> SshJob) : M (world client) unit :=
  updl (fun l => {| l with job := f (job l) |}).

(** ** Loops without a bound

    A function with a loop whose length is up to the network answers [None] where
    the count for a loop runs out; everything after it then answers [None] too. *)
Abbreviation F A := (M (world client) (option A)).

Notation "x ←! m ; k" := (m ≫= fun r => match r with Some x => k | None => mret None end)
  (at level 20, m at level 100, k at level 200, right associativity).
Notation "' p ←! m ; k" := (m ≫= fun r => match r with Some p => k | None => mret None end)
  (at level 20, p pattern, m at level 100, k at level 200, right associativity).

Definition fin {W A} (a : A) : M W (option A) := mret (Some a).

(** A 32-bit difference of ticks, read as a signed number. *)
Definition s32 (z : Z) : Z := let u := u32 z in if u <? 2 ^ 31 then u else u - 2 ^ 32.

Section client.
Context `{PF : Platform} `{MB : Mbedtls}.

(** ** Output *)

(** [k] bounds the calls: each that does not end the loop takes an octet. *)
Fixpoint out_write_loop (k : nat) (data : bytes) : M (world client) unit :=
  match k with
  | O => mret tt
  | S k =>
      if bool_decide (data = []) then mret tt else
      w ← xStreamBufferSend data;
      if w =? 0 then mret tt else out_write_loop k (drop (Z.to_nat w) data)
  end.
Definition out_write (data : bytes) : M (world client) unit :=
  j ← getJ;
  if negb (j_out j) || bool_decide (data = []) then mret tt
  else out_write_loop (length data) data.

Definition is_crlf (b : byte) : bool := bool_decide (b = x0a) || bool_decide (b = x0d).

(** The formatted text, for texts that fit the buffer. *)
Definition diag (text : bytes) : M (world client) unit :=
  if blen text <=? 0 then mret tt
  else log LogDbg (drop_while_end is_crlf (snprintf 180 text)).

(** ** Packets *)

Definition send_raw (data : bytes) : M (world client) unit :=
  c ← getC;
  if c_handle c <? 0 then mret tt else
  itsSend (c_handle c) data 3000;; mret tt.

Definition send_packet (payload : bytes) : M (world client) unit :=
  c ← getC;
  let pad := pad_len (c_encOut c) (blen payload) in
  padBytes ← randomBytes (Z.to_nat pad);
  let framed := frame (c_encOut c) (c_sendKey c) (c_seqOut c) pad payload padBytes in
  send_raw framed;;
  updC (fun c => {| c with c_seqOut := u64 (c_seqOut c + 1) |}).

Definition fill_rx (timeoutMs : Z) : M (world client) Z :=
  c ← getC;
  got ← itsRecv (c_handle c) 1024 timeoutMs;
  when (negb (bool_decide (got = []))) (updC (fun c => {| c with c_rxBuf := c_rxBuf c ++ got |}));;
  mret (blen got).

Definition try_parse : M (world client) (Z * bytes) :=
  c ← getC;
  match parse (c_encIn c) (c_recvKey c) (c_seqIn c) (c_rxBuf c) with
  | PNeed => mret (0, [])
  | PErr => mret (-1, [])
  | PPkt payload rest =>
      updC (fun c => {| c with c_rxBuf := rest; c_seqIn := u64 (c_seqIn c + 1) |});;
      mret (1, payload)
  end.

Definition skipped (t : Z) : bool := (t =? MSG_IGNORE) || (t =? MSG_DEBUG).

(** One turn of the loop; the result is the code and the packet. *)
Definition recv_step (deadline : Z) (_ : unit) : M (world client) (unit + Z * bytes) :=
  '(r, out) ← try_parse;
  if r =? 1 then
    mret (match out with
          | [] => inr (-1, out)
          | t :: _ => if skipped (byte_to_Z t) then inl tt else inr (byte_to_Z t, out)
          end)
  else if r <? 0 then mret (inr (-1, out))
  else
  now ← xTaskGetTickCount;
  let remain := s32 (deadline - now) in
  if remain <=? 0 then mret (inr (0, out)) else
  let ms := u32 (remain * portTICK_PERIOD_MS) in
  got ← fill_rx (if 500 <? ms then 500 else ms);
  if negb (got =? 0) then mret (inl tt) else
  c ← getC;
  connected ← itsConnected (c_handle c);
  if (connected : bool) then mret (inl tt) else
  c ← getC;
  if blen (c_rxBuf c) <? 4 then mret (inr (-2, out)) else mret (inl tt).

Definition recv_packet (fuel : positive) (overallMs : Z) : F (Z * bytes) :=
  now ← xTaskGetTickCount;
  let deadline := u32 (now + pdMS_TO_TICKS overallMs) in
  r ← loop fuel (recv_step deadline) tt;
  mret (match r with inl _ => None | inr r => Some r end).

Definition fail (why : bytes) : M (world client) bool :=
  updJ (fun j => {| j with j_rc := 1; j_msg := safeStrncpy why 200 |});;
  mret false.
End client.

(** ** Running client programs one call at a time *)

Definition set_cs (g : Csess -> Csess) (w : world client) : world client :=
  World {| cs := g (cs (w_loc w)); job := job (w_loc w); s_offeredMethods := s_offeredMethods (w_loc w) |}
    (w_hist w).
Definition set_job (g : SshJob -> SshJob) (w : world client) : world client :=
  World {| cs := cs (w_loc w); job := g (job (w_loc w)); s_offeredMethods := s_offeredMethods (w_loc w) |}
    (w_hist w).

Lemma run_getC {B} (f : Csess -> M (world client) B) w : (getC ≫= f) w = f (cs (w_loc w)) w.
Proof. done. Qed.
Lemma run_getJ {B} (f : SshJob -> M (world client) B) w : (getJ ≫= f) w = f (job (w_loc w)) w.
Proof. done. Qed.
Lemma run_updC {B} g (f : unit -> M (world client) B) w : (updC g ≫= f) w = f tt (set_cs g w).
Proof. done. Qed.
Lemma run_updJ {B} g (f : unit -> M (world client) B) w : (updJ g ≫= f) w = f tt (set_job g w).
Proof. done. Qed.
