(* ===== verification/ClientKex.v ===== *)
(** * ClientKex: version exchange, key exchange and known hosts of the client *)
From S2P Require Import Prelude Text Wire Platform Crypto Framing ClientState.

Section kex.
Context `{PF : Platform} `{MB : Mbedtls} `{ED : Ed25519}.

(** ** Hashing *)

Definition hash_K (h : Sha256) (K : bytes) : Sha256 :=
  let k := strip_zeros K in
  let pad := msb_set k in
  let mpLen := u32 (blen k + (if pad then 1 else 0)) in
  let h := Sha256_update h (be32_bytes mpLen) in
  let h := if pad then Sha256_update h [x00] else h in
  Sha256_update h k.

Definition hash_string (h : Sha256) (d : bytes) : Sha256 :=
  let h := Sha256_update h (be32_bytes (blen d)) in
  if 0 <? blen d then Sha256_update h d else h.

Definition compute_exchange_hash (c : Csess) (kBlob : bytes) : bytes :=
  let h := Sha256_new in
  let h := hash_string h (c_ourVersion c) in
  let h := hash_string h (c_peerVersion c) in
  let h := hash_string h (c_ourKexInit c) in
  let h := hash_string h (c_peerKexInit c) in
  let h := hash_string h kBlob in
  let h := hash_string h (c_ephPub c) in
  let h := hash_string h (c_peerEphPub c) in
  let h := hash_K h (c_sharedK c) in
  Sha256_finish h.

(** One turn of the loop of [derive_key]; [out] is what was produced so far. *)
Definition derive_block (c : Csess) (letter : byte) (first : bool) (out : bytes) : bytes :=
  let h := Sha256_new in
  let h := hash_K h (c_sharedK c) in
  let h := Sha256_update h (c_sessionId c) in
  let h :=
    if first then Sha256_update (Sha256_update h [letter]) (c_sessionId c)
    else Sha256_update h out in
  Sha256_finish h.

Fixpoint derive_loop (fuel : nat) (c : Csess) (letter : byte) (first : bool)
    (out : bytes) (outLen : Z) : bytes :=
  match fuel with
  | O => out
  | S fuel =>
      if blen out <? outLen then
        let blk := derive_block c letter first out in
        let take_n := if 32 <? outLen - blen out then 32 else outLen - blen out in
        derive_loop fuel c letter false (out ++ take (Z.to_nat take_n) blk) outLen
      else out
  end.

(** Every turn adds an octet, so [outLen] turns are enough. *)
Definition derive_key (c : Csess) (letter : byte) (outLen : Z) : bytes :=
  derive_loop (Z.to_nat outLen) c letter true [] outLen.

(** ** KEXINIT *)

Definition put_kexinit (out : bytes) : M (world client) bytes :=
  let out := put_u8 out MSG_KEXINIT in
  cookie ← randomBytes 16;
  let out := out ++ cookie in
  let out := put_namelist out (str "curve25519-sha256,curve25519-sha256@libssh.org") in
  let out := put_namelist out (str "ssh-ed25519") in
  let out := put_namelist out (str "chacha20-poly1305@openssh.com") in
  let out := put_namelist out (str "chacha20-poly1305@openssh.com") in
  let out := put_namelist out [] in
  let out := put_namelist out [] in
  let out := put_namelist out (str "none") in
  let out := put_namelist out (str "none") in
  let out := put_namelist out [] in
  let out := put_namelist out [] in
  let out := put_u8 out 0 in
  mret (put_u32 out 0).

(** The inner loop: the index of the next comma, or the end. *)
Definition scan_comma (csv : bytes) (i : nat) : nat :=
  default (length csv) (find_char x2c csv i).

Fixpoint name_in_csv_loop (fuel : nat) (needle csv : bytes) (i : nat) : bool :=
  match fuel with
  | O => false
  | S fuel =>
      if (i <? length csv)%nat then
        let j := scan_comma csv i in
        if bool_decide ((j - i)%nat = length needle) && bool_decide (substr csv i (length needle) = needle)
        then true
        else name_in_csv_loop fuel needle csv (j + 1)
      else false
  end.

(** The index grows at every turn. *)
Definition name_in_csv (needle csv : bytes) : bool :=
  name_in_csv_loop (S (length csv)) needle csv 0.

(** [inl why] is [false]; [why] is [None] where the error text is not written. *)
Definition check_kexinit (payload : bytes) : option bytes + unit :=
  if blen payload <? 17 + 4 then inl None else
  let v := view_init (drop 17 payload) in
  let '(kex, v) := get_string v in
  match kex with None => inl None | Some kex =>
  let '(hk, v) := get_string v in
  match hk with None => inl None | Some hk =>
  let '(encCs, v) := get_string v in
  match encCs with None => inl None | Some encCs =>
  let '(encSc, v) := get_string v in
  match encSc with None => inl None | Some encSc =>
  if negb (name_in_csv (str "curve25519-sha256") kex) &&
     negb (name_in_csv (str "curve25519-sha256@libssh.org") kex) then
    inl (Some (str "server offers no curve25519-sha256 KEX"))
  else if negb (name_in_csv (str "ssh-ed25519") hk) then
    inl (Some (str "server has no ssh-ed25519 host key"))
  else if negb (name_in_csv (str "chacha20-poly1305@openssh.com") encCs) ||
          negb (name_in_csv (str "chacha20-poly1305@openssh.com") encSc) then
    inl (Some (str "server lacks chacha20-poly1305 cipher"))
  else inr tt
  end end end end.

(** ** Known hosts *)

Definition hostkey_fingerprint (kBlob : bytes) (outLen : Z) : bytes :=
  let fp := sha256 kBlob in
  if outLen <? 8 then [] else
  str "SHA256:" ++ base64_nopad fp (outLen - 7).

Definition known_host_name (i : Z) : bytes := snprintf 64 (str "s.ssh.known_hosts." ++ fmt_d i).

(** [k] entries are left, the next one is [i]; [None] where none is about [host]. *)
Fixpoint known_hosts_loop (k : nat) (i : Z) (host fp : bytes) :
    M (world client) (option (bool * bytes)) :=
  match k with
  | O => mret None
  | S k =>
      e ← storageGetStr (known_host_name i) [];
      match find_char x20 e 0 with
      | None => known_hosts_loop k (i + 1) host fp
      | Some sp =>
          if negb (compare_eq e 0 sp host) then known_hosts_loop k (i + 1) host fp
          else if bool_decide (drop (sp + 1) e = fp) then
            mret (Some (true, snprintf 200 (str "host key OK (" ++ fp ++ str ")")))
          else
            mret (Some (false, snprintf 200 (str "HOST KEY CHANGED for " ++ host ++ str "! got " ++ fp ++
              str " — refusing. Clear s.ssh.known_hosts." ++ fmt_d i ++ str " to override.")))
      end
  end.

(** Whether to go on, and the note. *)
Definition known_hosts_check (host fp : bytes) : M (world client) (bool * bytes) :=
  n ← storageArrayCount (str "s.ssh.known_hosts.");
  r ← known_hosts_loop (Z.to_nat n) 0 host fp;
  match r with
  | Some r => mret r
  | None =>
      storageSet (known_host_name n) (c_str (host ++ [x20] ++ fp));;
      mret (true, snprintf 200 (str "host key added to known_hosts (" ++ fp ++ str ")"))
  end.

(** ** Version exchange *)

(** [return fail(cs.job, ...)] *)
Definition failF (why : bytes) : F bool := r ← fail why; fin r.
Definition fail_step (why : bytes) : M (world client) (unit + bool) := r ← fail why; mret (inr r).

Definition version_step (deadline : Z) (_ : unit) : M (world client) (unit + bool) :=
  c ← getC;
  match find_char x0a (c_rxBuf c) 0 with
  | Some nl =>
      let lineLen :=
        if (0 <? nl)%nat && bool_decide (c_rxBuf c !! (nl - 1)%nat = Some x0d)
        then (nl - 1)%nat else nl in
      let l := take lineLen (c_rxBuf c) in
      updC (fun c => {| c with c_rxBuf := drop (nl + 1) (c_rxBuf c) |});;
      if compare_eq l 0 4 (str "SSH-") then
        if negb (compare_eq l 0 8 (str "SSH-2.0-")) && negb (compare_eq l 0 8 (str "SSH-1.99")) then
          fail_step (str "server is not SSH-2.0")
        else
          updC (fun c => {| c with c_peerVersion := l |});;
          mret (inr true)
      else mret (inl tt)
  | None =>
      now ← xTaskGetTickCount;
      if s32 (deadline - now) <=? 0 then fail_step (str "no SSH banner from server") else
      got ← fill_rx 1000;
      if negb (got =? 0) then mret (inl tt) else
      c ← getC;
      connected ← itsConnected (c_handle c);
      if (connected : bool) then mret (inl tt) else
      c ← getC;
      if bool_decide (c_rxBuf c = []) then fail_step (str "connection closed during banner")
      else mret (inl tt)
  end.

Definition do_version (fuel : positive) : F bool :=
  updC (fun c => {| c with c_ourVersion := OUR_VERSION_STR |});;
  c ← getC;
  send_raw (c_ourVersion c ++ [x0d; x0a]);;
  now ← xTaskGetTickCount;
  r ← loop fuel (version_step (u32 (now + pdMS_TO_TICKS 10000))) tt;
  mret (match r with inl _ => None | inr r => Some r end).

(** ** Key exchange *)

(** [ssh-string("ssh-ed25519") || ssh-string(body)], with the two ways to refuse it. *)
Definition ed25519_pair (blob : bytes) (len : Z) : bytes + bool :=
  let v := view_init blob in
  let '(alg, v) := get_string v in
  if negb (bool_decide (alg = Some (str "ssh-ed25519"))) then inr true else
  let '(body, v) := get_string v in
  match body with
  | Some body => if negb (blen body =? len) then inr false else inl body
  | None => inr false
  end.

(** From the parsed KEX_ECDH_REPLY to the verified host key. *)
Definition check_reply (ks sig : bytes) : F (option bytes) :=
  match ed25519_pair ks 32 with
  | inr true => fail (str "host key not ssh-ed25519");; fin None
  | inr false => fail (str "bad host pubkey");; fin None
  | inl hpub =>
  match ed25519_pair sig 64 with
  | inr true => fail (str "host sig not ssh-ed25519");; fin None
  | inr false => fail (str "bad host signature");; fin None
  | inl sig64 =>
  c ← getC;
  match x25519_scalar (c_ephPriv c) (c_peerEphPub c) with
  | None => fail (str "x25519 scalar failed");; fin None
  | Some k =>
  updC (fun c => {| c with c_sharedK := k |});;
  c ← getC;
  let H := compute_exchange_hash c ks in
  updC (fun c => {| c with c_sessionId := H |});;
  if negb (ed25519_verify hpub H sig64) then
    fail (str "HOST SIGNATURE VERIFY FAILED");; fin None
  else fin (Some hpub)
  end end end.

(** The host key is verified: ask the known hosts, switch the keys on. *)
Definition finish_kex (fuel : positive) (ks : bytes) : F bool :=
  let fp := hostkey_fingerprint ks 80 in
  j ← getJ;
  '(ok, note) ← known_hosts_check (j_host j) fp;
  if negb (ok : bool) then failF note else
  log LogInfo (str "ssh: " ++ note);;
  diag (str "* " ++ note ++ [x0d; x0a]);;
  send_packet (put_u8 [] MSG_NEWKEYS);;
  updC (fun c => {| c with c_sendKey := derive_key c x43 64 |});;
  updC (fun c => {| c with c_recvKey := derive_key c x44 64 |});;
  updC (fun c => {| c with c_encOut := true |});;
  '(t, _) ←! recv_packet fuel 15000;
  if t <? 0 then failF (str "no NEWKEYS from server") else
  if negb (t =? MSG_NEWKEYS) then failF (str "expected NEWKEYS") else
  updC (fun c => {| c with c_encIn := true |});;
  fin true.

(** KEX_ECDH_REPLY: [string(K_S) string(Q_S) string(sig)]. *)
Definition on_kex_reply (fuel : positive) (pkt : bytes) : F bool :=
  let v := view_init (drop 1 pkt) in
  let '(ks, v) := get_string v in
  match ks with None => failF (str "bad REPLY (K_S)") | Some ks =>
  let '(qs, v) := get_string v in
  match qs with None => failF (str "bad REPLY (Q_S)") | Some qs =>
  if negb (blen qs =? 32) then failF (str "bad REPLY (Q_S)") else
  let '(sig, v) := get_string v in
  match sig with None => failF (str "bad REPLY (sig)") | Some sig =>
  updC (fun c => {| c with c_peerEphPub := qs |});;
  hpub ←! check_reply ks sig;
  match hpub with
  | None => fin false
  | Some _ => finish_kex fuel ks
  end end end end.

Definition do_kex (fuel : positive) : F bool :=
  updC (fun c => {| c with c_ourKexInit := [] |});;
  c ← getC;
  p ← put_kexinit (c_ourKexInit c);
  updC (fun c => {| c with c_ourKexInit := p |});;
  c ← getC;
  send_packet (c_ourKexInit c);;
  '(t, pkt) ←! recv_packet fuel 15000;
  if t <? 0 then failF (str "no KEXINIT from server") else
  if negb (t =? MSG_KEXINIT) then failF (str "expected KEXINIT") else
  updC (fun c => {| c with c_peerKexInit := pkt |});;
  match check_kexinit pkt with
  | inl None => e ← indeterminate; failF e
  | inl (Some e) => failF (snprintf 120 e)
  | inr _ =>
  priv ← randomBytes 32;
  updC (fun c => {| c with c_ephPriv := priv |});;
  match x25519_base priv with
  | None => failF (str "x25519 base failed")
  | Some pub =>
  updC (fun c => {| c with c_ephPub := pub |});;
  c ← getC;
  send_packet (put_string (put_u8 [] MSG_KEX_ECDH_INIT) (c_ephPub c));;
  '(t, pkt) ←! recv_packet fuel 15000;
  if t <? 0 then failF (str "no KEX_ECDH_REPLY") else
  if negb (t =? MSG_KEX_ECDH_REPLY) then failF (str "expected KEX_ECDH_REPLY") else
  on_kex_reply fuel pkt
  end end.
End kex.
