(* ===== verification/ClientAuth.v ===== *)
(** * ClientAuth: user authentication of the client *)
From S2P Require Import Prelude Text Wire Platform Crypto Framing ClientState ClientKex.

Definition crlf : bytes := [x0d; x0a].

(** What an attempt came to: 1, 0 and -1 of the code. *)
Inductive verdict := Accepted | Refused | Lost.

#[export] Instance verdict_eq_dec : EqDecision verdict.
Proof. solve_decision. Defined.

Section auth.
Context `{PF : Platform} `{MB : Mbedtls} `{ED : Ed25519} (fuel : positive).

Definition auth_step (_ : unit) : M (world client) (unit + option (Z * bytes)) :=
  r ← recv_packet fuel 20000;
  mret (match r with
        | None => inr None
        | Some (t, pkt) => if t =? MSG_USERAUTH_BANNER then inl tt else inr (Some (t, pkt))
        end).

Definition auth_recv : F (Z * bytes) :=
  r ← loop fuel auth_step tt;
  mret (match r with inl _ => None | inr r => r end).

Definition note_failure_methods (pkt : bytes) : M (world client) unit :=
  updl (fun l => {| l with s_offeredMethods := [] |});;
  match (get_string (view_init (drop 1 pkt))).1 with
  | None => mret tt
  | Some m =>
      let n := if blen m <? 96 - 1 then blen m else 96 - 1 in
      updl (fun l => {| l with s_offeredMethods := c_str (take (Z.to_nat n) m) |})
  end.

Definition auth_simple_result : F verdict :=
  '(t, pkt) ←! auth_recv;
  if t <? 0 then fin Lost
  else if t =? MSG_USERAUTH_SUCCESS then fin Accepted
  else if t =? MSG_USERAUTH_FAILURE then note_failure_methods pkt;; fin Refused
  else fin Lost.

(** The head every userauth request has. *)
Definition userauth_head (user method : bytes) : bytes :=
  let p := put_u8 [] MSG_USERAUTH_REQUEST in
  let p := put_cstring p user in
  let p := put_cstring p (str "ssh-connection") in
  put_cstring p method.

Definition publickey_blob (pub : bytes) : bytes :=
  put_string (put_cstring [] (str "ssh-ed25519")) (take 32 pub).

(** [signed_] *)
Definition publickey_signed (sessionId user pkBlob : bytes) : bytes :=
  let t := put_string [] sessionId in
  let t := put_u8 t MSG_USERAUTH_REQUEST in
  let t := put_cstring t user in
  let t := put_cstring t (str "ssh-connection") in
  let t := put_cstring t (str "publickey") in
  let t := put_u8 t 1 in
  let t := put_cstring t (str "ssh-ed25519") in
  put_string t pkBlob.

Definition publickey_request (user pkBlob sg : bytes) : bytes :=
  let sigBlob := put_string (put_cstring [] (str "ssh-ed25519")) sg in
  let p := userauth_head user (str "publickey") in
  let p := put_u8 p 1 in
  let p := put_cstring p (str "ssh-ed25519") in
  let p := put_string p pkBlob in
  put_string p sigBlob.

Definition auth_publickey : F verdict :=
  j ← getJ;
  match ed25519_pub_from_seed (j_seed j) with
  | None => fin Lost
  | Some pub =>
      let pkBlob := publickey_blob pub in
      c ← getC;
      match ed25519_sign (j_seed j) (publickey_signed (c_sessionId c) (j_user j) pkBlob) with
      | None => fin Lost
      | Some sg =>
          send_packet (publickey_request (j_user j) pkBlob sg);;
          auth_simple_result
      end
  end.

Definition password_request (user password : bytes) : bytes :=
  let p := userauth_head user (str "password") in
  let p := put_u8 p 0 in
  put_string p password.

Definition auth_password : F verdict :=
  j ← getJ;
  send_packet (password_request (j_user j) (j_password j));;
  auth_simple_result.

Definition keyboard_request (user : bytes) : bytes :=
  let p := userauth_head user (str "keyboard-interactive") in
  let p := put_cstring p [] in
  put_cstring p [].

(** The prompts of an INFO_REQUEST: a text and an echo flag each. *)
Fixpoint skip_prompts (k : nat) (v : View) : bool :=
  match k with
  | O => true
  | S k =>
      let '(ok, v) := skip_string v in
      if negb ok then false else skip_prompts k (get_u8 v).2
  end.

(** The number of prompts and the place they begin. *)
Definition info_request_count (pkt : bytes) : option (Z * View) :=
  let v := view_init (drop 1 pkt) in
  let '(ok1, v) := skip_string v in
  if negb ok1 then None else
  let '(ok2, v) := skip_string v in
  if negb ok2 then None else
  let '(ok3, v) := skip_string v in
  if negb ok3 then None else
  let '(num, v) := get_u32 v in
  if vw_bad v || (32 <? num) then None else Some (num, v).

Definition info_response (num : Z) (password : bytes) : bytes :=
  let r := put_u32 (put_u8 [] MSG_USERAUTH_INFO_RESPONSE) num in
  Nat.iter (Z.to_nat num) (fun r => put_string r password) r.

Definition answer_prompts (pkt : bytes) : M (world client) bool :=
  j ← getJ;
  match info_request_count pkt with
  | None => mret false
  | Some (num, v) =>
      log LogInfo (str "ssh: kbd-interactive: " ++ fmt_d num ++ str " prompt(s)");;
      diag (str "*   info-request: " ++ fmt_d num ++ str " prompt(s)" ++ crlf);;
      if negb (skip_prompts (Z.to_nat num) v) then mret false else
      send_packet (info_response num (j_password j));;
      mret true
  end.

Definition keyboard_step (_ : unit) : M (world client) (unit + option verdict) :=
  r ← auth_recv;
  match r with
  | None => mret (inr None)
  | Some (t, pkt) =>
      if t <? 0 then mret (inr (Some Lost))
      else if t =? MSG_USERAUTH_SUCCESS then mret (inr (Some Accepted))
      else if t =? MSG_USERAUTH_FAILURE then note_failure_methods pkt;; mret (inr (Some Refused))
      else if t =? MSG_USERAUTH_INFO_REQUEST then
        ok ← answer_prompts pkt;
        mret (if (ok : bool) then inl tt else inr (Some Lost))
      else mret (inr (Some Lost))
  end.

Definition auth_keyboard_interactive : F verdict :=
  j ← getJ;
  send_packet (keyboard_request (j_user j));;
  r ← loop fuel keyboard_step tt;
  mret (match r with inl _ => None | inr r => r end).

(** ** The order of the methods *)

Definition yes_no (b : bool) : bytes := if b then str "yes" else str "no".

Definition getOffered : M (world client) bytes := gets (fun w => s_offeredMethods (w_loc w)).

(** One method; [k] is what follows where the server refuses it. *)
Definition attempt (name : bytes) (m : F verdict) (k : F bool) : F bool :=
  diag (str "* trying " ++ name ++ crlf);;
  r ←! m;
  match r with
  | Lost => failF (name ++ str " auth: connection lost")
  | Accepted =>
      log LogInfo (str "ssh: " ++ name ++ str " auth ok");;
      diag (str "* " ++ name ++ str " accepted" ++ crlf);;
      fin true
  | Refused =>
      offered ← getOffered;
      diag (str "* " ++ name ++ str " refused (server offers: " ++ offered ++ str ")" ++ crlf);;
      k
  end.

Definition auth_exhausted : F bool :=
  j ← getJ;
  offered ← getOffered;
  failF (if negb (j_havePassword j) && negb (j_tryPubkey j)
         then str "no auth method available (set s.ssh.password or run ssh-keygen)"
         else snprintf 200 (str "authentication failed (server offers: " ++
                (if bool_decide (offered = []) then str "?" else offered) ++ str ")")).

Definition auth_passwords : F bool :=
  j ← getJ;
  if negb (j_havePassword j) then auth_exhausted else
  attempt (str "keyboard-interactive") auth_keyboard_interactive
    (attempt (str "password") auth_password auth_exhausted).

Definition auth_methods : F bool :=
  j ← getJ;
  if negb (j_tryPubkey j) then auth_passwords else
  attempt (str "publickey") auth_publickey auth_passwords.

Definition do_auth : F bool :=
  send_packet (put_cstring (put_u8 [] MSG_SERVICE_REQUEST) (str "ssh-userauth"));;
  '(t, _) ←! recv_packet fuel 15000;
  if t <? 0 then failF (str "no SERVICE_ACCEPT") else
  if negb (t =? MSG_SERVICE_ACCEPT) then failF (str "service request rejected") else
  updl (fun l => {| l with s_offeredMethods := [] |});;
  j ← getJ;
  diag (str "* auth: methods available — publickey=" ++ yes_no (j_tryPubkey j) ++
        str " password=" ++ yes_no (j_havePassword j) ++ crlf);;
  send_packet (userauth_head (j_user j) (str "none"));;
  '(nt, np) ←! auth_recv;
  if nt =? MSG_USERAUTH_SUCCESS then
    diag (str "* authenticated (none)" ++ crlf);; fin true
  else if nt =? MSG_USERAUTH_FAILURE then
    note_failure_methods np;;
    offered ← getOffered;
    diag (str "* server offers: " ++ offered ++ crlf);;
    auth_methods
  else if nt <? 0 then failF (str "auth probe: connection lost")
  else auth_methods.
End auth.
