(* ===== verification/ClientChannel.v ===== *)
(** * ClientChannel: the session channel of the client and one whole session *)
From S2P Require Import Prelude Text Wire Platform Crypto Framing ClientState ClientKex ClientAuth.

Section channel.
Context `{PF : Platform} `{MB : Mbedtls} `{ED : Ed25519} (fuel : positive).

(** The part of a GLOBAL_REQUEST that gets an answer. *)
Definition answer_global_request (v : View) : M (world client) unit :=
  let '(ok, v) := skip_string v in
  if (ok : bool) then
    let '(wantReply, v) := get_u8 v in
    when (negb (wantReply =? 0)) (send_packet (put_u8 [] MSG_REQUEST_FAILURE))
  else mret tt.

Definition window_adjust (v : View) : M (world client) unit :=
  let '(_, v) := get_u32 v in
  let '(n, v) := get_u32 v in
  updC (fun c => {| c with c_peerWindow := u32 (c_peerWindow c + n) |}).

Definition channel_recv_step (ms : Z) (_ : unit) : M (world client) (unit + option (Z * bytes)) :=
  r ← recv_packet fuel ms;
  match r with
  | None => mret (inr None)
  | Some (t, pkt) =>
      if t =? MSG_GLOBAL_REQUEST then
        answer_global_request (view_init (drop 1 pkt));; mret (inl tt)
      else if t =? MSG_CHANNEL_WINDOW_ADJUST then
        window_adjust (view_init (drop 1 pkt));; mret (inl tt)
      else mret (inr (Some (t, pkt)))
  end.

Definition channel_recv (ms : Z) : F (Z * bytes) :=
  r ← loop fuel (channel_recv_step ms) tt;
  mret (match r with inl _ => None | inr r => r end).

Definition channel_packet (msg : Z) : M (world client) bytes :=
  c ← getC;
  mret (put_u32 (put_u8 [] msg) (c_peerChannel c)).

Definition pump_step (_ : unit) : M (world client) (unit + unit) :=
  ib ← xStreamBufferReceive 256;
  if bool_decide (ib = []) then mret (inr tt) else
  p ← channel_packet MSG_CHANNEL_DATA;
  send_packet (put_string p ib);;
  mret (inl tt).

Definition pump_input : F unit :=
  j ← getJ;
  if negb (j_in j) then fin tt else
  r ← loop fuel pump_step tt;
  mret (match r with inl _ => None | inr u => Some u end).

(** ** Opening *)

Definition open_channel : F bool :=
  let p := put_cstring (put_u8 [] MSG_CHANNEL_OPEN) (str "session") in
  let p := put_u32 (put_u32 (put_u32 p LOCAL_CHANNEL_ID) LOCAL_WINDOW) LOCAL_MAXPACKET in
  send_packet p;;
  '(t, pkt) ←! channel_recv 15000;
  if t <? 0 then failF (str "channel open: connection lost") else
  if t =? MSG_CHANNEL_OPEN_FAILURE then failF (str "server refused session channel") else
  if negb (t =? MSG_CHANNEL_OPEN_CONFIRM) then failF (str "expected channel confirm") else
  let v := view_init (drop 1 pkt) in
  let '(_, v) := get_u32 v in
  let '(peerChannel, v) := get_u32 v in
  let '(peerWindow, v) := get_u32 v in
  let '(peerMaxPacket, v) := get_u32 v in
  updC (fun c => {| c with c_peerChannel := peerChannel; c_peerWindow := peerWindow;
                           c_peerMaxPacket := peerMaxPacket; c_localWindow := LOCAL_WINDOW |});;
  fin true.

Definition request_pty : F bool :=
  p ← channel_packet MSG_CHANNEL_REQUEST;
  '(tcols, trows) ← cliTermSize;
  let p := put_cstring p (str "pty-req") in
  let p := put_u8 p 1 in
  let p := put_cstring p (str "xterm") in
  let p := put_u32 (put_u32 p (u32 tcols)) (u32 trows) in
  let p := put_u32 (put_u32 p 0) 0 in
  let p := put_string p [x00] in
  send_packet p;;
  '(t, _) ←! channel_recv 15000;
  if t <? 0 then failF (str "pty-req: connection lost") else
  if t =? MSG_CHANNEL_FAILURE then
    diag (str "pty-req declined; continuing without a tty");; fin true
  else if negb (t =? MSG_CHANNEL_SUCCESS) then failF (str "expected pty-req reply")
  else fin true.

Definition request_program : F bool :=
  j ← getJ;
  p ← channel_packet MSG_CHANNEL_REQUEST;
  send_packet (if j_haveCmd j then put_string (put_u8 (put_cstring p (str "exec")) 1) (j_command j)
               else put_u8 (put_cstring p (str "shell")) 1);;
  '(t, _) ←! channel_recv 15000;
  if t <? 0 then failF (str "channel request: connection lost") else
  if t =? MSG_CHANNEL_FAILURE then
    failF (if j_haveCmd j then str "exec refused" else str "shell refused")
  else if negb (t =? MSG_CHANNEL_SUCCESS) then
    failF (snprintf 64 (str "expected channel success (got msg " ++ fmt_d t ++ str ")"))
  else fin true.

(** ** The relay *)

Definition on_channel_data (v : View) : M (world client) unit :=
  let '(_, v) := get_u32 v in
  let '(d, v) := get_string v in
  match d with
  | None => mret tt
  | Some d =>
      out_write d;;
      updC (fun c => {| c with c_localWindow :=
        if blen d <? c_localWindow c then c_localWindow c - blen d else 0 |});;
      c ← getC;
      when (c_localWindow c <? LOCAL_WINDOW / 2)
        (let add := LOCAL_WINDOW - c_localWindow c in
         p ← channel_packet MSG_CHANNEL_WINDOW_ADJUST;
         send_packet (put_u32 p add);;
         updC (fun c => {| c with c_localWindow := u32 (c_localWindow c + add) |}))
  end.

Definition on_extended_data (v : View) : M (world client) unit :=
  let '(_, v) := get_u32 v in
  let '(_, v) := get_u32 v in
  let '(d, v) := get_string v in
  match d with None => mret tt | Some d => out_write d end.

Definition on_channel_request (v : View) : M (world client) unit :=
  let '(_, v) := get_u32 v in
  let '(type, v) := get_string v in
  match type with
  | None => mret tt
  | Some type =>
      let '(_, v) := get_u8 v in
      if bool_decide (type = str "exit-status") then
        let '(st, v) := get_u32 v in
        updJ (fun j => {| j with j_exitStatus := st; j_haveExit := true |})
      else mret tt
  end.

(** The result says whether the loop ends, and whether CLOSE was sent. *)
Definition on_packet (sentClose : bool) (t : Z) (pkt : bytes) : M (world client) (bool * bool) :=
  let v := view_init (drop 1 pkt) in
  if t =? MSG_CHANNEL_DATA then on_channel_data v;; mret (false, sentClose)
  else if t =? MSG_CHANNEL_EXTENDED_DATA then on_extended_data v;; mret (false, sentClose)
  else if t =? MSG_CHANNEL_WINDOW_ADJUST then window_adjust v;; mret (false, sentClose)
  else if t =? MSG_CHANNEL_REQUEST then on_channel_request v;; mret (false, sentClose)
  else if t =? MSG_CHANNEL_EOF then mret (false, sentClose)
  else if t =? MSG_CHANNEL_CLOSE then
    when (negb sentClose) (p ← channel_packet MSG_CHANNEL_CLOSE; send_packet p);;
    mret (true, true)
  else if t =? MSG_DISCONNECT then mret (true, sentClose)
  else if t =? MSG_GLOBAL_REQUEST then answer_global_request v;; mret (false, sentClose)
  else mret (false, sentClose).

Definition set_msg (text : bytes) : M (world client) unit :=
  updJ (fun j => {| j with j_msg := safeStrncpy text 200 |}).

(** What the loop does with one packet or the lack of it. *)
Definition relay_recv (interactive sentClose : bool) (idleMs : Z) :
    M (world client) (bool + option unit) :=
  r ← recv_packet fuel idleMs;
  match r with
  | None => mret (inr None)
  | Some (t, pkt) =>
      if t =? 0 then
        if interactive then mret (inl sentClose)
        else set_msg (str "(timed out waiting for output)");; mret (inr (Some tt))
      else if t =? -1 then set_msg (str "(protocol/decrypt error)");; mret (inr (Some tt))
      else if t =? -2 then mret (inr (Some tt))
      else
      '(closed, sentClose) ← on_packet sentClose t pkt;
      mret (if (closed : bool) then inr (Some tt) else inl sentClose)
  end.

Definition relay_step (interactive : bool) (idleMs : Z) (sentClose : bool) :
    M (world client) (bool + option unit) :=
  if negb interactive then relay_recv interactive sentClose idleMs else
  r ← pump_input;
  match r with
  | None => mret (inr None)
  | Some _ =>
      userClose ← readUserClose;
      if (userClose : bool) && negb sentClose then
        p ← channel_packet MSG_CHANNEL_EOF;
        send_packet p;;
        p ← channel_packet MSG_CHANNEL_CLOSE;
        send_packet p;;
        mret (inr (Some tt))
      else relay_recv interactive sentClose idleMs
  end.

Definition relay : F unit :=
  j ← getJ;
  let interactive := negb (j_haveCmd j) in
  let idleMs := if interactive then 60 else if j_haveCmd j then 30000 else 8000 in
  r ← loop fuel (relay_step interactive idleMs) false;
  mret (match r with inl _ => None | inr r => r end).

Definition do_channel : F bool :=
  ok ←! open_channel;
  if negb ok then fin false else
  j ← getJ;
  ok ←! (if negb (j_haveCmd j) then request_pty else fin true);
  if negb ok then fin false else
  ok ←! request_program;
  if negb ok then fin false else
  j ← getJ;
  when (j_haveCmd j) (p ← channel_packet MSG_CHANNEL_EOF; send_packet p);;
  _u ←! relay;
  updJ (fun j => {| j with j_rc := 0 |});;
  j ← getJ;
  when (bool_decide (j_msg j = []))
    (updJ (fun j => {| j with j_msg :=
       snprintf 200 (str "Connection to " ++ j_host j ++ str " closed.") |}));;
  fin true.

(** ** A session from the dial to the hang-up *)

(** [do_version(cs) && do_kex(cs) && do_auth(cs)], then [do_channel]. *)
Definition session_steps : F unit :=
  ok ←! do_version fuel;
  if negb ok then fin tt else
  ok ←! do_kex fuel;
  if negb ok then fin tt else
  ok ←! do_auth fuel;
  if negb ok then fin tt else
  _u ←! do_channel;
  fin tt.

Definition run_session : F unit :=
  updC (fun _ => new_Csess);;
  j ← getJ;
  let hp := snprintf 110 (j_host j ++ str ":" ++ fmt_d (j_port j)) in
  handle ← itsConnect (NetDial hp) 15000 0;
  updC (fun c => {| c with c_handle := handle |});;
  if handle <? 0 then
    fail (str "dial failed (host unreachable / DNS / net down)");; fin tt
  else
  _u ←! session_steps;
  c ← getC;
  itsDisconnect (c_handle c);;
  updC (fun c => {| c with c_handle := -1 |});;
  fin tt.

(** One turn of [worker_task], for the job it finds. *)
Definition worker_turn : F unit :=
  _u ←! run_session;
  setJobDone;;
  fin tt.
End channel.
