(* ===== verification/ClientCli.v ===== *)
(** * ClientCli: the [ssh], [ssh-keygen] and [ssh-showkey] commands *)
From S2P Require Import Prelude Text Wire Platform Crypto Framing ClientState SshdTask SshdKeys.

(** The statics the command uses: whether the worker, the semaphores exist, and the
    job slot. *)
Record sshcmd := mkSshcmd {
  k_worker : bool; k_startSem : bool; k_busyMtx : bool; k_job : option SshJob
}.

Abbreviation K A := (M (world sshcmd) A).

(** ** Arguments *)

Definition not_space (b : byte) : bool := negb (bool_decide (b = x20)).
Definition skipws (args : bytes) : bytes := drop_while (fun b => bool_decide (b = x20)) args.

(** The next token, and what is left behind it. *)
Definition token (args : bytes) : bytes * bytes :=
  let args := skipws args in
  let rest := drop_while not_space args in
  (take (length args - length rest) args, rest).

Definition u16 (z : Z) : Z := z mod 2 ^ 16.

(** Options, then the target: [inl opt] is an unknown option.  Every option takes at
    least its dash, so [length args] turns are enough. *)
Fixpoint parse_options (k : nat) (args : bytes) (port : Z) : bytes + Z * bytes * bytes :=
  let args := skipws args in
  match k, args with
  | S k, c :: _ =>
      if bool_decide (c = x2d) then
        let '(opt, args) := token args in
        if bool_decide (opt = str "-p") then
          let '(pv, args) := token args in
          parse_options k args (if bool_decide (pv = []) then port else u16 (atoi (c_str pv)))
        else inl opt
      else
        let '(target, args) := token args in
        inr (port, target, args)
  | _, _ => inr (port, [], args)
  end.

(** [user@host]; [None] where no user is given. *)
Definition split_target (target : bytes) : option bytes * bytes :=
  match find_char x40 target 0 with
  | Some at_ => (Some (take at_ target), drop (at_ + 1) target)
  | None => (None, target)
  end.

(** ** The disconnect escape *)

Definition kEsc : bytes := str "..!".

(** The two locals and [job.userClose]. *)
Record esc_state := EscState { atLineStart : bool; escMatch : nat; userClose : bool }.

(** [escMatch] octets of [kEsc] are withheld; what is forwarded is appended to [fwd].
    Reading stops where the escape is complete. *)
Definition is_newline (c : byte) : bool := bool_decide (c = x0d) || bool_decide (c = x0a).

(** The part of the body behind the withheld octets. *)
Definition esc_plain (st : esc_state) (fwd : bytes) (c : byte) : esc_state * bytes :=
  if atLineStart st && bool_decide (Some c = kEsc !! 0%nat) then
    ({| st with escMatch := 1%nat |}, fwd)
  else ({| st with atLineStart := is_newline c |}, fwd ++ [c]).

(** One character; [true] is [break]. *)
Definition esc_char (st : esc_state) (fwd : bytes) (c : byte) : esc_state * bytes * bool :=
  if (0 <? escMatch st)%nat then
    if bool_decide (Some c = kEsc !! escMatch st) then
      let n := S (escMatch st) in
      if (n =? length kEsc)%nat
      then ({| st with escMatch := n; userClose := true |}, fwd, true)
      else ({| st with escMatch := n |}, fwd, false)
    else
      let st' := {| st with atLineStart := false; escMatch := 0%nat |} in
      let r := esc_plain st' (fwd ++ take (escMatch st) kEsc) c in
      (r.1, r.2, false)
  else
    let r := esc_plain st fwd c in (r.1, r.2, false).

Fixpoint esc_filter (st : esc_state) (fwd : bytes) (ib : bytes) : esc_state * bytes :=
  match ib with
  | [] => (st, fwd)
  | c :: ib =>
      let '(st, fwd, stop) := esc_char st fwd c in
      if stop then (st, fwd) else esc_filter st fwd ib
  end.

Section cmd.
Context `{PF : Platform} `{MB : Mbedtls} `{ED : Ed25519} `{CL : Cli} (fuel : positive).

Definition print (l : bytes) : K unit := cliPrintf l.
Definition help (left text : bytes) : K unit :=
  print (left ++ replicate (CLI_HELP_COL - length left) x20 ++ [x20] ++ text ++ nl).

Definition openssh_pubkey_line (pub : bytes) : bytes :=
  let blob := put_string (put_cstring [] (str "ssh-ed25519")) (take 32 pub) in
  match mbedtls_base64_encode blob 120 with
  | None => []
  | Some b64 => str "ssh-ed25519 " ++ b64
  end.

Definition load_user_seed : K (option bytes) :=
  b64 ← storageGetStr (str "secrets.ssh.privkey") [];
  if bool_decide (b64 = []) then mret None else
  mret (let? seed := mbedtls_base64_decode b64 32 in
        if negb (blen seed =? 32) then None else Some seed).

(** ** The relay on the side of the command line *)

Definition write_got (got : bytes) : K unit :=
  when (negb (bool_decide (got = []))) (cliWrite got).

Definition drain_step (_ : unit) : K (unit + unit) :=
  got ← xStreamBufferReceive 512;
  if bool_decide (got = []) then mret (inr tt) else cliWrite got;; mret (inl tt).

Definition drain_out : K (option unit) :=
  r ← loop fuel drain_step tt;
  mret (match r with inl _ => None | inr u => Some u end).

(** A turn of the loop of a one-shot command. *)
Definition oneshot_step (_ : unit) : K (unit + option unit) :=
  got ← xStreamBufferReceive 512;
  write_got got;;
  done ← readJobDone;
  if (done : bool) then r ← drain_out; mret (inr r) else mret (inl tt).

(** [while (!job.done) { ... }] *)
Definition wait_step (_ : unit) : K (unit + unit) :=
  done ← readJobDone;
  if (done : bool) then mret (inr tt) else
  got ← xStreamBufferReceive 512;
  write_got got;;
  mret (inl tt).

Definition wait_done : K (option unit) :=
  r ← loop fuel wait_step tt;
  match r with inl _ => mret None | inr _ => drain_out end.

Definition interactive_step (st : esc_state) : K (esc_state + option unit) :=
  got ← xStreamBufferReceive 512;
  write_got got;;
  done ← readJobDone;
  if (done : bool) then r ← drain_out; mret (inr r) else
  r ← cliReadRaw 128 20;
  match r with
  | None => setUserClose;; mret (inl {| st with userClose := true |})
  | Some ib =>
      if bool_decide (ib = []) then mret (inl st) else
      let '(st', fwd) := esc_filter st [] ib in
      when (userClose st' && negb (userClose st)) setUserClose;;
      (if bool_decide (fwd = []) then mret tt else xStreamBufferSend fwd;; mret tt);;
      if userClose st' then r ← wait_done; mret (inr r) else mret (inl st')
  end.

Definition relay_cli (interactive : bool) : K (option unit) :=
  if negb interactive then
    r ← loop fuel oneshot_step tt;
    mret (match r with inl _ => None | inr r => r end)
  else
    print (str "Connected!  ('..!' on a new line disconnects)" ++ [x0d; x0a]);;
    r ← loop fuel interactive_step {| atLineStart := true; escMatch := 0%nat; userClose := false |};
    mret (match r with inl _ => None | inr r => r end).
(** ** ssh *)

Definition ssh_help : K unit :=
  help (str "ssh [user@]host [cmd]")
    (str "connect, auth, run <cmd> (or a login shell), stream output");;
  help (str "  -p <port>") (str "port override (default s.ssh.port / 22)");;
  print (str "auth: publickey from secrets.ssh.privkey (run ssh-keygen), else s.ssh.password" ++ nl).

(** The job before authentication material and streams are added. *)
Definition new_job (host : bytes) (port : Z) (user command : bytes) : SshJob :=
  {| j_host := host; j_port := port; j_user := user;
     j_haveCmd := negb (bool_decide (command = [])); j_command := command;
     j_havePassword := false; j_password := []; j_tryPubkey := false; j_seed := [];
     j_out := false; j_in := false; j_rc := 1; j_msg := []; j_haveExit := false; j_exitStatus := 0 |}.

Definition ssh_user (u : option bytes) : K bytes :=
  match u with
  | Some u => mret (safeStrncpy (c_str u) 64)
  | None =>
      du ← storageGetStr (str "s.ssh.user") (str "root");
      mret (safeStrncpy (c_str du) 64)
  end.

(** The job with key and password; [None] where the command ends. *)
Definition ssh_credentials (j : SshJob) : K (option SshJob) :=
  seed ← load_user_seed;
  let j := match seed with
           | Some s => {| j with j_seed := s; j_tryPubkey := true |}
           | None => j
           end in
  pw ← storageGetStr (str "s.ssh.password") [];
  let j := if bool_decide (pw = []) then j
           else {| j with j_password := pw; j_havePassword := true |} in
  if negb (j_havePassword j) && negb (j_tryPubkey j) then
    print (j_user j ++ str "@" ++ j_host j ++ str "'s password: ");;
    got ← cliReadLine 128;
    match got with
    | None => print (str "ssh: cancelled" ++ nl);; mret None
    | Some pw =>
        let j := {| j with j_password := pw; j_havePassword := negb (bool_decide (pw = [])) |} in
        if negb (j_havePassword j) then print (str "ssh: no password entered" ++ nl);; mret None
        else mret (Some j)
    end
  else mret (Some j).

Definition start_worker : K bool :=
  k ← getl;
  if k_worker k then mret true else
  ok ← spawnTask (str "ssh");
  updl (fun k => {| k with k_worker := ok |});;
  if negb ok then print (str "ssh: cannot start worker" ++ nl);; mret false else mret true.

Definition take_busy : K bool :=
  k ← getl;
  if negb (k_busyMtx k) then print (str "ssh: a session is already in progress" ++ nl);; mret false else
  ok ← xSemaphoreTake (str "s_busyMtx");
  if negb (ok : bool) then print (str "ssh: a session is already in progress" ++ nl);; mret false
  else mret true.

(** The two stream buffers; [None] where there is no memory. *)
Definition create_streams (j : SshJob) : K (option SshJob) :=
  let interactive := negb (j_haveCmd j) in
  out ← xStreamBufferCreate 4096;
  inn ← (if interactive && out then xStreamBufferCreate 2048 else mret false);
  if negb out || (interactive && negb inn) then
    print (str "ssh: out of memory" ++ nl);;
    when out vStreamBufferDelete;;
    when inn vStreamBufferDelete;;
    xSemaphoreGive (str "s_busyMtx");;
    mret None
  else mret (Some {| j with j_out := out; j_in := inn |}).

Definition report (rc : Z) (msg : bytes) (exit : option Z) : K unit :=
  when (negb (bool_decide (msg = []))) (print (nl ++ msg ++ nl));;
  match exit with
  | Some st =>
      when ((rc =? 0) && negb (st =? 0)) (print (str "ssh: remote exit status " ++ fmt_d st ++ nl))
  | None => mret tt
  end.

(** From the free worker to the last line. *)
Definition run_job (j : SshJob) : K (option unit) :=
  print (str "ssh: connecting to " ++ j_user j ++ str "@" ++ j_host j ++ str ":" ++
         fmt_d (j_port j) ++ str " ..." ++ nl);;
  updl (fun k => {| k with k_job := Some j |});;
  xSemaphoreGive (str "s_startSem");;
  _u ←! relay_cli (negb (j_haveCmd j));
  updl (fun k => {| k with k_job := None |});;
  vStreamBufferDelete;;
  when (j_in j) vStreamBufferDelete;;
  xSemaphoreGive (str "s_busyMtx");;
  '(rc, msg, exit) ← readJobResult;
  report rc msg exit;;
  fin tt.

Definition cmd_ssh (a : bytes) : K (option unit) :=
  if bool_decide (a = str "help") then
    help (str "ssh [user@]host [cmd]") (str "SSH to a host and run a command");; fin tt
  else if cliWantsHelp a then ssh_help;; fin tt
  else
  port ← storageGetInt (str "s.ssh.port") 22;
  match parse_options (length a) a (u16 port) with
  | inl opt => print (str "ssh: unknown option " ++ c_str opt ++ nl);; fin tt
  | inr (port, target, args) =>
      if bool_decide (target = []) then print (str "usage: ssh [user@]host [command]" ++ nl);; fin tt else
      let command := skipws args in
      let '(u, host) := split_target target in
      user ← ssh_user u;
      if bool_decide (host = []) then print (str "ssh: empty host" ++ nl);; fin tt else
      j ← ssh_credentials (new_job (safeStrncpy (c_str host) 96) port user command);
      match j with None => fin tt | Some j =>
      ok ← start_worker;
      if negb ok then fin tt else
      ok ← take_busy;
      if negb ok then fin tt else
      j ← create_streams j;
      match j with None => fin tt | Some j => run_job j end
      end
  end.

(** ** Keys *)

Definition cmd_ssh_keygen (a : bytes) : K unit :=
  if cliWantsHelp a then
    help (str "ssh-keygen") (str "generate a new Ed25519 user key (secrets.ssh.privkey + s.ssh.pubkey)")
  else
  seed ← randomBytes 32;
  match mbedtls_base64_encode seed 64 with
  | None => print (str "ssh-keygen: base64 failed" ++ nl)
  | Some b64 =>
  match ed25519_pub_from_seed seed with
  | None => print (str "ssh-keygen: keygen failed" ++ nl)
  | Some pub =>
      let line := openssh_pubkey_line pub in
      if bool_decide (line = []) then print (str "ssh-keygen: encode failed" ++ nl) else
      storageBegin;;
      storageSet (str "secrets.ssh.privkey") b64;;
      storageSet (str "s.ssh.pubkey") (c_str line);;
      storageEnd;;
      host ← storageGetStr (str "s.net.hostname") (str "spangap");
      print (str "new user key generated." ++ nl);;
      print (c_str line ++ [x20] ++ snprintf 48 (c_str host) ++ nl)
  end end.

Definition cmd_ssh_showkey (a : bytes) : K unit :=
  if cliWantsHelp a then
    help (str "ssh-showkey") (str "print the public user key (s.ssh.pubkey)")
  else
  line ← storageGetStr (str "s.ssh.pubkey") [];
  if bool_decide (line = []) then print (str "(no user key — run ssh-keygen)" ++ nl) else
  host ← storageGetStr (str "s.net.hostname") (str "spangap");
  print (c_str line ++ [x20] ++ snprintf 48 (c_str host) ++ nl).

Definition sshClientInit : K unit :=
  storageBegin;;
  storageDefault (str "s.ssh.port") (fmt_d 22);;
  storageDefault (str "s.ssh") (str "{" ++ [x22] ++ str "known_hosts" ++ [x22] ++ str ":[]}");;
  storageEnd;;
  registerService (str "ssh");;
  registerService (str "ssh-keygen");;
  registerService (str "ssh-showkey");;
  updl (fun k => {| k with k_startSem := true; k_busyMtx := true |}).
End cmd.
