(* ===== verification/ClientEscape.v ===== *)
(** * ClientEscape: what the disconnect escape eats and what it forwards

    The keystrokes of an interactive session are forwarded but for the sequence
    [..!] at the start of a line.  The filter withholds a started sequence until it
    knows; the theorem says that nothing else is ever lost, reordered or added, and
    that the answer does not depend on how the keystrokes were cut into reads. *)
From S2P Require Import Prelude Text Wire Platform Crypto Framing ClientState SshdTask SshdKeys ClientCli.

(** The start of a line: of the session, or behind a newline. *)
Definition ends_line (p : bytes) : Prop :=
  p = [] \/ exists q c, p = q ++ [c] /\ is_newline c = true.

Definition escape_at (total p rest : bytes) : Prop := total = p ++ kEsc ++ rest /\ ends_line p.

(** The reads of a session, up to the one that completes the escape. *)
Fixpoint relay_keys (st : esc_state) (chunks : list bytes) : bytes * esc_state :=
  match chunks with
  | [] => ([], st)
  | ib :: chunks =>
      let r := esc_filter st [] ib in
      if userClose r.1 then (r.2, r.1)
      else let r' := relay_keys r.1 chunks in (r.2 ++ r'.1, r'.2)
  end.

Definition esc_init : esc_state := {| atLineStart := true; escMatch := 0%nat; userClose := false |}.

Definition withheld (st : esc_state) : bytes := take (escMatch st) kEsc.

(** ** The invariant

    [total] was read, [fwd] forwarded. *)
Record esc_inv (total fwd : bytes) (st : esc_state) : Prop := {
  inv_open : userClose st = false;
  inv_match : (escMatch st < 3)%nat;
  inv_total : total = fwd ++ withheld st;
  inv_line : if (escMatch st =? 0)%nat then atLineStart st = true <-> ends_line total
             else ends_line fwd;
  inv_pending k q : (0 < k < 3)%nat -> ends_line q -> total = q ++ take k kEsc -> escMatch st = k;
  inv_none p rest : ~ escape_at total p rest
}.

Lemma ends_line_snoc q c : ends_line (q ++ [c]) <-> is_newline c = true.
Proof.
  split.
  - intros [E|(q' & c' & E & H)]; [by destruct q|]. apply app_inj_tail in E as [_ ->]. done.
  - intros H. right. by exists q, c.
Qed.

(** No line ends inside the escape. *)
Lemma not_ends_line_esc q k : (0 < k < 3)%nat -> ~ ends_line (q ++ take k kEsc).
Proof.
  intros Hk. destruct k as [|[|[|]]]; [lia|..|lia].
  - change (take 1 kEsc) with [x2e]. by rewrite ends_line_snoc.
  - change (take 2 kEsc) with ([x2e] ++ [x2e]). by rewrite app_assoc, ends_line_snoc.
Qed.

Lemma escape_snoc total c p rest :
  escape_at (total ++ [c]) p rest ->
  (exists rest', escape_at total p rest') \/ (ends_line p /\ total = p ++ take 2 kEsc /\ c = x21).
Proof.
  intros [E Hp]. destruct rest as [|r rest' _] using rev_ind.
  - right. change (kEsc ++ []) with (take 2 kEsc ++ [x21]) in E. rewrite app_assoc in E.
    apply app_inj_tail in E as [-> ->]. done.
  - left. exists rest'. rewrite !app_assoc in E. apply app_inj_tail in E as [-> _].
    split; [by rewrite <- app_assoc|done].
Qed.

Lemma take_snoc_esc q k total c :
  (0 < k < 3)%nat -> total ++ [c] = q ++ take k kEsc ->
  c = x2e /\ total = q ++ take (k - 1) kEsc.
Proof.
  intros Hk E. assert (take k kEsc = take (k - 1) kEsc ++ [x2e]) as Ek
    by (destruct k as [|[|[|]]]; (lia || done)).
  rewrite Ek, app_assoc in E. by apply app_inj_tail in E as [-> ->].
Qed.

(** An octet that is put through, behind what was withheld. *)
Lemma esc_put total fwd st c :
  esc_inv total fwd st -> (ends_line total -> c <> x2e) ->
  (escMatch st <> 0%nat -> Some c <> kEsc !! escMatch st) ->
  esc_inv (total ++ [c]) (fwd ++ withheld st ++ [c])
    {| atLineStart := is_newline c; escMatch := 0%nat; userClose := false |}.
Proof.
  intros [Ho Hm Ht Hl Hp Hn] Hc Hne. constructor; cbn; [done|lia| | | |].
  - by rewrite Ht, app_nil_r, <- app_assoc.
  - by rewrite ends_line_snoc.
  - intros k q Hk Hq E. apply take_snoc_esc in E as [-> Et]; [|done]. exfalso.
    destruct (decide (k = 1%nat)) as [->|].
    + cbn in Et. rewrite app_nil_r in Et. apply Hc; [by rewrite Et|done].
    + assert (escMatch st = (k - 1)%nat) as Hk' by (eapply Hp; [lia|exact Hq|exact Et]).
      assert (k = 2%nat) as -> by lia. cbn in Hk'. rewrite Hk' in Hne. by apply Hne.
  - intros p rest [(rest' & H)|(Hpl & Et & ->)]%escape_snoc; [by eapply Hn|].
    assert (escMatch st = 2%nat) as E2 by (eapply Hp; [lia|exact Hpl|exact Et]).
    rewrite E2 in Hne. by apply Hne.
Qed.

(** An octet that is withheld. *)
Lemma esc_hold total fwd st c n b :
  esc_inv total fwd st -> c = x2e -> n = S (escMatch st) -> (n < 3)%nat ->
  ends_line fwd ->
  esc_inv (total ++ [c]) fwd {| atLineStart := b; escMatch := n; userClose := false |}.
Proof.
  intros [Ho Hm Ht Hl Hp Hn] -> -> Hlt Hf.
  assert (withheld st ++ [x2e] = take (S (escMatch st)) kEsc) as Ew.
  { unfold withheld. destruct (escMatch st) as [|[|]]; (done || lia). }
  assert (total ++ [x2e] = fwd ++ take (S (escMatch st)) kEsc) as Et
    by (by rewrite Ht, <- app_assoc, Ew).
  constructor; cbn; [done|lia|exact Et|done| |].
  - intros k q Hk Hq E. apply take_snoc_esc in E as [_ E]; [|done].
    destruct (decide (k = 1%nat)) as [->|].
    + cbn in E. rewrite app_nil_r in E. subst q.
      destruct (escMatch st) as [|m] eqn:Em; [done|]. exfalso.
      apply (not_ends_line_esc fwd (S m)); [lia|]. unfold withheld in Ht. rewrite Em in Ht.
      by rewrite <- Ht.
    + assert (escMatch st = (k - 1)%nat) as -> by (eapply Hp; [lia|exact Hq|exact E]). lia.
  - intros p rest [(rest' & H)|(Hpl & _ & H)]%escape_snoc; [by eapply Hn|done].
Qed.

(** Where the invariant says a line begins. *)
Lemma esc_line total fwd st :
  esc_inv total fwd st ->
  (escMatch st = 0%nat -> (atLineStart st = true <-> ends_line total) /\ total = fwd) /\
  (escMatch st <> 0%nat -> ends_line fwd /\ ~ ends_line total).
Proof.
  intros [Ho Hm Ht Hl Hp Hn]. split; intros H.
  - rewrite H in Hl. cbn in Hl. split; [done|]. rewrite Ht. unfold withheld. rewrite H. apply app_nil_r.
  - rewrite (proj2 (Nat.eqb_neq _ _) H) in Hl. split; [done|]. rewrite Ht. unfold withheld.
    apply not_ends_line_esc. lia.
Qed.

Lemma newline_not_dot c : c = x2e -> is_newline c = false.
Proof. by intros ->. Qed.

Lemma esc_char_inv total fwd0 fwd st c :
  esc_inv total (fwd0 ++ fwd) st ->
  let r := esc_char st fwd c in
  if r.2 then userClose r.1.1 = true /\ r.1.2 = fwd /\ escape_at (total ++ [c]) (fwd0 ++ fwd) []
  else esc_inv (total ++ [c]) (fwd0 ++ r.1.2) r.1.1.
Proof.
  intros H. destruct (esc_line _ _ _ H) as [H0 H1]. pose proof (inv_match _ _ _ H) as Hm.
  pose proof (inv_total _ _ _ H) as Ht. pose proof (inv_open _ _ _ H) as Ho.
  unfold esc_char, esc_plain. destruct (Nat.ltb_spec 0 (escMatch st)) as [Hpos|Hz].
  - destruct H1 as [Hl Hnl]; [lia|]. case_bool_decide as Hc.
    + destruct (Nat.eqb_spec (S (escMatch st)) (length kEsc)) as [E|E]; cbn in E |- *.
      * assert (escMatch st = 2%nat) as E2 by lia. rewrite E2 in Hc. injection Hc as ->.
        split; [done|]. split; [done|]. split; [|done].
        rewrite Ht at 1. unfold withheld. rewrite E2. by rewrite <- app_assoc.
      * rewrite Ho. apply (esc_hold total (fwd0 ++ fwd) st); [done| |done|lia|done].
        assert (escMatch st = 1%nat) as E1 by lia. rewrite E1 in Hc. by injection Hc.
    + cbn [atLineStart andb fst snd]. rewrite Ho.
      rewrite <- !app_assoc, app_assoc. by apply esc_put.
  - assert (escMatch st = 0%nat) as E0 by lia. destruct (H0 E0) as [Hl Htot].
    destruct (atLineStart st) eqn:El; cbn [andb].
    + case_bool_decide as Hc; cbn [fst snd].
      * rewrite Ho. apply (esc_hold total (fwd0 ++ fwd) st); [done|by injection Hc|lia|lia|]. rewrite <- Htot. by apply Hl.
      * rewrite Ho, E0. rewrite app_assoc.
        assert (fwd0 ++ fwd = (fwd0 ++ fwd) ++ withheld st) as ->
          by (unfold withheld; rewrite E0; by rewrite app_nil_r).
        rewrite <- app_assoc. apply esc_put; [done|intros _ ->; by apply Hc|lia].
    + cbn [fst snd]. rewrite Ho, E0. rewrite app_assoc.
      assert (fwd0 ++ fwd = (fwd0 ++ fwd) ++ withheld st) as ->
        by (unfold withheld; rewrite E0; by rewrite app_nil_r).
      rewrite <- app_assoc. apply esc_put; [done|intros Hel; by apply Hl in Hel|lia].
Qed.

(** ** Whole reads *)

Lemma escape_prefix total more p rest :
  escape_at (total ++ more) p rest -> (length p + 3 <= length total)%nat ->
  exists rest', escape_at total p rest'.
Proof.
  intros [E Hp] Hl. exists (drop (length p + 3) total). split; [|done].
  rewrite app_assoc in E |- *.
  assert (take (length p + 3) total = p ++ kEsc) as <-; [|by rewrite take_drop].
  rewrite <- (take_app_le total more) by lia. rewrite E. apply take_app_length'.
  rewrite length_app. cbn. lia.
Qed.

(** The first escape is the one that is found. *)
Lemma escape_first total fwd st c more p rest :
  esc_inv total fwd st -> escape_at (total ++ [c]) fwd [] ->
  escape_at (total ++ c :: more) p rest -> (length fwd <= length p)%nat.
Proof.
  intros H [E _] Hp. destruct (decide (length fwd <= length p)%nat) as [|Hlt]; [done|exfalso].
  assert (length total = (length fwd + 2)%nat) as Hl.
  { apply (f_equal length) in E. rewrite !length_app in E. cbn in E. lia. }
  destruct (escape_prefix total (c :: more) p rest Hp) as [rest' H']; [lia|].
  by eapply (inv_none _ _ _ H).
Qed.

(** What is known once the reading of [all] has come to an end. *)
Definition esc_done (all fwd : bytes) (st : esc_state) : Prop :=
  (exists rest, escape_at all fwd rest) /\
  forall p rest, escape_at all p rest -> (length fwd <= length p)%nat.

Lemma esc_filter_inv total fwd0 fwd st ib more :
  esc_inv total (fwd0 ++ fwd) st ->
  let r := esc_filter st fwd ib in
  if userClose r.1 then esc_done (total ++ ib ++ more) (fwd0 ++ r.2) r.1
  else esc_inv (total ++ ib) (fwd0 ++ r.2) r.1.
Proof.
  revert total fwd st. induction ib as [|c ib IH]; intros total fwd st H; cbn [esc_filter].
  - cbn. rewrite (inv_open _ _ _ H), app_nil_r. done.
  - pose proof (esc_char_inv total fwd0 fwd st c H) as Hc.
    destruct (esc_char st fwd c) as [[st1 fwd1] [|]]; cbn in Hc |- *.
    + destruct Hc as (Hu & -> & He). rewrite Hu. split.
      * exists (ib ++ more). destruct He as [E Hl]. split; [|done].
        change (c :: ib ++ more) with ([c] ++ ib ++ more).
        rewrite app_assoc, E, app_nil_r. by rewrite <- app_assoc.
      * intros p rest Hp. by eapply escape_first.
    + specialize (IH _ _ _ Hc). cbn in IH. rewrite <- !app_assoc in IH. exact IH.
Qed.

Lemma relay_keys_inv total fwd0 st chunks :
  esc_inv total fwd0 st ->
  let r := relay_keys st chunks in
  if userClose r.2 then esc_done (total ++ concat chunks) (fwd0 ++ r.1) r.2
  else esc_inv (total ++ concat chunks) (fwd0 ++ r.1) r.2.
Proof.
  revert total fwd0 st. induction chunks as [|ib chunks IH]; intros total fwd0 st H; cbn.
  - by rewrite (inv_open _ _ _ H), !app_nil_r.
  - pose proof (esc_filter_inv total fwd0 [] st ib (concat chunks)) as Hf. cbn in Hf.
    rewrite app_nil_r in Hf. specialize (Hf H). destruct (esc_filter st [] ib) as [st1 fwd1]. cbn in *.
    destruct (userClose st1) eqn:Eu; cbn; [by rewrite Eu|].
    specialize (IH _ _ _ Hf). cbn in IH. rewrite <- !app_assoc in IH. exact IH.
Qed.

Lemma esc_init_inv : esc_inv [] [] esc_init.
Proof.
  constructor; cbn; [done|lia|done|by split; [left|]| |].
  - intros k q Hk _ E. destruct k as [|[|[|]]]; (lia || by destruct q).
  - intros p rest [E _]. by destruct p.
Qed.

(** C33: Of everything typed in an interactive session, nothing but the sequence
    [..!] at the start of a line is ever kept from the remote side, however the
    keystrokes are cut into reads.  Without such a sequence what was forwarded,
    together with the at most two octets still withheld, is what was typed, and the
    session goes on.  With one, the octets in front of the first are forwarded
    unchanged and the session is asked to end. *)
Theorem relay_keys_correct chunks :
  match relay_keys esc_init chunks with
  | (fwd, st) =>
      if userClose st then
        (exists rest, escape_at (concat chunks) fwd rest) /\
        forall p rest, escape_at (concat chunks) p rest -> (length fwd <= length p)%nat
      else
        fwd ++ withheld st = concat chunks /\ (length (withheld st) < 3)%nat /\
        forall p rest, ~ escape_at (concat chunks) p rest
  end.
Proof.
  pose proof (relay_keys_inv [] [] esc_init chunks esc_init_inv) as H. cbn in H.
  destruct (relay_keys esc_init chunks) as [fwd st]. cbn in H.
  destruct (userClose st); [exact H|]. split; [symmetry; apply H|].
  split; [|apply H]. unfold withheld. rewrite length_take.
  pose proof (inv_match _ _ _ H). lia.
Qed.

Example keys_plain :
  (relay_keys esc_init [str "ls"; [x0d]; str ".."; str "/bin"; [x0d]; str "."]).1 =
  str "ls" ++ [x0d] ++ str "../bin" ++ [x0d].
Proof. by vm_compute. Qed.
Example keys_escape :
  relay_keys esc_init [str "ls" ++ [x0d] ++ str "."; str ".!more"] =
  (str "ls" ++ [x0d], {| atLineStart := true; escMatch := 3%nat; userClose := true |}).
Proof. by vm_compute. Qed.
