(* ===== verification/ClientHosts.v ===== *)
(** * ClientHosts: known hosts are trusted on first use and pinned afterwards *)
From S2P Require Import Prelude Text Wire Platform Crypto Base64 Concrete Framing SshdTask SshdKeys KeysFacts ClientState ClientKex.

(** An entry: the host, a space, the fingerprint. *)
Definition entry_of (e : bytes) : option (bytes * bytes) :=
  match find_char x20 e 0 with
  | Some sp => Some (take sp e, drop (sp + 1) e)
  | None => None
  end.

(** The fingerprint of the first entry about the host. *)
Fixpoint pinned (host : bytes) (l : list bytes) : option bytes :=
  match l with
  | [] => None
  | e :: l =>
      match entry_of e with
      | Some (h, fp) => if bool_decide (h = host) then Some fp else pinned host l
      | None => pinned host l
      end
  end.

(** The committed tree [st] holds the entries [l]. *)
Definition known (st : tree) (l : list bytes) : Prop :=
  forall i : nat, Z.of_nat i <= INT_MAX -> st (known_host_name (Z.of_nat i)) = l !! i.

Definition hosts_key : bytes := str "s.ssh.known_hosts.".

(** The platform answers from that tree from the history [h0] on. *)
Definition hosts_commit `{PF : Platform} (st : tree) (l : list bytes) (h0 : history) : Prop :=
  (forall evs key d, p_get_str (evs ++ h0) key d = default d (st key)) /\
  (forall evs, p_array_count (evs ++ h0) hosts_key = Z.of_nat (length l)) /\
  known st l /\ Z.of_nat (length l) < INT_MAX.

Lemma known_host_name_eq i : 0 <= i <= INT_MAX -> known_host_name i = hosts_key ++ fmt_d i.
Proof.
  intros Hi. unfold known_host_name, snprintf. apply take_ge.
  pose proof (fmt_d_length i Hi). rewrite length_app. cbn. lia.
Qed.

Lemma known_host_name_inj i j :
  0 <= i <= INT_MAX -> 0 <= j <= INT_MAX -> known_host_name i = known_host_name j -> i = j.
Proof.
  intros Hi Hj. rewrite !known_host_name_eq by done. intros E%app_inv_head.
  apply fmt_d_inj; [lia..|done].
Qed.

Lemma entry_of_app host fp : x20 ∉ host -> entry_of (host ++ [x20] ++ fp) = Some (host, fp).
Proof.
  intros H. unfold entry_of. change ([x20] ++ fp) with (x20 :: fp). rewrite find_char_app by done.
  rewrite take_app_length. replace (host ++ x20 :: fp) with ((host ++ [x20]) ++ fp) by (by rewrite <- app_assoc).
  rewrite drop_app_length' by (rewrite length_app; cbn; lia). done.
Qed.

Lemma pinned_new host fp l :
  x20 ∉ host -> pinned host l = None -> pinned host (l ++ [host ++ [x20] ++ fp]) = Some fp.
Proof.
  intros Hh. induction l as [|e l IH]; intros H; cbn [pinned app] in *.
  - pose proof (entry_of_app host fp Hh) as E. cbn [app] in E. rewrite E. by rewrite bool_decide_eq_true_2.
  - destruct (entry_of e) as [[h f]|]; [|by apply IH]. case_bool_decide; [done|by apply IH].
Qed.

Lemma known_append st l e :
  known st l -> Z.of_nat (length l) <= INT_MAX ->
  known (apply_event (EvSetStr (known_host_name (Z.of_nat (length l))) e) st) (l ++ [e]).
Proof.
  intros Hk Hl i Hi. cbn [apply_event]. case_bool_decide as E.
  - apply known_host_name_inj in E; [|lia..]. assert (i = length l) as -> by lia.
    by rewrite lookup_app_r, Nat.sub_diag by lia.
  - rewrite Hk by done. destruct (decide (i < length l)%nat).
    + by rewrite lookup_app_l.
    + rewrite lookup_app_r by lia. rewrite (lookup_ge_None_2 l) by lia.
      destruct (i - length l)%nat eqn:Ei; [|by destruct n0].
      exfalso. apply E. f_equal. lia.
Qed.

Section hosts.
Context `{PF : Platform} `{MB : Mbedtls} `{ED : Ed25519}.

Lemma known_hosts_loop_spec st l h0 host fp k (i : nat) (w : world client) :
  hosts_commit st l h0 -> (exists evs, w_hist w = evs ++ h0) -> (i + k)%nat = length l ->
  exists evs, Forall silent_read evs /\
    match pinned host (drop i l) with
    | Some f => exists note, known_hosts_loop k (Z.of_nat i) host fp w =
        (Some (bool_decide (f = fp), note), World (w_loc w) (evs ++ w_hist w))
    | None => known_hosts_loop k (Z.of_nat i) host fp w =
        (None, World (w_loc w) (evs ++ w_hist w))
    end.
Proof.
  intros (Hr & Hc & Hst & Hlen). revert i w. induction k as [|k IH]; intros i w [evs Ew] Hi.
  - exists []. split; [constructor|]. rewrite drop_ge by lia. by destruct w.
  - destruct (lookup_lt_is_Some_2 l i) as [e He]; [lia|].
    assert (st (known_host_name (Z.of_nat i)) = Some e) as Hs by (rewrite Hst by lia; exact He).
    cbn [known_hosts_loop]. unfold storageGetStr. rewrite run_call. cbv beta.
    rewrite Ew, Hr, Hs. cbn [from_option id]. rewrite (drop_S l e i He). cbn [pinned].
    replace (Z.of_nat i + 1) with (Z.of_nat (S i)) by lia. set (ev := EvGetStr _ _). rewrite <- Ew.
    destruct (IH (S i) (World (w_loc w) (ev :: w_hist w))) as (es & He1 & E1);
      [exists (ev :: evs); cbn; by rewrite Ew|lia|]. cbn [w_loc w_hist] in E1.
    assert (exists es', Forall silent_read es' /\ es' ++ w_hist w = es ++ ev :: w_hist w) as (es' & He' & Ee).
    { exists (es ++ [ev]). split; [apply Forall_app_2; [done|by repeat constructor]|by rewrite <- app_assoc]. }
    unfold entry_of. destruct (find_char x20 e 0) as [sp|].
    + unfold compare_eq, substr. rewrite drop_0.
      case_bool_decide; cbn [negb].
      * exists [ev]. split; [by repeat constructor|]. case_bool_decide; by eexists.
      * exists es'. split; [done|]. rewrite Ee. exact E1.
    + exists es'. split; [done|]. rewrite Ee. exact E1.
Qed.

(** C34: The check of a host key against the known hosts: a host that is known is
    accepted exactly with the fingerprint stored first for it, and the store is not
    touched; an unknown host is accepted, and from then on its fingerprint is the
    one of this first contact. *)
Theorem known_hosts_check_correct st l host fp (w : world client) :
  hosts_commit st l (w_hist w) -> x20 ∉ host -> plain host -> plain fp ->
  exists evs ok note,
    known_hosts_check host fp w = ((ok, note), World (w_loc w) (evs ++ w_hist w)) /\
    match pinned host l with
    | Some f => ok = bool_decide (f = fp) /\ apply_events evs st = st
    | None => ok = true /\ exists l', known (apply_events evs st) l' /\
        l' = l ++ [host ++ [x20] ++ fp] /\ pinned host l' = Some fp
    end.
Proof.
  intros Hcm Hh Hp Hf. pose proof Hcm as (_ & Hc & Hst & Hlen).
  unfold known_hosts_check, storageArrayCount. rewrite run_call. cbv beta.
  change (str "s.ssh.known_hosts.") with hosts_key. specialize (Hc []). cbn [app] in Hc.
  rewrite Hc, Nat2Z.id. set (e := EvCount _ _).
  destruct (known_hosts_loop_spec st l (w_hist w) host fp (length l) 0 (World (w_loc w) (e :: w_hist w)))
    as (evs & He & E); [done|by exists [e]|done|]. cbn [w_loc w_hist] in E.
  change (Z.of_nat 0) with 0 in E. rewrite drop_0 in E.
  assert (Forall silent_read (evs ++ [e])) as Hall by (apply Forall_app_2; [done|by repeat constructor]).
  destruct (pinned host l) as [f|] eqn:Epin.
  - destruct E as [note E]. erewrite run_bind by exact E.
    exists (evs ++ [e]), (bool_decide (f = fp)), note. rewrite <- app_assoc. split; [done|].
    split; [done|by apply apply_reads].
  - erewrite run_bind by exact E. unfold storageSet. rewrite run_notify. cbn [w_loc w_hist].
    rewrite (plain_c_str (host ++ [x20] ++ fp)).
    2:{ apply plain_app; [done|]. apply plain_app; [|done].
        by apply (bool_decide_eq_false_1 (x00 ∈ [x20])). }
    eexists (_ :: evs ++ [e]), true, _. split; [cbn; rewrite <- app_assoc; reflexivity|].
    split; [done|]. exists (l ++ [host ++ [x20] ++ fp]). split; [|split; [done|by apply pinned_new]].
    change (apply_events (?a :: ?b) st) with (apply_event a (apply_events b st)).
    rewrite (apply_reads (evs ++ [e])) by done. apply known_append; [done|lia].
Qed.
End hosts.

(** ** Example *)

Definition demo_host : bytes := str "router.lan".
Definition demo_hosts : list bytes := [demo_host ++ [x20] ++ str "SHA256:abc"].
Definition hosts_tree : tree := fun x =>
  if bool_decide (x = known_host_name 0) then Some (demo_host ++ [x20] ++ str "SHA256:abc") else None.
Definition hosts_platform : Platform := scripted [] hosts_tree 1 [].
Definition blank_job : SshJob := mkSshJob demo_host 22 (str "root") true (str "uptime") true (str "pw") false [] true false 1 [] false 0.
Definition blank_client : world client := World (mkClient new_Csess blank_job []) [].

Lemma demo_hosts_commit h : hosts_commit (PF := hosts_platform) hosts_tree demo_hosts h.
Proof.
  split; [done|]. split; [done|]. split; [|by vm_compute].
  intros i Hi. unfold hosts_tree. case_bool_decide as E.
  - apply known_host_name_inj in E; [|unfold INT_MAX in *; lia..]. by assert (i = 0%nat) as -> by lia.
  - destruct i as [|[|i]]; [by destruct E|done..].
Qed.

Lemma known_hosts_check_correct_witness :
  exists evs note, known_hosts_check (PF := hosts_platform) demo_host (str "SHA256:other") blank_client =
    ((false, note), World (w_loc blank_client) (evs ++ [])) /\ apply_events evs hosts_tree = hosts_tree.
Proof.
  destruct (known_hosts_check_correct (PF := hosts_platform) hosts_tree demo_hosts demo_host
    (str "SHA256:other") blank_client) as (evs & ok & note & E & H).
  - apply demo_hosts_commit.
  - apply (bool_decide_eq_false_1 (x20 ∈ demo_host)). by vm_compute.
  - apply (bool_decide_eq_false_1 (x00 ∈ demo_host)). by vm_compute.
  - apply (bool_decide_eq_false_1 (x00 ∈ str "SHA256:other")). by vm_compute.
  - assert (pinned demo_host demo_hosts = Some (str "SHA256:abc")) as Ep by by vm_compute.
    rewrite Ep in H. destruct H as [-> H]. exists evs, note. split; [exact E|exact H].
Defined.
