(* ===== verification/ClientRuns.v ===== *)
(** * ClientRuns: the client against the server, on concrete octets

    What the server of [Runs] answers to the client's side of a key exchange is fed
    to the client: both ends finish the exchange with the same keys. *)
From S2P Require Import Prelude Wire Platform Crypto Base64 Concrete Framing SessionState SessionKex SessionAuth SessionChannel SessionLoop Runs ClientState ClientKex ClientAuth ClientChannel.

Definition client_job : SshJob := mkSshJob (str "box") 22 (str "admin") true (str "uptime") true (str "secret")
  false [] true false 1 [] false 0.
Definition dialled : world client :=
  World (mkClient {| new_Csess with c_handle := 5 |} client_job []) [].

(** The client's octets up to NEWKEYS; its random octets are those of [scripted]. *)
Definition client_eph : bytes := replicate 32 x07.
Definition client_pub : bytes := default [] (x25519_base client_eph).
Definition client_kexinit : bytes := (put_kexinit (PF := scripted [] peer_store 0 []) [] dialled).1.
Definition client_hello : bytes :=
  ClientState.OUR_VERSION_STR ++ [x0d; x0a] ++ plain_packet client_kexinit ++
  plain_packet (put_string (put_u8 [] MSG_KEX_ECDH_INIT) client_pub) ++
  plain_packet (put_u8 [] MSG_NEWKEYS).

(** Everything a history sent, oldest first. *)
Definition sent (h : history) : bytes :=
  concat (reverse (omap (fun e => match e with EvSend _ d _ _ => Some d | _ => None end) h)).

Definition server_end : world srv := run_data [client_hello; []] (run_open [client_hello; []]).
Definition server_hello : bytes := Eval vm_compute in sent (w_hist server_end).

(** No known host yet. *)
Definition no_hosts (key : bytes) : option bytes := None.
Definition PFc : Platform := scripted [server_hello] no_hosts 0 [].
Definition fuel9 : positive := 9.

Definition versions : option bool * world client := do_version (PF := PFc) fuel9 dialled.
Definition keyed : option bool * world client := do_kex (PF := PFc) fuel9 versions.2.

(** Names of runs are unfolded before the functions they run. *)
Strategy expand [versions keyed].

Example both_ends_agree :
  versions.1 = Some true /\ keyed.1 = Some true /\
  c_sendKey (cs (w_loc keyed.2)) = s_c2sKey (ses (w_loc server_end)) /\
  c_recvKey (cs (w_loc keyed.2)) = s_s2cKey (ses (w_loc server_end)) /\
  c_sessionId (cs (w_loc keyed.2)) = s_sessionId (ses (w_loc server_end)) /\
  c_rxBuf (cs (w_loc keyed.2)) = [].
Proof. vm_compute. repeat split. Qed.
