(* ===== verification/ClientTrust.v ===== *)
(** * ClientTrust: what the client knows before it trusts a connection

    The key exchange ends well only with a verified host signature and a host key
    the known-hosts store accepts; everything sent after it is sealed; nothing sent
    before it depends on the credentials. *)
From S2P Require Import Prelude Text Wire Platform Crypto Concrete Framing ClientState ClientKex ClientAuth ClientChannel ClientRuns.

(** ** Relations between worlds *)

(** A part of the local state is the same, and the history only grew. *)
Definition same {L T} (f : L -> T) (w w' : world L) : Prop :=
  f (w_loc w') = f (w_loc w) /\ hist_grows w w'.

#[export] Instance same_preorder {L T} (f : L -> T) : PreOrder (same f).
Proof.
  split; [by intros w; split|]. intros w1 w2 w3 [H1 G1] [H2 G2]. unfold same in *.
  split; [congruence|by transitivity w2].
Qed.

Lemma call_same {L T R} (f : L -> T) (answer : history -> R) ev : keeps (same f) (call answer ev).
Proof. intros w. split; [done|apply call_hist_grows]. Qed.
Lemma updl_same {L T} (f : L -> T) (g : L -> L) : (forall l, f (g l) = f l) -> keeps (same f) (updl g).
Proof. intros H w. split; [apply H|apply updl_hist_grows]. Qed.

#[export] Hint Resolve call_same : keeps.

Ltac unfold_client_calls :=
  unfold getC, getJ, updC, updJ, itsSend, itsRecv, itsConnected, itsConnect, itsDisconnect, log, notify,
    randomBytes, xTaskGetTickCount, storageGetStr, storageSet, storageArrayCount, xStreamBufferSend,
    xStreamBufferReceive, cliTermSize, readUserClose, indeterminate, getOffered, fin in *;
  unfold notify in *.

(** What a key exchange hashes, the hash and the host it is for. *)
Definition transcript (c : Csess) : list bytes :=
  [c_ourVersion c; c_peerVersion c; c_ourKexInit c; c_peerKexInit c; c_ephPriv c; c_ephPub c;
   c_peerEphPub c; c_sharedK c; c_sessionId c].

Lemma exchange_hash_transcript `{Mbedtls} c c' kBlob :
  transcript c' = transcript c -> compute_exchange_hash c' kBlob = compute_exchange_hash c kBlob.
Proof.
  intros [= E1 E2 E3 E4 E5 E6 E7 E8 E9]. unfold compute_exchange_hash.
  by rewrite E1, E2, E3, E4, E6, E7, E8.
Qed.

Lemma derive_block_transcript `{Mbedtls} c c' l f out :
  transcript c' = transcript c -> derive_block c' l f out = derive_block c l f out.
Proof. intros [= _ _ _ _ _ _ _ E8 E9]. unfold derive_block. by rewrite E8, E9. Qed.

Lemma derive_key_transcript `{Mbedtls} c c' l n :
  transcript c' = transcript c -> derive_key c' l n = derive_key c l n.
Proof.
  intros E. unfold derive_key. generalize (Z.to_nat n) as k, true as f, (@nil byte) as out.
  induction k as [|k IH]; intros f out; cbn; [done|].
  rewrite (derive_block_transcript _ _ _ _ _ E), IH. done.
Qed.

Section trust.
Context `{PF : Platform} `{MB : Mbedtls} `{ED : Ed25519} (fuel : positive).

(** The parts of the state the receive loop and the packet functions leave alone. *)
Definition kept (l : client) : list bytes * bytes * (bytes * bool * bytes * Z) :=
  (transcript (cs l), j_host (job l), (c_sendKey (cs l), c_encOut (cs l), c_recvKey (cs l), c_handle (cs l))).

Lemma kept_inv l l' :
  kept l' = kept l ->
  transcript (cs l') = transcript (cs l) /\ j_host (job l') = j_host (job l) /\
  c_sendKey (cs l') = c_sendKey (cs l) /\ c_encOut (cs l') = c_encOut (cs l) /\
  c_recvKey (cs l') = c_recvKey (cs l).
Proof.
  unfold kept. generalize (transcript (cs l')), (transcript (cs l)). by intros t' t [= -> -> -> -> -> _].
Qed.

Ltac solve_kept := unfold_client_calls; solve_keeps; apply updl_same; by intros [].

Lemma kept_send_packet p : keeps (same kept) (send_packet p).
Proof. unfold send_packet, send_raw. solve_kept. Qed.
Lemma kept_diag t : keeps (same kept) (diag t).
Proof. unfold diag. solve_kept. Qed.
Lemma kept_recv_step d u : keeps (same kept) (recv_step d u).
Proof. unfold recv_step, try_parse, fill_rx. solve_kept. Qed.
Lemma kept_recv_packet ms : keeps (same kept) (recv_packet fuel ms).
Proof.
  unfold recv_packet. unfold_client_calls. solve_keeps. apply kept_recv_step.
Qed.
Lemma kept_known_hosts k i host fp : keeps (same kept) (known_hosts_loop k i host fp).
Proof.
  revert i. induction k as [|k IH]; intros i; cbn [known_hosts_loop]; unfold_client_calls; solve_keeps; apply IH.
Qed.
Lemma kept_known_hosts_check host fp : keeps (same kept) (known_hosts_check host fp).
Proof. unfold known_hosts_check. unfold_client_calls. solve_keeps. apply kept_known_hosts. Qed.

(** The steps of a run, named one by one. *)
Ltac step H a w E := apply bind_inv in H as (a & w & E & H).

Definition host_verified (c : Csess) (kBlob hpub sg : bytes) : Prop :=
  ed25519_pair kBlob 32 = inl hpub /\ c_sessionId c = compute_exchange_hash c kBlob /\
  ed25519_verify hpub (c_sessionId c) sg = true.

Lemma host_verified_transcript c c' kBlob hpub sg :
  transcript c' = transcript c -> host_verified c kBlob hpub sg -> host_verified c' kBlob hpub sg.
Proof.
  intros E (H1 & H2 & H3). pose proof E as [= _ _ _ _ _ _ _ _ Es].
  split; [done|]. rewrite (exchange_hash_transcript _ _ _ E), Es. done.
Qed.

Lemma check_reply_verified ks sg w hpub w' :
  check_reply ks sg w = (Some (Some hpub), w') ->
  (exists sig64, host_verified (cs (w_loc w')) ks hpub sig64) /\
  j_host (job (w_loc w')) = j_host (job (w_loc w)) /\ w_hist w' = w_hist w.
Proof.
  unfold check_reply. destruct (ed25519_pair ks 32) as [hp|[|]] eqn:Ek; [|done..].
  destruct (ed25519_pair sg 64) as [sig64|[|]] eqn:Es; [|done..].
  rewrite run_getC. destruct (x25519_scalar _ _) as [k|]; [|done].
  rewrite run_updC, run_getC. cbv zeta. rewrite run_updC. intros H.
  destruct (ed25519_verify hp _ sig64) eqn:Ev; [|done]. cbn [negb] in H.
  injection H as <- <-. split; [|done]. exists sig64. done.
Qed.

(** The last part: what the known hosts said, and the keys. *)
Lemma finish_kex_inv ks w w' :
  finish_kex fuel ks w = (Some true, w') ->
  transcript (cs (w_loc w')) = transcript (cs (w_loc w)) /\
  c_encOut (cs (w_loc w')) = true /\ c_encIn (cs (w_loc w')) = true /\
  c_sendKey (cs (w_loc w')) = derive_key (cs (w_loc w')) x43 64 /\
  c_recvKey (cs (w_loc w')) = derive_key (cs (w_loc w')) x44 64 /\
  exists note wk,
    known_hosts_check (j_host (job (w_loc w))) (hostkey_fingerprint ks 80) w = ((true, note), wk) /\
    hist_grows wk w'.
Proof.
  unfold finish_kex. cbv zeta. rewrite run_getJ. intros H.
  step H r w2 E2. destruct r as [ok note].
  pose proof (keeps_run _ _ _ _ _ (kept_known_hosts_check _ _) E2) as [K2 _].
  destruct ok; [|done]. cbn [negb] in H.
  step H u3 w3 E3. pose proof (keeps_run _ _ _ _ _ (call_same kept _ _) E3) as [K3 G3].
  step H u4 w4 E4. pose proof (keeps_run _ _ _ _ _ (kept_diag _) E4) as [K4 G4].
  step H u5 w5 E5. pose proof (keeps_run _ _ _ _ _ (kept_send_packet _) E5) as [K5 G5].
  rewrite !run_updC in H.
  step H r9 w9 E9. pose proof (keeps_run _ _ _ _ _ (kept_recv_packet _) E9) as [K9 G9].
  destruct r9 as [[t pkt]|]; [|done]. destruct (t <? 0); [done|]. destruct (negb _); [done|].
  rewrite run_updC in H. unfold fin, mret, M_ret in H. injection H as <-.
  apply kept_inv in K2 as (T2 & _), K3 as (T3 & _), K4 as (T4 & _), K5 as (T5 & _), K9 as (T9 & _ & Ks & Ke & Kr).
  assert (transcript (cs (w_loc w5)) = transcript (cs (w_loc w))) as T' by congruence.
  assert (transcript (cs (w_loc w9)) = transcript (cs (w_loc w))) as T by (etransitivity; [exact T9|exact T']).
  split; [exact T|]. split; [exact Ke|]. split; [done|].
  split; [etransitivity; [exact Ks|]; apply derive_key_transcript; etransitivity; [|symmetry; exact T]; exact T'|].
  split; [etransitivity; [exact Kr|]; apply derive_key_transcript; etransitivity; [|symmetry; exact T]; exact T'|].
  exists note, w2. split; [exact E2|].
  transitivity w3; [done|]. transitivity w4; [done|]. transitivity w5; [done|].
  eapply (transitivity (y := w9)); [exact G9|]. by exists [].
Qed.

(** What a key exchange that ended well established. *)
Definition established (host : bytes) (w w' : world client) : Prop :=
  let c := cs (w_loc w') in
  c_encOut c = true /\ c_encIn c = true /\
  c_sendKey c = derive_key c x43 64 /\ c_recvKey c = derive_key c x44 64 /\
  exists kBlob hpub sig64 note w0 wk,
    host_verified c kBlob hpub sig64 /\
    known_hosts_check host (hostkey_fingerprint kBlob 80) w0 = ((true, note), wk) /\
    hist_grows w w0 /\ hist_grows wk w'.

Lemma on_kex_reply_inv pkt w w' :
  on_kex_reply fuel pkt w = (Some true, w') -> established (j_host (job (w_loc w))) w w'.
Proof.
  unfold on_kex_reply. cbv zeta.
  destruct (get_string (view_init (drop 1 pkt))) as [[ks|] v1]; [|done].
  destruct (get_string v1) as [[qs|] v2]; [|done].
  destruct (negb (blen qs =? 32)); [done|].
  destruct (get_string v2) as [[sig|] v3]; [|done].
  rewrite run_updC. set (w1 := set_cs _ w). intros H.
  step H r w2 E2. destruct r as [[hpub|]|]; [|done..].
  apply check_reply_verified in E2 as ([sig64 Hv] & Hh & Hw).
  apply finish_kex_inv in H as (T & He & Hi & Hs & Hr & note & wk & Ek & G).
  split; [done|]. split; [done|]. split; [done|]. split; [done|].
  exists ks, hpub, sig64, note, w2, wk.
  split; [by eapply host_verified_transcript|]. change (j_host (job (w_loc w))) with (j_host (job (w_loc w1))). rewrite <- Hh.
  split; [done|]. split; [|done].
  exists []. by rewrite Hw.
Qed.

Lemma hosted {A} (m : M (world client) A) w a w' :
  keeps (same kept) m -> m w = (a, w') -> j_host (job (w_loc w')) = j_host (job (w_loc w)) /\ hist_grows w w'.
Proof.
  intros Hm E. apply (keeps_run _ _ _ _ _ Hm) in E as [K G].
  split; [by apply kept_inv in K as (_ & ? & _)|done].
Qed.

Lemma kept_randomBytes n : keeps (same kept) (randomBytes n).
Proof. apply call_same. Qed.

Lemma do_kex_inv w w' :
  do_kex fuel w = (Some true, w') -> established (j_host (job (w_loc w))) w w'.
Proof.
  unfold do_kex. rewrite run_updC, run_getC. intros H.
  step H p w1 E1. apply hosted in E1 as [H1 G1]; [|unfold put_kexinit; solve_keeps; apply kept_randomBytes].
  rewrite run_updC, run_getC in H.
  step H u w2 E2. apply hosted in E2 as [H2 G2]; [|apply kept_send_packet].
  step H r w3 E3. apply hosted in E3 as [H3 G3]; [|apply kept_recv_packet].
  destruct r as [[t pkt]|]; [|done]. destruct (t <? 0); [done|]. destruct (negb _); [done|].
  rewrite run_updC in H. destruct (check_kexinit pkt) as [[e|]|]; [done| |]; [by step H e w4 E4|].
  step H priv w4 E4. apply hosted in E4 as [H4 G4]; [|apply kept_randomBytes].
  rewrite run_updC in H. destruct (x25519_base priv) as [pub|]; [|done].
  rewrite run_updC, run_getC in H.
  step H u5 w5 E5. apply hosted in E5 as [H5 G5]; [|apply kept_send_packet].
  step H r6 w6 E6. apply hosted in E6 as [H6 G6]; [|apply kept_recv_packet].
  destruct r6 as [[t6 pkt6]|]; [|done]. destruct (t6 <? 0); [done|]. destruct (negb _); [done|].
  apply on_kex_reply_inv in H. cbn [set_cs w_loc job] in *.
  assert (j_host (job (w_loc w6)) = j_host (job (w_loc w))) as Eh by congruence. rewrite Eh in H.
  destruct H as (? & ? & ? & ? & kBlob & hpub & sig64 & note & w0 & wk & ? & ? & G & ?).
  repeat (split; [done|]). exists kBlob, hpub, sig64, note, w0, wk. repeat (split; [done|]).
  split; [|done]. transitivity w6; [|done]. transitivity w5; [|done].
  transitivity w4; [|exact G5]. transitivity w3; [|exact G4]. transitivity w2; [|done].
  transitivity w1; [exact G1|exact G2].
Qed.

(** C15: A key exchange that ends well has verified the host: the server signed this
    very exchange with the key it presented, the known-hosts check accepted the
    fingerprint of that key for the host of the job, and both directions are
    encrypted with the keys derived from the exchange. *)
Theorem do_kex_authentic w w' :
  do_kex fuel w = (Some true, w') -> established (j_host (job (w_loc w))) w w'.
Proof. apply do_kex_inv. Qed.
End trust.

Lemma do_kex_authentic_witness :
  established (PF := PFc) (str "box") versions.2 keyed.2.
Proof.
  assert (str "box" = j_host (job (w_loc versions.2))) as -> by by vm_compute.
  apply (do_kex_authentic (PF := PFc) fuel9 versions.2 keyed.2).
  pose proof (pair_eq keyed _ (proj1 (proj2 both_ends_agree))) as H. unfold keyed in H at 1. exact H.
Defined.

(** ** Everything behind the key exchange is sealed *)

Section sealed.
Context `{PF : Platform} `{MB : Mbedtls} `{ED : Ed25519} (fuel : positive).

Definition is_send (e : event) : bool := match e with EvSend _ _ _ _ => true | _ => false end.

(** The events of a session that seals with the key and on the stream of [c], the newest
    first: every octet string that is sent is one packet, sealed under the sequence number
    that comes next.  [n] is the number before the events, [n'] the one after them; without
    a stream nothing is sent, and the number is used up all the same. *)
Inductive sealed_log (c : Csess) (n : Z) : Z -> history -> Prop :=
  | log_nil : sealed_log c n n []
  | log_other e n' evs : is_send e = false -> sealed_log c n n' evs -> sealed_log c n n' (e :: evs)
  | log_sent payload padBytes ms sent n' evs :
      sealed_log c n n' evs ->
      sealed_log c n (u64 (n' + 1))
        (EvSend (c_handle c) (frame true (c_sendKey c) n' (pad_len true (blen payload)) payload padBytes) ms sent :: evs)
  | log_unsent n' evs : c_handle c < 0 -> sealed_log c n n' evs -> sealed_log c n (u64 (n' + 1)) evs.

Lemma sealed_log_trans c c' n m k e1 e2 :
  c_sendKey c' = c_sendKey c -> c_handle c' = c_handle c ->
  sealed_log c n m e1 -> sealed_log c' m k e2 -> sealed_log c n k (e2 ++ e1).
Proof.
  intros Ek Eh H1 H2. induction H2; cbn [app]; [done|by constructor| |apply log_unsent; [by rewrite <- Eh|done]].
  rewrite Ek, Eh. by apply log_sent.
Qed.

Definition keeps_sealing (w w' : world client) : Prop :=
  let c := cs (w_loc w) in
  let c' := cs (w_loc w') in
  c_encOut c = true ->
  c_encOut c' = true /\ c_sendKey c' = c_sendKey c /\ c_handle c' = c_handle c /\
  exists evs, w_hist w' = evs ++ w_hist w /\ sealed_log c (c_seqOut c) (c_seqOut c') evs.

#[export] Instance keeps_sealing_preorder : PreOrder keeps_sealing.
Proof.
  split.
  - intros w He. split_and!; [done..|]. exists []. split; [done|constructor].
  - intros w1 w2 w3 H1 H2 He.
    destruct (H1 He) as (He2 & Hk2 & Hh2 & evs1 & E1 & F1).
    destruct (H2 He2) as (He3 & Hk3 & Hh3 & evs2 & E2 & F2).
    split_and!; [done|congruence|congruence|]. exists (evs2 ++ evs1).
    split; [by rewrite E2, E1, app_assoc|]. by eapply sealed_log_trans.
Qed.

Lemma call_sealing {R} (answer : history -> R) ev :
  (forall r, is_send (ev r) = false) -> keeps keeps_sealing (call answer ev).
Proof.
  intros H w He. split_and!; [done..|]. exists [ev (answer (w_hist w))].
  split; [done|]. constructor; [apply H|constructor].
Qed.

Lemma updl_sealing g :
  (forall l, c_encOut (cs (g l)) = c_encOut (cs l) /\ c_sendKey (cs (g l)) = c_sendKey (cs l) /\
             c_handle (cs (g l)) = c_handle (cs l) /\ c_seqOut (cs (g l)) = c_seqOut (cs l)) ->
  keeps keeps_sealing (updl g).
Proof.
  intros H w He. destruct (H (w_loc w)) as (H1 & H2 & H3 & H4). cbn. rewrite H1, H2, H3, H4.
  split_and!; [done..|]. exists []. split; [done|constructor].
Qed.

(** The one place where something is sent. *)
Lemma sealing_send_packet p : keeps keeps_sealing (send_packet p).
Proof.
  intros w He. unfold send_packet. rewrite run_getC, He. cbv zeta.
  unfold randomBytes. rewrite run_call. cbv beta.
  unfold send_raw. rewrite run_assoc, run_getC. cbn [w_loc].
  set (pb := p_random _ _). set (d := frame true _ _ _ _ _).
  destruct (Z.ltb_spec (c_handle (cs (w_loc w))) 0) as [Hh|Hh]; cbn.
  - split_and!; [done..|]. exists [EvRandom pb]. split; [done|].
    apply log_unsent; [done|]. by repeat constructor.
  - split_and!; [done..|]. eexists [_; EvRandom pb]. split; [reflexivity|].
    apply log_sent. by repeat constructor.
Qed.

Ltac sealing_leaf :=
  first
    [ apply sealing_send_packet
    | apply call_sealing; by intros
    | apply updl_sealing; by intros [] ].
Ltac solve_sealing := unfold_client_calls; solve_keeps; try sealing_leaf.

Lemma sealing_diag t : keeps keeps_sealing (diag t).
Proof. unfold diag. solve_sealing. Qed.
Lemma sealing_fail t : keeps keeps_sealing (fail t).
Proof. unfold fail. solve_sealing. Qed.
Lemma sealing_failF t : keeps keeps_sealing (failF t).
Proof. unfold failF. solve_sealing. Qed.
Lemma sealing_recv_packet ms : keeps keeps_sealing (recv_packet fuel ms).
Proof. unfold recv_packet, recv_step, try_parse, fill_rx. solve_sealing. Qed.
Lemma sealing_out_loop k d : keeps keeps_sealing (out_write_loop k d).
Proof. revert d. induction k as [|k IH]; intros d; cbn [out_write_loop]; solve_sealing. Qed.
Lemma sealing_out_write d : keeps keeps_sealing (out_write d).
Proof. unfold out_write. solve_sealing. apply sealing_out_loop. Qed.
#[local] Hint Resolve sealing_send_packet sealing_diag sealing_fail sealing_failF
  sealing_recv_packet sealing_out_write : keeps.

Lemma sealing_auth_recv : keeps keeps_sealing (auth_recv fuel).
Proof. unfold auth_recv, auth_step. solve_sealing. Qed.
Lemma sealing_note p : keeps keeps_sealing (note_failure_methods p).
Proof. unfold note_failure_methods. solve_sealing. Qed.
#[local] Hint Resolve sealing_auth_recv sealing_note : keeps.
Lemma sealing_simple_result : keeps keeps_sealing (auth_simple_result fuel).
Proof. unfold auth_simple_result. solve_sealing. Qed.
#[local] Hint Resolve sealing_simple_result : keeps.
Lemma sealing_publickey : keeps keeps_sealing (auth_publickey fuel).
Proof. unfold auth_publickey. solve_sealing. Qed.
Lemma sealing_password : keeps keeps_sealing (auth_password fuel).
Proof. unfold auth_password. solve_sealing. Qed.
Lemma sealing_keyboard : keeps keeps_sealing (auth_keyboard_interactive fuel).
Proof. unfold auth_keyboard_interactive, keyboard_step, answer_prompts. solve_sealing. Qed.

Lemma sealing_attempt name m k :
  keeps keeps_sealing m -> keeps keeps_sealing k -> keeps keeps_sealing (attempt name m k).
Proof. intros Hm Hk. unfold attempt. solve_sealing; done. Qed.
Lemma sealing_exhausted : keeps keeps_sealing auth_exhausted.
Proof. unfold auth_exhausted. solve_sealing. Qed.
Lemma sealing_methods : keeps keeps_sealing (auth_methods fuel).
Proof.
  assert (keeps keeps_sealing (auth_passwords fuel)) as Hp.
  { unfold auth_passwords. solve_sealing; [apply sealing_exhausted|].
    apply sealing_attempt; [apply sealing_keyboard|].
    apply sealing_attempt; [apply sealing_password|apply sealing_exhausted]. }
  unfold auth_methods. solve_sealing. by apply sealing_attempt; [apply sealing_publickey|].
Qed.
#[local] Hint Resolve sealing_methods : keeps.
Lemma sealing_do_auth : keeps keeps_sealing (do_auth fuel).
Proof. unfold do_auth. solve_sealing. Qed.

(** The channel. *)
Lemma sealing_global v : keeps keeps_sealing (answer_global_request v).
Proof. unfold answer_global_request. solve_sealing. Qed.
Lemma sealing_adjust v : keeps keeps_sealing (window_adjust v).
Proof. unfold window_adjust. solve_sealing. Qed.
Lemma sealing_channel_packet m : keeps keeps_sealing (channel_packet m).
Proof. unfold channel_packet. solve_sealing. Qed.
#[local] Hint Resolve sealing_global sealing_adjust sealing_channel_packet : keeps.
Lemma sealing_channel_recv ms : keeps keeps_sealing (channel_recv fuel ms).
Proof. unfold channel_recv, channel_recv_step. solve_sealing. Qed.
Lemma sealing_pump : keeps keeps_sealing (pump_input fuel).
Proof. unfold pump_input, pump_step. solve_sealing. Qed.
#[local] Hint Resolve sealing_channel_recv sealing_pump : keeps.
Lemma sealing_open : keeps keeps_sealing (open_channel fuel).
Proof. unfold open_channel. solve_sealing. Qed.
Lemma sealing_pty : keeps keeps_sealing (request_pty fuel).
Proof. unfold request_pty. solve_sealing. Qed.
Lemma sealing_program : keeps keeps_sealing (request_program fuel).
Proof. unfold request_program. solve_sealing. Qed.
Lemma sealing_on_packet b t p : keeps keeps_sealing (on_packet b t p).
Proof. unfold on_packet, on_channel_data, on_extended_data, on_channel_request. solve_sealing. Qed.
#[local] Hint Resolve sealing_open sealing_pty sealing_program sealing_on_packet : keeps.
Lemma sealing_relay : keeps keeps_sealing (relay fuel).
Proof. unfold relay, relay_step, relay_recv, set_msg. solve_sealing. Qed.
#[local] Hint Resolve sealing_relay : keeps.
Lemma sealing_do_channel : keeps keeps_sealing (do_channel fuel).
Proof. unfold do_channel. solve_sealing. Qed.

End sealed.

(** ** Credentials *)

(** A job with other credentials, another user and another command. *)
Record secrets := Secrets {
  x_user : bytes; x_haveCmd : bool; x_command : bytes; x_havePassword : bool; x_password : bytes;
  x_tryPubkey : bool; x_seed : bytes
}.
Definition with_secrets (x : secrets) (j : SshJob) : SshJob :=
  {| j with j_user := x_user x; j_haveCmd := x_haveCmd x; j_command := x_command x;
            j_havePassword := x_havePassword x; j_password := x_password x;
            j_tryPubkey := x_tryPubkey x; j_seed := x_seed x |}.

Section credentials.
Context `{PF : Platform} `{MB : Mbedtls} `{ED : Ed25519} (fuel : positive) (x : secrets).

(** The same world with the job of other credentials. *)
Definition swap (w : world client) : world client := set_job (with_secrets x) w.

(** A program that cannot tell the credentials: same result, same events. *)
Definition blind {A} (m : M (world client) A) : Prop :=
  forall w, m (swap w) = ((m w).1, swap (m w).2).

Lemma blind_ret {A} (a : A) : blind (mret a).
Proof. by intros w. Qed.
Lemma blind_bind {A B} (m : M (world client) A) (f : A -> M (world client) B) :
  blind m -> (forall a, blind (f a)) -> blind (m ≫= f).
Proof. intros Hm Hf w. unfold mbind, M_bind. rewrite Hm. apply Hf. Qed.
Lemma blind_when b m : blind m -> blind (when b m).
Proof. intros Hm. destruct b; [done|apply blind_ret]. Qed.
Lemma blind_call {R} (answer : history -> R) ev : blind (call answer ev).
Proof. by intros w. Qed.
Lemma blind_updC g : blind (updC g).
Proof. by intros w. Qed.
Lemma blind_getC {A} (f : Csess -> M (world client) A) : (forall c, blind (f c)) -> blind (getC ≫= f).
Proof. intros Hf w. apply (Hf (cs (w_loc w)) w). Qed.
Lemma blind_host {A} (f : bytes -> M (world client) A) :
  (forall h, blind (f h)) -> blind (getJ ≫= fun j => f (j_host j)).
Proof. intros Hf w. apply (Hf (j_host (job (w_loc w))) w). Qed.
Lemma blind_loop {A B} p (body : A -> M (world client) (A + B)) a :
  (forall a, blind (body a)) -> blind (loop p body a).
Proof.
  intros Hb w. rewrite !loop_loopn. generalize (Pos.to_nat p) as n. intros n. revert a w.
  induction n as [|n IH]; intros a w; cbn [loopn]; [done|].
  apply (blind_bind (body a)); [apply Hb|]. intros [a'|b]; [intros w'; apply IH|apply blind_ret].
Qed.

Ltac blind_step :=
  lazymatch goal with
  | |- blind (getC ≫= _) => apply blind_getC; intros ?
  | |- blind (mbind _ _) => apply blind_bind; [|intros ?]
  | |- blind (mret _) => apply blind_ret
  | |- blind (call _ _) => apply blind_call
  | |- blind (notify _) => apply blind_call
  | |- blind (updC _) => apply blind_updC
  | |- blind (when _ _) => apply blind_when
  | |- blind (loop _ _ _) => apply blind_loop; intros ?
  | |- blind (let _ := _ in _) => cbv zeta
  | |- blind (match ?d with _ => _ end) => destruct d eqn:?
  | |- blind _ => eauto with blind
  end.
Ltac solve_blind :=
  unfold itsSend, itsRecv, itsConnected, log, randomBytes, xTaskGetTickCount, storageGetStr, storageSet,
    storageArrayCount, indeterminate, fin;
  repeat blind_step.

Lemma blind_fail why : blind (fail why).
Proof. by intros w. Qed.
Lemma blind_failF why : blind (failF why).
Proof. unfold failF. solve_blind. apply blind_fail. Qed.
Lemma blind_send_raw d : blind (send_raw d).
Proof. unfold send_raw. solve_blind. Qed.
Lemma blind_send_packet p : blind (send_packet p).
Proof. unfold send_packet. solve_blind. apply blind_send_raw. Qed.
Lemma blind_diag t : blind (diag t).
Proof. unfold diag. solve_blind. Qed.
Lemma blind_fill_rx ms : blind (fill_rx ms).
Proof. unfold fill_rx. solve_blind. Qed.
Lemma blind_recv_packet ms : blind (recv_packet fuel ms).
Proof. unfold recv_packet, recv_step, try_parse. solve_blind. all: apply blind_fill_rx. Qed.
Lemma blind_known_hosts host fp : blind (known_hosts_check host fp).
Proof.
  assert (forall k i, blind (known_hosts_loop k i host fp)) as Hl.
  { intros k. induction k as [|k IH]; intros i; cbn [known_hosts_loop]; solve_blind; apply IH. }
  unfold known_hosts_check. solve_blind. apply Hl.
Qed.

Lemma blind_finish_kex ks : blind (finish_kex fuel ks).
Proof.
  unfold finish_kex. cbv zeta.
  apply (blind_host (fun h => known_hosts_check h _ ≫= _)). intros h.
  apply blind_bind; [apply blind_known_hosts|intros [ok note]]. solve_blind.
  all: first [apply blind_failF|apply blind_diag|apply blind_send_packet|apply blind_recv_packet].
Qed.
Lemma blind_on_kex_reply pkt : blind (on_kex_reply fuel pkt).
Proof.
  unfold on_kex_reply, check_reply. solve_blind.
  all: first [apply blind_fail|apply blind_failF|apply blind_finish_kex].
Qed.
Lemma blind_do_kex : blind (do_kex fuel).
Proof.
  unfold do_kex, put_kexinit. solve_blind.
  all: first [apply blind_failF|apply blind_send_packet|apply blind_recv_packet|apply blind_on_kex_reply].
Qed.
Lemma blind_do_version : blind (do_version fuel).
Proof.
  unfold do_version, version_step, fail_step. solve_blind.
  all: first [apply blind_fail|apply blind_send_raw|apply blind_fill_rx].
Qed.

(** Up to the point where the host is verified, the client cannot tell which
    credentials it was given: with another user, password, key or command the version
    exchange and the key exchange end with the same result after the same calls with
    the same octets, so a peer that cannot prove to be the host learns nothing of
    them. *)
Theorem handshake_ignores_credentials w :
  (do_version fuel (swap w)).1 = (do_version fuel w).1 /\
  w_hist (do_version fuel (swap w)).2 = w_hist (do_version fuel w).2 /\
  (do_kex fuel (swap w)).1 = (do_kex fuel w).1 /\
  w_hist (do_kex fuel (swap w)).2 = w_hist (do_kex fuel w).2.
Proof. by rewrite blind_do_version, blind_do_kex. Qed.
End credentials.

(** ** What leaves in the clear and what is sealed *)

Section clear.
Context `{PF : Platform} `{MB : Mbedtls} `{ED : Ed25519} (fuel : positive).

(** The part of a session before it has keys. *)
Definition handshake : F bool :=
  ok ←! do_version fuel;
  if negb ok then fin false else do_kex fuel.

Lemma handshake_blind x : blind x handshake.
Proof.
  unfold handshake. apply blind_bind; [apply blind_do_version|].
  intros [[|]|]; [apply blind_do_kex|apply blind_ret..].
Qed.

(** The steps of a session are the handshake and, if it ends well, what comes behind it. *)
Lemma session_steps_handshake w :
  session_steps fuel w =
  match handshake w with
  | (Some true, wk) => (ok ←! do_auth fuel; if negb ok then fin tt else _u ←! do_channel fuel; fin tt) wk
  | (Some false, wk) => (Some tt, wk)
  | (None, wk) => (None, wk)
  end.
Proof.
  unfold session_steps, handshake, mbind, M_bind. destruct (do_version fuel w) as [[[|]|] wv]; try done.
  cbn [fst snd negb]. by destruct (do_kex fuel wv) as [[[|]|] wk].
Qed.

Lemma handshake_keyed w wk :
  handshake w = (Some true, wk) ->
  c_encOut (cs (w_loc wk)) = true /\ c_sendKey (cs (w_loc wk)) = derive_key (cs (w_loc wk)) x43 64.
Proof.
  unfold handshake, mbind, M_bind. destruct (do_version fuel w) as [[[|]|] wv]; try done.
  cbn [fst snd negb]. intros H%do_kex_inv. by destruct H as (He & _ & Hs & _).
Qed.

(** C16: A whole session, from the version line to the end of its channel.  What it does
    before it has keys, to the last octet it sends, is the same under other credentials,
    and it does nothing more if the key exchange does not end well.  If it does, the
    session is encrypted under the key derived from that exchange and stays so through
    authentication and channel, whatever the server answers: all that is sent is packets
    sealed under this one key with consecutive sequence numbers, on the stream of the
    session. *)
Theorem session_sealed w x :
  let '(ok, wk) := handshake w in
  let w' := (session_steps fuel w).2 in
  handshake (swap x w) = (ok, swap x wk) /\
  match ok with
  | Some true =>
      let c := cs (w_loc wk) in
      let c' := cs (w_loc w') in
      c_encOut c = true /\ c_sendKey c = derive_key c x43 64 /\
      c_encOut c' = true /\ c_sendKey c' = c_sendKey c /\ c_handle c' = c_handle c /\
      exists evs, w_hist w' = evs ++ w_hist wk /\ sealed_log c (c_seqOut c) (c_seqOut c') evs
  | _ => w' = wk
  end.
Proof.
  pose proof (handshake_blind x w) as Hb. pose proof (handshake_keyed w) as Hk.
  rewrite session_steps_handshake. destruct (handshake w) as [ok wk]. split; [exact Hb|].
  destruct ok as [[|]|]; [|done..]. destruct (Hk wk eq_refl) as [He Hs]. split; [done|]. split; [done|].
  match goal with |- context [(?m wk).2] => assert (keeps keeps_sealing m) as Hm end.
  { unfold fin. solve_keeps; first [apply sealing_do_auth|apply sealing_do_channel]. }
  exact (Hm wk He).
Qed.
End clear.

Lemma session_sealed_witness :
  let wk := keyed.2 in
  let w' := (session_steps (PF := PFc) fuel9 dialled).2 in
  handshake (PF := PFc) fuel9 dialled = (Some true, wk) /\ c_handle (cs (w_loc wk)) = 5 /\
  exists evs, w_hist w' = evs ++ w_hist wk /\
    sealed_log (cs (w_loc wk)) (c_seqOut (cs (w_loc wk))) (c_seqOut (cs (w_loc w'))) evs.
Proof.
  pose proof (session_sealed (PF := PFc) fuel9 dialled (Secrets [] false [] false [] false [])) as H.
  assert (handshake (PF := PFc) fuel9 dialled = (Some true, keyed.2)) as E by by vm_compute.
  rewrite E in H. cbv zeta in *. destruct H as (_ & _ & _ & _ & _ & _ & H).
  split; [exact E|]. split; [|exact H].
  assert ((c_handle (cs (w_loc keyed.2)) =? 5) = true) as Eh by (vm_compute; reflexivity). by apply Z.eqb_eq.
Defined.
