(* ===== verification/ClientReceive.v ===== *)
(** * ClientReceive: the blocking receive of the client ends

    [recv_packet] waits for a packet or its deadline.  It returns whenever the clock
    passes the deadline, whatever the server sends in the meantime. *)
From S2P Require Import Prelude Text Wire Platform Crypto Concrete Framing ClientState ClientRuns.

Section receive.
Context `{PF : Platform} `{PL : !PlatformLaws} `{MB : Mbedtls} `{ML : !MbedtlsLaws}.

(** The clock passes [deadline]: [left] bounds how often it is read before that. *)
Definition passes (deadline : Z) (left : history -> nat) : Prop :=
  (forall h, 0 < s32 (deadline - p_ticks h) -> (left (EvTicks (p_ticks h) :: h) < left h)%nat) /\
  (forall e h, (left (e :: h) <= left h)%nat).

Definition rx_len (w : world client) : nat := length (c_rxBuf (cs (w_loc w))).

(** Every turn takes a packet off the buffer or reads the clock, and then receives at
    most 1024 octets. *)
Definition turns (left : history -> nat) (w : world client) : nat :=
  (1025 * left (w_hist w) + rx_len w)%nat.

Lemma try_parse_cases w :
  exists r out w1, try_parse w = ((r, out), w1) /\ w_hist w1 = w_hist w /\ c_handle (cs (w_loc w1)) = c_handle (cs (w_loc w)) /\
    (r = 1 /\ (rx_len w1 < rx_len w)%nat \/ r <= 0 /\ rx_len w1 = rx_len w).
Proof.
  unfold try_parse. rewrite run_getC. destruct (parse _ _ _ _) as [| |p rest] eqn:E.
  - exists 0, [], w. split_and!; try done. right. split; [lia|done].
  - exists (-1), [], w. split_and!; try done. right. split; [lia|done].
  - rewrite run_updC. do 3 eexists. split_and!; [reflexivity|done..|]. left. split; [done|].
    apply parse_progress in E as (used & E & Hu & _). unfold rx_len, set_cs. cbn [w_loc cs c_rxBuf].
    rewrite E, length_app. unfold blen in Hu. lia.
Qed.

Lemma fill_rx_bound t w :
  exists got w1, fill_rx t w = (got, w1) /\ (rx_len w1 <= 1024 + rx_len w)%nat /\
    exists e, w_hist w1 = e :: w_hist w.
Proof.
  unfold fill_rx, itsRecv. rewrite run_getC, run_call. cbv beta.
  pose proof (p_recv_bound (w_hist w) (c_handle (cs (w_loc w))) 1024 t ltac:(lia)) as Hb.
  set (got := p_recv _ _ _ _) in *. unfold blen in Hb. destruct (negb (bool_decide (got = []))) eqn:En.
  - rewrite run_when_true, run_updC by done. do 2 eexists. split; [reflexivity|].
    split; [unfold rx_len, set_cs; cbn [w_loc cs c_rxBuf]; rewrite length_app; lia|by eexists].
  - rewrite run_when_false by done. do 2 eexists. split; [reflexivity|].
    split; [unfold rx_len; cbn [w_loc]; lia|by eexists].
Qed.

Lemma recv_step_turns deadline left w w' :
  passes deadline left -> recv_step deadline tt w = (inl tt, w') -> (turns left w' < turns left w)%nat.
Proof.
  intros [Hp Hm]. unfold recv_step. destruct (try_parse_cases w) as (r & out & w1 & E1 & G1 & _ & Hr).
  rewrite (run_bind _ _ _ _ _ E1). destruct Hr as [[-> Hl]|[Hr Hl]].
  - cbn [Z.eqb Pos.eqb]. intros H. apply (f_equal snd) in H. cbn [snd mret M_ret] in H.
    unfold mret, M_ret in H. cbn [snd] in H. subst w'. unfold turns. rewrite G1. lia.
  - destruct (Z.eqb_spec r 1); [lia|]. destruct (r <? 0); [done|].
    unfold xTaskGetTickCount. rewrite run_call. cbv zeta.
    destruct (Z.leb_spec (s32 (deadline - p_ticks (w_hist w1))) 0) as [|Hd]; [done|].
    specialize (Hp _ Hd). set (w2 := World (w_loc w1) _).
    assert (1025 + turns left w2 <= turns left w)%nat as H2.
    { unfold turns, w2, rx_len in *. cbn [w_loc w_hist]. rewrite G1 in *. lia. }
    clearbody w2. intros H. destruct (fill_rx_bound (if 500 <? u32 (s32 (deadline - p_ticks (w_hist w1)) * portTICK_PERIOD_MS)
      then 500 else u32 (s32 (deadline - p_ticks (w_hist w1)) * portTICK_PERIOD_MS)) w2) as (got & w3 & E3 & L3 & e & G3).
    rewrite (run_bind _ _ _ _ _ E3) in H. pose proof (Hm e (w_hist w2)) as Hm3. rewrite <- G3 in Hm3.
    assert (turns left w3 < turns left w)%nat as H3 by (unfold turns in *; lia).
    destruct (negb (got =? 0)); [by injection H as <-|]. rewrite run_getC in H.
    unfold itsConnected in H. rewrite run_call in H. cbv beta in H.
    set (w4 := World _ _) in H. pose proof (Hm (EvConnected (c_handle (cs (w_loc w3)))
      (p_connected (w_hist w3) (c_handle (cs (w_loc w3))))) (w_hist w3)) as Hm4.
    assert (turns left w4 < turns left w)%nat as H4 by (unfold turns, w4, rx_len in *; cbn [w_loc w_hist]; lia).
    clearbody w4. destruct (p_connected _ _); [by injection H as <-|]. rewrite run_getC in H.
    destruct (_ <? 4); [done|]. by injection H as <-.
Qed.

(** What a result means: a packet with its type, or one of the codes. *)
Definition received (r : Z * bytes) : Prop :=
  r.1 <= 0 \/ exists t body, r.2 = t :: body /\ r.1 = byte_to_Z t /\ skipped r.1 = false.

Lemma recv_step_received deadline w r w' :
  recv_step deadline tt w = (inr r, w') -> received r.
Proof.
  unfold recv_step. destruct (try_parse_cases w) as (c & out & w1 & E1 & _ & _ & _).
  rewrite (run_bind _ _ _ _ _ E1). destruct (c =? 1).
  - intros H. apply (f_equal fst) in H. unfold mret, M_ret in H. cbn [fst] in H. unfold received.
    destruct out as [|t body]; [injection H as <-; cbn; left; lia|].
    destruct (skipped (byte_to_Z t)) eqn:Es; [done|]. injection H as <-. right. by exists t, body.
  - destruct (c <? 0); [intros [= <- _]; left; cbn; lia|]. intros H.
    apply bind_inv in H as (now & w2 & _ & H). cbv zeta in H.
    destruct (_ <=? 0); [injection H as <- _; left; cbn; lia|].
    apply bind_inv in H as (got & w3 & _ & H). destruct (negb _); [done|].
    apply bind_inv in H as (c3 & w4 & _ & H). apply bind_inv in H as (conn & w5 & _ & H).
    destruct conn; [done|]. apply bind_inv in H as (c5 & w6 & _ & H).
    destruct (_ <? 4); [|done]. injection H as <- _. left. cbn. lia.
Qed.

(** C38: [recv_packet] always returns: if the clock passes the deadline after at most
    [left] readings, it ends within a number of turns that is fixed when it is called,
    whatever arrives; and a positive result is the type of the packet it returns,
    never IGNORE or DEBUG. *)
Theorem recv_packet_returns left ms w fuel :
  passes (u32 (p_ticks (w_hist w) + pdMS_TO_TICKS ms)) left ->
  (turns left w < Pos.to_nat fuel)%nat ->
  exists r w', recv_packet fuel ms w = (Some r, w') /\ received r.
Proof.
  intros Hp Hf. unfold recv_packet, xTaskGetTickCount. rewrite run_call. cbv beta zeta.
  set (deadline := u32 _) in *. set (w0 := World (w_loc w) _).
  assert (turns left w0 <= turns left w)%nat as H0.
  { destruct Hp as [_ Hm]. unfold turns, w0, rx_len. cbn [w_loc w_hist].
    pose proof (Hm (EvTicks (p_ticks (w_hist w))) (w_hist w)). lia. }
  destruct (loopn_exits (recv_step deadline) (fun _ => turns left) (fun _ _ => True)
    ltac:(intros [] w1 [] w2 _ E; split; [done|by eapply recv_step_turns])
    (Pos.to_nat fuel) tt w0 I (Nat.le_lt_trans _ _ _ H0 Hf)) as (r & w' & E).
  pose proof (loopn_inv (recv_step deadline) (fun _ _ => True) (fun r _ => received r) (Pos.to_nat fuel) tt w0) as Hi.
  rewrite E in Hi. rewrite <- loop_loopn in E. exists r, w'. rewrite (run_bind _ _ _ _ _ E). split; [done|].
  apply Hi; [|done]. intros [] w1 _. destruct (recv_step deadline tt w1) as [[[]|b] w2] eqn:Es; [done|].
  by eapply recv_step_received.
Qed.
End receive.

(** A clock that ticks with every call and stops after a hundred. *)
Definition PFt : Platform :=
  let S := PFc in {| S with p_ticks := fun h => Z.min (Z.of_nat (length h)) 100 |}.

Lemma PFt_laws : @PlatformLaws PFt.
Proof.
  split; intros; cbn in *; unfold blen in *; try done;
    try (rewrite ?length_replicate, ?length_take; lia).
Qed.

Definition ticks_left (h : history) : nat := 16 - length h.

Lemma recv_packet_returns_witness :
  exists r w', recv_packet (PF := PFt) 20000 15 dialled = (Some r, w') /\ received r.
Proof.
  apply (recv_packet_returns (PF := PFt) (PL := PFt_laws) ticks_left 15 dialled 20000).
  - assert (u32 (p_ticks (Platform := PFt) (w_hist dialled) + pdMS_TO_TICKS (Platform := PFt) 15) = 15) as -> by by vm_compute.
    split.
    + intros h. change (p_ticks h) with (Z.min (Z.of_nat (length h)) 100).
      unfold ticks_left. cbn [length]. intros Hd.
      destruct (decide (length h < 15)%nat) as [|Hl]; [lia|].
      assert (s32 (15 - Z.min (Z.of_nat (length h)) 100) <= 0); [|lia].
      unfold s32, u32. destruct (decide (length h = 15)%nat) as [->|]; [by vm_compute|].
      assert ((15 - Z.min (Z.of_nat (length h)) 100) mod 2 ^ 32 = 2 ^ 32 + (15 - Z.min (Z.of_nat (length h)) 100)) as -> by dlia.
      destruct (Z.ltb_spec (2 ^ 32 + (15 - Z.min (Z.of_nat (length h)) 100)) (2 ^ 31)); lia.
    + intros e h. unfold ticks_left. cbn [length]. lia.
  - change (turns ticks_left dialled) with (1025 * 16 + 0)%nat. lia.
Defined.
