(* ===== verification/Agreement.v ===== *)
(** * Agreement: the client and the server of this repository understand each other

    Both ends implement the protocol separately.  Here one end's output is the other
    end's input: they negotiate the same key exchange, finish it with the same session
    id and keys. *)
From S2P Require Import Prelude Text Wire Platform Crypto Base64 Concrete Framing SessionState SessionKex SessionAuth Runs ClientState ClientKex ClientAuth ClientChannel ClientRuns ClientTrust.

(** ** X25519

    What the curve arithmetic of mbedTLS is for: the two orders of multiplying give
    the same point, and coordinates are reduced modulo 2^255 - 19. *)
Section dh.
Context `{MB : Mbedtls}.

(** A coordinate on the wire of the primitives (most significant octet first), from
    the base point and from a peer's coordinate. *)
Definition ecp_public (grp : mbedtls_ecp_group) (s : mbedtls_mpi) : option bytes :=
  let? G := mbedtls_ecp_copy_G grp in
  let? R := mbedtls_ecp_mul grp s G in
  mbedtls_mpi_write_binary (mbedtls_ecp_X R) 32.
Definition ecp_shared (grp : mbedtls_ecp_group) (s : mbedtls_mpi) (peer : bytes) : option bytes :=
  let? X := mbedtls_mpi_read_binary peer in
  let? one := mbedtls_mpi_lset 1 in
  let? R := mbedtls_ecp_mul grp s (mbedtls_ecp_set_Z (mbedtls_ecp_set_X mbedtls_ecp_point_init X) one) in
  mbedtls_mpi_write_binary (mbedtls_ecp_X R) 32.

Class EcpLaws := {
  ecp_commutes grp a b A B :
    mbedtls_ecp_group_load_curve25519 = Some grp ->
    ecp_public grp a = Some A -> ecp_public grp b = Some B ->
    ecp_shared grp a B = ecp_shared grp b A;
  ecp_reduced grp a A :
    mbedtls_ecp_group_load_curve25519 = Some grp -> ecp_public grp a = Some A ->
    length A = 32%nat /\ byte_to_Z (default x00 (A !! 0%nat)) < 128
}.

(** The scalar as the primitives get it. *)
Definition clamped (scalar : bytes) : bytes :=
  let le := upd_byte (take 32 scalar) 0 (fun x => Z.land x 248) in
  let le := upd_byte le 31 (fun x => Z.land x 127) in
  reverse32 (upd_byte le 31 (fun x => Z.lor x 64)).

#[local] Ltac opt_cbn := cbn [mbind option_bind fmap option_fmap option_map].

Lemma x25519_base_eq scalar :
  x25519_base scalar =
  let? grp := mbedtls_ecp_group_load_curve25519 in
  let? s := mbedtls_mpi_read_binary (clamped scalar) in
  reverse32 <$> ecp_public grp s.
Proof.
  unfold x25519_base, x25519_compute, ecp_public. fold (clamped scalar).
  destruct mbedtls_ecp_group_load_curve25519 as [grp|]; opt_cbn; [|done].
  destruct (mbedtls_mpi_read_binary _) as [s|]; opt_cbn; [|done].
  destruct (mbedtls_ecp_copy_G grp) as [G|]; opt_cbn; [|done].
  by destruct (mbedtls_ecp_mul grp s G) as [R|].
Qed.

Lemma reverse32_lookup l i : (i < 32)%nat -> reverse32 l !! i = Some (default x00 (l !! (31 - i)%nat)).
Proof. intros H. unfold reverse32. rewrite list_lookup_fmap, lookup_seq_lt by done. done. Qed.

Lemma reverse32_twice l : length l = 32%nat -> reverse32 (reverse32 l) = l.
Proof.
  intros H. apply list_eq. intros i. destruct (decide (i < 32)%nat) as [Hi|Hi].
  - rewrite reverse32_lookup by done. rewrite reverse32_lookup by lia.
    replace (31 - (31 - i))%nat with i by lia.
    by destruct (lookup_lt_is_Some_2 l i) as [x ->]; [lia|].
  - rewrite !lookup_ge_None_2; [done|lia|]. rewrite reverse32_length. lia.
Qed.

(** Masking the top bit changes nothing of a reduced coordinate. *)
Lemma mask_reduced l : length l = 32%nat -> byte_to_Z (default x00 (l !! 31%nat)) < 128 ->
  upd_byte (take 32 l) 31 (fun x => Z.land x 0x7F) = l.
Proof.
  intros Hl Hb. rewrite take_ge by lia. unfold upd_byte.
  destruct (lookup_lt_is_Some_2 l 31) as [x E]; [lia|]. rewrite E in Hb. cbn in Hb.
  apply list_eq. intros i. destruct (decide (i = 31%nat)) as [->|Hi];
    [|by rewrite list_lookup_alter_ne by done].
  rewrite list_lookup_alter_eq, E. cbn. f_equal.
  change 0x7F with (Z.ones 7). rewrite Z.land_ones by lia.
  rewrite Z.mod_small by (pose proof (byte_to_Z_range x); lia). apply byte_of_to_Z.
Qed.

Lemma x25519_scalar_public scalar A :
  length A = 32%nat -> byte_to_Z (default x00 (A !! 0%nat)) < 128 ->
  x25519_scalar scalar (reverse32 A) =
  let? grp := mbedtls_ecp_group_load_curve25519 in
  let? s := mbedtls_mpi_read_binary (clamped scalar) in
  reverse32 <$> ecp_shared grp s A.
Proof.
  intros Hl Hb. unfold x25519_scalar, x25519_compute, ecp_shared. fold (clamped scalar).
  rewrite (mask_reduced (reverse32 A)); [|apply reverse32_length|rewrite reverse32_lookup by lia; exact Hb].
  rewrite reverse32_twice by done.
  destruct mbedtls_ecp_group_load_curve25519 as [grp|]; opt_cbn; [|done].
  destruct (mbedtls_mpi_read_binary (clamped scalar)) as [s|]; opt_cbn; [|done].
  destruct (mbedtls_mpi_read_binary A) as [X|]; opt_cbn; [|done].
  destruct (mbedtls_mpi_lset 1) as [one|]; opt_cbn; [|done].
  by destruct (mbedtls_ecp_mul _ _ _) as [R|].
Qed.

(** Diffie-Hellman through the wrappers. *)
Lemma x25519_agree `{!EcpLaws} a b A B :
  x25519_base a = Some A -> x25519_base b = Some B -> x25519_scalar a B = x25519_scalar b A.
Proof.
  rewrite !x25519_base_eq.
  destruct mbedtls_ecp_group_load_curve25519 as [grp|] eqn:Eg; opt_cbn; [|done].
  destruct (mbedtls_mpi_read_binary (clamped a)) as [sa|] eqn:Ea; opt_cbn; [|done].
  destruct (ecp_public grp sa) as [A'|] eqn:EA; opt_cbn; [|done]. intros [= <-].
  destruct (mbedtls_mpi_read_binary (clamped b)) as [sb|] eqn:Eb; opt_cbn; [|done].
  destruct (ecp_public grp sb) as [B'|] eqn:EB; opt_cbn; [|done]. intros [= <-].
  destruct (ecp_reduced _ _ _ Eg EA), (ecp_reduced _ _ _ Eg EB).
  rewrite !x25519_scalar_public, Eg by done. opt_cbn. rewrite Ea, Eb. opt_cbn.
  by rewrite (ecp_commutes _ _ _ _ _ Eg EA EB).
Qed.
End dh.

(** ** Negotiation *)

Section negotiation.
Context `{PF : Platform} `{PL : !PlatformLaws}.

(** Sixteen random octets, one by one, so that the rest can be evaluated. *)
Ltac spell_cookie w :=
  pose proof (p_random_length (w_hist w) 16) as H; set (c := p_random _ 16) in *; clearbody c;
  do 16 (destruct c as [|? c]; [discriminate H|]); destruct c; [|discriminate H].

Lemma client_kexinit_selects w : select_kex_alg (ClientKex.put_kexinit [] w).1 = Some CURVE25519_SHA256.
Proof.
  unfold ClientKex.put_kexinit, randomBytes. rewrite run_call. spell_cookie w. by vm_compute.
Qed.

Lemma server_kexinit_checks w : check_kexinit (build_kexinit_payload [] w).1 = inr tt.
Proof. unfold build_kexinit_payload, randomBytes. rewrite run_call. spell_cookie w. by vm_compute. Qed.

(** Negotiation between the two programs never fails, whatever the cookies: the
    server picks curve25519 from what the client offers, and the client accepts what
    the server offers. *)
Theorem negotiation_agrees ws wc :
  select_kex_alg (ClientKex.put_kexinit [] wc).1 = Some CURVE25519_SHA256 /\
  check_kexinit (build_kexinit_payload [] ws).1 = inr tt.
Proof. split; [apply client_kexinit_selects|apply server_kexinit_checks]. Qed.
End negotiation.

Lemma negotiation_agrees_witness :
  select_kex_alg (ClientKex.put_kexinit (PF := PFc) [] dialled).1 = Some CURVE25519_SHA256 /\
  check_kexinit (build_kexinit_payload (PF := PFc) [] idle).1 = inr tt.
Proof. apply (negotiation_agrees (PF := PFc) (PL := scripted_laws _ _ _ _)). Defined.

(** ** One exchange, hashed and expanded by both ends *)

Section exchange.
Context `{MB : Mbedtls}.

(** What the ends have told each other before the key exchange. *)
Record mirrors (s : Session) (c : Csess) : Prop := {
  mir_client_version : c_ourVersion c = s_peerVersion s;
  mir_server_version : c_peerVersion c = s_ourVersion s;
  mir_client_kexinit : c_ourKexInit c = s_peerKexInit s;
  mir_server_kexinit : c_peerKexInit c = s_ourKexInit s;
  mir_curve : s_kexAlg s = CURVE25519_SHA256
}.

Lemma same_exchange_hash s c kBlob :
  mirrors s c -> c_ephPub c = s_peerEphPub s -> c_peerEphPub c = s_ephPub s -> c_sharedK c = s_sharedK s ->
  ClientKex.compute_exchange_hash c kBlob = SessionKex.compute_exchange_hash s kBlob.
Proof.
  intros [E1 E2 E3 E4 E5] E6 E7 E8.
  unfold ClientKex.compute_exchange_hash, SessionKex.compute_exchange_hash, hash_update_K, hash_K.
  rewrite E5, E1, E2, E3, E4, E6, E7, E8. cbn [bool_decide decide]. by rewrite !bool_decide_eq_false_2.
Qed.

Lemma same_derive_key s c letter outLen :
  s_kexAlg s = CURVE25519_SHA256 -> c_sharedK c = s_sharedK s -> c_sessionId c = s_sessionId s ->
  ClientKex.derive_key c letter outLen = SessionKex.derive_key s letter outLen.
Proof.
  intros Ea Ek Es. unfold ClientKex.derive_key, SessionKex.derive_key.
  generalize true as f, (@nil byte) as out. induction (Z.to_nat outLen) as [|n IH]; intros f out; cbn; [done|].
  assert (ClientKex.derive_block c letter f out = SessionKex.derive_block s letter f out) as ->.
  { unfold ClientKex.derive_block, SessionKex.derive_block, hash_update_K, hash_K.
    rewrite Ea, Ek, Es. by rewrite bool_decide_eq_false_2. }
  by rewrite IH.
Qed.
End exchange.

(** ** The server's half *)

Lemma sent_app a b : sent (a ++ b) = sent b ++ sent a.
Proof. unfold sent. by rewrite omap_app, reverse_app, concat_app. Qed.

Section server.
Context `{PF : Platform} `{PL : !PlatformLaws} `{MB : Mbedtls} `{ED : Ed25519} `{EL : !Ed25519Laws} `{KEM : MlKem}.

(** The packet a payload travels in before the keys are in use. *)
Definition clear_packet (p : bytes) (f : bytes) : Prop :=
  exists pad, blen pad = pad_len false (blen p) /\ f = frame false [] 0 (pad_len false (blen p)) p pad.

Lemma srv_send_clear p w :
  s_phase (ses (w_loc w)) <> CLOSED -> 0 <= s_tcp (ses (w_loc w)) -> s_encOutbound (ses (w_loc w)) = false ->
  exists evs f, SessionState.send_packet p w =
      (tt, World {| ses := sent_one (ses (w_loc w)); slotInUse := slotInUse (w_loc w) |} (evs ++ w_hist w)) /\
    sent evs = f /\ clear_packet p f.
Proof.
  intros Hp Ht He. unfold SessionState.send_packet. rewrite run_getS. rewrite bool_decide_eq_false_2 by done.
  rewrite (proj2 (Z.ltb_ge _ _) Ht), He. cbn [orb].
  unfold randomBytes. rewrite run_call. unfold send_raw_tcp. rewrite run_assoc, run_getS. cbn [w_loc ses].
  rewrite (proj2 (Z.ltb_ge _ _) Ht). unfold itsSend. rewrite run_assoc, run_call.
  set (pad := p_random _ _). set (f := frame _ _ _ _ _ _).
  eexists [_; _], f. split; [reflexivity|]. split; [cbn; by rewrite app_nil_r|].
  exists pad. split; [|reflexivity]. unfold blen, pad. rewrite p_random_length.
  pose proof (pad_len_bounds false (blen p) (blen_nonneg p)). unfold blen in *. lia.
Qed.

(** A session that waits for the client's public key in its first exchange. *)
Definition awaits_key (s : Session) : Prop :=
  s_phase s = KEX_WAIT_ECDH /\ s_kexAlg s = CURVE25519_SHA256 /\ 0 <= s_tcp s /\
  s_encOutbound s = false /\ s_haveSessionId s = false.

Definition reply_payload (kBlob pub sg : bytes) : bytes :=
  put_string (put_string (put_string (put_u8 [] SessionState.MSG_KEX_ECDH_REPLY) kBlob) pub)
    (put_string (put_cstring [] (str "ssh-ed25519")) sg).

(** What the exchange came to on the server's side. *)
Record answered (s s' : Session) (peer hostPub sg : bytes) : Prop := {
  ans_priv : exists priv, x25519_base priv = Some (s_ephPub s') /\
    x25519_scalar priv peer = Some (s_sharedK s');
  ans_alg : s_kexAlg s' = CURVE25519_SHA256;
  ans_peer : s_peerEphPub s' = peer;
  ans_rest : (s_peerVersion s', s_ourVersion s', s_peerKexInit s', s_ourKexInit s') =
             (s_peerVersion s, s_ourVersion s, s_peerKexInit s, s_ourKexInit s);
  ans_id : s_sessionId s' = SessionKex.compute_exchange_hash s' (build_host_key_blob hostPub);
  ans_sig : exists seed, ed25519_pub_from_seed seed = Some hostPub /\
    ed25519_sign seed (s_sessionId s') = Some sg;
  ans_c2s : s_c2sKey s' = SessionKex.derive_key s' x43 64;
  ans_s2c : s_s2cKey s' = SessionKex.derive_key s' x44 64;
  ans_out : s_encOutbound s' = true;
  ans_seq : s_seqOut s' = u64 (u64 (s_seqOut s + 1) + 1)
}.

Lemma load_host_key_result w r w' :
  load_host_key w = (r, w') -> w_loc w' = w_loc w /\
  (forall seed pub, r = Some (seed, pub) -> ed25519_pub_from_seed seed = Some pub) /\
  exists evs, w_hist w' = evs ++ w_hist w /\ sent evs = [].
Proof.
  unfold load_host_key, storageGetStr, log, notify. rewrite run_call. set (v := p_get_str _ _ _).
  repeat (case_match; subst; rewrite ?run_call); unfold mret, M_ret; intros [= <- <-];
    (split; [done|]; split; [naive_solver|first [eexists [_]; split; reflexivity|eexists [_; _]; split; reflexivity]]).
Qed.

(** Reading back the one field of KEX_ECDH_INIT. *)
Lemma get_put_string d : blen d < 2 ^ 31 -> exists v, get_string (view_init (put_string [] d)) = (Some d, v).
Proof.
  intros H. rewrite put_string_app by lia. cbn [app].
  assert (view_at (view_init (be32_bytes (blen d) ++ d)) (be32_bytes (blen d) ++ d ++ [])) as Hv.
  { rewrite app_nil_r. apply view_init_at. rewrite blen_app, blen_be32_bytes. lia. }
  destruct (get_string_at _ _ _ Hv) as (v & E & _). by exists v.
Qed.

#[local] Ltac step H a w E := apply bind_inv in H as (a & w & E & H).

Definition set_ses (g : Session -> Session) (w : world srv) : world srv :=
  World {| ses := g (ses (w_loc w)); slotInUse := slotInUse (w_loc w) |} (w_hist w).
Lemma run_updS_set {B} g (f : unit -> M (world srv) B) w : (updS g ≫= f) w = f tt (set_ses g w).
Proof. done. Qed.

(** What the key computation leaves behind. *)
Definition with_secret (priv pub k : bytes) (s : Session) : Session :=
  {| s with s_ephPriv := priv; s_ephPub := pub; s_sharedK := k |}.

Lemma classical_result w w' :
  kex_compute_classical w = (true, w') ->
  exists priv pub k, x25519_base priv = Some pub /\
    x25519_scalar priv (s_peerEphPub (ses (w_loc w))) = Some k /\
    w' = World (w_loc (set_ses (with_secret priv pub k) w)) (EvRandom priv :: w_hist w).
Proof.
  unfold kex_compute_classical, randomBytes. rewrite run_call, run_updS_set. set (priv := p_random _ 32).
  destruct (x25519_base priv) as [pub|] eqn:Eb; [|done].
  rewrite run_updS_set, run_getS.
  match goal with |- context [x25519_scalar ?a ?b] =>
    change a with priv; change b with (s_peerEphPub (ses (w_loc w))) end.
  destruct (x25519_scalar priv _) as [k|] eqn:Es; [|done].
  rewrite run_updS_set. intros H. exists priv, pub, k. split; [done|]. split; [done|].
  by symmetry; apply (f_equal snd H).
Qed.

Definition with_id (H : bytes) (s : Session) : Session :=
  {| s with s_sessionId := H; s_haveSessionId := true |}.

(** The session once the exchange is hashed. *)
Definition exchanged (priv pub k hostPub : bytes) (s : Session) : Session :=
  let s := with_secret priv pub k s in
  with_id (SessionKex.compute_exchange_hash s (build_host_key_blob hostPub)) s.

Lemma reply_result w w' :
  let s := ses (w_loc w) in
  s_kexAlg s = CURVE25519_SHA256 -> s_phase s <> CLOSED -> 0 <= s_tcp s ->
  s_encOutbound s = false -> s_haveSessionId s = false ->
  send_kex_ecdh_reply w = (true, w') ->
  exists evs f seed hostPub sg priv pub k,
    x25519_base priv = Some pub /\ x25519_scalar priv (s_peerEphPub s) = Some k /\
    ed25519_pub_from_seed seed = Some hostPub /\
    ed25519_sign seed (s_sessionId (exchanged priv pub k hostPub s)) = Some sg /\
    ses (w_loc w') = sent_one (exchanged priv pub k hostPub s) /\
    w_hist w' = evs ++ w_hist w /\ sent evs = f /\
    clear_packet (reply_payload (build_host_key_blob hostPub) pub sg) f.
Proof.
  intros s Ha Hp Ht Ho Hs H. unfold send_kex_ecdh_reply in H.
  step H key w2 E2. apply load_host_key_result in E2 as (L2 & Hk & e2 & G2 & S2).
  destruct key as [[seed hostPub]|]; [|done]. specialize (Hk _ _ eq_refl).
  rewrite run_getS, L2 in H. fold s in H. rewrite Ha, bool_decide_eq_false_2 in H by done.
  step H ok w3 E3. destruct ok; [|done]. cbn [negb] in H.
  apply classical_result in E3 as (priv & pub & k & Eb & Ek & ->).
  rewrite L2 in Ek. fold s in Ek. rewrite run_getS in H. cbv zeta in H.
  change (ses (w_loc (World _ (EvRandom priv :: w_hist w2))))
    with (with_secret priv pub k (ses (w_loc w2))) in H.
  rewrite L2 in H. fold s in H.
  rewrite run_when_true in H by (by change (s_haveSessionId _) with (s_haveSessionId s); rewrite Hs).
  rewrite run_updS_set in H.
  destruct (ed25519_sign seed _) as [sg|] eqn:Eg; [|done].
  rewrite run_getS in H. cbv zeta in H.
  match type of H with context [set_ses ?g ?x] => set (w3 := set_ses g x) in H end.
  assert (ses (w_loc w3) = exchanged priv pub k hostPub s) as E3.
  { unfold w3, set_ses. cbn [w_loc ses]. by rewrite L2. }
  rewrite E3 in H. change (s_kexAlg (exchanged _ _ _ _ _)) with (s_kexAlg s) in H.
  rewrite Ha, bool_decide_eq_false_2 in H by done.
  step H u w4 E4.
  destruct (srv_send_clear (reply_payload (build_host_key_blob hostPub) pub sg) w3)
    as (e4 & f & E4' & Sf & Cf); [by rewrite E3..|].
  change (put_string _ (put_string (put_cstring [] (str "ssh-ed25519")) sg))
    with (reply_payload (build_host_key_blob hostPub) pub sg) in E4.
  rewrite E4' in E4. assert (w4 = w') as -> by (apply (f_equal snd H)).
  exists (e4 ++ EvRandom priv :: e2), f, seed, hostPub, sg, priv, pub, k.
  split_and!; [done..|by apply (f_equal snd) in E4; cbn [snd] in E4; subst w'; cbn [w_loc ses]; rewrite E3| | |done].
  - apply (f_equal snd) in E4. cbn [snd] in E4. subst w'. cbn [w_hist].
    change (w_hist w3) with (EvRandom priv :: w_hist w2). rewrite G2.
    by rewrite <- app_assoc.
  - rewrite sent_app. cbn [app]. change (EvRandom priv :: e2) with ([EvRandom priv] ++ e2).
    by rewrite sent_app, S2, Sf.
Qed.

Lemma derive_key_ext s s' letter outLen :
  s_kexAlg s = s_kexAlg s' -> s_sharedK s = s_sharedK s' -> s_sessionId s = s_sessionId s' ->
  SessionKex.derive_key s letter outLen = SessionKex.derive_key s' letter outLen.
Proof.
  intros Ea Ek Es. unfold SessionKex.derive_key.
  generalize true as f, (@nil byte) as out. induction (Z.to_nat outLen) as [|n IH]; intros f out; cbn; [done|].
  assert (SessionKex.derive_block s letter f out = SessionKex.derive_block s' letter f out) as ->.
  { unfold SessionKex.derive_block, hash_update_K. by rewrite Ea, Ek, Es. }
  by rewrite IH.
Qed.

Lemma server_answers peer ws ws' :
  awaits_key (ses (w_loc ws)) -> length peer = 32%nat ->
  handle_kex_ecdh_init (put_string [] peer) ws = (true, ws') ->
  exists evs hostPub sg f1 f2,
    w_hist ws' = evs ++ w_hist ws /\ sent evs = f1 ++ f2 /\
    clear_packet (reply_payload (build_host_key_blob hostPub) (s_ephPub (ses (w_loc ws'))) sg) f1 /\
    clear_packet (put_u8 [] SessionState.MSG_NEWKEYS) f2 /\
    answered (ses (w_loc ws)) (ses (w_loc ws')) peer hostPub sg.
Proof.
  intros (Hph & Ha & Ht & Ho & Hs) Hl. unfold handle_kex_ecdh_init.
  destruct (get_put_string peer) as [v ->]; [unfold blen; lia|].
  rewrite run_getS. cbv zeta. rewrite Ha, bool_decide_eq_false_2 by done. cbn [andb negb].
  assert ((blen peer =? 32) = true) as -> by (apply Z.eqb_eq; unfold blen; lia). cbn [negb].
  rewrite run_updS_set. match goal with |- context [set_ses ?g ws] => set (w0 := set_ses g ws) end.
  intros H. step H ok w1 E1. destruct ok; [|by step H u w2 E2]. cbn [negb] in H.
  apply reply_result in E1 as (e1 & f1 & seed & hostPub & sg & priv & pub & k & Eb & Ek & Hk & Hg & L1 & G1 & S1 & C1);
    [|done|by change (s_phase (ses (w_loc w0))) with (s_phase (ses (w_loc ws))); rewrite Hph|done..].
  set (s1 := exchanged _ _ _ _ _) in *.
  step H u w2 E2.
  destruct (srv_send_clear (put_u8 [] SessionState.MSG_NEWKEYS) w1) as (e2 & f2 & E2' & S2 & C2);
    [rewrite L1..|]; [|done..|].
  { change (s_phase _) with (s_phase (ses (w_loc ws))). by rewrite Hph. }
  rewrite E2' in E2. apply (f_equal snd) in E2. cbn [snd] in E2. rewrite L1 in E2.
  unfold derive_session_keys in H. rewrite run_assoc, run_updS_set, run_updS_set, run_updS_set in H.
  unfold mret, M_ret in H. apply (f_equal snd) in H. cbn [snd] in H. subst w2 ws'.
  exists (e2 ++ e1), hostPub, sg, f1, f2.
  split; [cbn [w_hist set_ses]; rewrite G1; by rewrite <- app_assoc|].
  split; [by rewrite sent_app, S1, S2|]. split; [exact C1|]. split; [exact C2|].
  constructor.
  1: by exists priv. 5: by exists seed. 5, 6: by apply derive_key_ext.
  all: first [exact Ha|reflexivity].
Qed.
End server.

(** ** Strings behind each other *)

(** A view at the encodings of some strings, followed by [rest]. *)
Fixpoint strings (l : list bytes) (rest : bytes) : bytes :=
  match l with [] => rest | d :: l => be32_bytes (blen d) ++ d ++ strings l rest end.

Lemma get_string_next v d l rest :
  view_at v (strings (d :: l) rest) ->
  exists v', get_string v = (Some d, v') /\ view_at v' (strings l rest).
Proof. intros H. by apply get_string_at in H. Qed.

Lemma blen_take {A} n (l : list A) : blen l < 2 ^ 31 -> blen (take n l) < 2 ^ 31.
Proof. unfold blen. rewrite length_take. lia. Qed.

Lemma blen_c_str s : blen (c_str s) <= blen s.
Proof. unfold c_str. destruct (find_char _ _ _); [|lia]. unfold blen. rewrite length_take. lia. Qed.

(** The pair [string("ssh-ed25519") string(body)] of keys and signatures. *)
Definition tagged (body : bytes) : bytes := put_string (put_cstring [] (str "ssh-ed25519")) body.

Lemma tagged_eq body : blen body < 2 ^ 31 -> tagged body = strings [str "ssh-ed25519"; body] [].
Proof.
  intros H. unfold tagged, put_cstring. rewrite !put_string_app by (first [done|lia]).
  cbn [strings]. by rewrite app_nil_r, <- !app_assoc.
Qed.

Lemma blen_tagged body : blen body < 2 ^ 31 -> blen (tagged body) = 19 + blen body.
Proof.
  intros H. rewrite tagged_eq by done. cbn [strings]. rewrite !blen_app, !blen_be32_bytes, blen_nil.
  change (blen (str "ssh-ed25519")) with 11. lia.
Qed.

Lemma view_tagged body : blen body < 2 ^ 31 ->
  exists v1 v2, get_string (view_init (tagged body)) = (Some (str "ssh-ed25519"), v1) /\
    get_string v1 = (Some body, v2).
Proof.
  intros H. assert (view_at (view_init (tagged body)) (strings [str "ssh-ed25519"; body] [])) as Hv.
  { rewrite <- tagged_eq by done. apply view_init_at. rewrite blen_tagged by done. lia. }
  apply get_string_next in Hv as (v1 & E1 & Hv). apply get_string_next in Hv as (v2 & E2 & _).
  by exists v1, v2.
Qed.

Lemma ed25519_pair_tagged body n : blen body = n -> n < 2 ^ 31 -> ed25519_pair (tagged body) n = inl body.
Proof.
  intros <- H. unfold ed25519_pair. destruct (view_tagged body H) as (v1 & v2 & -> & E2).
  rewrite bool_decide_eq_true_2 by done. cbn [negb]. by rewrite E2, Z.eqb_refl.
Qed.

Lemma ed25519_blob_body_tagged body n : blen body = n -> n < 2 ^ 31 ->
  ed25519_blob_body (tagged body) n = Some body.
Proof.
  intros <- H. unfold ed25519_blob_body. destruct (view_tagged body H) as (v1 & v2 & -> & E2).
  rewrite bool_decide_eq_true_2 by done. cbn [negb]. by rewrite E2, Z.eqb_refl.
Qed.

Lemma host_key_blob_tagged pub : length pub = 32%nat -> build_host_key_blob pub = tagged pub.
Proof. intros H. unfold build_host_key_blob. by rewrite take_ge by lia. Qed.

(** ** The client's half *)

Section client.
Context `{PF : Platform} `{MB : Mbedtls} `{ML : !MbedtlsLaws} `{ED : Ed25519} (fuel : positive).

Lemma loop_once {S A B} p (body : A -> M S (A + B)) a s b s' :
  body a s = (inr b, s') -> loop p body a s = (inr b, s').
Proof.
  intros H. rewrite loop_loopn. destruct (Pos2Nat.is_succ p) as [n ->]. cbn [loopn].
  by rewrite (run_bind _ _ _ _ _ H).
Qed.

(** A packet that is already in the buffer is taken off it. *)
Definition took (more : bytes) (c : Csess) : Csess :=
  {| c with c_rxBuf := more; c_seqIn := u64 (c_seqIn c + 1) |}.

Lemma recv_clear ms w t body f more :
  clear_packet (t :: body) f -> blen body <= 34900 -> skipped (byte_to_Z t) = false ->
  c_encIn (cs (w_loc w)) = false -> c_rxBuf (cs (w_loc w)) = f ++ more ->
  exists now, recv_packet fuel ms w =
    (Some (byte_to_Z t, t :: body), set_cs (took more) (World (w_loc w) (EvTicks now :: w_hist w))).
Proof.
  intros (pad & Hpad & ->) Hlen Hsk He Hrx. unfold recv_packet, xTaskGetTickCount.
  rewrite run_call. set (now := p_ticks _). exists now.
  erewrite run_bind; [|apply loop_once]; [reflexivity|].
  unfold recv_step, try_parse. rewrite run_assoc, run_getC. cbn [w_loc].
  rewrite He, Hrx. unfold parse.
  assert (forall q, parse_plain (frame false [] 0 q (t :: body) pad ++ more) =
                    parse false [] 0 (frame false [] 0 q (t :: body) pad ++ more)) as -> by done.
  rewrite (parse_sent false [] 0 (t :: body, pad)); [|split; [cbn [fst]; rewrite blen_cons; lia|done]].
  rewrite run_assoc, run_updC, run_ret. cbn [Z.eqb Pos.eqb fst]. rewrite Hsk. reflexivity.
Qed.

(** What the reply makes of the client's session. *)
Definition with_reply (pub k : bytes) (c : Csess) : Csess :=
  {| c with c_peerEphPub := pub; c_sharedK := k |}.
Definition client_exchanged (kBlob pub k : bytes) (c : Csess) : Csess :=
  let c := with_reply pub k c in {| c with c_sessionId := ClientKex.compute_exchange_hash c kBlob |}.

Lemma check_reply_ok hostPub sg k pub w :
  length hostPub = 32%nat -> length sg = 64%nat ->
  let c := cs (w_loc w) in
  c_peerEphPub c = pub -> x25519_scalar (c_ephPriv c) pub = Some k ->
  ed25519_verify hostPub (c_sessionId (client_exchanged (tagged hostPub) pub k c)) sg = true ->
  check_reply (tagged hostPub) (tagged sg) w =
    (Some (Some hostPub), set_cs (client_exchanged (tagged hostPub) pub k) w).
Proof.
  intros Hh Hs c Hp Hk Hv. unfold check_reply.
  rewrite (ed25519_pair_tagged hostPub) by (unfold blen; lia).
  rewrite (ed25519_pair_tagged sg) by (unfold blen; lia).
  rewrite run_getC. fold c. rewrite Hp, Hk, run_updC, run_getC. cbv zeta. rewrite run_updC.
  match goal with |- context [set_cs ?g (set_cs ?h w)] => set (w2 := set_cs g (set_cs h w)) end.
  assert (w2 = set_cs (client_exchanged (tagged hostPub) pub k) w) as E.
  { unfold w2, set_cs, client_exchanged, with_reply. cbn [w_loc cs w_hist job s_offeredMethods]. fold c.
    rewrite <- Hp. by destruct c. }
  match goal with |- context [ed25519_verify hostPub ?h sg] =>
    change h with (c_sessionId (cs (w_loc w2))) end.
  rewrite E. cbn [set_cs w_loc cs]. fold c. rewrite Hv. done.
Qed.

Lemma known_hosts_loc host fp : keeps (same (fun l => l)) (known_hosts_check host fp).
Proof.
  assert (forall k i, keeps (same (fun l => l)) (known_hosts_loop k i host fp)) as Hl.
  { intros k. induction k as [|k IH]; intros i; cbn [known_hosts_loop]; unfold_client_calls; solve_keeps. }
  unfold known_hosts_check. unfold_client_calls. solve_keeps.
Qed.

Lemma diag_loc t : keeps (same (fun l => l)) (diag t).
Proof. unfold diag. unfold_client_calls. solve_keeps. Qed.

Definition sent_c (c : Csess) : Csess := {| c with c_seqOut := u64 (c_seqOut c + 1) |}.

Lemma cl_send_loc p w :
  exists h, send_packet p w = (tt, World (w_loc (set_cs sent_c w)) h).
Proof.
  unfold send_packet, randomBytes. rewrite run_getC, run_call. unfold send_raw.
  rewrite run_assoc, run_getC. destruct (_ <? 0); [by eexists|].
  unfold itsSend. rewrite run_assoc, run_call. by eexists.
Qed.

Definition switched (k1 k2 : bytes) (c : Csess) : Csess :=
  {| c with c_seqOut := u64 (c_seqOut c + 1); c_sendKey := k1; c_recvKey := k2; c_encOut := true |}.

(** The end of the exchange: what is left to do once the host is accepted. *)
Definition keyed_c (c c' : Csess) : Prop :=
  transcript c' = transcript c /\ c_rxBuf c' = [] /\ c_encOut c' = true /\ c_encIn c' = true /\
  c_sendKey c' = ClientKex.derive_key c x43 64 /\ c_recvKey c' = ClientKex.derive_key c x44 64 /\
  c_seqIn c' = u64 (c_seqIn c + 1) /\ c_seqOut c' = u64 (c_seqOut c + 1).

Lemma finish_kex_accepts ks w note wk f :
  let c := cs (w_loc w) in
  known_hosts_check (j_host (job (w_loc w))) (hostkey_fingerprint ks 80) w = ((true, note), wk) ->
  clear_packet (put_u8 [] MSG_NEWKEYS) f -> c_encIn c = false -> c_rxBuf c = f ->
  exists w', finish_kex fuel ks w = (Some true, w') /\ keyed_c c (cs (w_loc w')).
Proof.
  intros c Hk Hf He Hrx. unfold finish_kex. cbv zeta. rewrite run_getJ, (run_bind _ _ _ _ _ Hk). cbn [negb].
  pose proof (keeps_run _ _ _ _ _ (known_hosts_loc _ _) Hk) as [L1 _].
  unfold log. rewrite run_notify. set (w1 := World _ _).
  destruct (diag (str "* " ++ note ++ [x0d; x0a]) w1) as [u2 w2] eqn:E2. rewrite (run_bind _ _ _ _ _ E2).
  pose proof (keeps_run _ _ _ _ _ (diag_loc _) E2) as [L2 _].
  destruct (cl_send_loc (put_u8 [] MSG_NEWKEYS) w2) as [h3 E3]. rewrite (run_bind _ _ _ _ _ E3), !run_updC.
  match goal with |- context [recv_packet fuel 15000 ≫= ?k] => set (kk := k) end.
  match goal with |- context [(recv_packet fuel 15000 ≫= kk) ?x] => set (w4 := x) end.
  assert (w_loc w2 = w_loc w) as L by (rewrite L2; unfold w1; cbn [w_loc]; by rewrite L1).
  assert (cs (w_loc w4) = switched (ClientKex.derive_key c x43 64) (ClientKex.derive_key c x44 64) c) as E4.
  { set (c0 := sent_c c). set (c1 := {| c0 with c_sendKey := ClientKex.derive_key c0 x43 64 |}).
    transitivity (switched (ClientKex.derive_key c0 x43 64) (ClientKex.derive_key c1 x44 64) c).
    - unfold w4, set_cs. cbn [w_loc cs]. rewrite L. reflexivity.
    - by rewrite (derive_key_transcript c c0), (derive_key_transcript c c1). }
  clearbody w4. unfold kk.
  edestruct (recv_clear 15000 w4) as [now E5];
    [exact Hf|done|done|by rewrite E4|rewrite E4; change (c_rxBuf _) with (c_rxBuf c); by rewrite Hrx, app_nil_r|].
  rewrite (run_bind _ _ _ _ _ E5). cbn [Z.ltb Z.compare negb Z.eqb].
  change (negb (byte_to_Z (byte_of_Z MSG_NEWKEYS) =? MSG_NEWKEYS)) with false.
  change (byte_to_Z (byte_of_Z MSG_NEWKEYS) <? 0) with false. cbv iota. rewrite run_updC.
  eexists. split; [reflexivity|]. unfold set_cs. cbn [w_loc cs]. rewrite E4. done.
Qed.

Lemma reply_payload_eq hostPub pub sg :
  length hostPub = 32%nat -> length sg = 64%nat -> length pub = 32%nat ->
  reply_payload (build_host_key_blob hostPub) pub sg =
    byte_of_Z MSG_KEX_ECDH_REPLY :: strings [tagged hostPub; pub; tagged sg] [] /\
  blen (strings [tagged hostPub; pub; tagged sg] []) = 178.
Proof.
  intros Hh Hs Hp. rewrite host_key_blob_tagged by done.
  assert (blen (tagged hostPub) = 51) as Lk by (rewrite blen_tagged; unfold blen; lia).
  assert (blen (tagged sg) = 83) as Ls by (rewrite blen_tagged; unfold blen; lia).
  assert (blen pub = 32) as Lp by (unfold blen; lia). split.
  - unfold reply_payload. fold (tagged sg). rewrite !put_string_app by (rewrite ?Ls; lia).
    cbn [strings put_u8 app]. by rewrite app_nil_r, <- !app_assoc.
  - cbn [strings]. rewrite !blen_app, !blen_be32_bytes, blen_nil. lia.
Qed.

(** Reading the reply and the part up to the verified signature. *)
Lemma on_kex_reply_ok hostPub pub sg k w :
  length hostPub = 32%nat -> length sg = 64%nat -> length pub = 32%nat ->
  let c := cs (w_loc w) in
  let kBlob := build_host_key_blob hostPub in
  x25519_scalar (c_ephPriv c) pub = Some k ->
  ed25519_verify hostPub (c_sessionId (client_exchanged kBlob pub k c)) sg = true ->
  on_kex_reply fuel (reply_payload kBlob pub sg) w =
  finish_kex fuel kBlob (set_cs (client_exchanged kBlob pub k) w).
Proof.
  intros Hh Hs Hp c kBlob Hk Hv. destruct (reply_payload_eq _ _ _ Hh Hs Hp) as [Er Lr].
  apply (f_equal (drop 1)) in Er. change (drop 1 (_ :: ?l)) with l in Er.
  unfold kBlob in *. unfold on_kex_reply. rewrite Er. cbv zeta.
  assert (view_at (view_init (strings [tagged hostPub; pub; tagged sg] [])) (strings [tagged hostPub; pub; tagged sg] []))
    as Hv0 by (apply view_init_at; lia).
  assert (blen pub = 32) as Lp by (unfold blen; lia). rewrite host_key_blob_tagged in * by done.
  apply get_string_next in Hv0 as (v1 & -> & Hv1). apply get_string_next in Hv1 as (v2 & -> & Hv2).
  rewrite Lp. cbn [Z.eqb Pos.eqb negb]. apply get_string_next in Hv2 as (v3 & -> & _).
  rewrite run_updC. set (w1 := set_cs _ w).
  erewrite run_bind; [|apply (check_reply_ok hostPub sg k pub)]; [|done..|exact Hk|].
  - f_equal.
  - exact Hv.
Qed.
End client.

Section agreement.
Context `{PF : Platform} `{PL : !PlatformLaws} `{MB : Mbedtls} `{ML : !MbedtlsLaws} `{XL : !EcpLaws}.
Context `{ED : Ed25519} `{EL : !Ed25519Laws} `{KEM : MlKem} (fuel : positive).

(** Both ends hold the same id and keys and stand at the same packet. *)
Definition agreed (s : Session) (c : Csess) : Prop :=
  c_sessionId c = s_sessionId s /\ c_sharedK c = s_sharedK s /\
  c_sendKey c = s_c2sKey s /\ c_recvKey c = s_s2cKey s /\
  c_encOut c = true /\ c_encIn c = true /\ s_encOutbound s = true /\
  c_seqIn c = s_seqOut s /\ c_rxBuf c = [].

Lemma ed25519_sign_length seed m sg : ed25519_sign seed m = Some sg -> length sg = 64%nat.
Proof.
  unfold ed25519_sign. destruct (orlp_ed25519_create_keypair seed) as [p k]. intros [= <-].
  apply ed25519_sig_length.
Qed.
Lemma ed25519_pub_from_seed_length seed pub : ed25519_pub_from_seed seed = Some pub -> length pub = 32%nat.
Proof.
  unfold ed25519_pub_from_seed. pose proof (ed25519_pub_length seed) as H.
  destruct (orlp_ed25519_create_keypair seed) as [p k]. by intros [= <-].
Qed.

(** The secret the client computes from the server's answer, and the hash. *)
Lemma client_exchange_agrees s s' c hostPub sg :
  mirrors s c -> x25519_base (c_ephPriv c) = Some (c_ephPub c) ->
  answered s s' (c_ephPub c) hostPub sg ->
  x25519_scalar (c_ephPriv c) (s_ephPub s') = Some (s_sharedK s') /\
  c_sessionId (client_exchanged (build_host_key_blob hostPub) (s_ephPub s') (s_sharedK s') c) = s_sessionId s' /\
  length (s_ephPub s') = 32%nat.
Proof.
  intros [M1 M2 M3 M4 M5] Hb [(priv & Eb & Es) Ha Hp [= R1 R2 R3 R4] Hi _ _ _ _ _].
  split; [by rewrite (x25519_agree _ _ _ _ Hb Eb)|].
  split; [|by apply x25519_compute_length in Eb].
  unfold client_exchanged. cbn [c_sessionId]. rewrite Hi. apply same_exchange_hash; [|by rewrite Hp|done..].
  split; cbn; congruence.
Qed.

(** The client reads its answer, asks its known hosts and does what they say; if it
    goes on, it agrees with [s']. *)
Definition completes (wc : world client) (s' : Session) : Prop :=
  exists kBlob pkt wc1 w1 ok note w2 wc',
    recv_packet fuel 15000 wc = (Some (MSG_KEX_ECDH_REPLY, pkt), wc1) /\
    known_hosts_check (j_host (job (w_loc wc))) (ClientKex.hostkey_fingerprint kBlob 80) w1 = ((ok, note), w2) /\
    on_kex_reply fuel pkt wc1 = (Some ok, wc') /\
    (ok = true -> agreed s' (cs (w_loc wc'))).

(** C13: The key exchange of the two programs against each other: from matching
    handshakes, the server's answer to the client's public key is an answer the
    client parses, computes the same secret from, and whose signature it verifies.
    It goes on exactly if its known hosts accept the host key, and then both ends
    hold the same session id and keys, encrypt, and are at the same packet number. *)
Theorem key_exchange_agrees ws ws' wc evs :
  let s := ses (w_loc ws) in let c := cs (w_loc wc) in
  mirrors s c -> awaits_key s ->
  x25519_base (c_ephPriv c) = Some (c_ephPub c) -> c_encIn c = false -> c_seqIn c = s_seqOut s ->
  handle_kex_ecdh_init (put_string [] (c_ephPub c)) ws = (true, ws') ->
  w_hist ws' = evs ++ w_hist ws -> c_rxBuf c = sent evs ->
  completes wc (ses (w_loc ws')).
Proof.
  intros s c Hm Hw Hb He Hq Hrun Hev Hrx.
  destruct (server_answers (c_ephPub c) ws ws') as (evs' & hostPub & sg & f1 & f2 & G & S & C1 & C2 & A);
    [done|by apply x25519_compute_length in Hb|done|].
  assert (evs' = evs) as -> by (apply (app_inv_tail (w_hist ws)); congruence).
  destruct (client_exchange_agrees _ _ _ _ _ Hm Hb A) as (Ek & Eid & Lp).
  destruct (ans_sig _ _ _ _ _ A) as (seed & Epub & Esig).
  set (s' := ses (w_loc ws')) in *. set (kBlob := build_host_key_blob hostPub) in *.
  set (p := reply_payload kBlob (s_ephPub s') sg) in *.
  pose proof (ed25519_sign_length _ _ _ Esig) as Lsg.
  pose proof (ed25519_pub_from_seed_length _ _ Epub) as Lh.
  destruct (reply_payload_eq hostPub (s_ephPub s') sg Lh Lsg Lp) as [Ep Lr]. fold kBlob p in Ep.
  rewrite S in Hrx. rewrite Ep in C1.
  destruct (recv_clear fuel 15000 wc _ _ f1 f2 C1) as [now E1]; [lia|done|done|done|].
  rewrite <- Ep in E1. set (wc1 := set_cs _ _) in E1.
  pose proof (ed25519_verify_sign_ok _ _ _ _ Epub Esig) as Hv.
  destruct (client_exchange_agrees s s' (cs (w_loc wc1)) hostPub sg) as (Ek' & Eid' & _); [by destruct Hm|done|done|].
  pose proof (on_kex_reply_ok fuel hostPub (s_ephPub s') sg (s_sharedK s') wc1 Lh Lsg Lp) as Er.
  cbv zeta in Er. fold kBlob in Er, Eid'. rewrite Eid' in Er. specialize (Er Ek' Hv). fold p in Er.
  set (w1 := set_cs (client_exchanged kBlob _ _) wc1) in Er.
  destruct (known_hosts_check (j_host (job (w_loc wc))) (ClientKex.hostkey_fingerprint kBlob 80) w1)
    as [[ok note] w2] eqn:E2.
  exists kBlob, p, wc1, w1, ok, note, w2. destruct ok.
  - destruct (finish_kex_accepts fuel kBlob w1 note w2 f2) as (wc' & E3 & K); [done..|].
    exists wc'. split_and!; [done|done|by rewrite Er|]. intros _.
    destruct K as (T & Kr & Ko & Ki & Ks & Kv & Kq & _).
    change (c_sessionId (client_exchanged kBlob _ _ _)) with (c_sessionId (cs (w_loc w1))) in Eid'.
    injection T as _ _ _ _ _ _ _ T8 T9.
    assert (forall l, ClientKex.derive_key (cs (w_loc w1)) l 64 = SessionKex.derive_key s' l 64) as Hd
      by (intros l; apply same_derive_key; [by apply (ans_alg _ _ _ _ _ A)|done|exact Eid']).
    split_and!; [by etransitivity; [exact T9|exact Eid']|by rewrite T8| | |done|done|by apply (ans_out _ _ _ _ _ A)| |done].
    + by rewrite Ks, Hd, (ans_c2s _ _ _ _ _ A).
    + by rewrite Kv, Hd, (ans_s2c _ _ _ _ _ A).
    + rewrite Kq, (ans_seq _ _ _ _ _ A). change (c_seqIn (cs (w_loc w1))) with (u64 (c_seqIn c + 1)). by rewrite Hq.
  - eexists. split_and!; [done|done| |done]. rewrite Er.
    unfold finish_kex. cbv zeta. rewrite run_getJ, (run_bind _ _ _ _ _ E2). cbn [negb]. reflexivity.
Qed.
End agreement.

(** ** A concrete exchange *)

Lemma be_number_app a b : be_number (a ++ [b]) = be_number a * 256 + byte_to_Z b.
Proof. unfold be_number. by rewrite fold_left_app. Qed.

Lemma be_number_be n z : 0 <= z < 256 ^ Z.of_nat n -> be_number (number_be n z) = z.
Proof.
  revert z. induction n as [|n IH]; intros z Hz.
  - change (256 ^ Z.of_nat 0) with 1 in Hz. cbn. lia.
  - rewrite Nat2Z.inj_succ, Z.pow_succ_r in Hz by lia. cbn [number_be].
    rewrite be_number_app, IH by dlia. rewrite byte_to_of_Z, Zmod_mod. dlia.
Qed.

Lemma number_be_first n z :
  0 <= z -> number_be (S n) z !! 0%nat = Some (byte_of_Z (z / 256 ^ Z.of_nat n)).
Proof.
  revert z. induction n as [|n IH]; intros z Hz.
  - cbn. rewrite byte_of_Z_mod. by rewrite Z.div_1_r.
  - change (number_be (S (S n)) z) with (number_be (S n) (z / 256) ++ [byte_of_Z (z mod 256)]).
    rewrite lookup_app_l by (rewrite number_be_length; lia).
    rewrite IH by (apply Z.div_pos; lia). rewrite Z.div_div by lia.
    by rewrite Nat2Z.inj_succ, Z.pow_succ_r by lia.
Qed.

Lemma concrete_public grp a : ecp_public grp a = Some (number_be 32 ((a * 9) mod 2 ^ 255)).
Proof. reflexivity. Qed.
Lemma concrete_shared grp a B : ecp_shared grp a B = Some (number_be 32 ((a * be_number B) mod 2 ^ 255)).
Proof. reflexivity. Qed.

Lemma mod_fits z : 0 <= z mod 2 ^ 255 < 256 ^ Z.of_nat 32.
Proof.
  pose proof (Z.mod_pos_bound z (2 ^ 255) ltac:(lia)).
  change (256 ^ Z.of_nat 32) with (2 * 2 ^ 255). lia.
Qed.

#[export] Instance concrete_ecp_laws : EcpLaws.
Proof.
  split.
  - intros grp a b A B _. rewrite !concrete_public. intros HA%Some_inj HB%Some_inj. subst A B.
    rewrite !concrete_shared, !be_number_be by apply mod_fits. do 2 f_equal.
    rewrite !Z.mul_mod_idemp_r by lia. f_equal. lia.
  - intros grp a A _. rewrite concrete_public. intros HA%Some_inj. subst A.
    split; [apply number_be_length|]. rewrite number_be_first by apply mod_fits.
    cbn [from_option id]. rewrite byte_to_of_Z. change (256 ^ Z.of_nat 31) with (2 ^ 248).
    pose proof (Z.mod_pos_bound (a * 9) (2 ^ 255) ltac:(lia)) as Hb.
    assert (0 <= (a * 9) mod 2 ^ 255 / 2 ^ 248 < 128)
      by (split; [apply Z.div_pos; lia|apply Z.div_lt_upper_bound; lia]).
    rewrite Z.mod_small by lia. lia.
Qed.

(** The server of [Runs] once it has the client's KEXINIT; the client once it has the
    server's answer in its buffer. *)
Definition PFa : Platform := host [].
Definition hello_part : list bytes :=
  [ClientState.OUR_VERSION_STR ++ [x0d; x0a] ++ plain_packet client_kexinit; []].
Definition waiting : world srv := run_data hello_part (run_open hello_part).
Definition answer : bool * world srv :=
  handle_kex_ecdh_init (PF := PFa) (put_string [] client_pub) waiting.
Definition answer_events : history :=
  take (length (w_hist answer.2) - length (w_hist waiting)) (w_hist answer.2).
Definition answered_client : world client :=
  set_cs (fun c => {| c with c_handle := 5; c_ourVersion := ClientState.OUR_VERSION_STR;
    c_peerVersion := SessionState.OUR_VERSION_STR; c_ourKexInit := client_kexinit;
    c_peerKexInit := s_ourKexInit (ses (w_loc waiting)); c_ephPriv := client_eph; c_ephPub := client_pub;
    c_rxBuf := sent answer_events; c_seqIn := 1 |}) (World (mkClient new_Csess client_job []) []).
Strategy expand [waiting answer answer_events answered_client].

Lemma key_exchange_agrees_witness : completes (PF := PFa) fuel9 answered_client (ses (w_loc answer.2)).
Proof.
  apply (key_exchange_agrees (PF := PFa) (PL := scripted_laws _ _ _ _) fuel9 waiting answer.2 answered_client answer_events).
  - split; by vm_compute.
  - split_and!; by vm_compute.
  - by vm_compute.
  - by vm_compute.
  - by vm_compute.
  - by vm_compute.
  - by vm_compute.
  - by vm_compute.
Defined.
