(* ===== verification/Logins.v ===== *)
(** * Logins: the requests the client builds against the checks of the server

    The client's publickey and password requests, handed to the server's handler. *)
From S2P Require Import Prelude Text Wire Platform Crypto Base64 Concrete Framing SessionState SessionKex SessionAuth Runs SshdKeys KeysFacts KeyLines ClientState ClientKex ClientAuth ClientChannel ClientRuns ClientTrust Agreement.
(** ** Logins *)

Section login.
Context `{PF : Platform} `{MB : Mbedtls} `{ED : Ed25519} `{EL : !Ed25519Laws} `{KEM : MlKem}.

(** The session of a peer that has logged in as [user]. *)
Definition logged_in (user : bytes) (s : Session) : Session :=
  {| s with s_user := user; s_authed := true; s_phase := RUN |}.

Lemma head_strings user method rest :
  blen user < 2 ^ 31 -> blen method < 2 ^ 31 ->
  userauth_head user method ++ rest =
  byte_of_Z MSG_USERAUTH_REQUEST :: strings [c_str user; str "ssh-connection"; c_str method] rest.
Proof.
  intros Hu Hm. pose proof (blen_c_str user). pose proof (blen_c_str method).
  unfold userauth_head, put_cstring. rewrite !put_string_app by (first [done|lia]).
  change (c_str (str "ssh-connection")) with (str "ssh-connection"). cbn [strings put_u8 app].
  by rewrite <- !app_assoc.
Qed.

(** What the server reads off the head of a request. *)
Lemma request_head user method rest :
  blen user + blen method + blen rest < 2 ^ 31 ->
  exists v, view_at v rest /\ forall (w : world srv),
    handle_userauth_request (strings [c_str user; str "ssh-connection"; c_str method] rest) w =
    (if bool_decide (c_str method = str "publickey") then userauth_publickey v (c_str user) (str "ssh-connection")
     else if bool_decide (c_str method = str "password") then userauth_password v
     else send_userauth_failure false;; mret true)
      (set_ses (fun s => {| s with s_user := c_str user |}) w).
Proof.
  intros Hl. pose proof (blen_c_str user). pose proof (blen_c_str method).
  pose proof (blen_nonneg (c_str user)). pose proof (blen_nonneg (c_str method)). pose proof (blen_nonneg rest).
  set (l := [c_str user; str "ssh-connection"; c_str method]).
  assert (view_at (view_init (strings l rest)) (strings l rest)) as Hv.
  { apply view_init_at. unfold l. cbn [strings]. rewrite !blen_app, !blen_be32_bytes.
    change (blen (str "ssh-connection")) with 14. lia. }
  apply get_string_next in Hv as (v1 & E1 & Hv). apply get_string_next in Hv as (v2 & E2 & Hv).
  apply get_string_next in Hv as (v3 & E3 & Hv). exists v3. split; [exact Hv|]. intros w.
  unfold handle_userauth_request. rewrite E1, E2, E3. by rewrite run_updS_set.
Qed.

Lemma success_logs_in w : (ses (w_loc (send_userauth_success w).2)).(s_authed) = true /\
  (ses (w_loc (send_userauth_success w).2)).(s_phase) = RUN /\
  (ses (w_loc (send_userauth_success w).2)).(s_user) = s_user (ses (w_loc w)).
Proof.
  unfold send_userauth_success.
  destruct (SessionState.send_packet (put_u8 [] SessionState.MSG_USERAUTH_SUCCESS) w) as [u w1] eqn:E.
  erewrite run_bind by exact E. split_and!; [done|done|]. cbn.
  pose proof (send_packet_ses (put_u8 [] SessionState.MSG_USERAUTH_SUCCESS) w) as H. rewrite E in H. cbn [snd] in H.
  rewrite H. by destruct (_ || _).
Qed.

Lemma success_hist : keeps hist_grows send_userauth_success.
Proof. unfold send_userauth_success. solve_keeps. Qed.
Lemma failure_hist p : keeps hist_grows (send_userauth_failure p).
Proof. unfold send_userauth_failure. solve_keeps. Qed.

Lemma failure_refuses p w :
  s_authed (ses (w_loc (send_userauth_failure p w).2)) = s_authed (ses (w_loc w)) /\
  s_phase (ses (w_loc (send_userauth_failure p w).2)) = s_phase (ses (w_loc w)).
Proof. unfold send_userauth_failure. cbv zeta. rewrite send_packet_ses. by destruct (_ || _). Qed.

(** What the answer to a login request leaves: accepted, or as it was. *)
Definition login_result (ok : bool) (user : bytes) (w w' : world srv) : Prop :=
  let s := ses (w_loc w) in let s' := ses (w_loc w') in
  if ok then s_authed s' = true /\ s_phase s' = RUN /\ s_user s' = user
  else s_authed s' = s_authed s /\ s_phase s' = s_phase s.

(** C14: Publickey login across the two programs: the request the client signs for the
    session it shares with the server is accepted exactly if one of the stored
    lines offers its key; then the session is logged in under the client's user name,
    and otherwise nothing about its authentication changes. *)
Theorem publickey_login_agrees st l seed pub sg user w :
  commits st l (w_hist w) -> blen user < 2 ^ 30 ->
  ed25519_pub_from_seed seed = Some pub ->
  ed25519_sign seed (publickey_signed (s_sessionId (ses (w_loc w))) user (publickey_blob pub)) = Some sg ->
  exists w', handle_userauth_request (drop 1 (publickey_request user (publickey_blob pub) sg)) w = (true, w') /\
    login_result (offers l pub) (c_str user) w w'.
Proof.
  intros Hst Hu Hp Hs. pose proof (ed25519_pub_from_seed_length _ _ Hp) as Lp.
  pose proof (ed25519_sign_length _ _ _ Hs) as Ls. pose proof (ed25519_verify_sign_ok _ _ _ _ Hp Hs) as Hv.
  assert (publickey_blob pub = tagged pub) as Eb by (unfold publickey_blob; by rewrite take_ge by lia).
  set (rest := byte_of_Z 1 :: strings [str "ssh-ed25519"; tagged pub; tagged sg] []).
  assert (blen (tagged pub) = 51 /\ blen (tagged sg) = 83) as [L1 L2] by (rewrite !blen_tagged; unfold blen; lia).
  assert (drop 1 (publickey_request user (publickey_blob pub) sg) =
    strings [c_str user; str "ssh-connection"; c_str (str "publickey")] rest) as ->.
  { unfold publickey_request. rewrite Eb. fold (tagged sg).
    unfold put_cstring at 1. rewrite !put_string_app by (first [done|lia]). unfold put_u8 at 1.
    rewrite <- !app_assoc. rewrite head_strings by (first [done|lia]).
    change (drop 1 (_ :: ?l)) with l. unfold rest. cbn [strings]. by rewrite app_nil_r. }
  destruct (request_head user (str "publickey") rest) as (v & Hv0 & ->).
  { unfold rest. rewrite blen_cons. cbn [strings]. rewrite !blen_app, !blen_be32_bytes, blen_nil, L1, L2.
    change (blen (str "publickey")) with 9. change (blen (str "ssh-ed25519")) with 11. lia. }
  rewrite bool_decide_eq_true_2 by done. unfold userauth_publickey.
  apply get_u8_at in Hv0 as (v1 & -> & Hv1). apply get_string_next in Hv1 as (v2 & -> & Hv2).
  apply get_string_next in Hv2 as (v3 & -> & Hv3). rewrite bool_decide_eq_true_2 by done. cbn [negb].
  rewrite (ed25519_blob_body_tagged pub) by (unfold blen; lia).
  set (w0 := set_ses _ w). destruct (authorized_walk st l pub w0 Hst) as (evs & _ & Ew).
  rewrite (run_bind _ _ _ _ _ Ew). set (w1 := World (w_loc w0) _).
  destruct (offers l pub) eqn:Eo; cbn [negb].
  2:{ unfold mret, M_ret, mbind, M_bind. eexists. split; [reflexivity|]. exact (failure_refuses false w1). }
  change (byte_to_Z (byte_of_Z 1) =? 0) with false. cbv iota.
  apply get_string_next in Hv3 as (v4 & -> & _).
  rewrite (ed25519_blob_body_tagged sg) by (unfold blen; lia). rewrite run_getS. cbv zeta.
  change (s_sessionId (ses (w_loc w1))) with (s_sessionId (ses (w_loc w))). rewrite Eb in Hv.
  change (userauth_signed_data _ _ _ _) with (publickey_signed (s_sessionId (ses (w_loc w))) user (tagged pub)).
  rewrite Hv. cbn [negb]. eexists. split; [reflexivity|].
  destruct (success_logs_in w1) as (H1 & H2 & H3). by split_and!.
Qed.

(** Password login across the two programs: the server asks the admin realm about
    the password the client was given (up to a NUL) and the login succeeds exactly if
    the realm accepts it. *)
Theorem password_login_agrees user pw w :
  blen user + blen pw < 2 ^ 30 ->
  exists w' ok, handle_userauth_request (drop 1 (ClientAuth.password_request user pw)) w = (true, w') /\
    (exists evs, w_hist w' = evs ++ EvAuthLogin (c_str pw) (str "admin") ok :: w_hist w) /\
    login_result ok (c_str user) w w'.
Proof.
  intros Hl. pose proof (blen_nonneg user). pose proof (blen_nonneg pw).
  set (rest := byte_of_Z 0 :: strings [pw] []).
  assert (drop 1 (ClientAuth.password_request user pw) =
    strings [c_str user; str "ssh-connection"; c_str (str "password")] rest) as ->.
  { unfold ClientAuth.password_request. rewrite put_string_app by lia. unfold put_u8 at 1. rewrite <- !app_assoc.
    rewrite head_strings by (first [done|lia]). change (drop 1 (_ :: ?l)) with l.
    unfold rest. cbn [strings]. by rewrite app_nil_r. }
  destruct (request_head user (str "password") rest) as (v & Hv0 & ->).
  { unfold rest. rewrite blen_cons. cbn [strings]. rewrite !blen_app, !blen_be32_bytes, blen_nil.
    change (blen (str "password")) with 8. lia. }
  rewrite bool_decide_eq_false_2, bool_decide_eq_true_2 by done. unfold userauth_password.
  apply get_u8_at in Hv0 as (v1 & -> & Hv1). change (negb (byte_to_Z (byte_of_Z 0) =? 0)) with false. cbv iota.
  apply get_string_next in Hv1 as (v2 & -> & _). unfold authLogin. rewrite run_call. cbv beta.
  set (w0 := set_ses _ w). set (ok := p_auth_login _ _ _). set (w1 := World (w_loc w0) _).
  unfold mret, M_ret, mbind, M_bind. eexists _, ok. split; [reflexivity|].
  clearbody ok. unfold login_result. destruct ok.
  - split; [|destruct (success_logs_in w1) as (H1 & H2 & H3); by split_and!].
    destruct (success_hist w1) as [evs E]. exists evs. exact E.
  - split; [|exact (failure_refuses false w1)].
    destruct (failure_hist false w1) as [evs E]. exists evs. exact E.
Qed.
End login.

Definition demo_signature : bytes :=
  default [] (ed25519_sign demo_pub (publickey_signed (s_sessionId (ses (w_loc idle))) (str "admin") (publickey_blob demo_pub))).

Lemma publickey_login_agrees_witness :
  exists w', handle_userauth_request (PF := demo)
      (drop 1 (publickey_request (str "admin") (publickey_blob demo_pub) demo_signature)) idle = (true, w') /\
    login_result true (c_str (str "admin")) idle w'.
Proof.
  assert (offers demo_items demo_pub = true) as <- by by vm_compute.
  apply (publickey_login_agrees (PF := demo) demo_tree demo_items demo_pub demo_pub demo_signature (str "admin") idle).
  - apply demo_commits.
  - done.
  - by vm_compute.
  - by vm_compute.
Defined.

Lemma password_login_agrees_witness :
  exists w' ok, handle_userauth_request (PF := demo)
      (drop 1 (ClientAuth.password_request (str "admin") (str "secret"))) idle = (true, w') /\
    (exists evs, w_hist w' = evs ++ EvAuthLogin (c_str (str "secret")) (str "admin") ok :: w_hist idle) /\
    login_result ok (c_str (str "admin")) idle w'.
Proof. by apply (password_login_agrees (PF := demo) (str "admin") (str "secret") idle). Defined.
