(* ===== verification/Octets.v ===== *)
(** * Octets: numbers in little-endian octets, and parts of buffers

    Shared by the vendored cryptography: [le_val] and [le_octets] convert, [octets o n p]
    is the [n] octets at [p + o], [None] outside of the buffer. *)
From S2P Require Import Prelude.

(** ** Numbers *)

Fixpoint le_val (s : bytes) : Z :=
  match s with [] => 0 | b :: s => byte_to_Z b + 256 * le_val s end.

Lemma le_val_range s : 0 <= le_val s < 256 ^ blen s.
Proof.
  induction s as [|b s IH]; [done|]. rewrite blen_cons, Z.pow_add_r by (pose proof (blen_nonneg s); lia).
  cbn [le_val]. pose proof (byte_to_Z_range b). change (256 ^ 1) with 256. lia.
Qed.

Lemma le_val_inj s t : length s = length t -> le_val s = le_val t -> s = t.
Proof.
  revert t. induction s as [|b s IH]; intros [|c t]; try done. cbn [length le_val]. intros [= Hl] Hv.
  pose proof (byte_to_Z_range b). pose proof (byte_to_Z_range c).
  assert (byte_to_Z b = byte_to_Z c /\ le_val s = le_val t) as [->%byte_to_Z_inj Ht] by lia.
  f_equal. by apply IH.
Qed.

Lemma le_val_bound s n : length s = n -> 0 <= le_val s < 2 ^ (8 * Z.of_nat n).
Proof. intros <-. pose proof (le_val_range s) as H. rewrite Z.pow_mul_r by lia. exact H. Qed.

Lemma div_pow_add x m n : 0 <= m -> 0 <= n -> x / 2 ^ (m + n) = x / 2 ^ m / 2 ^ n.
Proof. intros. rewrite Z.pow_add_r, Z.div_div by lia. done. Qed.

(** The octets of a number. *)
Definition le_octets (n : nat) (v : Z) : bytes := (fun j => byte_of_Z (v / 2 ^ (8 * Z.of_nat j))) <$> seq 0 n.

Lemma le_octets_val n v : le_val (le_octets n v) = v mod 2 ^ (8 * Z.of_nat n).
Proof.
  unfold le_octets. revert v. induction n as [|n IH]; intros v; [by rewrite Z.mod_1_r|].
  cbn [seq fmap list_fmap le_val]. rewrite byte_to_of_Z. change (2 ^ (8 * Z.of_nat 0)) with 1. rewrite Z.div_1_r.
  rewrite <- fmap_S_seq, <- list_fmap_compose.
  rewrite (list_fmap_ext _ (fun j => byte_of_Z (v / 2 ^ 8 / 2 ^ (8 * Z.of_nat j)))), IH.
  { replace (8 * Z.of_nat (S n)) with (8 + 8 * Z.of_nat n) by lia. rewrite Z.pow_add_r by lia.
    change 256 with (2 ^ 8). by rewrite Z.rem_mul_r by lia. }
  intros j i _. unfold compose. f_equal.
  replace (8 * Z.of_nat (S i)) with (8 + 8 * Z.of_nat i) by lia. by rewrite div_pow_add by lia.
Qed.

Lemma byte_of_Z_eq x y : x mod 256 = y mod 256 -> byte_of_Z x = byte_of_Z y.
Proof. intros H. rewrite <- (byte_of_Z_mod x), <- (byte_of_Z_mod y). by rewrite H. Qed.

Lemma le_octets_length n v : length (le_octets n v) = n.
Proof. unfold le_octets. by rewrite length_fmap, length_seq. Qed.
Lemma le_octets_le s n : length s = n -> le_octets n (le_val s) = s.
Proof.
  intros Hs. apply le_val_inj; [by rewrite le_octets_length|].
  rewrite le_octets_val. apply Z.mod_small. exact (le_val_bound s n Hs).
Qed.

(** [a[i]] as a number. *)
Definition octet_at (a : bytes) (i : nat) : Z := byte_to_Z (default x00 (a !! i)).

Lemma octet_at_fmap_seq (f : nat -> Z) n k : (k < n)%nat -> octet_at ((fun i => byte_of_Z (f i)) <$> seq 0 n) k = f k mod 256.
Proof. intros Hk. unfold octet_at. rewrite list_lookup_fmap, lookup_seq_lt by done. apply byte_to_of_Z. Qed.

Lemma octet_at_app_l s t k : (k < length s)%nat -> octet_at (s ++ t) k = octet_at s k.
Proof. intros Hk. unfold octet_at. by rewrite lookup_app_l. Qed.
Lemma octet_at_app_r s t k : (length s <= k)%nat -> octet_at (s ++ t) k = octet_at t (k - length s).
Proof. intros Hk. unfold octet_at. by rewrite lookup_app_r. Qed.
Lemma octet_at_take s n k : (k < n)%nat -> octet_at (take n s) k = octet_at s k.
Proof. intros Hk. unfold octet_at. by rewrite lookup_take_lt. Qed.
Lemma octet_at_drop s n k : octet_at (drop n s) k = octet_at s (n + k).
Proof. unfold octet_at. by rewrite lookup_drop. Qed.
Lemma octet_at_replicate_0 n k : octet_at (replicate n x00) k = 0.
Proof. unfold octet_at. destruct (replicate n x00 !! k) as [b|] eqn:E; [|done]. by apply lookup_replicate in E as [-> _]. Qed.
Lemma octet_at_range s k : 0 <= octet_at s k < 256.
Proof. apply byte_to_Z_range. Qed.
Lemma octet_at_nil k : octet_at [] k = 0.
Proof. done. Qed.
Lemma octet_at_ge s k : (length s <= k)%nat -> octet_at s k = 0.
Proof. intros H. unfold octet_at. by rewrite lookup_ge_None_2. Qed.

Lemma octets_ext S T : length S = length T -> (forall k, (k < length S)%nat -> octet_at S k = octet_at T k) -> S = T.
Proof.
  intros Hl H. apply list_eq_same_length with (length S); [done|done|]. intros k x y Hk Ex Ey.
  specialize (H k Hk). unfold octet_at in H. rewrite Ex, Ey in H. cbn in H. by apply byte_to_Z_inj.
Qed.

Lemma octet_at_val s i : octet_at s i = (le_val s / 2 ^ (8 * Z.of_nat i)) mod 256.
Proof.
  revert i. induction s as [|b s IH]; intros i.
  { unfold octet_at. rewrite lookup_nil. cbn [le_val]. rewrite Z.div_0_l by lia. done. }
  cbn [le_val]. pose proof (byte_to_Z_range b). destruct i as [|i].
  - change (octet_at (b :: s) 0) with (byte_to_Z b). change (2 ^ (8 * Z.of_nat 0)) with 1. rewrite Z.div_1_r.
    rewrite Z.add_comm, Z.mul_comm, Z.add_comm. rewrite Z_mod_plus_full. by rewrite Z.mod_small.
  - change (octet_at (b :: s) (S i)) with (octet_at s i). rewrite IH.
    replace (8 * Z.of_nat (S i)) with (8 + 8 * Z.of_nat i) by lia. rewrite Z.pow_add_r by lia.
    rewrite <- Z.div_div by lia. change (2 ^ 8) with 256. do 2 f_equal. symmetry. dlia.
Qed.

Lemma le_val_insert i b s : (i < length s)%nat ->
  le_val (<[i := byte_of_Z b]> s) = le_val s + (b mod 256 - octet_at s i) * 2 ^ (8 * Z.of_nat i).
Proof.
  revert i. induction s as [|c s IH]; intros [|i] Hi; cbn [length] in Hi; try lia.
  - change (byte_to_Z (byte_of_Z b) + 256 * le_val s = byte_to_Z c + 256 * le_val s + (b mod 256 - byte_to_Z c) * 1).
    rewrite byte_to_of_Z. lia.
  - change (byte_to_Z c + 256 * le_val (<[i := byte_of_Z b]> s) =
      byte_to_Z c + 256 * le_val s + (b mod 256 - octet_at s i) * 2 ^ (8 * Z.of_nat (S i))).
    rewrite IH by lia. replace (8 * Z.of_nat (S i)) with (8 + 8 * Z.of_nat i) by lia. rewrite Z.pow_add_r by lia. ring.
Qed.
Lemma octet_at_insert s i b : (i < length s)%nat -> octet_at (<[i := byte_of_Z b]> s) i = b mod 256.
Proof. intros H. unfold octet_at. rewrite list_lookup_insert_eq by done. apply byte_to_of_Z. Qed.
Lemma octet_at_insert_ne s i j b : i <> j -> octet_at (<[i := byte_of_Z b]> s) j = octet_at s j.
Proof. intros H. unfold octet_at. by rewrite list_lookup_insert_ne. Qed.

(** ** Buffers *)

Definition octets (o n : nat) (p : bytes) : option bytes :=
  if (o + n <=? length p)%nat then Some (take n (drop o p)) else None.

Lemma octets_ok o n p : (o + n <= length p)%nat -> octets o n p = Some (take n (drop o p)).
Proof. intros H. unfold octets. by rewrite (proj2 (Nat.leb_le _ _) H). Qed.
Lemma octets_all n p : length p = n -> octets 0 n p = Some p.
Proof. intros H. rewrite octets_ok by lia. by rewrite drop_0, take_ge by lia. Qed.

(** An accumulated difference is zero exactly if there is none. *)
Lemma or_fold_zero {A} (f : A -> Z) l r :
  fold_left (fun r i => Z.lor r (f i)) l r = 0 <-> r = 0 /\ forall i, i ∈ l -> f i = 0.
Proof.
  revert r. induction l as [|x l IH]; intros r; cbn [fold_left].
  - split; [|by intros [? _]]. intros ->. split; [done|]. intros i Hi. by apply not_elem_of_nil in Hi.
  - rewrite IH, Z.lor_eq_0_iff. setoid_rewrite elem_of_cons. split.
    + intros [[-> E] H]. split; [done|]. intros i [->|Hi]; [done|by apply H].
    + intros [-> H]. split; [split; [done|apply H; by left]|]. intros i Hi. apply H. by right.
Qed.
