(* ===== verification/CInt.v ===== *)
(** * CInt: the signed arithmetic of the vendored C

    The field and scalar code of orlp_ed25519 is straight-line arithmetic on [int32_t]
    and [int64_t].  It is written once, over the operations it uses, and read in three
    ways: [checked] is C, where a result outside the type is undefined behaviour;
    [exact] computes on integers; [interval] computes ranges.  A program that the
    intervals accept has no undefined behaviour and computes what [exact] computes. *)
From S2P Require Import Prelude.

Class Arith := {
  num : Type;
  lit : Z -> num;
  (* int32_t *)
  add32 : num -> num -> num;
  sub32 : num -> num -> num;
  mul32 : num -> num -> num;
  shr32 : num -> Z -> num;
  (* int64_t *)
  add64 : num -> num -> num;
  sub64 : num -> num -> num;
  mul64 : num -> num -> num;
  (* (int32_t) x *)
  cast32 : num -> num;
  (* carry = (h + (1 << (k - 1))) >> k; h -= carry << k;   the carry and the new h *)
  carry64 : Z -> num -> num * num;
  (* carry = h >> k; h -= carry << k; *)
  floor64 : Z -> num -> num * num;
  floor32 : Z -> num -> num * num
}.

Declare Scope c_scope.
Delimit Scope c_scope with c.
Notation "a + b" := (add64 a b) : c_scope.
Notation "a - b" := (sub64 a b) : c_scope.
Notation "a * b" := (mul64 a b) : c_scope.
Notation "a +i b" := (add32 a b) (at level 50, left associativity) : c_scope.
Notation "a -i b" := (sub32 a b) (at level 50, left associativity) : c_scope.
Notation "a *i b" := (mul32 a b) (at level 40, left associativity) : c_scope.
Notation "a >>i k" := (shr32 a k) (at level 54, left associativity) : c_scope.
Bind Scope c_scope with num.

(** ** Integers *)

Definition exact_carry (k z : Z) : Z * Z :=
  let c := Z.shiftr (z + 2 ^ (k - 1)) k in (c, z - c * 2 ^ k).
Definition exact_floor (k z : Z) : Z * Z :=
  let c := Z.shiftr z k in (c, z - c * 2 ^ k).

#[export] Instance exact : Arith := {
  num := Z; lit z := z;
  add32 := Z.add; sub32 := Z.sub; mul32 := Z.mul; shr32 := Z.shiftr;
  add64 := Z.add; sub64 := Z.sub; mul64 := Z.mul; cast32 z := z;
  carry64 := exact_carry; floor64 := exact_floor; floor32 := exact_floor
}.

(** ** C *)

(** The value if it is one of a [w]-bit signed type. *)
Definition signed (w z : Z) : option Z :=
  if (- 2 ^ (w - 1) <=? z) && (z <? 2 ^ (w - 1)) then Some z else None.

Definition arith2 (w : Z) (f : Z -> Z -> Z) (a b : option Z) : option Z :=
  match a, b with Some a, Some b => signed w (f a b) | _, _ => None end.

(** A right shift of a negative number is arithmetic, a left shift multiplies (gcc). *)
Definition checked_floor (w k : Z) (h : option Z) : option Z * option Z :=
  let c := (fun h => Z.shiftr h k) <$> h in
  (c, arith2 w Z.sub h (arith2 w Z.mul c (Some (2 ^ k)))).
Definition checked_carry (w k : Z) (h : option Z) : option Z * option Z :=
  let c := (fun h => Z.shiftr h k) <$> arith2 w Z.add h (Some (2 ^ (k - 1))) in
  (c, arith2 w Z.sub h (arith2 w Z.mul c (Some (2 ^ k)))).

Definition checked : Arith := {|
  num := option Z; lit := Some;
  add32 := arith2 32 Z.add; sub32 := arith2 32 Z.sub; mul32 := arith2 32 Z.mul;
  shr32 a k := (fun a => Z.shiftr a k) <$> a;
  add64 := arith2 64 Z.add; sub64 := arith2 64 Z.sub; mul64 := arith2 64 Z.mul;
  cast32 a := match a with Some a => signed 32 a | None => None end;
  carry64 := checked_carry 64; floor64 := checked_floor 64; floor32 := checked_floor 32
|}.

(** ** Ranges *)

Definition range : Type := option (Z * Z).

Definition fits (w : Z) (r : Z * Z) : range :=
  if (- 2 ^ (w - 1) <=? r.1) && (r.2 <? 2 ^ (w - 1)) then Some r else None.
Definition range2 (w : Z) (f : Z * Z -> Z * Z -> Z * Z) (a b : range) : range :=
  match a, b with Some a, Some b => fits w (f a b) | _, _ => None end.

Definition add_range (a b : Z * Z) : Z * Z := (a.1 + b.1, a.2 + b.2).
Definition sub_range (a b : Z * Z) : Z * Z := (a.1 - b.2, a.2 - b.1).
Definition mul_range (a b : Z * Z) : Z * Z :=
  let p := a.1 * b.1 in let q := a.1 * b.2 in let r := a.2 * b.1 in let s := a.2 * b.2 in
  (Z.min (Z.min p q) (Z.min r s), Z.max (Z.max p q) (Z.max r s)).
Definition shr_range (k : Z) (a : Z * Z) : Z * Z := (Z.shiftr a.1 k, Z.shiftr a.2 k).

(** What is left of [h] is within half a unit of the carry, or below a whole one. *)
Definition range_carry (w k : Z) (h : range) : range * range :=
  match h with
  | Some r =>
      match range2 w add_range h (Some (2 ^ (k - 1), 2 ^ (k - 1))) with
      | Some r' =>
          match fits w (mul_range (shr_range k r') (2 ^ k, 2 ^ k)) with
          | Some _ => if (0 <? k) && (k <? w) then (Some (shr_range k r'), Some (- 2 ^ (k - 1), 2 ^ (k - 1) - 1)) else (None, None)
          | None => (None, None)
          end
      | None => (None, None)
      end
  | None => (None, None)
  end.
Definition range_floor (w k : Z) (h : range) : range * range :=
  match h with
  | Some r =>
      match fits w r, fits w (mul_range (shr_range k r) (2 ^ k, 2 ^ k)) with
      | Some _, Some _ => if (0 <? k) && (k <? w) then (Some (shr_range k r), Some (0, 2 ^ k - 1)) else (None, None)
      | _, _ => (None, None)
      end
  | None => (None, None)
  end.

Definition interval : Arith := {|
  num := range; lit z := Some (z, z);
  add32 := range2 32 add_range; sub32 := range2 32 sub_range; mul32 := range2 32 mul_range;
  shr32 a k := if 0 <=? k then shr_range k <$> a else None;
  add64 := range2 64 add_range; sub64 := range2 64 sub_range; mul64 := range2 64 mul_range;
  cast32 a := match a with Some a => fits 32 a | None => None end;
  carry64 := range_carry 64; floor64 := range_floor 64; floor32 := range_floor 32
|}.

(** ** Agreement

    What the intervals say: the C value exists, is the exact one and is in the range. *)
Definition rel (c : option Z) (z : Z) (r : range) : Prop :=
  match r with Some (lo, hi) => c = Some z /\ lo <= z <= hi | None => True end.
Definition rel2 (p : option Z * option Z) (q : Z * Z) (r : range * range) : Prop :=
  rel p.1 q.1 r.1 /\ rel p.2 q.2 r.2.

Lemma signed_in w z lo hi r :
  fits w r = Some (lo, hi) -> r.1 <= z <= r.2 -> signed w z = Some z /\ lo <= z <= hi.
Proof.
  unfold fits, signed. destruct (_ && _) eqn:E; [|done]. apply andb_true_iff in E as [E1%Z.leb_le E2%Z.ltb_lt].
  intros [= ->] H. cbn in *.
  rewrite (proj2 (Z.leb_le _ _)), (proj2 (Z.ltb_lt _ _)) by lia. done.
Qed.

Lemma rel_arith2 w f g a z r a' z' r' :
  (forall x y p q, p.1 <= x <= p.2 -> q.1 <= y <= q.2 -> (g p q).1 <= f x y <= (g p q).2) ->
  rel a z r -> rel a' z' r' -> rel (arith2 w f a a') (f z z') (range2 w g r r').
Proof.
  intros Hg. destruct r as [[lo hi]|]; [|done]. destruct r' as [[lo' hi']|]; [|done].
  intros [-> H] [-> H']. cbn [range2 arith2]. destruct (fits w _) as [[l h]|] eqn:E; [|done].
  apply (signed_in _ _ _ _ _ E). by apply Hg.
Qed.

Lemma add_range_ok x y (p q : Z * Z) : p.1 <= x <= p.2 -> q.1 <= y <= q.2 ->
  (add_range p q).1 <= x + y <= (add_range p q).2.
Proof. unfold add_range. cbn. lia. Qed.
Lemma sub_range_ok x y (p q : Z * Z) : p.1 <= x <= p.2 -> q.1 <= y <= q.2 ->
  (sub_range p q).1 <= x - y <= (sub_range p q).2.
Proof. unfold sub_range. cbn. lia. Qed.
Lemma mul_between a b x y : a <= x <= b -> Z.min (a * y) (b * y) <= x * y <= Z.max (a * y) (b * y).
Proof.
  intros H. destruct (Z.le_ge_cases 0 y).
  - assert (a * y <= x * y <= b * y) by nia. lia.
  - assert (b * y <= x * y <= a * y) by nia. lia.
Qed.
Lemma mul_range_ok x y (p q : Z * Z) : p.1 <= x <= p.2 -> q.1 <= y <= q.2 ->
  (mul_range p q).1 <= x * y <= (mul_range p q).2.
Proof.
  destruct p as [a b], q as [c d]. unfold mul_range. cbn [fst snd]. intros Hx Hy.
  pose proof (mul_between a b x y Hx). pose proof (mul_between c d y a Hy). pose proof (mul_between c d y b Hy).
  rewrite (Z.mul_comm c a), (Z.mul_comm d a), (Z.mul_comm y a), (Z.mul_comm c b), (Z.mul_comm d b), (Z.mul_comm y b) in *.
  lia.
Qed.
Lemma shr_range_ok k x (p : Z * Z) : 0 <= k -> p.1 <= x <= p.2 ->
  (shr_range k p).1 <= Z.shiftr x k <= (shr_range k p).2.
Proof.
  intros Hk H. unfold shr_range. cbn. rewrite !Z.shiftr_div_pow2 by done.
  split; apply Z.div_le_mono; lia.
Qed.

(** ** The operations respect the agreement *)

Lemma rel_lit z : rel (@lit checked z) (@lit exact z) (@lit interval z).
Proof. split; [done|cbn; lia]. Qed.

Section ops.
Context (a b : @num checked) (x y : @num exact) (r s : @num interval).
Context (Ha : rel a x r) (Hb : rel b y s).

Lemma rel_add32 : rel (add32 a b) (add32 x y) (add32 r s).
Proof. apply rel_arith2; [apply add_range_ok|done..]. Qed.
Lemma rel_sub32 : rel (sub32 a b) (sub32 x y) (sub32 r s).
Proof. apply rel_arith2; [apply sub_range_ok|done..]. Qed.
Lemma rel_mul32 : rel (mul32 a b) (mul32 x y) (mul32 r s).
Proof. apply rel_arith2; [apply mul_range_ok|done..]. Qed.
Lemma rel_add64 : rel (add64 a b) (add64 x y) (add64 r s).
Proof. apply rel_arith2; [apply add_range_ok|done..]. Qed.
Lemma rel_sub64 : rel (sub64 a b) (sub64 x y) (sub64 r s).
Proof. apply rel_arith2; [apply sub_range_ok|done..]. Qed.
Lemma rel_mul64 : rel (mul64 a b) (mul64 x y) (mul64 r s).
Proof. apply rel_arith2; [apply mul_range_ok|done..]. Qed.

Lemma rel_shr32 k : rel (shr32 a k) (shr32 x k) (shr32 r k).
Proof.
  cbn. destruct (Z.leb_spec 0 k); [|done]. destruct r as [[lo hi]|]; [|done]. destruct Ha as [-> H0].
  cbn. split; [done|]. by apply (shr_range_ok k x (lo, hi)).
Qed.

Lemma rel_cast32 : rel (cast32 a) (cast32 x) (cast32 r).
Proof.
  cbn. destruct r as [p|]; [|done]. destruct (fits 32 p) as [[lo hi]|] eqn:E; [|done].
  destruct p as [l h], Ha as [-> H]. apply (signed_in _ _ _ _ _ E H).
Qed.

Lemma floor_rem k z : 0 < k -> 0 <= z - Z.shiftr z k * 2 ^ k <= 2 ^ k - 1.
Proof.
  intros Hk. rewrite Z.shiftr_div_pow2 by lia.
  pose proof (Z.div_mod z (2 ^ k) ltac:(lia)). pose proof (Z.mod_pos_bound z (2 ^ k) ltac:(lia)). lia.
Qed.

Lemma carry_rem k z : 0 < k ->
  - 2 ^ (k - 1) <= z - Z.shiftr (z + 2 ^ (k - 1)) k * 2 ^ k <= 2 ^ (k - 1) - 1.
Proof.
  intros Hk. pose proof (floor_rem k (z + 2 ^ (k - 1)) Hk).
  assert (2 ^ k = 2 * 2 ^ (k - 1)) by (rewrite <- Z.pow_succ_r by lia; f_equal; lia). lia.
Qed.

Lemma signed_small w k z : 0 < k < w -> - 2 ^ k <= z < 2 ^ k -> signed w z = Some z.
Proof.
  intros Hk Hz. unfold signed. assert (2 ^ k <= 2 ^ (w - 1)) by (apply Z.pow_le_mono_r; lia).
  by rewrite (proj2 (Z.leb_le _ _)), (proj2 (Z.ltb_lt _ _)) by lia.
Qed.

Lemma rel_floor w k : rel2 (checked_floor w k a) (exact_floor k x) (range_floor w k r).
Proof.
  unfold rel2, range_floor. destruct r as [p|]; [|done].
  destruct (fits w p) as [p1|] eqn:E1; [|done].
  destruct (fits w (mul_range _ _)) as [[l2 h2]|] eqn:E2; [|done].
  destruct (_ && _) eqn:Ek; [|done]. apply andb_true_iff in Ek as [Hk%Z.ltb_lt Hw%Z.ltb_lt].
  destruct p as [lo hi], Ha as [-> H]. cbn [checked_floor exact_floor fst snd fmap option_fmap option_map].
  pose proof (shr_range_ok k x (lo, hi) ltac:(lia) H) as Hs.
  pose proof (floor_rem k x Hk) as Hr. assert (0 < 2 ^ k) by lia.
  split; [by split|]. split; [|exact Hr]. cbn [arith2].
  destruct (signed_in _ (Z.shiftr x k * 2 ^ k) _ _ _ E2) as [-> _]; [by apply mul_range_ok|].
  cbn [arith2]. apply (signed_small w k); lia.
Qed.

Lemma rel_carry w k : rel2 (checked_carry w k a) (exact_carry k x) (range_carry w k r).
Proof.
  unfold rel2, range_carry. destruct r as [p|]; [|done].
  destruct (range2 w add_range _ _) as [p1|] eqn:E1; [|done].
  destruct (fits w (mul_range _ _)) as [[l2 h2]|] eqn:E2; [|done].
  destruct (_ && _) eqn:Ek; [|done]. apply andb_true_iff in Ek as [Hk%Z.ltb_lt Hw%Z.ltb_lt].
  destruct p as [lo hi], Ha as [-> H]. destruct p1 as [l1 h1]. cbn [range2] in E1.
  destruct (signed_in _ (x + 2 ^ (k - 1)) _ _ _ E1) as [E H1]; [apply add_range_ok; cbn in *; lia|].
  unfold checked_carry, exact_carry. cbn [arith2 fst snd]. rewrite E. cbn [fmap option_fmap option_map].
  pose proof (shr_range_ok k (x + 2 ^ (k - 1)) (l1, h1) ltac:(lia) H1) as Hs.
  pose proof (carry_rem k x Hk) as Hr. assert (0 < 2 ^ (k - 1)) by lia.
  assert (2 ^ k = 2 * 2 ^ (k - 1)) by (rewrite <- Z.pow_succ_r by lia; f_equal; lia).
  split; [by split|]. split; [|exact Hr]. cbn [arith2].
  destruct (signed_in _ (Z.shiftr (x + 2 ^ (k - 1)) k * 2 ^ k) _ _ _ E2) as [-> _]; [by apply mul_range_ok|].
  cbn [arith2]. apply (signed_small w k); lia.
Qed.
End ops.

Create HintDb crel.
#[export] Hint Resolve rel_lit rel_add32 rel_sub32 rel_mul32 rel_shr32 rel_add64 rel_sub64 rel_mul64 rel_cast32 : crel.

Lemma rel_carry64 a x r k : rel a x r -> rel2 (@carry64 checked k a) (@carry64 exact k x) (@carry64 interval k r).
Proof. intros H. apply (rel_carry _ _ _ H). Qed.
Lemma rel_floor64 a x r k : rel a x r -> rel2 (@floor64 checked k a) (@floor64 exact k x) (@floor64 interval k r).
Proof. intros H. apply (rel_floor _ _ _ H). Qed.
Lemma rel_floor32 a x r k : rel a x r -> rel2 (@floor32 checked k a) (@floor32 exact k x) (@floor32 interval k r).
Proof. intros H. apply (rel_floor _ _ _ H). Qed.
#[export] Hint Resolve rel_carry64 rel_floor64 rel_floor32 : crel.

(** Walk down the assignments of a program and its three readings in step. *)
Ltac crel_step :=
  lazymatch goal with
  | |- ?R (let x := ?a in @?f x) (let y := ?b in @?g y) (let z := ?c in @?h z) =>
      let H := fresh "H" in
      assert (rel a b c) as H by (eauto 30 with crel);
      change (R (f a) (g b) (h c)); revert H; generalize a, b, c; intros ? ? ? ?; cbv beta
  | |- ?R (match ?a with pair _ _ => _ end) (match ?b with pair _ _ => _ end) (match ?c with pair _ _ => _ end) =>
      let H := fresh "H" in
      assert (rel2 a b c) as H by (eauto 30 with crel);
      revert H; generalize a, b, c; intros [? ?] [? ?] [? ?] [? ?]; cbn [fst snd] in *; cbv beta iota
  end.
