(* ===== verification/Fe25519.v ===== *)
(** * Fe25519: the field of Ed25519, [fe.c] of orlp_ed25519

    An element is ten signed limbs of alternately 26 and 25 bits, not unique and with
    slack for additions.  The functions are the straight-line programs of the source,
    assignment by assignment, over the operations of [CInt]. *)
From S2P Require Import Prelude CInt.

(** [typedef int32_t fe[10];] *)
Record fe (T : Type) := Fe { fe0 : T; fe1 : T; fe2 : T; fe3 : T; fe4 : T; fe5 : T; fe6 : T; fe7 : T; fe8 : T; fe9 : T }.
Arguments Fe {T}. Arguments fe0 {T}. Arguments fe1 {T}. Arguments fe2 {T}. Arguments fe3 {T}. Arguments fe4 {T}.
Arguments fe5 {T}. Arguments fe6 {T}. Arguments fe7 {T}. Arguments fe8 {T}. Arguments fe9 {T}.

Definition fe_map {T U} (g : T -> U) (f : fe T) : fe U :=
  Fe (g (fe0 f)) (g (fe1 f)) (g (fe2 f)) (g (fe3 f)) (g (fe4 f)) (g (fe5 f)) (g (fe6 f)) (g (fe7 f)) (g (fe8 f)) (g (fe9 f)).

Section programs.
Context {A : Arith}.
Local Open Scope c_scope.

Definition orlp_fe_0 : fe num :=
  Fe (lit 0) (lit 0) (lit 0) (lit 0) (lit 0) (lit 0) (lit 0) (lit 0) (lit 0) (lit 0).
Definition orlp_fe_1 : fe num :=
  Fe (lit 1) (lit 0) (lit 0) (lit 0) (lit 0) (lit 0) (lit 0) (lit 0) (lit 0) (lit 0).

Definition orlp_fe_copy (f : fe num) : fe num :=
  Fe (fe0 f) (fe1 f) (fe2 f) (fe3 f) (fe4 f) (fe5 f) (fe6 f) (fe7 f) (fe8 f) (fe9 f).

Definition orlp_fe_add (f g : fe num) : fe num :=
  let f0 := fe0 f in let f1 := fe1 f in let f2 := fe2 f in let f3 := fe3 f in let f4 := fe4 f in
  let f5 := fe5 f in let f6 := fe6 f in let f7 := fe7 f in let f8 := fe8 f in let f9 := fe9 f in
  let g0 := fe0 g in let g1 := fe1 g in let g2 := fe2 g in let g3 := fe3 g in let g4 := fe4 g in
  let g5 := fe5 g in let g6 := fe6 g in let g7 := fe7 g in let g8 := fe8 g in let g9 := fe9 g in
  let h0 := f0 +i g0 in let h1 := f1 +i g1 in let h2 := f2 +i g2 in let h3 := f3 +i g3 in
  let h4 := f4 +i g4 in let h5 := f5 +i g5 in let h6 := f6 +i g6 in let h7 := f7 +i g7 in
  let h8 := f8 +i g8 in let h9 := f9 +i g9 in
  Fe h0 h1 h2 h3 h4 h5 h6 h7 h8 h9.

Definition orlp_fe_sub (f g : fe num) : fe num :=
  let f0 := fe0 f in let f1 := fe1 f in let f2 := fe2 f in let f3 := fe3 f in let f4 := fe4 f in
  let f5 := fe5 f in let f6 := fe6 f in let f7 := fe7 f in let f8 := fe8 f in let f9 := fe9 f in
  let g0 := fe0 g in let g1 := fe1 g in let g2 := fe2 g in let g3 := fe3 g in let g4 := fe4 g in
  let g5 := fe5 g in let g6 := fe6 g in let g7 := fe7 g in let g8 := fe8 g in let g9 := fe9 g in
  let h0 := f0 -i g0 in let h1 := f1 -i g1 in let h2 := f2 -i g2 in let h3 := f3 -i g3 in
  let h4 := f4 -i g4 in let h5 := f5 -i g5 in let h6 := f6 -i g6 in let h7 := f7 -i g7 in
  let h8 := f8 -i g8 in let h9 := f9 -i g9 in
  Fe h0 h1 h2 h3 h4 h5 h6 h7 h8 h9.

Definition orlp_fe_neg (f : fe num) : fe num :=
  let f0 := fe0 f in let f1 := fe1 f in let f2 := fe2 f in let f3 := fe3 f in let f4 := fe4 f in
  let f5 := fe5 f in let f6 := fe6 f in let f7 := fe7 f in let f8 := fe8 f in let f9 := fe9 f in
  let h0 := lit 0 -i f0 in let h1 := lit 0 -i f1 in let h2 := lit 0 -i f2 in
  let h3 := lit 0 -i f3 in let h4 := lit 0 -i f4 in let h5 := lit 0 -i f5 in
  let h6 := lit 0 -i f6 in let h7 := lit 0 -i f7 in let h8 := lit 0 -i f8 in
  let h9 := lit 0 -i f9 in
  Fe h0 h1 h2 h3 h4 h5 h6 h7 h8 h9.

(** The end of [orlp_fe_mul], [orlp_fe_sq] and [orlp_fe_sq2]: twelve carries, the tenth of
    which wraps around as 2^255 = 19. *)
Definition fe_carry (h0 h1 h2 h3 h4 h5 h6 h7 h8 h9 : num) : fe num :=
  let '(carry0, h0) := carry64 26 h0 in let h1 := h1 + carry0 in
  let '(carry4, h4) := carry64 26 h4 in let h5 := h5 + carry4 in
  let '(carry1, h1) := carry64 25 h1 in let h2 := h2 + carry1 in
  let '(carry5, h5) := carry64 25 h5 in let h6 := h6 + carry5 in
  let '(carry2, h2) := carry64 26 h2 in let h3 := h3 + carry2 in
  let '(carry6, h6) := carry64 26 h6 in let h7 := h7 + carry6 in
  let '(carry3, h3) := carry64 25 h3 in let h4 := h4 + carry3 in
  let '(carry7, h7) := carry64 25 h7 in let h8 := h8 + carry7 in
  let '(carry4, h4) := carry64 26 h4 in let h5 := h5 + carry4 in
  let '(carry8, h8) := carry64 26 h8 in let h9 := h9 + carry8 in
  let '(carry9, h9) := carry64 25 h9 in let h0 := h0 + carry9 * lit 19 in
  let '(carry0, h0) := carry64 26 h0 in let h1 := h1 + carry0 in
  Fe (cast32 h0) (cast32 h1) (cast32 h2) (cast32 h3) (cast32 h4) 
     (cast32 h5) (cast32 h6) (cast32 h7) (cast32 h8) (cast32 h9).

Definition orlp_fe_mul (f g : fe num) : fe num :=
  let f0 := fe0 f in let f1 := fe1 f in let f2 := fe2 f in let f3 := fe3 f in let f4 := fe4 f in
  let f5 := fe5 f in let f6 := fe6 f in let f7 := fe7 f in let f8 := fe8 f in let f9 := fe9 f in
  let g0 := fe0 g in let g1 := fe1 g in let g2 := fe2 g in let g3 := fe3 g in let g4 := fe4 g in
  let g5 := fe5 g in let g6 := fe6 g in let g7 := fe7 g in let g8 := fe8 g in let g9 := fe9 g in
  let g1_19 := lit 19 *i g1 in let g2_19 := lit 19 *i g2 in let g3_19 := lit 19 *i g3 in
  let g4_19 := lit 19 *i g4 in let g5_19 := lit 19 *i g5 in let g6_19 := lit 19 *i g6 in
  let g7_19 := lit 19 *i g7 in let g8_19 := lit 19 *i g8 in let g9_19 := lit 19 *i g9 in
  let f1_2 := lit 2 *i f1 in let f3_2 := lit 2 *i f3 in let f5_2 := lit 2 *i f5 in
  let f7_2 := lit 2 *i f7 in let f9_2 := lit 2 *i f9 in let f0g0 := f0 * g0 in
  let f0g1 := f0 * g1 in let f0g2 := f0 * g2 in let f0g3 := f0 * g3 in let f0g4 := f0 * g4 in
  let f0g5 := f0 * g5 in let f0g6 := f0 * g6 in let f0g7 := f0 * g7 in let f0g8 := f0 * g8 in
  let f0g9 := f0 * g9 in let f1g0 := f1 * g0 in let f1g1_2 := f1_2 * g1 in let f1g2 := f1 * g2 in
  let f1g3_2 := f1_2 * g3 in let f1g4 := f1 * g4 in let f1g5_2 := f1_2 * g5 in
  let f1g6 := f1 * g6 in let f1g7_2 := f1_2 * g7 in let f1g8 := f1 * g8 in
  let f1g9_38 := f1_2 * g9_19 in let f2g0 := f2 * g0 in let f2g1 := f2 * g1 in
  let f2g2 := f2 * g2 in let f2g3 := f2 * g3 in let f2g4 := f2 * g4 in let f2g5 := f2 * g5 in
  let f2g6 := f2 * g6 in let f2g7 := f2 * g7 in let f2g8_19 := f2 * g8_19 in
  let f2g9_19 := f2 * g9_19 in let f3g0 := f3 * g0 in let f3g1_2 := f3_2 * g1 in
  let f3g2 := f3 * g2 in let f3g3_2 := f3_2 * g3 in let f3g4 := f3 * g4 in
  let f3g5_2 := f3_2 * g5 in let f3g6 := f3 * g6 in let f3g7_38 := f3_2 * g7_19 in
  let f3g8_19 := f3 * g8_19 in let f3g9_38 := f3_2 * g9_19 in let f4g0 := f4 * g0 in
  let f4g1 := f4 * g1 in let f4g2 := f4 * g2 in let f4g3 := f4 * g3 in let f4g4 := f4 * g4 in
  let f4g5 := f4 * g5 in let f4g6_19 := f4 * g6_19 in let f4g7_19 := f4 * g7_19 in
  let f4g8_19 := f4 * g8_19 in let f4g9_19 := f4 * g9_19 in let f5g0 := f5 * g0 in
  let f5g1_2 := f5_2 * g1 in let f5g2 := f5 * g2 in let f5g3_2 := f5_2 * g3 in
  let f5g4 := f5 * g4 in let f5g5_38 := f5_2 * g5_19 in let f5g6_19 := f5 * g6_19 in
  let f5g7_38 := f5_2 * g7_19 in let f5g8_19 := f5 * g8_19 in let f5g9_38 := f5_2 * g9_19 in
  let f6g0 := f6 * g0 in let f6g1 := f6 * g1 in let f6g2 := f6 * g2 in let f6g3 := f6 * g3 in
  let f6g4_19 := f6 * g4_19 in let f6g5_19 := f6 * g5_19 in let f6g6_19 := f6 * g6_19 in
  let f6g7_19 := f6 * g7_19 in let f6g8_19 := f6 * g8_19 in let f6g9_19 := f6 * g9_19 in
  let f7g0 := f7 * g0 in let f7g1_2 := f7_2 * g1 in let f7g2 := f7 * g2 in
  let f7g3_38 := f7_2 * g3_19 in let f7g4_19 := f7 * g4_19 in let f7g5_38 := f7_2 * g5_19 in
  let f7g6_19 := f7 * g6_19 in let f7g7_38 := f7_2 * g7_19 in let f7g8_19 := f7 * g8_19 in
  let f7g9_38 := f7_2 * g9_19 in let f8g0 := f8 * g0 in let f8g1 := f8 * g1 in
  let f8g2_19 := f8 * g2_19 in let f8g3_19 := f8 * g3_19 in let f8g4_19 := f8 * g4_19 in
  let f8g5_19 := f8 * g5_19 in let f8g6_19 := f8 * g6_19 in let f8g7_19 := f8 * g7_19 in
  let f8g8_19 := f8 * g8_19 in let f8g9_19 := f8 * g9_19 in let f9g0 := f9 * g0 in
  let f9g1_38 := f9_2 * g1_19 in let f9g2_19 := f9 * g2_19 in let f9g3_38 := f9_2 * g3_19 in
  let f9g4_19 := f9 * g4_19 in let f9g5_38 := f9_2 * g5_19 in let f9g6_19 := f9 * g6_19 in
  let f9g7_38 := f9_2 * g7_19 in let f9g8_19 := f9 * g8_19 in let f9g9_38 := f9_2 * g9_19 in
  let h0 := f0g0 + f1g9_38 + f2g8_19 + f3g7_38 + f4g6_19 + f5g5_38 + f6g4_19 + f7g3_38 + f8g2_19 + f9g1_38 in
  let h1 := f0g1 + f1g0 + f2g9_19 + f3g8_19 + f4g7_19 + f5g6_19 + f6g5_19 + f7g4_19 + f8g3_19 + f9g2_19 in
  let h2 := f0g2 + f1g1_2 + f2g0 + f3g9_38 + f4g8_19 + f5g7_38 + f6g6_19 + f7g5_38 + f8g4_19 + f9g3_38 in
  let h3 := f0g3 + f1g2 + f2g1 + f3g0 + f4g9_19 + f5g8_19 + f6g7_19 + f7g6_19 + f8g5_19 + f9g4_19 in
  let h4 := f0g4 + f1g3_2 + f2g2 + f3g1_2 + f4g0 + f5g9_38 + f6g8_19 + f7g7_38 + f8g6_19 + f9g5_38 in
  let h5 := f0g5 + f1g4 + f2g3 + f3g2 + f4g1 + f5g0 + f6g9_19 + f7g8_19 + f8g7_19 + f9g6_19 in
  let h6 := f0g6 + f1g5_2 + f2g4 + f3g3_2 + f4g2 + f5g1_2 + f6g0 + f7g9_38 + f8g8_19 + f9g7_38 in
  let h7 := f0g7 + f1g6 + f2g5 + f3g4 + f4g3 + f5g2 + f6g1 + f7g0 + f8g9_19 + f9g8_19 in
  let h8 := f0g8 + f1g7_2 + f2g6 + f3g5_2 + f4g4 + f5g3_2 + f6g2 + f7g1_2 + f8g0 + f9g9_38 in
  let h9 := f0g9 + f1g8 + f2g7 + f3g6 + f4g5 + f5g4 + f6g3 + f7g2 + f8g1 + f9g0 in
  fe_carry h0 h1 h2 h3 h4 h5 h6 h7 h8 h9.

Definition orlp_fe_sq (f : fe num) : fe num :=
  let f0 := fe0 f in let f1 := fe1 f in let f2 := fe2 f in let f3 := fe3 f in let f4 := fe4 f in
  let f5 := fe5 f in let f6 := fe6 f in let f7 := fe7 f in let f8 := fe8 f in let f9 := fe9 f in
  let f0_2 := lit 2 *i f0 in let f1_2 := lit 2 *i f1 in let f2_2 := lit 2 *i f2 in
  let f3_2 := lit 2 *i f3 in let f4_2 := lit 2 *i f4 in let f5_2 := lit 2 *i f5 in
  let f6_2 := lit 2 *i f6 in let f7_2 := lit 2 *i f7 in let f5_38 := lit 38 *i f5 in
  let f6_19 := lit 19 *i f6 in let f7_38 := lit 38 *i f7 in let f8_19 := lit 19 *i f8 in
  let f9_38 := lit 38 *i f9 in let f0f0 := f0 * f0 in let f0f1_2 := f0_2 * f1 in
  let f0f2_2 := f0_2 * f2 in let f0f3_2 := f0_2 * f3 in let f0f4_2 := f0_2 * f4 in
  let f0f5_2 := f0_2 * f5 in let f0f6_2 := f0_2 * f6 in let f0f7_2 := f0_2 * f7 in
  let f0f8_2 := f0_2 * f8 in let f0f9_2 := f0_2 * f9 in let f1f1_2 := f1_2 * f1 in
  let f1f2_2 := f1_2 * f2 in let f1f3_4 := f1_2 * f3_2 in let f1f4_2 := f1_2 * f4 in
  let f1f5_4 := f1_2 * f5_2 in let f1f6_2 := f1_2 * f6 in let f1f7_4 := f1_2 * f7_2 in
  let f1f8_2 := f1_2 * f8 in let f1f9_76 := f1_2 * f9_38 in let f2f2 := f2 * f2 in
  let f2f3_2 := f2_2 * f3 in let f2f4_2 := f2_2 * f4 in let f2f5_2 := f2_2 * f5 in
  let f2f6_2 := f2_2 * f6 in let f2f7_2 := f2_2 * f7 in let f2f8_38 := f2_2 * f8_19 in
  let f2f9_38 := f2 * f9_38 in let f3f3_2 := f3_2 * f3 in let f3f4_2 := f3_2 * f4 in
  let f3f5_4 := f3_2 * f5_2 in let f3f6_2 := f3_2 * f6 in let f3f7_76 := f3_2 * f7_38 in
  let f3f8_38 := f3_2 * f8_19 in let f3f9_76 := f3_2 * f9_38 in let f4f4 := f4 * f4 in
  let f4f5_2 := f4_2 * f5 in let f4f6_38 := f4_2 * f6_19 in let f4f7_38 := f4 * f7_38 in
  let f4f8_38 := f4_2 * f8_19 in let f4f9_38 := f4 * f9_38 in let f5f5_38 := f5 * f5_38 in
  let f5f6_38 := f5_2 * f6_19 in let f5f7_76 := f5_2 * f7_38 in let f5f8_38 := f5_2 * f8_19 in
  let f5f9_76 := f5_2 * f9_38 in let f6f6_19 := f6 * f6_19 in let f6f7_38 := f6 * f7_38 in
  let f6f8_38 := f6_2 * f8_19 in let f6f9_38 := f6 * f9_38 in let f7f7_38 := f7 * f7_38 in
  let f7f8_38 := f7_2 * f8_19 in let f7f9_76 := f7_2 * f9_38 in let f8f8_19 := f8 * f8_19 in
  let f8f9_38 := f8 * f9_38 in let f9f9_38 := f9 * f9_38 in
  let h0 := f0f0 + f1f9_76 + f2f8_38 + f3f7_76 + f4f6_38 + f5f5_38 in
  let h1 := f0f1_2 + f2f9_38 + f3f8_38 + f4f7_38 + f5f6_38 in
  let h2 := f0f2_2 + f1f1_2 + f3f9_76 + f4f8_38 + f5f7_76 + f6f6_19 in
  let h3 := f0f3_2 + f1f2_2 + f4f9_38 + f5f8_38 + f6f7_38 in
  let h4 := f0f4_2 + f1f3_4 + f2f2 + f5f9_76 + f6f8_38 + f7f7_38 in
  let h5 := f0f5_2 + f1f4_2 + f2f3_2 + f6f9_38 + f7f8_38 in
  let h6 := f0f6_2 + f1f5_4 + f2f4_2 + f3f3_2 + f7f9_76 + f8f8_19 in
  let h7 := f0f7_2 + f1f6_2 + f2f5_2 + f3f4_2 + f8f9_38 in
  let h8 := f0f8_2 + f1f7_4 + f2f6_2 + f3f5_4 + f4f4 + f9f9_38 in
  let h9 := f0f9_2 + f1f8_2 + f2f7_2 + f3f6_2 + f4f5_2 in
  fe_carry h0 h1 h2 h3 h4 h5 h6 h7 h8 h9.

Definition orlp_fe_sq2 (f : fe num) : fe num :=
  let f0 := fe0 f in let f1 := fe1 f in let f2 := fe2 f in let f3 := fe3 f in let f4 := fe4 f in
  let f5 := fe5 f in let f6 := fe6 f in let f7 := fe7 f in let f8 := fe8 f in let f9 := fe9 f in
  let f0_2 := lit 2 *i f0 in let f1_2 := lit 2 *i f1 in let f2_2 := lit 2 *i f2 in
  let f3_2 := lit 2 *i f3 in let f4_2 := lit 2 *i f4 in let f5_2 := lit 2 *i f5 in
  let f6_2 := lit 2 *i f6 in let f7_2 := lit 2 *i f7 in let f5_38 := lit 38 *i f5 in
  let f6_19 := lit 19 *i f6 in let f7_38 := lit 38 *i f7 in let f8_19 := lit 19 *i f8 in
  let f9_38 := lit 38 *i f9 in let f0f0 := f0 * f0 in let f0f1_2 := f0_2 * f1 in
  let f0f2_2 := f0_2 * f2 in let f0f3_2 := f0_2 * f3 in let f0f4_2 := f0_2 * f4 in
  let f0f5_2 := f0_2 * f5 in let f0f6_2 := f0_2 * f6 in let f0f7_2 := f0_2 * f7 in
  let f0f8_2 := f0_2 * f8 in let f0f9_2 := f0_2 * f9 in let f1f1_2 := f1_2 * f1 in
  let f1f2_2 := f1_2 * f2 in let f1f3_4 := f1_2 * f3_2 in let f1f4_2 := f1_2 * f4 in
  let f1f5_4 := f1_2 * f5_2 in let f1f6_2 := f1_2 * f6 in let f1f7_4 := f1_2 * f7_2 in
  let f1f8_2 := f1_2 * f8 in let f1f9_76 := f1_2 * f9_38 in let f2f2 := f2 * f2 in
  let f2f3_2 := f2_2 * f3 in let f2f4_2 := f2_2 * f4 in let f2f5_2 := f2_2 * f5 in
  let f2f6_2 := f2_2 * f6 in let f2f7_2 := f2_2 * f7 in let f2f8_38 := f2_2 * f8_19 in
  let f2f9_38 := f2 * f9_38 in let f3f3_2 := f3_2 * f3 in let f3f4_2 := f3_2 * f4 in
  let f3f5_4 := f3_2 * f5_2 in let f3f6_2 := f3_2 * f6 in let f3f7_76 := f3_2 * f7_38 in
  let f3f8_38 := f3_2 * f8_19 in let f3f9_76 := f3_2 * f9_38 in let f4f4 := f4 * f4 in
  let f4f5_2 := f4_2 * f5 in let f4f6_38 := f4_2 * f6_19 in let f4f7_38 := f4 * f7_38 in
  let f4f8_38 := f4_2 * f8_19 in let f4f9_38 := f4 * f9_38 in let f5f5_38 := f5 * f5_38 in
  let f5f6_38 := f5_2 * f6_19 in let f5f7_76 := f5_2 * f7_38 in let f5f8_38 := f5_2 * f8_19 in
  let f5f9_76 := f5_2 * f9_38 in let f6f6_19 := f6 * f6_19 in let f6f7_38 := f6 * f7_38 in
  let f6f8_38 := f6_2 * f8_19 in let f6f9_38 := f6 * f9_38 in let f7f7_38 := f7 * f7_38 in
  let f7f8_38 := f7_2 * f8_19 in let f7f9_76 := f7_2 * f9_38 in let f8f8_19 := f8 * f8_19 in
  let f8f9_38 := f8 * f9_38 in let f9f9_38 := f9 * f9_38 in
  let h0 := f0f0 + f1f9_76 + f2f8_38 + f3f7_76 + f4f6_38 + f5f5_38 in
  let h1 := f0f1_2 + f2f9_38 + f3f8_38 + f4f7_38 + f5f6_38 in
  let h2 := f0f2_2 + f1f1_2 + f3f9_76 + f4f8_38 + f5f7_76 + f6f6_19 in
  let h3 := f0f3_2 + f1f2_2 + f4f9_38 + f5f8_38 + f6f7_38 in
  let h4 := f0f4_2 + f1f3_4 + f2f2 + f5f9_76 + f6f8_38 + f7f7_38 in
  let h5 := f0f5_2 + f1f4_2 + f2f3_2 + f6f9_38 + f7f8_38 in
  let h6 := f0f6_2 + f1f5_4 + f2f4_2 + f3f3_2 + f7f9_76 + f8f8_19 in
  let h7 := f0f7_2 + f1f6_2 + f2f5_2 + f3f4_2 + f8f9_38 in
  let h8 := f0f8_2 + f1f7_4 + f2f6_2 + f3f5_4 + f4f4 + f9f9_38 in
  let h9 := f0f9_2 + f1f8_2 + f2f7_2 + f3f6_2 + f4f5_2 in let h0 := h0 + h0 in let h1 := h1 + h1 in
  let h2 := h2 + h2 in let h3 := h3 + h3 in let h4 := h4 + h4 in let h5 := h5 + h5 in
  let h6 := h6 + h6 in let h7 := h7 + h7 in let h8 := h8 + h8 in let h9 := h9 + h9 in
  fe_carry h0 h1 h2 h3 h4 h5 h6 h7 h8 h9.

Definition orlp_fe_mul121666 (f : fe num) : fe num :=
  let f0 := fe0 f in let f1 := fe1 f in let f2 := fe2 f in let f3 := fe3 f in let f4 := fe4 f in
  let f5 := fe5 f in let f6 := fe6 f in let f7 := fe7 f in let f8 := fe8 f in let f9 := fe9 f in
  let h0 := f0 * lit 121666 in let h1 := f1 * lit 121666 in let h2 := f2 * lit 121666 in
  let h3 := f3 * lit 121666 in let h4 := f4 * lit 121666 in let h5 := f5 * lit 121666 in
  let h6 := f6 * lit 121666 in let h7 := f7 * lit 121666 in let h8 := f8 * lit 121666 in
  let h9 := f9 * lit 121666 in let '(carry9, h9) := carry64 25 h9 in
  let h0 := h0 + carry9 * lit 19 in let '(carry1, h1) := carry64 25 h1 in let h2 := h2 + carry1 in
  let '(carry3, h3) := carry64 25 h3 in let h4 := h4 + carry3 in
  let '(carry5, h5) := carry64 25 h5 in let h6 := h6 + carry5 in
  let '(carry7, h7) := carry64 25 h7 in let h8 := h8 + carry7 in
  let '(carry0, h0) := carry64 26 h0 in let h1 := h1 + carry0 in
  let '(carry2, h2) := carry64 26 h2 in let h3 := h3 + carry2 in
  let '(carry4, h4) := carry64 26 h4 in let h5 := h5 + carry4 in
  let '(carry6, h6) := carry64 26 h6 in let h7 := h7 + carry6 in
  let '(carry8, h8) := carry64 26 h8 in let h9 := h9 + carry8 in
  Fe (cast32 h0) (cast32 h1) (cast32 h2) (cast32 h3) (cast32 h4) (cast32 h5) (cast32 h6) (cast32 h7) (cast32 h8) (cast32 h9).

(** The carries of [orlp_fe_frombytes]. *)
Definition frombytes_carry (h0 h1 h2 h3 h4 h5 h6 h7 h8 h9 : num) : fe num :=
  let '(carry9, h9) := carry64 25 h9 in let h0 := h0 + carry9 * lit 19 in
  let '(carry1, h1) := carry64 25 h1 in let h2 := h2 + carry1 in
  let '(carry3, h3) := carry64 25 h3 in let h4 := h4 + carry3 in
  let '(carry5, h5) := carry64 25 h5 in let h6 := h6 + carry5 in
  let '(carry7, h7) := carry64 25 h7 in let h8 := h8 + carry7 in
  let '(carry0, h0) := carry64 26 h0 in let h1 := h1 + carry0 in
  let '(carry2, h2) := carry64 26 h2 in let h3 := h3 + carry2 in
  let '(carry4, h4) := carry64 26 h4 in let h5 := h5 + carry4 in
  let '(carry6, h6) := carry64 26 h6 in let h7 := h7 + carry6 in
  let '(carry8, h8) := carry64 26 h8 in let h9 := h9 + carry8 in
  Fe (cast32 h0) (cast32 h1) (cast32 h2) (cast32 h3) (cast32 h4) 
     (cast32 h5) (cast32 h6) (cast32 h7) (cast32 h8) (cast32 h9).

(** [orlp_fe_tobytes] up to the octets: subtract p as often as it goes in, [q] times, and
    carry. *)
Definition fe_reduce (h : fe num) : fe num :=
  let h0 := fe0 h in let h1 := fe1 h in let h2 := fe2 h in let h3 := fe3 h in let h4 := fe4 h in
  let h5 := fe5 h in let h6 := fe6 h in let h7 := fe7 h in let h8 := fe8 h in let h9 := fe9 h in
  let q := (lit 19 *i h9 +i lit (2 ^ 24)) >>i 25 in let q := (h0 +i q) >>i 26 in
  let q := (h1 +i q) >>i 25 in let q := (h2 +i q) >>i 26 in let q := (h3 +i q) >>i 25 in
  let q := (h4 +i q) >>i 26 in let q := (h5 +i q) >>i 25 in let q := (h6 +i q) >>i 26 in
  let q := (h7 +i q) >>i 25 in let q := (h8 +i q) >>i 26 in let q := (h9 +i q) >>i 25 in
  let h0 := h0 +i lit 19 *i q in let '(carry0, h0) := floor32 26 h0 in let h1 := h1 +i carry0 in
  let '(carry1, h1) := floor32 25 h1 in let h2 := h2 +i carry1 in
  let '(carry2, h2) := floor32 26 h2 in let h3 := h3 +i carry2 in
  let '(carry3, h3) := floor32 25 h3 in let h4 := h4 +i carry3 in
  let '(carry4, h4) := floor32 26 h4 in let h5 := h5 +i carry4 in
  let '(carry5, h5) := floor32 25 h5 in let h6 := h6 +i carry5 in
  let '(carry6, h6) := floor32 26 h6 in let h7 := h7 +i carry6 in
  let '(carry7, h7) := floor32 25 h7 in let h8 := h8 +i carry7 in
  let '(carry8, h8) := floor32 26 h8 in let h9 := h9 +i carry8 in
  let '(carry9, h9) := floor32 25 h9 in
  Fe h0 h1 h2 h3 h4 h5 h6 h7 h8 h9.

(** [for (i = 1; i < n; ++i) orlp_fe_sq(t, t);] *)
Definition squarings (n : nat) (t : fe num) : fe num := Nat.iter (n - 1) orlp_fe_sq t.

Definition orlp_fe_invert (z : fe num) : fe num :=
  let t0 := orlp_fe_sq z in let t0 := squarings 1 t0 in let t1 := orlp_fe_sq t0 in
  let t1 := squarings 2 t1 in let t1 := orlp_fe_mul z t1 in let t0 := orlp_fe_mul t0 t1 in
  let t2 := orlp_fe_sq t0 in let t2 := squarings 1 t2 in let t1 := orlp_fe_mul t1 t2 in
  let t2 := orlp_fe_sq t1 in let t2 := squarings 5 t2 in let t1 := orlp_fe_mul t2 t1 in
  let t2 := orlp_fe_sq t1 in let t2 := squarings 10 t2 in let t2 := orlp_fe_mul t2 t1 in
  let t3 := orlp_fe_sq t2 in let t3 := squarings 20 t3 in let t2 := orlp_fe_mul t3 t2 in
  let t2 := orlp_fe_sq t2 in let t2 := squarings 10 t2 in let t1 := orlp_fe_mul t2 t1 in
  let t2 := orlp_fe_sq t1 in let t2 := squarings 50 t2 in let t2 := orlp_fe_mul t2 t1 in
  let t3 := orlp_fe_sq t2 in let t3 := squarings 100 t3 in let t2 := orlp_fe_mul t3 t2 in
  let t2 := orlp_fe_sq t2 in let t2 := squarings 50 t2 in let t1 := orlp_fe_mul t2 t1 in
  let t1 := orlp_fe_sq t1 in let t1 := squarings 5 t1 in
  orlp_fe_mul t1 t0.

Definition orlp_fe_pow22523 (z : fe num) : fe num :=
  let t0 := orlp_fe_sq z in let t0 := squarings 1 t0 in let t1 := orlp_fe_sq t0 in
  let t1 := squarings 2 t1 in let t1 := orlp_fe_mul z t1 in let t0 := orlp_fe_mul t0 t1 in
  let t0 := orlp_fe_sq t0 in let t0 := squarings 1 t0 in let t0 := orlp_fe_mul t1 t0 in
  let t1 := orlp_fe_sq t0 in let t1 := squarings 5 t1 in let t0 := orlp_fe_mul t1 t0 in
  let t1 := orlp_fe_sq t0 in let t1 := squarings 10 t1 in let t1 := orlp_fe_mul t1 t0 in
  let t2 := orlp_fe_sq t1 in let t2 := squarings 20 t2 in let t1 := orlp_fe_mul t2 t1 in
  let t1 := orlp_fe_sq t1 in let t1 := squarings 10 t1 in let t0 := orlp_fe_mul t1 t0 in
  let t1 := orlp_fe_sq t0 in let t1 := squarings 50 t1 in let t1 := orlp_fe_mul t1 t0 in
  let t2 := orlp_fe_sq t1 in let t2 := squarings 100 t2 in let t1 := orlp_fe_mul t2 t1 in
  let t1 := orlp_fe_sq t1 in let t1 := squarings 50 t1 in let t0 := orlp_fe_mul t1 t0 in
  let t0 := orlp_fe_sq t0 in let t0 := squarings 2 t0 in
  orlp_fe_mul t0 z.

End programs.

(** ** Octets *)

Definition load_3 (s : bytes) (i : nat) : Z :=
  let b k := byte_to_Z (default x00 (s !! (i + k)%nat)) in
  Z.lor (Z.lor (b 0%nat) (Z.shiftl (b 1%nat) 8)) (Z.shiftl (b 2%nat) 16).
Definition load_4 (s : bytes) (i : nat) : Z :=
  let b k := byte_to_Z (default x00 (s !! (i + k)%nat)) in
  Z.lor (Z.lor (Z.lor (b 0%nat) (Z.shiftl (b 1%nat) 8)) (Z.shiftl (b 2%nat) 16)) (Z.shiftl (b 3%nat) 24).

Definition orlp_fe_frombytes {A : Arith} (s : bytes) : fe num :=
  frombytes_carry
    (lit (load_4 s 0)) (lit (Z.shiftl (load_3 s 4) 6)) (lit (Z.shiftl (load_3 s 7) 5))
    (lit (Z.shiftl (load_3 s 10) 3)) (lit (Z.shiftl (load_3 s 13) 2)) (lit (load_4 s 16))
    (lit (Z.shiftl (load_3 s 20) 7)) (lit (Z.shiftl (load_3 s 23) 5)) (lit (Z.shiftl (load_3 s 26) 4))
    (lit (Z.shiftl (Z.land (load_3 s 29) 8388607) 2)).

(** [(unsigned char)] of each. *)
Definition fe_octets (h : fe Z) : bytes :=
  byte_of_Z <$>
  [Z.shiftr (fe0 h) 0;
   Z.shiftr (fe0 h) 8;
   Z.shiftr (fe0 h) 16;
   Z.lor (Z.shiftr (fe0 h) 24) (Z.shiftl (fe1 h) 2);
   Z.shiftr (fe1 h) 6;
   Z.shiftr (fe1 h) 14;
   Z.lor (Z.shiftr (fe1 h) 22) (Z.shiftl (fe2 h) 3);
   Z.shiftr (fe2 h) 5;
   Z.shiftr (fe2 h) 13;
   Z.lor (Z.shiftr (fe2 h) 21) (Z.shiftl (fe3 h) 5);
   Z.shiftr (fe3 h) 3;
   Z.shiftr (fe3 h) 11;
   Z.lor (Z.shiftr (fe3 h) 19) (Z.shiftl (fe4 h) 6);
   Z.shiftr (fe4 h) 2;
   Z.shiftr (fe4 h) 10;
   Z.shiftr (fe4 h) 18;
   Z.shiftr (fe5 h) 0;
   Z.shiftr (fe5 h) 8;
   Z.shiftr (fe5 h) 16;
   Z.lor (Z.shiftr (fe5 h) 24) (Z.shiftl (fe6 h) 1);
   Z.shiftr (fe6 h) 7;
   Z.shiftr (fe6 h) 15;
   Z.lor (Z.shiftr (fe6 h) 23) (Z.shiftl (fe7 h) 3);
   Z.shiftr (fe7 h) 5;
   Z.shiftr (fe7 h) 13;
   Z.lor (Z.shiftr (fe7 h) 21) (Z.shiftl (fe8 h) 4);
   Z.shiftr (fe8 h) 4;
   Z.shiftr (fe8 h) 12;
   Z.lor (Z.shiftr (fe8 h) 20) (Z.shiftl (fe9 h) 6);
   Z.shiftr (fe9 h) 2;
   Z.shiftr (fe9 h) 10;
   Z.shiftr (fe9 h) 18].

(** The limbs of a C array that hold values. *)
Definition fe_values (f : fe (option Z)) : option (fe Z) :=
  let? a0 := fe0 f in let? a1 := fe1 f in let? a2 := fe2 f in let? a3 := fe3 f in let? a4 := fe4 f in
  let? a5 := fe5 f in let? a6 := fe6 f in let? a7 := fe7 f in let? a8 := fe8 f in let? a9 := fe9 f in
  Some (Fe a0 a1 a2 a3 a4 a5 a6 a7 a8 a9).

(** [None] is undefined behaviour. *)
Definition orlp_fe_tobytes (h : fe (option Z)) : option bytes :=
  fe_octets <$> fe_values (fe_reduce (A := checked) h).

Definition orlp_fe_isnegative (f : fe (option Z)) : option Z :=
  (fun s => Z.land (byte_to_Z (default x00 (s !! 0%nat))) 1) <$> orlp_fe_tobytes f.
Definition orlp_fe_isnonzero (f : fe (option Z)) : option bool :=
  (fun s => negb (fold_left (fun r b => Z.lor r (byte_to_Z b)) s 0 =? 0)) <$> orlp_fe_tobytes f.

(** ** Constant-time selection, on the bits of [int32_t] *)

Definition fe_xor_masked (f g : fe Z) (b : Z) : fe Z :=
  let mask := - b in
  Fe (Z.land (Z.lxor (fe0 f) (fe0 g)) mask) (Z.land (Z.lxor (fe1 f) (fe1 g)) mask)
     (Z.land (Z.lxor (fe2 f) (fe2 g)) mask) (Z.land (Z.lxor (fe3 f) (fe3 g)) mask)
     (Z.land (Z.lxor (fe4 f) (fe4 g)) mask) (Z.land (Z.lxor (fe5 f) (fe5 g)) mask)
     (Z.land (Z.lxor (fe6 f) (fe6 g)) mask) (Z.land (Z.lxor (fe7 f) (fe7 g)) mask)
     (Z.land (Z.lxor (fe8 f) (fe8 g)) mask) (Z.land (Z.lxor (fe9 f) (fe9 g)) mask).
Definition fe_xor (f x : fe Z) : fe Z :=
  Fe (Z.lxor (fe0 f) (fe0 x)) (Z.lxor (fe1 f) (fe1 x)) (Z.lxor (fe2 f) (fe2 x)) (Z.lxor (fe3 f) (fe3 x))
     (Z.lxor (fe4 f) (fe4 x)) (Z.lxor (fe5 f) (fe5 x)) (Z.lxor (fe6 f) (fe6 x)) (Z.lxor (fe7 f) (fe7 x))
     (Z.lxor (fe8 f) (fe8 x)) (Z.lxor (fe9 f) (fe9 x)).

(** The new [f]. *)
Definition orlp_fe_cmov (f g : fe Z) (b : Z) : fe Z := fe_xor f (fe_xor_masked f g b).
(** The new [f] and [g]. *)
Definition orlp_fe_cswap (f g : fe Z) (b : Z) : fe Z * fe Z :=
  let x := fe_xor_masked f g b in (fe_xor f x, fe_xor g x).
