(* ===== verification/FeFacts.v ===== *)
(** * FeFacts: the field arithmetic computes in GF(2^255 - 19) and never overflows *)
From S2P Require Import Prelude CInt Fe25519.

(** ** The three readings of a program *)

Definition rel_fe (c : fe (@num checked)) (z : fe (@num exact)) (r : fe (@num interval)) : Prop :=
  rel (fe0 c) (fe0 z) (fe0 r) /\ rel (fe1 c) (fe1 z) (fe1 r) /\ rel (fe2 c) (fe2 z) (fe2 r) /\
  rel (fe3 c) (fe3 z) (fe3 r) /\ rel (fe4 c) (fe4 z) (fe4 r) /\ rel (fe5 c) (fe5 z) (fe5 r) /\
  rel (fe6 c) (fe6 z) (fe6 r) /\ rel (fe7 c) (fe7 z) (fe7 r) /\ rel (fe8 c) (fe8 z) (fe8 r) /\
  rel (fe9 c) (fe9 z) (fe9 r).

Lemma rel_Fe (a0 a1 a2 a3 a4 a5 a6 a7 a8 a9 : @num checked) (b0 b1 b2 b3 b4 b5 b6 b7 b8 b9 : @num exact)
    (c0 c1 c2 c3 c4 c5 c6 c7 c8 c9 : @num interval) :
  rel a0 b0 c0 -> rel a1 b1 c1 -> rel a2 b2 c2 -> rel a3 b3 c3 -> rel a4 b4 c4 -> rel a5 b5 c5 ->
  rel a6 b6 c6 -> rel a7 b7 c7 -> rel a8 b8 c8 -> rel a9 b9 c9 ->
  rel_fe (Fe a0 a1 a2 a3 a4 a5 a6 a7 a8 a9) (Fe b0 b1 b2 b3 b4 b5 b6 b7 b8 b9) (Fe c0 c1 c2 c3 c4 c5 c6 c7 c8 c9).
Proof. unfold rel_fe. cbn. tauto. Qed.

Ltac solve_crel := repeat crel_step; apply rel_Fe; eauto 20 with crel.

Lemma rel_fe_carry (a0 a1 a2 a3 a4 a5 a6 a7 a8 a9 : @num checked) (b0 b1 b2 b3 b4 b5 b6 b7 b8 b9 : @num exact)
    (c0 c1 c2 c3 c4 c5 c6 c7 c8 c9 : @num interval) :
  rel a0 b0 c0 -> rel a1 b1 c1 -> rel a2 b2 c2 -> rel a3 b3 c3 -> rel a4 b4 c4 -> rel a5 b5 c5 ->
  rel a6 b6 c6 -> rel a7 b7 c7 -> rel a8 b8 c8 -> rel a9 b9 c9 ->
  rel_fe (fe_carry (A := checked) a0 a1 a2 a3 a4 a5 a6 a7 a8 a9) (fe_carry (A := exact) b0 b1 b2 b3 b4 b5 b6 b7 b8 b9)
    (fe_carry (A := interval) c0 c1 c2 c3 c4 c5 c6 c7 c8 c9).
Proof. intros. cbv beta delta [fe_carry]. solve_crel. Qed.

Section programs.
Context (f g : fe (@num checked)) (x y : fe (@num exact)) (r s : fe (@num interval)) (Hf : rel_fe f x r) (Hg : rel_fe g y s).

#[local] Ltac limbs H := destruct H as (? & ? & ? & ? & ? & ? & ? & ? & ? & ?).

Lemma rel_add : rel_fe (orlp_fe_add f g) (orlp_fe_add x y) (orlp_fe_add r s).
Proof. limbs Hf. limbs Hg. cbv beta delta [orlp_fe_add]. solve_crel. Qed.
Lemma rel_sub : rel_fe (orlp_fe_sub f g) (orlp_fe_sub x y) (orlp_fe_sub r s).
Proof. limbs Hf. limbs Hg. cbv beta delta [orlp_fe_sub]. solve_crel. Qed.
Lemma rel_neg : rel_fe (orlp_fe_neg f) (orlp_fe_neg x) (orlp_fe_neg r).
Proof. limbs Hf. cbv beta delta [orlp_fe_neg]. solve_crel. Qed.
Lemma rel_mul : rel_fe (orlp_fe_mul f g) (orlp_fe_mul x y) (orlp_fe_mul r s).
Proof. limbs Hf. limbs Hg. cbv beta delta [orlp_fe_mul]. repeat crel_step. apply rel_fe_carry; assumption. Qed.
Lemma rel_sq : rel_fe (orlp_fe_sq f) (orlp_fe_sq x) (orlp_fe_sq r).
Proof. limbs Hf. cbv beta delta [orlp_fe_sq]. repeat crel_step. apply rel_fe_carry; assumption. Qed.
Lemma rel_sq2 : rel_fe (orlp_fe_sq2 f) (orlp_fe_sq2 x) (orlp_fe_sq2 r).
Proof. limbs Hf. cbv beta delta [orlp_fe_sq2]. repeat crel_step. apply rel_fe_carry; assumption. Qed.
Lemma rel_mul121666 : rel_fe (orlp_fe_mul121666 f) (orlp_fe_mul121666 x) (orlp_fe_mul121666 r).
Proof. limbs Hf. cbv beta delta [orlp_fe_mul121666]. solve_crel. Qed.
Lemma rel_reduce : rel_fe (fe_reduce f) (fe_reduce x) (fe_reduce r).
Proof. limbs Hf. cbv beta delta [fe_reduce]. solve_crel. Qed.
End programs.

(** ** Bounds *)

Definition bounded (e o : Z) (f : fe Z) : Prop :=
  Z.abs (fe0 f) <= e /\ Z.abs (fe1 f) <= o /\ Z.abs (fe2 f) <= e /\ Z.abs (fe3 f) <= o /\ Z.abs (fe4 f) <= e /\
  Z.abs (fe5 f) <= o /\ Z.abs (fe6 f) <= e /\ Z.abs (fe7 f) <= o /\ Z.abs (fe8 f) <= e /\ Z.abs (fe9 f) <= o.

(** The bounds the comments of the source name: [a * 2^26, a * 2^25] with [a] in
    hundredths, and half of them. *)
Definition le26 (a : Z) (f : fe Z) : Prop := bounded (a * 2 ^ 26 / 100) (a * 2 ^ 25 / 100) f.
Definition le25 (a : Z) (f : fe Z) : Prop := bounded (a * 2 ^ 25 / 100) (a * 2 ^ 24 / 100) f.

Definition box (e o : Z) : fe range :=
  let E := Some (- e, e) in let O := Some (- o, o) in Fe E O E O E O E O E O.

Definition range_in (r : range) (e : Z) : bool :=
  match r with Some (lo, hi) => (- e <=? lo) && (hi <=? e) | None => false end.
Definition in_box (e o : Z) (r : fe range) : bool :=
  range_in (fe0 r) e && range_in (fe1 r) o && range_in (fe2 r) e && range_in (fe3 r) o && range_in (fe4 r) e &&
  range_in (fe5 r) o && range_in (fe6 r) e && range_in (fe7 r) o && range_in (fe8 r) e && range_in (fe9 r) o.

Lemma rel_box e o f : bounded e o f -> rel_fe (fe_map Some f) f (box e o).
Proof. unfold bounded, rel_fe, rel. cbn. intros. split_and!; first [done|lia]. Qed.

Lemma rel_range_in c z r e : rel c z r -> range_in r e = true -> c = Some z /\ Z.abs z <= e.
Proof.
  destruct r as [[lo hi]|]; [|done]. intros [-> H] [H1%Z.leb_le H2%Z.leb_le]%andb_true_iff.
  split; [done|lia].
Qed.

Lemma fe_ext {T} (f g : fe T) :
  fe0 f = fe0 g -> fe1 f = fe1 g -> fe2 f = fe2 g -> fe3 f = fe3 g -> fe4 f = fe4 g -> fe5 f = fe5 g ->
  fe6 f = fe6 g -> fe7 f = fe7 g -> fe8 f = fe8 g -> fe9 f = fe9 g -> f = g.
Proof. destruct f, g. cbn. by intros -> -> -> -> -> -> -> -> -> ->. Qed.

(** What the intervals accept has no undefined behaviour and stays within the bounds. *)
Lemma rel_in_box c z r e o : rel_fe c z r -> in_box e o r = true -> c = fe_map Some z /\ bounded e o z.
Proof.
  unfold rel_fe, in_box. rewrite !andb_true_iff.
  intros (R0 & R1 & R2 & R3 & R4 & R5 & R6 & R7 & R8 & R9) (((((((((B0 & B1) & B2) & B3) & B4) & B5) & B6) & B7) & B8) & B9).
  destruct (rel_range_in _ _ _ _ R0 B0), (rel_range_in _ _ _ _ R1 B1), (rel_range_in _ _ _ _ R2 B2),
    (rel_range_in _ _ _ _ R3 B3), (rel_range_in _ _ _ _ R4 B4), (rel_range_in _ _ _ _ R5 B5),
    (rel_range_in _ _ _ _ R6 B6), (rel_range_in _ _ _ _ R7 B7), (rel_range_in _ _ _ _ R8 B8),
    (rel_range_in _ _ _ _ R9 B9).
  split; [by apply fe_ext|by split_and!].
Qed.

(** ** Values *)

Definition p25519 : Z := 2 ^ 255 - 19.

Definition fval (f : fe Z) : Z :=
  fe0 f + 2 ^ 26 * fe1 f + 2 ^ 51 * fe2 f + 2 ^ 77 * fe3 f + 2 ^ 102 * fe4 f +
  2 ^ 128 * fe5 f + 2 ^ 153 * fe6 f + 2 ^ 179 * fe7 f + 2 ^ 204 * fe8 f + 2 ^ 230 * fe9 f.

Lemma exact_carry_eq k h : exists c, @carry64 exact k h = (c, h - c * 2 ^ k).
Proof. by eexists. Qed.

Ltac take_carries :=
  repeat match goal with |- context [@carry64 exact ?k ?h] =>
    destruct (exact_carry_eq k h) as [? ->]; cbv beta iota zeta end.

Lemma fe_carry_val h0 h1 h2 h3 h4 h5 h6 h7 h8 h9 :
  exists q, fval (fe_carry (A := exact) h0 h1 h2 h3 h4 h5 h6 h7 h8 h9) = fval (Fe h0 h1 h2 h3 h4 h5 h6 h7 h8 h9) - p25519 * q.
Proof.
  cbv beta delta [fe_carry]. take_carries.
  unfold fval. cbn [fe0 fe1 fe2 fe3 fe4 fe5 fe6 fe7 fe8 fe9]. unfold cast32, add64, mul64, lit, exact.
  unfold p25519.
  eexists. match goal with |- context [(?c * 19)%Z] => instantiate (1 := c) end. ring.
Qed.

(** What the products past 2^255 wrap around to: the multiple of p that is left out. *)
Definition wrapped (f g : fe Z) : Z :=
    fe1 f * fe9 g * 2 ^ 1 + fe2 f * fe8 g * 2 ^ 0 + fe2 f * fe9 g * 2 ^ 26 + fe3 f * fe7 g * 2 ^ 1 + fe3 f * fe8 g * 2 ^ 26 +
    fe3 f * fe9 g * 2 ^ 52 + fe4 f * fe6 g * 2 ^ 0 + fe4 f * fe7 g * 2 ^ 26 + fe4 f * fe8 g * 2 ^ 51 + fe4 f * fe9 g * 2 ^ 77 +
    fe5 f * fe5 g * 2 ^ 1 + fe5 f * fe6 g * 2 ^ 26 + fe5 f * fe7 g * 2 ^ 52 + fe5 f * fe8 g * 2 ^ 77 + fe5 f * fe9 g * 2 ^ 103 +
    fe6 f * fe4 g * 2 ^ 0 + fe6 f * fe5 g * 2 ^ 26 + fe6 f * fe6 g * 2 ^ 51 + fe6 f * fe7 g * 2 ^ 77 + fe6 f * fe8 g * 2 ^ 102 +
    fe6 f * fe9 g * 2 ^ 128 + fe7 f * fe3 g * 2 ^ 1 + fe7 f * fe4 g * 2 ^ 26 + fe7 f * fe5 g * 2 ^ 52 + fe7 f * fe6 g * 2 ^ 77 +
    fe7 f * fe7 g * 2 ^ 103 + fe7 f * fe8 g * 2 ^ 128 + fe7 f * fe9 g * 2 ^ 154 + fe8 f * fe2 g * 2 ^ 0 + fe8 f * fe3 g * 2 ^ 26 +
    fe8 f * fe4 g * 2 ^ 51 + fe8 f * fe5 g * 2 ^ 77 + fe8 f * fe6 g * 2 ^ 102 + fe8 f * fe7 g * 2 ^ 128 + fe8 f * fe8 g * 2 ^ 153 +
    fe8 f * fe9 g * 2 ^ 179 + fe9 f * fe1 g * 2 ^ 1 + fe9 f * fe2 g * 2 ^ 26 + fe9 f * fe3 g * 2 ^ 52 + fe9 f * fe4 g * 2 ^ 77 +
    fe9 f * fe5 g * 2 ^ 103 + fe9 f * fe6 g * 2 ^ 128 + fe9 f * fe7 g * 2 ^ 154 + fe9 f * fe8 g * 2 ^ 179 + fe9 f * fe9 g * 2 ^ 205.

#[local] Ltac unfold_exact := unfold fval; cbn [fe0 fe1 fe2 fe3 fe4 fe5 fe6 fe7 fe8 fe9]; unfold cast32, add64, mul64, add32, sub32, mul32, lit, exact.

Lemma mul_val f g : exists q, fval (orlp_fe_mul (A := exact) f g) = fval f * fval g - p25519 * q.
Proof.
  unfold orlp_fe_mul. match goal with |- context [fe_carry ?a ?b ?c ?d ?e ?f ?g ?h ?i ?j] =>
    destruct (fe_carry_val a b c d e f g h i j) as [q ->] end.
  exists (wrapped f g + q). rewrite Z.mul_add_distr_l, Z.sub_add_distr. f_equal.
  unfold_exact. unfold p25519, wrapped. destruct f as [a0 a1 a2 a3 a4 a5 a6 a7 a8 a9], g as [b0 b1 b2 b3 b4 b5 b6 b7 b8 b9]. cbn [fe0 fe1 fe2 fe3 fe4 fe5 fe6 fe7 fe8 fe9]. ring.
Qed.

#[local] Ltac carried :=
  match goal with |- context [fe_carry ?a ?b ?c ?d ?e ?f ?g ?h ?i ?j] =>
    destruct (fe_carry_val a b c d e f g h i j) as [q ->] end.

Lemma sq_val f : exists q, fval (orlp_fe_sq (A := exact) f) = fval f * fval f - p25519 * q.
Proof.
  unfold orlp_fe_sq. carried. exists (wrapped f f + q). rewrite Z.mul_add_distr_l, Z.sub_add_distr. f_equal.
  unfold_exact. unfold p25519, wrapped. destruct f as [a0 a1 a2 a3 a4 a5 a6 a7 a8 a9].
  cbn [fe0 fe1 fe2 fe3 fe4 fe5 fe6 fe7 fe8 fe9]. ring.
Qed.

Lemma sq2_val f : exists q, fval (orlp_fe_sq2 (A := exact) f) = 2 * (fval f * fval f) - p25519 * q.
Proof.
  unfold orlp_fe_sq2. carried. exists (2 * wrapped f f + q). rewrite Z.mul_add_distr_l, Z.sub_add_distr. f_equal.
  unfold_exact. unfold p25519, wrapped. destruct f as [a0 a1 a2 a3 a4 a5 a6 a7 a8 a9].
  cbn [fe0 fe1 fe2 fe3 fe4 fe5 fe6 fe7 fe8 fe9]. ring.
Qed.

Lemma mul121666_val f : exists q, fval (orlp_fe_mul121666 (A := exact) f) = 121666 * fval f - p25519 * q.
Proof.
  destruct f as [a0 a1 a2 a3 a4 a5 a6 a7 a8 a9]. cbv beta delta [orlp_fe_mul121666]. cbv beta iota zeta. take_carries. unfold_exact. unfold p25519.
  eexists. match goal with |- context [(?c * 19)%Z] => instantiate (1 := c) end. ring.
Qed.

Lemma add_val f g : fval (orlp_fe_add (A := exact) f g) = fval f + fval g.
Proof.
  destruct f as [a0 a1 a2 a3 a4 a5 a6 a7 a8 a9], g as [b0 b1 b2 b3 b4 b5 b6 b7 b8 b9].
  unfold orlp_fe_add. unfold_exact. ring. Qed.
Lemma sub_val f g : fval (orlp_fe_sub (A := exact) f g) = fval f - fval g.
Proof.
  destruct f as [a0 a1 a2 a3 a4 a5 a6 a7 a8 a9], g as [b0 b1 b2 b3 b4 b5 b6 b7 b8 b9].
  unfold orlp_fe_sub. unfold_exact. ring. Qed.
Lemma neg_val f : fval (orlp_fe_neg (A := exact) f) = - fval f.
Proof.
  destruct f as [a0 a1 a2 a3 a4 a5 a6 a7 a8 a9]. unfold orlp_fe_neg. unfold_exact. ring. Qed.

(** ** Operations of C on arrays of values *)

Definition c_fe (f : fe Z) : fe (@num checked) := fe_map Some f.

Definition eqp (a b : Z) : Prop := a mod p25519 = b mod p25519.

#[export] Instance eqp_equiv : Equivalence eqp.
Proof. unfold eqp. split; [by intros ?|by intros ??|intros ???; congruence]. Qed.
#[export] Instance eqp_mul : Proper (eqp ==> eqp ==> eqp) Z.mul.
Proof.
  intros a a' Ha b b' Hb. unfold eqp in *. by rewrite Z.mul_mod, Ha, Hb, <- Z.mul_mod by done.
Qed.

Lemma eqp_sub a b q : a = b - p25519 * q -> eqp a b.
Proof. intros ->. unfold eqp. replace (b - p25519 * q) with (b + (- q) * p25519) by ring. by rewrite Z.mod_add. Qed.

(** A C program on values: it is defined, its result [h] is within bounds. *)
Lemma run_program c z r e o : rel_fe c z r -> in_box e o r = true -> c = c_fe z /\ bounded e o z.
Proof. apply rel_in_box. Qed.

Lemma mul_ok f g : le26 165 f -> le26 165 g ->
  exists h, orlp_fe_mul (c_fe f) (c_fe g) = c_fe h /\ le25 101 h /\ eqp (fval h) (fval f * fval g).
Proof.
  intros Hf Hg. destruct (run_program _ _ _ (101 * 2 ^ 25 / 100) (101 * 2 ^ 24 / 100)
    (rel_mul _ _ _ _ _ _ (rel_box _ _ _ Hf) (rel_box _ _ _ Hg))) as [E B]; [by vm_compute|].
  eexists. split; [exact E|]. split; [exact B|]. destruct (mul_val f g) as [q Hq]. by apply (eqp_sub _ _ q).
Qed.

Lemma sq_ok f : le26 165 f ->
  exists h, orlp_fe_sq (c_fe f) = c_fe h /\ le25 101 h /\ eqp (fval h) (fval f * fval f).
Proof.
  intros Hf. destruct (run_program _ _ _ (101 * 2 ^ 25 / 100) (101 * 2 ^ 24 / 100)
    (rel_sq _ _ _ (rel_box _ _ _ Hf))) as [E B]; [by vm_compute|].
  eexists. split; [exact E|]. split; [exact B|]. destruct (sq_val f) as [q Hq]. by apply (eqp_sub _ _ q).
Qed.

Lemma sq2_ok f : le26 165 f ->
  exists h, orlp_fe_sq2 (c_fe f) = c_fe h /\ le25 101 h /\ eqp (fval h) (2 * (fval f * fval f)).
Proof.
  intros Hf. destruct (run_program _ _ _ (101 * 2 ^ 25 / 100) (101 * 2 ^ 24 / 100)
    (rel_sq2 _ _ _ (rel_box _ _ _ Hf))) as [E B]; [by vm_compute|].
  eexists. split; [exact E|]. split; [exact B|]. destruct (sq2_val f) as [q Hq]. by apply (eqp_sub _ _ q).
Qed.

Lemma mul121666_ok f : le26 110 f ->
  exists h, orlp_fe_mul121666 (c_fe f) = c_fe h /\ le25 110 h /\ eqp (fval h) (121666 * fval f).
Proof.
  intros Hf. destruct (run_program _ _ _ (110 * 2 ^ 25 / 100) (110 * 2 ^ 24 / 100)
    (rel_mul121666 _ _ _ (rel_box _ _ _ Hf))) as [E B]; [by vm_compute|].
  eexists. split; [exact E|]. split; [exact B|]. destruct (mul121666_val f) as [q Hq]. by apply (eqp_sub _ _ q).
Qed.

Lemma add_ok f g : le25 110 f -> le25 110 g ->
  exists h, orlp_fe_add (c_fe f) (c_fe g) = c_fe h /\ le26 110 h /\ fval h = fval f + fval g.
Proof.
  intros Hf Hg. destruct (run_program _ _ _ (110 * 2 ^ 26 / 100) (110 * 2 ^ 25 / 100)
    (rel_add _ _ _ _ _ _ (rel_box _ _ _ Hf) (rel_box _ _ _ Hg))) as [E B]; [by vm_compute|].
  eexists. split; [exact E|]. split; [exact B|]. apply add_val.
Qed.
Lemma sub_ok f g : le25 110 f -> le25 110 g ->
  exists h, orlp_fe_sub (c_fe f) (c_fe g) = c_fe h /\ le26 110 h /\ fval h = fval f - fval g.
Proof.
  intros Hf Hg. destruct (run_program _ _ _ (110 * 2 ^ 26 / 100) (110 * 2 ^ 25 / 100)
    (rel_sub _ _ _ _ _ _ (rel_box _ _ _ Hf) (rel_box _ _ _ Hg))) as [E B]; [by vm_compute|].
  eexists. split; [exact E|]. split; [exact B|]. apply sub_val.
Qed.
Lemma neg_ok f : le25 110 f ->
  exists h, orlp_fe_neg (c_fe f) = c_fe h /\ le25 110 h /\ fval h = - fval f.
Proof.
  intros Hf. destruct (run_program _ _ _ (110 * 2 ^ 25 / 100) (110 * 2 ^ 24 / 100)
    (rel_neg _ _ _ (rel_box _ _ _ Hf))) as [E B]; [by vm_compute|].
  eexists. split; [exact E|]. split; [exact B|]. apply neg_val.
Qed.

(** ** Powers *)

Lemma le25_le26 f : le25 101 f -> le26 165 f.
Proof.
  unfold le25, le26, bounded. change (101 * 2 ^ 25 / 100) with 33889976. change (101 * 2 ^ 24 / 100) with 16944988.
  change (165 * 2 ^ 26 / 100) with 110729625. change (165 * 2 ^ 25 / 100) with 55364812. lia.
Qed.

Section powers.
Context (z : fe Z) (Hz : le26 165 z).

(** An array that holds the [n]-th power of [z], within the bounds of a factor or of a
    product. *)
Definition pw (F : fe (@num checked)) (n : Z) : Prop :=
  0 <= n /\ exists f, F = c_fe f /\ le26 165 f /\ eqp (fval f) (fval z ^ n).
Definition result (F : fe (@num checked)) (n : Z) : Prop :=
  exists f, F = c_fe f /\ le25 101 f /\ eqp (fval f) (fval z ^ n).

Lemma pw_start : pw (c_fe z) 1.
Proof. split; [lia|]. exists z. split_and!; [done..|]. by rewrite Z.pow_1_r. Qed.

Lemma result_mul F G m n : pw F m -> pw G n -> result (orlp_fe_mul F G) (m + n).
Proof.
  intros [Hm (f & -> & Bf & Ef)] [Hn (g & -> & Bg & Eg)]. destruct (mul_ok f g Bf Bg) as (h & -> & B & E).
  exists h. split_and!; [done..|]. by rewrite E, Ef, Eg, <- Z.pow_add_r.
Qed.

Lemma result_pw F n : 0 <= n -> result F n -> pw F n.
Proof. intros Hn (f & -> & B & E). split; [done|]. exists f. split_and!; [done|by apply le25_le26|done]. Qed.

Lemma pw_mul F G m n : pw F m -> pw G n -> pw (orlp_fe_mul F G) (m + n).
Proof. intros HF HG. apply result_pw; [destruct HF, HG; lia|by apply result_mul]. Qed.

Lemma pw_sq F m : pw F m -> pw (orlp_fe_sq F) (2 * m).
Proof.
  intros [Hm (f & -> & Bf & Ef)]. destruct (sq_ok f Bf) as (h & -> & B & E).
  apply result_pw; [lia|]. exists h. split_and!; [done..|].
  rewrite E, Ef, <- Z.pow_add_r by done. by replace (m + m) with (2 * m) by lia.
Qed.

Lemma pw_squarings n F m : pw F m -> pw (squarings n F) (2 ^ Z.of_nat (n - 1) * m).
Proof.
  intros H. unfold squarings. induction (n - 1)%nat as [|k IH].
  - change (2 ^ Z.of_nat 0) with 1. rewrite Z.mul_1_l. exact H.
  - rewrite Nat2Z.inj_succ, Z.pow_succ_r, <- Z.mul_assoc by lia. by apply pw_sq.
Qed.
End powers.

Create HintDb pw.
#[export] Hint Resolve pw_start pw_mul pw_sq pw_squarings : pw.

(** Walk down an addition chain. *)
Ltac chain_step :=
  lazymatch goal with
  | |- result ?z (let x := ?a in @?k x) ?n =>
      let H := fresh "H" in
      eassert (pw z a _) as H by (eauto 10 with pw);
      change (result z (k a) n); revert H; generalize a; intros ? H; cbv beta
  end.
Ltac chain :=
  repeat chain_step;
  match goal with |- result ?z (orlp_fe_mul ?a ?b) ?n =>
    match goal with HA : pw z a ?m, HB : pw z b ?k |- _ =>
      replace n with (m + k) by (by vm_compute); by apply result_mul end end.

Lemma invert_ok z : le26 165 z -> result z (orlp_fe_invert (c_fe z)) (p25519 - 2).
Proof. intros Hz. cbv beta delta [orlp_fe_invert]. chain. Qed.

Lemma pow22523_ok z : le26 165 z -> result z (orlp_fe_pow22523 (c_fe z)) (2 ^ 252 - 3).
Proof.
  intros Hz. cbv beta delta [orlp_fe_pow22523]. pose proof (pw_start z Hz). chain.
Qed.
