(* ===== verification/FeBytes.v ===== *)
(** * FeBytes: field elements and their 32 octets

    [orlp_fe_tobytes] writes the one representative below p, [orlp_fe_frombytes] reads
    any 255-bit number; one undoes the other on canonical encodings. *)
From S2P Require Import Prelude Octets CInt Fe25519 FeFacts.

(** Reduced limbs: what [fe_reduce] leaves. *)
Definition reduced (x : fe Z) : Prop :=
  0 <= fe0 x < 2 ^ 26 /\ 0 <= fe1 x < 2 ^ 25 /\ 0 <= fe2 x < 2 ^ 26 /\ 0 <= fe3 x < 2 ^ 25 /\ 0 <= fe4 x < 2 ^ 26 /\
  0 <= fe5 x < 2 ^ 25 /\ 0 <= fe6 x < 2 ^ 26 /\ 0 <= fe7 x < 2 ^ 25 /\ 0 <= fe8 x < 2 ^ 26 /\ 0 <= fe9 x < 2 ^ 25.

Lemma lor_low a x k d : 0 <= k -> 0 <= d -> 0 <= a < 2 ^ (k + d) -> 0 <= x ->
  Z.lor (Z.shiftr a k) (Z.shiftl x d) = a / 2 ^ k + x * 2 ^ d.
Proof.
  intros Hk Hd Ha Hx. assert (0 <= a / 2 ^ k < 2 ^ d).
  { split; [apply Z.div_pos; lia|]. apply Z.div_lt_upper_bound; [lia|]. rewrite <- Z.pow_add_r by lia. lia. }
  rewrite Z.lor_comm, Z.shiftr_div_pow2 by lia. rewrite lor_shiftl_add by lia. lia.
Qed.

Lemma octets_val x : reduced x -> le_val (fe_octets x) = fval x.
Proof.
  intros (H0 & H1 & H2 & H3 & H4 & H5 & H6 & H7 & H8 & H9). unfold fe_octets.
  destruct x as [h0 h1 h2 h3 h4 h5 h6 h7 h8 h9]. cbn [fe0 fe1 fe2 fe3 fe4 fe5 fe6 fe7 fe8 fe9] in *.
  rewrite (lor_low h0 h1 24 2) by lia. rewrite (lor_low h1 h2 22 3) by lia.
  rewrite (lor_low h2 h3 21 5) by lia. rewrite (lor_low h3 h4 19 6) by lia.
  rewrite (lor_low h5 h6 24 1) by lia. rewrite (lor_low h6 h7 23 3) by lia.
  rewrite (lor_low h7 h8 21 4) by lia. rewrite (lor_low h8 h9 20 6) by lia.
  rewrite !Z.shiftr_div_pow2 by lia. cbn [fmap list_fmap le_val]. rewrite !byte_to_of_Z.
  unfold fval. cbn [fe0 fe1 fe2 fe3 fe4 fe5 fe6 fe7 fe8 fe9].
  assert ((h0 / 2 ^ 24 + h1 * 2 ^ 2) mod 256 = h0 / 2 ^ 24 + 2 ^ 2 * (h1 mod 2 ^ 6)) as -> by dlia.
  assert ((h1 / 2 ^ 22 + h2 * 2 ^ 3) mod 256 = h1 / 2 ^ 22 + 2 ^ 3 * (h2 mod 2 ^ 5)) as -> by dlia.
  assert ((h2 / 2 ^ 21 + h3 * 2 ^ 5) mod 256 = h2 / 2 ^ 21 + 2 ^ 5 * (h3 mod 2 ^ 3)) as -> by dlia.
  assert ((h3 / 2 ^ 19 + h4 * 2 ^ 6) mod 256 = h3 / 2 ^ 19 + 2 ^ 6 * (h4 mod 2 ^ 2)) as -> by dlia.
  assert ((h5 / 2 ^ 24 + h6 * 2 ^ 1) mod 256 = h5 / 2 ^ 24 + 2 ^ 1 * (h6 mod 2 ^ 7)) as -> by dlia.
  assert ((h6 / 2 ^ 23 + h7 * 2 ^ 3) mod 256 = h6 / 2 ^ 23 + 2 ^ 3 * (h7 mod 2 ^ 5)) as -> by dlia.
  assert ((h7 / 2 ^ 21 + h8 * 2 ^ 4) mod 256 = h7 / 2 ^ 21 + 2 ^ 4 * (h8 mod 2 ^ 4)) as -> by dlia.
  assert ((h8 / 2 ^ 20 + h9 * 2 ^ 6) mod 256 = h8 / 2 ^ 20 + 2 ^ 6 * (h9 mod 2 ^ 2)) as -> by dlia.
  assert (h0 = 2 ^ 0 * ((h0 / 2 ^ 0) mod 256) + 2 ^ 8 * ((h0 / 2 ^ 8) mod 256) + 2 ^ 16 * ((h0 / 2 ^ 16) mod 256) + 2 ^ 24 * (h0 / 2 ^ 24)) as E0 by dlia.
  assert (h1 = h1 mod 2 ^ 6 + 2 ^ 6 * ((h1 / 2 ^ 6) mod 256) + 2 ^ 14 * ((h1 / 2 ^ 14) mod 256) + 2 ^ 22 * (h1 / 2 ^ 22)) as E1 by dlia.
  assert (h2 = h2 mod 2 ^ 5 + 2 ^ 5 * ((h2 / 2 ^ 5) mod 256) + 2 ^ 13 * ((h2 / 2 ^ 13) mod 256) + 2 ^ 21 * (h2 / 2 ^ 21)) as E2 by dlia.
  assert (h3 = h3 mod 2 ^ 3 + 2 ^ 3 * ((h3 / 2 ^ 3) mod 256) + 2 ^ 11 * ((h3 / 2 ^ 11) mod 256) + 2 ^ 19 * (h3 / 2 ^ 19)) as E3 by dlia.
  assert (h4 = h4 mod 2 ^ 2 + 2 ^ 2 * ((h4 / 2 ^ 2) mod 256) + 2 ^ 10 * ((h4 / 2 ^ 10) mod 256) + 2 ^ 18 * ((h4 / 2 ^ 18) mod 256)) as E4 by dlia.
  assert (h5 = 2 ^ 0 * ((h5 / 2 ^ 0) mod 256) + 2 ^ 8 * ((h5 / 2 ^ 8) mod 256) + 2 ^ 16 * ((h5 / 2 ^ 16) mod 256) + 2 ^ 24 * (h5 / 2 ^ 24)) as E5 by dlia.
  assert (h6 = h6 mod 2 ^ 7 + 2 ^ 7 * ((h6 / 2 ^ 7) mod 256) + 2 ^ 15 * ((h6 / 2 ^ 15) mod 256) + 2 ^ 23 * (h6 / 2 ^ 23)) as E6 by dlia.
  assert (h7 = h7 mod 2 ^ 5 + 2 ^ 5 * ((h7 / 2 ^ 5) mod 256) + 2 ^ 13 * ((h7 / 2 ^ 13) mod 256) + 2 ^ 21 * (h7 / 2 ^ 21)) as E7 by dlia.
  assert (h8 = h8 mod 2 ^ 4 + 2 ^ 4 * ((h8 / 2 ^ 4) mod 256) + 2 ^ 12 * ((h8 / 2 ^ 12) mod 256) + 2 ^ 20 * (h8 / 2 ^ 20)) as E8 by dlia.
  assert (h9 = h9 mod 2 ^ 2 + 2 ^ 2 * ((h9 / 2 ^ 2) mod 256) + 2 ^ 10 * ((h9 / 2 ^ 10) mod 256) + 2 ^ 18 * ((h9 / 2 ^ 18) mod 256)) as E9 by dlia.
  lia.
Qed.

(** ** The reduction *)

(** The estimate of the quotient, as the source computes it. *)
Definition quotient (h : fe Z) : Z :=
  let q := Z.shiftr (19 * fe9 h + 2 ^ 24) 25 in
  let q := Z.shiftr (fe0 h + q) 26 in
  let q := Z.shiftr (fe1 h + q) 25 in
  let q := Z.shiftr (fe2 h + q) 26 in
  let q := Z.shiftr (fe3 h + q) 25 in
  let q := Z.shiftr (fe4 h + q) 26 in
  let q := Z.shiftr (fe5 h + q) 25 in
  let q := Z.shiftr (fe6 h + q) 26 in
  let q := Z.shiftr (fe7 h + q) 25 in
  let q := Z.shiftr (fe8 h + q) 26 in
  Z.shiftr (fe9 h + q) 25.

Lemma shiftr_add_shiftr a b k n : 0 <= k -> 0 <= n ->
  Z.shiftr (a + Z.shiftr b k) n = Z.shiftr (a * 2 ^ k + b) (k + n).
Proof.
  intros. rewrite !Z.shiftr_div_pow2 by lia. rewrite Z.pow_add_r, <- Z.div_div by lia.
  f_equal. rewrite Z.add_comm, <- Z.div_add by lia. f_equal. lia.
Qed.

(** All the floors at once. *)
Lemma quotient_eq h : quotient h = (fval h + Z.shiftr (19 * fe9 h + 2 ^ 24) 25) / 2 ^ 255.
Proof.
  unfold quotient. set (q0 := Z.shiftr (19 * _ + _) 25).
  rewrite (shiftr_add_shiftr (fe1 h)), (shiftr_add_shiftr (fe2 h)), (shiftr_add_shiftr (fe3 h)),
    (shiftr_add_shiftr (fe4 h)), (shiftr_add_shiftr (fe5 h)), (shiftr_add_shiftr (fe6 h)),
    (shiftr_add_shiftr (fe7 h)), (shiftr_add_shiftr (fe8 h)), (shiftr_add_shiftr (fe9 h)) by lia.
  rewrite Z.shiftr_div_pow2 by lia. unfold fval. f_equal. 
  repeat match goal with |- context [2 ^ (?a + ?b)] => let n := eval vm_compute in (a + b) in change (a + b) with n end.
  ring.
Qed.

Lemma low_limbs h : le26 110 h -> - 2 ^ 231 < fval h - 2 ^ 230 * fe9 h < 2 ^ 231.
Proof.
  unfold le26, bounded. change (110 * 2 ^ 26 / 100) with 73819750. change (110 * 2 ^ 25 / 100) with 36909875.
  rewrite !Z.abs_le. unfold fval. intros. lia.
Qed.

(** The argument of the source: subtracting p that often leaves a value below p. *)
Lemma quotient_correct h : le26 110 h -> 0 <= fval h - p25519 * quotient h < p25519.
Proof.
  intros Hb. rewrite quotient_eq.
  set (q0 := Z.shiftr _ 25). set (q := _ / 2 ^ 255).
  assert (2 ^ 25 * q0 <= 19 * fe9 h + 2 ^ 24 < 2 ^ 25 * q0 + 2 ^ 25) as Hq0.
  { unfold q0. rewrite Z.shiftr_div_pow2 by lia. dlia. }
  assert (2 ^ 255 * q <= fval h + q0 < 2 ^ 255 * q + 2 ^ 255) as Hq.
  { unfold q. pose proof (Z.div_mod (fval h + q0) (2 ^ 255) ltac:(lia)).
    pose proof (Z.mod_pos_bound (fval h + q0) (2 ^ 255) ltac:(lia)). lia. }
  assert (- 2 ^ 231 < fval h - 2 ^ 230 * fe9 h < 2 ^ 231) as HL by (by apply low_limbs).
  assert (- 36909875 <= fe9 h <= 36909875) as H9.
  { destruct Hb as (_ & _ & _ & _ & _ & _ & _ & _ & _ & Hb). revert Hb. change (110 * 2 ^ 25 / 100) with 36909875. lia. }
  clearbody q q0. clear - Hq0 Hq HL H9. unfold p25519. lia.
Qed.

Lemma exact_floor_eq k h : exists c, @floor32 exact k h = (c, h - c * 2 ^ k).
Proof. by eexists. Qed.

(** What is left are the limbs of the value plus [19 q], without the bits past 255. *)
Lemma reduce_val h : exists c, fval (fe_reduce (A := exact) h) = fval h + 19 * quotient h - 2 ^ 255 * c.
Proof.
  set (q := quotient h). destruct h as [h0 h1 h2 h3 h4 h5 h6 h7 h8 h9]. unfold fe_reduce.
  cbn [fe0 fe1 fe2 fe3 fe4 fe5 fe6 fe7 fe8 fe9].
  match goal with |- context [@mul32 exact (lit 19) ?Q] =>
    lazymatch Q with h9 => fail | _ => change Q with q end end.
  clearbody q.
  repeat match goal with |- context [@floor32 exact ?k ?h] =>
    destruct (exact_floor_eq k h) as [? ->]; cbv beta iota zeta end.
  unfold fval. cbn [fe0 fe1 fe2 fe3 fe4 fe5 fe6 fe7 fe8 fe9]. unfold add32, mul32, lit, exact.
  eexists.
  match goal with |- context [2 ^ 230 * (_ - ?c * 2 ^ 25)] => instantiate (1 := c) end. ring.
Qed.

(** The limbs after the carries are in their ranges, and nothing overflows before. *)
Lemma reduce_runs h : le26 110 h ->
  fe_reduce (A := checked) (c_fe h) = c_fe (fe_reduce (A := exact) h) /\ reduced (fe_reduce (A := exact) h).
Proof.
  intros Hb. pose proof (rel_reduce _ _ _ (rel_box _ _ _ Hb)) as R.
  set (E := Some (0, 2 ^ 26 - 1) : range). set (O := Some (0, 2 ^ 25 - 1) : range).
  assert (fe_reduce (A := interval) (box (110 * 2 ^ 26 / 100) (110 * 2 ^ 25 / 100)) = Fe E O E O E O E O E O) as Er
    by by vm_compute.
  rewrite Er in R. clear Er. fold (c_fe h) in R. revert R. generalize (fe_reduce (A := checked) (c_fe h)), (fe_reduce (A := exact) h).
  unfold rel_fe, rel, E, O. cbn [fe0 fe1 fe2 fe3 fe4 fe5 fe6 fe7 fe8 fe9]. intros c x R. change (@num exact) with Z in *.
  destruct R as ([? ?] & [? ?] & [? ?] & [? ?] & [? ?] & [? ?] & [? ?] & [? ?] & [? ?] & [? ?]).
  split; [apply fe_ext; assumption|unfold reduced; lia].
Qed.

Lemma fe_values_c x : fe_values (c_fe x) = Some x.
Proof. by destruct x. Qed.

(** The octets of the one representative below p. *)
Lemma tobytes_ok h : le26 110 h ->
  exists s, orlp_fe_tobytes (c_fe h) = Some s /\ length s = 32%nat /\ le_val s = fval h mod p25519.
Proof.
  intros Hb. destruct (reduce_runs h Hb) as [E R]. unfold orlp_fe_tobytes. rewrite E, fe_values_c.
  eexists. split; [reflexivity|]. split; [done|]. rewrite (octets_val _ R).
  destruct (reduce_val h) as [c Hc]. pose proof (quotient_correct h Hb) as Hq.
  assert (0 <= fval (fe_reduce (A := exact) h) < 2 ^ 255) as Hr.
  { destruct R as (R0 & R1 & R2 & R3 & R4 & R5 & R6 & R7 & R8 & R9). unfold fval. lia. }
  assert (fval (fe_reduce (A := exact) h) = fval h - p25519 * quotient h) as ->.
  { clear E R. unfold p25519 in *. lia. }
  apply (Z.mod_unique_pos _ _ (quotient h)); [exact Hq|ring].
Qed.

(** ** Reading octets *)

Lemma lor_bytes a b k : 0 <= k -> 0 <= a < 2 ^ k -> Z.lor a (Z.shiftl b k) = a + 2 ^ k * b.
Proof. intros Hk Ha. rewrite Z.lor_comm, lor_shiftl_add by lia. lia. Qed.


Lemma load_3_val s i : load_3 s i = octet_at s i + 2 ^ 8 * octet_at s (i + 1) + 2 ^ 16 * octet_at s (i + 2).
Proof.
  unfold load_3. rewrite Nat.add_0_r. fold (octet_at s i) (octet_at s (i + 1)) (octet_at s (i + 2)).
  pose proof (octet_at_range s i). pose proof (octet_at_range s (i + 1)).
  rewrite (lor_bytes (octet_at s i)) by lia. rewrite lor_bytes by lia. done.
Qed.
Lemma load_4_val s i :
  load_4 s i = octet_at s i + 2 ^ 8 * octet_at s (i + 1) + 2 ^ 16 * octet_at s (i + 2) + 2 ^ 24 * octet_at s (i + 3).
Proof.
  change (load_4 s i) with (Z.lor (load_3 s i) (Z.shiftl (octet_at s (i + 3)) 24)). rewrite load_3_val.
  pose proof (octet_at_range s i). pose proof (octet_at_range s (i + 1)). pose proof (octet_at_range s (i + 2)).
  rewrite lor_bytes by lia. done.
Qed.

Lemma frombytes_carry_val h0 h1 h2 h3 h4 h5 h6 h7 h8 h9 :
  exists q, fval (frombytes_carry (A := exact) h0 h1 h2 h3 h4 h5 h6 h7 h8 h9) =
    fval (Fe h0 h1 h2 h3 h4 h5 h6 h7 h8 h9) - p25519 * q.
Proof.
  cbv beta delta [frombytes_carry]. take_carries.
  unfold fval. cbn [fe0 fe1 fe2 fe3 fe4 fe5 fe6 fe7 fe8 fe9]. unfold cast32, add64, mul64, lit, exact.
  unfold p25519. eexists. match goal with |- context [(?c * 19)%Z] => instantiate (1 := c) end. ring.
Qed.

Lemma rel_frombytes_carry (a0 a1 a2 a3 a4 a5 a6 a7 a8 a9 : @num checked) (b0 b1 b2 b3 b4 b5 b6 b7 b8 b9 : @num exact)
    (c0 c1 c2 c3 c4 c5 c6 c7 c8 c9 : @num interval) :
  rel a0 b0 c0 -> rel a1 b1 c1 -> rel a2 b2 c2 -> rel a3 b3 c3 -> rel a4 b4 c4 -> rel a5 b5 c5 ->
  rel a6 b6 c6 -> rel a7 b7 c7 -> rel a8 b8 c8 -> rel a9 b9 c9 ->
  rel_fe (frombytes_carry (A := checked) a0 a1 a2 a3 a4 a5 a6 a7 a8 a9)
    (frombytes_carry (A := exact) b0 b1 b2 b3 b4 b5 b6 b7 b8 b9)
    (frombytes_carry (A := interval) c0 c1 c2 c3 c4 c5 c6 c7 c8 c9).
Proof. intros. cbv beta delta [frombytes_carry]. solve_crel. Qed.

(** The ten limbs read off the octets. *)
Definition loaded (s : bytes) : fe Z :=
  Fe (load_4 s 0) (Z.shiftl (load_3 s 4) 6) (Z.shiftl (load_3 s 7) 5) (Z.shiftl (load_3 s 10) 3)
     (Z.shiftl (load_3 s 13) 2) (load_4 s 16) (Z.shiftl (load_3 s 20) 7) (Z.shiftl (load_3 s 23) 5)
     (Z.shiftl (load_3 s 26) 4) (Z.shiftl (Z.land (load_3 s 29) 8388607) 2).

Lemma le_val_octets s : length s = 32%nat ->
  le_val s = fold_right (fun i v => octet_at s i + 256 * v) 0 (seq 0 32).
Proof.
  intros H. do 32 (destruct s as [|? s]; [discriminate H|]). destruct s; [|discriminate H]. reflexivity.
Qed.

Lemma loaded_val s : length s = 32%nat -> fval (loaded s) = le_val s mod 2 ^ 255.
Proof.
  intros H. rewrite le_val_octets by done. unfold fval, loaded. cbn [fe0 fe1 fe2 fe3 fe4 fe5 fe6 fe7 fe8 fe9].
  rewrite !Z.shiftl_mul_pow2 by lia. change 8388607 with (Z.ones 23). rewrite Z.land_ones by lia.
  rewrite !load_3_val, !load_4_val. cbn [Nat.add seq fold_right].
  pose proof (octet_at_range s 29). pose proof (octet_at_range s 30). pose proof (octet_at_range s 31).
  replace ((octet_at s 29 + 2 ^ 8 * octet_at s 30 + 2 ^ 16 * octet_at s 31) mod 2 ^ 23)
    with (octet_at s 29 + 2 ^ 8 * octet_at s 30 + 2 ^ 16 * (octet_at s 31 mod 2 ^ 7)) by dlia.
  pose proof (Z.mod_pos_bound (octet_at s 31) (2 ^ 7) ltac:(lia)) as Hm.
  pose proof (Z.div_mod (octet_at s 31) (2 ^ 7) ltac:(lia)) as Hd.
  apply (Z.mod_unique_pos _ _ (octet_at s 31 / 2 ^ 7)); [|rewrite Hd at 1; ring].
  do 29 match goal with |- context [octet_at s ?i] =>
    let H := fresh in pose proof (octet_at_range s i) as H; revert H; generalize (octet_at s i) end.
  generalize dependent (octet_at s 31 mod 2 ^ 7). intros. lia.
Qed.

Definition loaded_box : fe range :=
  let R k := Some (0, 2 ^ k - 1) in Fe (R 32) (R 30) (R 29) (R 27) (R 26) (R 32) (R 31) (R 29) (R 28) (R 25).

Lemma load_3_range s i : 0 <= load_3 s i <= 2 ^ 24 - 1.
Proof.
  rewrite load_3_val. pose proof (octet_at_range s i). pose proof (octet_at_range s (i + 1)). pose proof (octet_at_range s (i + 2)). lia.
Qed.
Lemma load_4_range s i : 0 <= load_4 s i <= 2 ^ 32 - 1.
Proof.
  rewrite load_4_val. pose proof (octet_at_range s i). pose proof (octet_at_range s (i + 1)).
  pose proof (octet_at_range s (i + 2)). pose proof (octet_at_range s (i + 3)). lia.
Qed.

Lemma rel_loaded s : rel_fe (c_fe (loaded s)) (loaded s) loaded_box.
Proof.
  unfold rel_fe, rel. cbn [loaded loaded_box c_fe fe_map fe0 fe1 fe2 fe3 fe4 fe5 fe6 fe7 fe8 fe9].
  rewrite !Z.shiftl_mul_pow2 by lia. change 8388607 with (Z.ones 23). rewrite Z.land_ones by lia.
  pose proof (Z.mod_pos_bound (load_3 s 29) (2 ^ 23) ltac:(lia)).
  pose proof (load_3_range s) as L3. pose proof (load_4_range s) as L4.
  split_and!; try done;
    match goal with |- context [load_3 s ?i] => pose proof (L3 i) | |- context [load_4 s ?i] => pose proof (L4 i) | _ => idtac end;
    lia.
Qed.

Lemma frombytes_ok s : length s = 32%nat ->
  exists h, orlp_fe_frombytes (A := checked) s = c_fe h /\ le25 110 h /\ eqp (fval h) (le_val s mod 2 ^ 255).
Proof.
  intros Hl. destruct (rel_loaded s) as (R0 & R1 & R2 & R3 & R4 & R5 & R6 & R7 & R8 & R9).
  pose proof (rel_frombytes_carry _ _ _ _ _ _ _ _ _ _ _ _ _ _ _ _ _ _ _ _ _ _ _ _ _ _ _ _ _ _
    R0 R1 R2 R3 R4 R5 R6 R7 R8 R9) as R.
  destruct (run_program _ _ _ (110 * 2 ^ 25 / 100) (110 * 2 ^ 24 / 100) R) as [E B]; [by vm_compute|].
  eexists. split; [exact E|]. split; [exact B|]. rewrite <- (loaded_val s Hl).
  destruct (frombytes_carry_val (fe0 (loaded s)) (fe1 (loaded s)) (fe2 (loaded s)) (fe3 (loaded s)) (fe4 (loaded s))
    (fe5 (loaded s)) (fe6 (loaded s)) (fe7 (loaded s)) (fe8 (loaded s)) (fe9 (loaded s))) as [q Hq].
  by apply (eqp_sub _ _ q).
Qed.

Lemma le25_110_26 f : le25 110 f -> le26 110 f.
Proof.
  unfold le25, le26, bounded. change (110 * 2 ^ 25 / 100) with 36909875. change (110 * 2 ^ 24 / 100) with 18454937.
  change (110 * 2 ^ 26 / 100) with 73819750. lia.
Qed.

(** C39: Multiplication and squaring of field elements: under the bounds the comments of
    the source state, no operation overflows its C type, the result is within the
    stated bounds, and it is the product, the square and twice the square modulo
    2^255 - 19. *)
Theorem fe_mul_correct f g :
  le26 165 f -> le26 165 g ->
  (exists h, orlp_fe_mul (c_fe f) (c_fe g) = c_fe h /\ le25 101 h /\ eqp (fval h) (fval f * fval g)) /\
  (exists h, orlp_fe_sq (c_fe f) = c_fe h /\ le25 101 h /\ eqp (fval h) (fval f * fval f)) /\
  (exists h, orlp_fe_sq2 (c_fe f) = c_fe h /\ le25 101 h /\ eqp (fval h) (2 * (fval f * fval f))).
Proof. intros Hf Hg. split; [by apply mul_ok|]. split; [by apply sq_ok|by apply sq2_ok]. Qed.

(** The addition chains: [orlp_fe_invert] computes the power p - 2, which inverts, and
    [orlp_fe_pow22523] the power (p - 5) / 8, within bounds and without overflow. *)
Theorem fe_powers_correct z :
  le26 165 z ->
  (exists h, orlp_fe_invert (c_fe z) = c_fe h /\ le25 101 h /\ eqp (fval h) (fval z ^ (p25519 - 2))) /\
  (exists h, orlp_fe_pow22523 (c_fe z) = c_fe h /\ le25 101 h /\ eqp (fval h) (fval z ^ ((p25519 - 5) / 8))).
Proof. intros Hz. split; [by apply invert_ok|by apply (pow22523_ok z Hz)]. Qed.

(** The octets of an element are those of its one representative between 0 and
    p - 1, least significant first, so equal elements have equal octets. *)
Theorem fe_tobytes_correct h :
  le26 110 h ->
  exists s, orlp_fe_tobytes (c_fe h) = Some s /\ length s = 32%nat /\ le_val s = fval h mod p25519.
Proof. apply tobytes_ok. Qed.

(** Every canonical encoding is read and written back unchanged; octets that encode
    p or more, or have the top bit set, are read as the number modulo 2^255 they
    encode and written back reduced. *)
Theorem fe_bytes_roundtrip s :
  length s = 32%nat ->
  exists h t, orlp_fe_frombytes (A := checked) s = c_fe h /\ orlp_fe_tobytes (c_fe h) = Some t /\
    length t = 32%nat /\ le_val t = (le_val s mod 2 ^ 255) mod p25519 /\
    (le_val s < p25519 -> t = s).
Proof.
  intros Hs. destruct (frombytes_ok s Hs) as (h & Eh & Bh & Vh).
  destruct (tobytes_ok h (le25_110_26 h Bh)) as (t & Et & Lt & Vt).
  assert (le_val t = (le_val s mod 2 ^ 255) mod p25519) as V by (by rewrite Vt).
  exists h, t. split_and!; [done..|]. intros Hp. apply le_val_inj; [congruence|].
  rewrite V. pose proof (le_val_range s). unfold p25519 in *.
  rewrite (Z.mod_small _ (2 ^ 255)) by lia. rewrite Z.mod_small by lia. done.
Qed.

(** ** Examples *)

Definition demo_fe (n : Z) : fe Z := Fe (n - 33554432) 16777216 (- n) n 7 (- 16777216) 33554432 n (- 5) 16777216.

Ltac within := unfold le26, le25, bounded; split_and!; vm_compute; intros; discriminate.

Lemma fe_mul_correct_witness :
  (exists h, orlp_fe_mul (c_fe (demo_fe 3)) (c_fe (demo_fe 12345)) = c_fe h /\ le25 101 h /\
    eqp (fval h) (fval (demo_fe 3) * fval (demo_fe 12345))) /\
  (exists h, orlp_fe_sq (c_fe (demo_fe 3)) = c_fe h /\ le25 101 h /\
    eqp (fval h) (fval (demo_fe 3) * fval (demo_fe 3))) /\
  (exists h, orlp_fe_sq2 (c_fe (demo_fe 3)) = c_fe h /\ le25 101 h /\
    eqp (fval h) (2 * (fval (demo_fe 3) * fval (demo_fe 3)))).
Proof. apply (fe_mul_correct (demo_fe 3) (demo_fe 12345)); within. Defined.

Lemma fe_powers_correct_witness :
  (exists h, orlp_fe_invert (c_fe (demo_fe 3)) = c_fe h /\ le25 101 h /\
    eqp (fval h) (fval (demo_fe 3) ^ (p25519 - 2))) /\
  (exists h, orlp_fe_pow22523 (c_fe (demo_fe 3)) = c_fe h /\ le25 101 h /\
    eqp (fval h) (fval (demo_fe 3) ^ ((p25519 - 5) / 8))).
Proof. apply (fe_powers_correct (demo_fe 3)); within. Defined.

Lemma fe_tobytes_correct_witness :
  exists s, orlp_fe_tobytes (c_fe (demo_fe 3)) = Some s /\ length s = 32%nat /\
    le_val s = fval (demo_fe 3) mod p25519.
Proof. apply (fe_tobytes_correct (demo_fe 3)); within. Defined.

Lemma fe_bytes_roundtrip_witness :
  exists h t, orlp_fe_frombytes (A := checked) (replicate 32 x5a) = c_fe h /\ orlp_fe_tobytes (c_fe h) = Some t /\
    length t = 32%nat /\ le_val t = (le_val (replicate 32 x5a) mod 2 ^ 255) mod p25519 /\
    (le_val (replicate 32 x5a) < p25519 -> t = replicate 32 x5a).
Proof. by apply (fe_bytes_roundtrip (replicate 32 x5a)). Defined.
