(* ===== verification/Primes.v ===== *)
(** * Primes: the modulus of the field of Ed25519 is prime

    Pocklington's criterion over the [Zmod] library, with the certificate of
    2^255 - 19: a chain of five numbers down to trial division. *)
From Stdlib Require Import Zmod Zstar Znumtheory.
From Bignums Require Import BigZ.BigZ.
From S2P Require Import Prelude.

(** ** Powers by squaring *)

Fixpoint powmod (n a : bigZ) (e : positive) : bigZ :=
  match e with
  | xH => BigZ.modulo a n
  | xO e => let t := powmod n a e in BigZ.modulo (BigZ.mul t t) n
  | xI e => let t := powmod n a e in BigZ.modulo (BigZ.mul a (BigZ.modulo (BigZ.mul t t) n)) n
  end.

Lemma powmod_eq n a e : BigZ.to_Z (powmod n a e) = BigZ.to_Z a ^ Z.pos e mod BigZ.to_Z n.
Proof.
  induction e as [e IH|e IH|]; cbn [powmod];
    rewrite ?BigZ.spec_modulo, ?BigZ.spec_mul, ?BigZ.spec_modulo, ?BigZ.spec_mul; [| |by rewrite Z.pow_1_r].
  - rewrite IH, <- Zmult_mod, Zmult_mod_idemp_r. f_equal.
    rewrite Pos2Z.inj_xI, Z.pow_add_r, Z.pow_1_r, Z.mul_comm by lia. f_equal.
    by rewrite <- Z.pow_twice_r.
  - rewrite IH, <- Zmult_mod. f_equal. by rewrite Pos2Z.inj_xO, <- Z.pow_twice_r.
Qed.

Lemma powmod_Z n a e : (a ^ Z.pos e mod n)%Z = BigZ.to_Z (powmod (BigZ.of_Z n) (BigZ.of_Z a) e).
Proof. by rewrite powmod_eq, !BigZ.spec_of_Z. Qed.

(** ** Small numbers *)

(** No number from 2 up to [k + 1] divides [n]. *)
Fixpoint undivided (k : nat) (n : Z) : bool :=
  match k with O => true | S k' => negb (n mod (Z.of_nat k + 1) =? 0) && undivided k' n end.

Lemma undivided_spec k n d : undivided k n = true -> 2 <= d <= Z.of_nat k + 1 -> ~ (d | n).
Proof.
  induction k as [|k IH]; intros H Hd; [lia|]. cbn [undivided] in H.
  apply andb_true_iff in H as [H1 H2]. apply negb_true_iff, Z.eqb_neq in H1.
  destruct (Z.eq_dec d (Z.of_nat (S k) + 1)) as [->|Hne]; [|apply IH; [done|lia]].
  intros Hdiv. apply H1. by apply Z.mod_divide; [lia|].
Qed.

(** A number without a divisor up to its root is prime. *)
Lemma prime_by_root n : 1 < n -> (forall d, 1 < d -> d * d <= n -> ~ (d | n)) -> Z.prime n.
Proof.
  intros Hn H. split; [done|]. intros d Hd [e He].
  destruct (Z.le_ge_cases (d * d) n) as [Hle|Hge].
  - apply (H d); [lia|done|]. by exists e.
  - apply (H e); [nia|nia|]. exists d. lia.
Qed.

Lemma prime_by_trial k n : 1 < n < (Z.of_nat k + 2) * (Z.of_nat k + 2) -> undivided k n = true -> Z.prime n.
Proof.
  intros Hn Hk. apply prime_by_root; [lia|]. intros d Hd Hdd. apply (undivided_spec k); [done|]. nia.
Qed.

Lemma prime_divisor_exists n : 1 < n -> exists r, Z.prime r /\ (r | n).
Proof.
  intros Hn. assert (0 <= n) as H0 by lia. revert Hn. pattern n. apply Z_lt_induction; [|done].
  clear n H0. intros n IH Hn. destruct (prime_dec n) as [Hp|Hp].
  - exists n. split; [by apply prime_alt|]. apply Z.divide_refl.
  - apply not_prime_divide in Hp as (d & Hd & Hdn); [|done].
    destruct (IH d) as (r & Hr & Hrd); [lia..|]. exists r. split; [done|]. by transitivity d.
Qed.

(** ** Pocklington's criterion *)

(** An element whose [q]-th power is one, other than one, has order [q], which divides
    the order of the group. *)
Lemma order_divides r q b :
  Z.prime r -> Z.prime q -> b ^ q mod r = 1 -> b mod r <> 1 -> b mod r <> 0 -> (q | r - 1).
Proof.
  intros Hr Hq E Hb H0. pose proof (Z.prime_ge_2 _ Hr). pose proof (Z.prime_ge_2 _ Hq).
  destruct (Z.BoolSpec_divide q (r - 1)) as [|Hnd]; [done|exfalso].
  destruct (Z.Bezout_coprime _ _ (Z.coprime_prime_l q (r - 1) Hq Hnd)) as (u & v & Huv).
  set (x := Zmod.of_Z r b).
  assert (Zmod.unsigned x = b mod r) as Ex by apply Zmod.unsigned_of_Z.
  assert (Z.gcd (Zmod.unsigned x) r = 1) as Hg.
  { rewrite Ex, Z.gcd_comm. apply Z.coprime_prime_small; [done|].
    pose proof (Z.mod_pos_bound b r ltac:(lia)). lia. }
  assert (Zmod.pow x q = Zmod.one) as Eq.
  { unfold x. rewrite <- Zmod.of_Z_pow by lia. apply Zmod.of_Z_inj. rewrite E. by rewrite Z.mod_small by lia. }
  assert (Zmod.pow x (r - 1) = Zmod.one) as Ef.
  { apply (Zmod.fermat_nz x); [|done]. intros H'. apply (f_equal Zmod.unsigned) in H'.
    rewrite Ex, Zmod.unsigned_0 in H'. done. }
  assert (x = Zmod.one) as E1.
  { rewrite <- (Zmod.pow_1_r x), <- Huv.
    rewrite Zmod.pow_add_r_coprime, (Z.mul_comm u), (Z.mul_comm v), !Zmod.pow_mul_r_coprime by done.
    rewrite Eq, Ef, !Zmod.pow_1_l. apply Zmod.mul_1_l. }
  apply Hb. rewrite <- Ex, E1. unfold Zmod.one. rewrite Zmod.unsigned_of_Z. apply Z.mod_small. lia.
Qed.

(** What is checked of a number and a prime factor of its predecessor. *)
Definition pocklington_check (n a q : Z) : bool :=
  let N := BigZ.of_Z n in
  let b := powmod N (BigZ.of_Z a) (Z.to_pos ((n - 1) / q)) in
  BigZ.eqb (powmod N b (Z.to_pos q)) 1%bigZ && BigZ.eqb (BigZ.gcd (BigZ.sub b 1%bigZ) N) 1%bigZ.

Lemma pocklington_check_spec n a q : 0 < q -> pocklington_check n a q = true ->
  exists b, b ^ q mod n = 1 /\ Z.gcd (b - 1) n = 1.
Proof.
  intros Hq. unfold pocklington_check. cbv zeta.
  generalize (powmod (BigZ.of_Z n) (BigZ.of_Z a) (Z.to_pos ((n - 1) / q))). intros b.
  rewrite andb_true_iff.
  rewrite !BigZ.spec_eqb, !Z.eqb_eq, powmod_eq, Z2Pos.id by lia.
  rewrite BigZ.spec_gcd, BigZ.spec_sub, BigZ.spec_of_Z. intros [H1 H2]. by exists (BigZ.to_Z b).
Qed.

Lemma pocklington_divides n a q r :
  1 < n -> Z.prime q -> pocklington_check n a q = true -> Z.prime r -> (r | n) -> (q | r - 1).
Proof.
  intros Hn Hq H Hr Hrn. pose proof (Z.prime_ge_2 _ Hr). pose proof (Z.prime_ge_2 _ Hq).
  destruct (pocklington_check_spec n a q ltac:(lia) H) as (b & E & Hg).
  assert (b ^ q mod r = 1) as Er.
  { rewrite <- (Z.mod_mod_divide _ n r Hrn), E. apply Z.mod_small. lia. }
  assert (~ (r | b - 1)) as Hb1.
  { intros Hd. pose proof (Z.gcd_greatest _ _ _ Hd Hrn) as Hk. rewrite Hg in Hk.
    apply Z.divide_pos_le in Hk; lia. }
  apply (order_divides r q b); try done.
  - intros Hone. apply Hb1. apply Z.mod_divide; [lia|]. rewrite Zminus_mod, Hone, (Z.mod_small 1) by lia. done.
  - intros Hb0. rewrite <- Z.mod_pow_l, Hb0, Z.pow_0_l in Er by lia. by rewrite Z.mod_0_l in Er by lia.
Qed.

(** Pocklington: if the factored part of [n - 1] exceeds the root of [n], then [n] is
    prime; here the factored part is one prime, or two. *)
Lemma pocklington n F :
  1 < n < F * F -> 0 < F ->
  (forall r, Z.prime r -> (r | n) -> (F | r - 1)) -> Z.prime n.
Proof.
  intros Hn HF H. destruct (prime_divisor_exists n) as (r & Hr & Hrn); [lia|].
  apply prime_by_root; [lia|]. intros d Hd Hdd Hdn.
  destruct (prime_divisor_exists d Hd) as (r' & Hr' & Hrd).
  destruct (H r' Hr' ltac:(by transitivity d)) as [k Hk].
  pose proof (Z.prime_ge_2 _ Hr'). apply Z.divide_pos_le in Hrd; [|lia].
  assert (d < F) by nia. assert (1 <= k) by nia. nia.
Qed.

Lemma pocklington1 n a q :
  1 < n < q * q -> Z.prime q -> pocklington_check n a q = true -> Z.prime n.
Proof.
  intros Hn Hq H. apply (pocklington n q); [done|pose proof (Z.prime_ge_2 _ Hq); lia|].
  intros r. apply (pocklington_divides n a q r); [lia|done..].
Qed.

Lemma pocklington2 n a q q' :
  1 < n < (q * q') * (q * q') -> Z.prime q -> Z.prime q' -> q <> q' ->
  pocklington_check n a q = true -> pocklington_check n a q' = true -> Z.prime n.
Proof.
  intros Hn Hq Hq' Hne H H'. pose proof (Z.prime_ge_2 _ Hq). pose proof (Z.prime_ge_2 _ Hq').
  apply (pocklington n (q * q')); [done|nia|]. intros r Hr Hrn.
  destruct (pocklington_divides n a q' r) as [k Hk]; [lia|done..|].
  assert ((q | k * q')) as Hd by (rewrite <- Hk; apply (pocklington_divides n a q r); [lia|done..]).
  apply Z.divide_prime_mul in Hd as [[j ->]|Hd]; [exists j; rewrite Hk; ring| |done].
  by apply Z.divide_prime_prime in Hd.
Qed.

(** ** The certificate *)

Lemma prime_103 : Z.prime 103.
Proof. apply (prime_by_trial 10); [lia|by vm_compute]. Qed.
Lemma prime_127 : Z.prime 127.
Proof. apply (prime_by_trial 11); [lia|by vm_compute]. Qed.
Lemma prime_991 : Z.prime 991.
Proof. apply (prime_by_trial 31); [lia|by vm_compute]. Qed.
Lemma prime_75707 : Z.prime 75707.
Proof. apply (prime_by_trial 275); [lia|by vm_compute]. Qed.
Lemma prime_132049 : Z.prime 132049.
Proof. apply (prime_by_trial 363); [lia|by vm_compute]. Qed.

Lemma prime_cert_24 : Z.prime 8574133.
Proof. apply (pocklington2 _ 2 991 103); [lia|apply prime_991|apply prime_103|done|by vm_compute..]. Qed.
Lemma prime_cert_51 : Z.prime 1919519569386763.
Proof. apply (pocklington2 _ 2 8574133 127); [lia|apply prime_cert_24|apply prime_127|done|by vm_compute..]. Qed.
Lemma prime_cert_116 : Z.prime 75445702479781427272750846543864801.
Proof.
  apply (pocklington2 _ 2 1919519569386763 75707);
    [lia|apply prime_cert_51|apply prime_75707|done|by vm_compute..].
Qed.
Lemma prime_cert_236 : Z.prime 74058212732561358302231226437062788676166966415465897661863160754340907.
Proof.
  apply (pocklington2 _ 2 75445702479781427272750846543864801 132049);
    [lia|apply prime_cert_116|apply prime_132049|done|by vm_compute..].
Qed.

Lemma prime_p25519 : Z.prime (2 ^ 255 - 19).
Proof.
  apply (pocklington1 _ 2 74058212732561358302231226437062788676166966415465897661863160754340907);
    [lia|apply prime_cert_236|by vm_compute].
Qed.
