(* ===== verification/Edwards.v ===== *)
(** * Edwards: the group of Ed25519

    The field of 2^255 - 19 elements, the twisted Edwards curve over it, its addition
    law, which is complete because [d] is not a square, and the group it makes. *)
From Stdlib Require Import Zmod Field.
From Bignums Require Import BigZ.BigZ.
From S2P Require Import Prelude FeFacts Primes.

(** ** The field *)

Abbreviation F := (Zmod p25519).

#[export] Instance p25519_prime : Z.prime p25519.
Proof. exact prime_p25519. Qed.

Definition F_field := Zmod.field_theory p25519 p25519_prime.
Add Field F_field_inst : F_field.

Declare Scope F_scope.
Delimit Scope F_scope with F.
Bind Scope F_scope with Zmod.Zmod.
Notation "0" := (@Zmod.zero p25519) : F_scope.
Notation "1" := (@Zmod.one p25519) : F_scope.
Notation "x + y" := (@Zmod.add p25519 x y) : F_scope.
Notation "x - y" := (@Zmod.sub p25519 x y) : F_scope.
Notation "x * y" := (@Zmod.mul p25519 x y) : F_scope.
Notation "- x" := (@Zmod.opp p25519 x) : F_scope.
Notation "x / y" := (@Zmod.mdiv p25519 x y) : F_scope.

(** The class of an integer. *)
Definition toF (z : Z) : F := Zmod.of_Z p25519 z.
Local Open Scope F_scope.

#[export] Instance F_eq_dec : EqDecision F.
Proof.
  intros x y. destruct (Zmod.eqb x y) eqn:E; [left; by apply Zmod.eqb_eq|right].
  intros H%Zmod.eqb_eq. congruence.
Defined.

Lemma toF_add a b : toF (a + b)%Z = toF a + toF b.
Proof. apply Zmod.of_Z_add. Qed.
Lemma toF_sub a b : toF (a - b)%Z = toF a - toF b.
Proof. apply Zmod.of_Z_sub. Qed.
Lemma toF_mul a b : toF (a * b)%Z = toF a * toF b.
Proof. apply Zmod.of_Z_mul. Qed.
Lemma toF_opp a : toF (- a)%Z = - toF a.
Proof. apply Zmod.of_Z_opp. Qed.
Lemma toF_0 : toF 0 = 0.
Proof. apply Zmod.of_Z_0. Qed.
Lemma toF_1 : toF 1 = 1.
Proof. apply Zmod.of_Z_1. Qed.
Create Rewrite HintDb toF.
#[export] Hint Rewrite toF_add toF_sub toF_mul toF_opp toF_0 toF_1 : toF.

Lemma toF_eq a b : toF a = toF b <-> eqp a b.
Proof. apply Zmod.of_Z_inj. Qed.

Lemma F_mul_0 (a b : F) : a * b = 0 -> a = 0 \/ b = 0.
Proof. apply Zmod.mul_0_iff_prime, p25519_prime. Qed.
Lemma F_mul_nz (a b : F) : a <> 0 -> b <> 0 -> a * b <> 0.
Proof. intros Ha Hb [|]%F_mul_0; done. Qed.
Lemma F_1_nz : (1 : F) <> 0.
Proof. intros H%(f_equal Zmod.unsigned). by vm_compute in H. Qed.
Lemma F_sub_0 (a b : F) : a - b = 0 -> a = b.
Proof. intros H. replace a with (a - b + b) by ring. rewrite H. ring. Qed.

Opaque Zmod.add Zmod.sub Zmod.mul Zmod.opp Zmod.mdiv Zmod.inv Zmod.of_Z.

(** ** Squares *)

Definition d25519 : Z := 37095705934669439343138083508754565189542113879843219016388785533085940283555.
Definition i25519 : Z := 19681161376707505956807079304988542015446066515923890162744021073123829784752.
Definition dF : F := toF d25519.
Definition iF : F := toF i25519.

Lemma d_fraction : dF * toF 121666 = - toF 121665.
Proof. unfold dF. rewrite <- toF_mul, <- toF_opp. apply toF_eq. by vm_compute. Qed.

Lemma i_square : iF * iF = - (1).
Proof. unfold iF. rewrite <- toF_mul, <- toF_1, <- toF_opp. apply toF_eq. by vm_compute. Qed.

(** The criterion of Euler: a square has order (p - 1) / 2. *)
Lemma square_power (s : F) : s <> 0 ->
  (Zmod.unsigned (s * s) ^ ((p25519 - 1) / 2) mod p25519 = 1)%Z.
Proof.
  intros Hs. assert (Zmod.unsigned (s * s) = Zmod.unsigned s * Zmod.unsigned s mod p25519)%Z as E.
  { Transparent Zmod.mul Zmod.of_Z. unfold Zmod.mul. apply Zmod.unsigned_of_Z. Opaque Zmod.mul Zmod.of_Z. }
  rewrite E, Z.mod_pow_l, <- Z.pow_2_r, <- Z.pow_mul_r by done.
  change (2 * ((p25519 - 1) / 2))%Z with (p25519 - 1)%Z. apply Z.fermat_nz; [apply p25519_prime|].
  rewrite Zmod.mod_unsigned. intros H. apply Hs. by apply Zmod.unsigned_0_iff.
Qed.

Lemma d_power : (d25519 ^ ((p25519 - 1) / 2) mod p25519 = p25519 - 1)%Z.
Proof.
  replace ((p25519 - 1) / 2)%Z with (Z.pos (Z.to_pos ((p25519 - 1) / 2))) by (by vm_compute).
  rewrite powmod_Z. by vm_compute.
Qed.

Lemma d_not_square (s : F) : s * s <> dF.
Proof.
  intros H. destruct (decide (s = 0)) as [->|Hs].
  - assert (dF = 0) as E by (rewrite <- H; ring). revert E. unfold dF. rewrite <- toF_0, toF_eq. by vm_compute.
  - apply square_power in Hs. rewrite H in Hs. unfold dF, toF in Hs.
    rewrite Zmod.unsigned_of_Z, Z.mod_pow_l, d_power in Hs. by vm_compute in Hs.
Qed.

(** ** The curve *)

Definition on_curve (x y : F) : Prop := dF * x * x * y * y = y * y - x * x - 1.

#[export] Instance on_curve_dec x y : Decision (on_curve x y).
Proof. apply F_eq_dec. Defined.

Section completeness.
Context (x1 y1 x2 y2 : F) (H1 : on_curve x1 y1) (H2 : on_curve x2 y2).

(** A denominator that vanishes would make [d] a square. *)
Lemma no_unit_product (e : F) : e * e = 1 -> dF * x1 * y1 * x2 * y2 <> e.
Proof.
  intros He Hk. unfold on_curve in *.
  assert (dF * (x1 * x1) * (y1 * y1) * (dF * (x2 * x2) * (y2 * y2)) = 1) as Hsq.
  { transitivity ((dF * x1 * y1 * x2 * y2) * (dF * x1 * y1 * x2 * y2)); [ring|]. by rewrite Hk. }
  (* (i x1 + e y1)^2 = d x1^2 y1^2 (i x2 + y2)^2, and the same with the other signs *)
  assert (Hroot : forall s : F, s * s = 1 ->
    (iF * x1 + s * e * y1) * (iF * x1 + s * e * y1) =
    dF * ((x1 * y1) * (x1 * y1)) * ((iF * x2 + s * y2) * (iF * x2 + s * y2))).
  { intros s Hs.
    transitivity (- (x1 * x1) + y1 * y1 + (1 + 1) * iF * s * e * x1 * y1).
    { replace ((iF * x1 + s * e * y1) * (iF * x1 + s * e * y1)) with
        ((iF * iF) * (x1 * x1) + (s * s) * (e * e) * (y1 * y1) + (1 + 1) * iF * s * e * x1 * y1) by ring.
      rewrite i_square, Hs, He. ring. }
    replace (dF * ((x1 * y1) * (x1 * y1)) * ((iF * x2 + s * y2) * (iF * x2 + s * y2))) with
      (dF * (x1 * x1) * (y1 * y1) * ((iF * iF) * (x2 * x2) + (s * s) * (y2 * y2)) +
       (1 + 1) * iF * s * (dF * x1 * y1 * x2 * y2) * x1 * y1) by ring.
    rewrite i_square, Hs, Hk.
    replace (dF * (x1 * x1) * (y1 * y1) * (- (1) * (x2 * x2) + 1 * (y2 * y2))) with
      (dF * (x1 * x1) * (y1 * y1) * (dF * x2 * x2 * y2 * y2 + 1)) by (rewrite H2; ring).
    replace (dF * (x1 * x1) * (y1 * y1) * (dF * x2 * x2 * y2 * y2 + 1)) with
      (dF * (x1 * x1) * (y1 * y1) * (dF * (x2 * x2) * (y2 * y2)) + dF * x1 * x1 * y1 * y1) by ring.
    rewrite Hsq, H1. ring. }
  assert (x1 * y1 <> 0) as Hxy.
  { intros E. assert (e = 0) as ->.
    { rewrite <- Hk. replace (dF * x1 * y1 * x2 * y2) with (dF * (x1 * y1) * x2 * y2) by ring. rewrite E. ring. }
    apply F_1_nz. rewrite <- He. ring. }
  (* so both factors on the right vanish, and the second point is not on the curve *)
  assert (Hzero : forall s : F, s * s = 1 -> iF * x2 + s * y2 = 0).
  { intros s Hs. destruct (decide (iF * x2 + s * y2 = 0)) as [|Hnz]; [done|exfalso].
    apply (d_not_square ((iF * x1 + s * e * y1) / ((x1 * y1) * (iF * x2 + s * y2)))).
    transitivity ((iF * x1 + s * e * y1) * (iF * x1 + s * e * y1) /
      (((x1 * y1) * (x1 * y1)) * ((iF * x2 + s * y2) * (iF * x2 + s * y2)))).
    - field. split; [done|]. split; intros E; apply Hxy; rewrite E; ring.
    - rewrite (Hroot s Hs). field. split; [done|]. split; intros E; apply Hxy; rewrite E; ring. }
  pose proof (Hzero 1 ltac:(ring)) as Z1. pose proof (Hzero (- (1)) ltac:(ring)) as Z2.
  assert (y2 * y2 = 0) as Ey.
  { assert ((1 + 1) * y2 = 0) as E2.
    { transitivity (iF * x2 + 1 * y2 - (iF * x2 + - (1) * y2)); [ring|]. rewrite Z1, Z2. ring. }
    apply F_mul_0 in E2 as [E2| ->]; [|ring]. exfalso. revert E2.
    rewrite <- toF_1, <- toF_add, <- toF_0, toF_eq. by vm_compute. }
  assert (x2 * x2 = 0) as Ex.
  { transitivity (- ((iF * iF) * (x2 * x2))); [rewrite i_square; ring|].
    replace (iF * iF * (x2 * x2)) with ((iF * x2 + 1 * y2) * (iF * x2 - 1 * y2) + y2 * y2) by ring.
    rewrite Z1, Ey. ring. }
  apply F_1_nz. transitivity (- (dF * x2 * x2 * y2 * y2 - y2 * y2 + x2 * x2)); [rewrite H2; ring|].
  replace (dF * x2 * x2 * y2 * y2) with (dF * (x2 * x2) * (y2 * y2)) by ring. rewrite Ex, Ey. ring.
Qed.

Lemma complete_plus : 1 + dF * x1 * y1 * x2 * y2 <> 0.
Proof.
  intros H. apply (no_unit_product (- (1))); [ring|].
  transitivity (1 + dF * x1 * y1 * x2 * y2 - 1); [ring|]. rewrite H. ring.
Qed.
Lemma complete_minus : 1 - dF * x1 * y1 * x2 * y2 <> 0.
Proof.
  intros H. apply (no_unit_product 1); [ring|].
  transitivity (1 - (1 - dF * x1 * y1 * x2 * y2)); [ring|]. rewrite H. ring.
Qed.
End completeness.

(** ** The addition law *)

Definition add_x (x1 y1 x2 y2 : F) : F := (x1 * y2 + y1 * x2) / (1 + dF * x1 * y1 * x2 * y2).
Definition add_y (x1 y1 x2 y2 : F) : F := (y1 * y2 + x1 * x2) / (1 - dF * x1 * y1 * x2 * y2).

Lemma on_curve_numerators x1 y1 x2 y2 :
  on_curve x1 y1 -> on_curve x2 y2 ->
  let nx := x1 * y2 + y1 * x2 in let ny := y1 * y2 + x1 * x2 in
  let k := dF * x1 * y1 * x2 * y2 in
  dF * nx * nx * ny * ny = ny * ny * ((1 + k) * (1 + k)) - nx * nx * ((1 - k) * (1 - k)) - (1 + k) * (1 + k) * ((1 - k) * (1 - k)).
Proof. intros H1 H2 nx ny k. unfold on_curve, nx, ny, k in *. ring [H1 H2]. Qed.

(** [field] with non-zero denominators among the hypotheses. *)
Ltac fieldF := field; repeat split; assumption.

Lemma on_curve_fraction nx dx ny dy :
  dx <> 0 -> dy <> 0 ->
  dF * nx * nx * ny * ny = ny * ny * (dx * dx) - nx * nx * (dy * dy) - dx * dx * (dy * dy) <->
  on_curve (nx / dx) (ny / dy).
Proof.
  intros Hx Hy. unfold on_curve. split.
  - intros H. transitivity (dF * nx * nx * ny * ny / (dx * dx * (dy * dy))); [fieldF|].
    rewrite H. fieldF.
  - intros H. transitivity (dF * (nx / dx) * (nx / dx) * (ny / dy) * (ny / dy) * (dx * dx * (dy * dy))); [fieldF|].
    rewrite H. fieldF.
Qed.

Lemma on_curve_add x1 y1 x2 y2 :
  on_curve x1 y1 -> on_curve x2 y2 -> on_curve (add_x x1 y1 x2 y2) (add_y x1 y1 x2 y2).
Proof.
  intros H1 H2. apply on_curve_fraction; [by apply complete_plus|by apply complete_minus|].
  by apply on_curve_numerators.
Qed.

Lemma div_eq (a b c d : F) : b <> 0 -> d <> 0 -> a * d = c * b -> a / b = c / d.
Proof. intros Hb Hd H. transitivity (a * d / (b * d)); [fieldF|]. rewrite H. fieldF. Qed.

Lemma div_cross (a b c d : F) : b <> 0 -> d <> 0 -> a / b = c / d -> a * d = c * b.
Proof.
  intros Hb Hd H. transitivity (a / b * (b * d)); [fieldF|]. rewrite H. fieldF.
Qed.

(** Sums of fractions. *)
Lemma add_fractions X Y a b c e x y :
  X = a / b -> Y = c / e -> b <> 0 -> e <> 0 -> on_curve X Y -> on_curve x y ->
  add_x X Y x y = (a * e * y + c * b * x) / (b * e + dF * a * c * x * y) /\
  add_y X Y x y = (c * b * y + a * e * x) / (b * e - dF * a * c * x * y) /\
  b * e + dF * a * c * x * y <> 0 /\ b * e - dF * a * c * x * y <> 0.
Proof.
  intros -> -> Hb He H1 H2. pose proof (complete_plus _ _ _ _ H1 H2) as Hp.
  pose proof (complete_minus _ _ _ _ H1 H2) as Hm.
  assert (b * e + dF * a * c * x * y <> 0) as Hp'.
  { intros E. apply Hp. transitivity ((b * e + dF * a * c * x * y) / (b * e)); [fieldF|]. rewrite E. fieldF. }
  assert (b * e - dF * a * c * x * y <> 0) as Hm'.
  { intros E. apply Hm. transitivity ((b * e - dF * a * c * x * y) / (b * e)); [fieldF|]. rewrite E. fieldF. }
  split_and!; [unfold add_x; fieldF|unfold add_y; fieldF|assumption|assumption].
Qed.

Lemma add_comm_xy x1 y1 x2 y2 :
  add_x x1 y1 x2 y2 = add_x x2 y2 x1 y1 /\ add_y x1 y1 x2 y2 = add_y x2 y2 x1 y1.
Proof. unfold add_x, add_y. split; f_equal; ring. Qed.

Section associativity.
Context (x1 y1 x2 y2 x3 y3 : F) (H1 : on_curve x1 y1) (H2 : on_curve x2 y2) (H3 : on_curve x3 y3).

Lemma add_assoc_xy :
  add_x (add_x x1 y1 x2 y2) (add_y x1 y1 x2 y2) x3 y3 = add_x x1 y1 (add_x x2 y2 x3 y3) (add_y x2 y2 x3 y3) /\
  add_y (add_x x1 y1 x2 y2) (add_y x1 y1 x2 y2) x3 y3 = add_y x1 y1 (add_x x2 y2 x3 y3) (add_y x2 y2 x3 y3).
Proof.
  destruct (add_comm_xy x1 y1 (add_x x2 y2 x3 y3) (add_y x2 y2 x3 y3)) as [-> ->].
  pose proof (on_curve_add _ _ _ _ H1 H2) as C12. pose proof (on_curve_add _ _ _ _ H2 H3) as C23.
  destruct (add_fractions (add_x x1 y1 x2 y2) (add_y x1 y1 x2 y2) _ _ _ _ x3 y3 eq_refl eq_refl (complete_plus _ _ _ _ H1 H2)
    (complete_minus _ _ _ _ H1 H2) C12 H3) as (-> & -> & A1 & A2).
  destruct (add_fractions (add_x x2 y2 x3 y3) (add_y x2 y2 x3 y3) _ _ _ _ x1 y1 eq_refl eq_refl (complete_plus _ _ _ _ H2 H3)
    (complete_minus _ _ _ _ H2 H3) C23 H1) as (-> & -> & B1 & B2).
  clear C12 C23. unfold on_curve in *.
  split; apply div_eq; try assumption; ring [H1 H2 H3].
Qed.
End associativity.
