(* ===== verification/EdGroup.v ===== *)
(** * EdGroup: the points of the curve as a group, and their multiples *)
From Stdlib Require Import Zmod Field.
From S2P Require Import Prelude FeFacts Primes Edwards.
Local Open Scope F_scope.
Add Field F_field_inst : F_field.
Opaque Zmod.add Zmod.sub Zmod.mul Zmod.opp Zmod.mdiv Zmod.inv Zmod.of_Z.


(** ** The group *)

(** A point of the curve.  Equality in the field is decidable, so points are equal when
    their coordinates are. *)
Record pt := pt_of { px : F; py : F; pt_on : on_curve px py }.

Lemma pt_eq P Q : px P = px Q -> py P = py Q -> P = Q.
Proof.
  destruct P as [x y H], Q as [x' y' H']. cbn. intros -> ->. f_equal.
  apply Eqdep_dec.UIP_dec, F_eq_dec.
Qed.

Lemma on_curve_zero : on_curve 0 1.
Proof. unfold on_curve. ring. Qed.
Lemma on_curve_opp x y : on_curve x y -> on_curve (- x) y.
Proof. unfold on_curve. intros H. transitivity (dF * x * x * y * y); [ring|]. rewrite H. ring. Qed.

Definition pzero : pt := pt_of 0 1 on_curve_zero.
Definition popp (P : pt) : pt := pt_of _ _ (on_curve_opp _ _ (pt_on P)).
Definition padd (P Q : pt) : pt := pt_of _ _ (on_curve_add _ _ _ _ (pt_on P) (pt_on Q)).

#[export] Instance padd_assoc : Assoc (=) padd.
Proof.
  intros P Q R. destruct (add_assoc_xy _ _ _ _ _ _ (pt_on P) (pt_on Q) (pt_on R)) as [Ex Ey].
  apply pt_eq; symmetry; [exact Ex|exact Ey].
Qed.
#[export] Instance padd_comm : Comm (=) padd.
Proof.
  intros P Q. destruct (add_comm_xy (px P) (py P) (px Q) (py Q)) as [Ex Ey].
  apply pt_eq; [exact Ex|exact Ey].
Qed.
#[export] Instance padd_zero_l : LeftId (=) pzero padd.
Proof.
  intros P. apply pt_eq; cbn; unfold add_x, add_y.
  - replace (0 * py P + 1 * px P) with (px P) by ring. replace (1 + dF * 0 * 1 * px P * py P) with 1 by ring.
    field. apply F_1_nz.
  - replace (1 * py P + 0 * px P) with (py P) by ring. replace (1 - dF * 0 * 1 * px P * py P) with 1 by ring.
    field. apply F_1_nz.
Qed.
#[export] Instance padd_zero_r : RightId (=) pzero padd.
Proof. intros P. rewrite (comm padd). apply padd_zero_l. Qed.

Lemma padd_opp_l P : padd (popp P) P = pzero.
Proof.
  pose proof (pt_on P) as H. pose proof (complete_minus _ _ _ _ (on_curve_opp _ _ H) H) as Hm.
  apply pt_eq; cbn; unfold add_x, add_y.
  - field. exact (complete_plus _ _ _ _ (on_curve_opp _ _ H) H).
  - transitivity ((1 - dF * - px P * py P * px P * py P) / (1 - dF * - px P * py P * px P * py P)); [|fieldF].
    f_equal. unfold on_curve in H. ring [H].
Qed.
Lemma padd_opp_r P : padd P (popp P) = pzero.
Proof. rewrite (comm padd). apply padd_opp_l. Qed.

Lemma padd_cancel_r P Q R : padd P R = padd Q R -> P = Q.
Proof.
  intros H. rewrite <- (padd_zero_r P), <- (padd_zero_r Q), <- (padd_opp_r R), !(assoc padd). by rewrite H.
Qed.
Lemma popp_unique P Q : padd P Q = pzero -> P = popp Q.
Proof. intros H. apply (padd_cancel_r _ _ Q). by rewrite H, padd_opp_l. Qed.
Lemma popp_popp P : popp (popp P) = P.
Proof. symmetry. apply popp_unique, padd_opp_r. Qed.
Lemma popp_add P Q : popp (padd P Q) = padd (popp P) (popp Q).
Proof.
  symmetry. apply popp_unique.
  rewrite (comm padd P Q), (assoc padd), <- (assoc padd (popp P)), padd_opp_l, padd_zero_r. apply padd_opp_l.
Qed.
Lemma popp_zero : popp pzero = pzero.
Proof. symmetry. apply popp_unique, padd_zero_l. Qed.

Lemma px_padd P Q : px (padd P Q) = add_x (px P) (py P) (px Q) (py Q).
Proof. reflexivity. Qed.
Lemma py_padd P Q : py (padd P Q) = add_y (px P) (py P) (px Q) (py Q).
Proof. reflexivity. Qed.
Lemma px_popp P : px (popp P) = - px P.
Proof. reflexivity. Qed.
Lemma py_popp P : py (popp P) = py P.
Proof. reflexivity. Qed.

Opaque padd popp.

(** ** Multiples *)

Fixpoint nmul (n : nat) (P : pt) : pt := match n with O => pzero | S n => padd (nmul n P) P end.
Definition smul (z : Z) (P : pt) : pt :=
  if (z <? 0)%Z then popp (nmul (Z.to_nat (- z)) P) else nmul (Z.to_nat z) P.

Lemma smul_0 P : smul 0 P = pzero.
Proof. done. Qed.
Lemma smul_succ z P : smul (z + 1) P = padd (smul z P) P.
Proof.
  unfold smul. destruct (Z.ltb_spec z 0) as [Hz|Hz].
  - destruct (Z.ltb_spec (z + 1) 0).
    + replace (Z.to_nat (- z)) with (S (Z.to_nat (- (z + 1)))) by lia. cbn [nmul].
      rewrite popp_add, <- (assoc padd), padd_opp_l. by rewrite padd_zero_r.
    + replace z with (-1)%Z by lia. change (pzero = padd (popp (padd pzero P)) P).
      by rewrite (padd_zero_l P), padd_opp_l.
  - rewrite (proj2 (Z.ltb_ge _ _)) by lia. replace (Z.to_nat (z + 1)) with (S (Z.to_nat z)) by lia. done.
Qed.
Lemma smul_1 P : smul 1 P = P.
Proof. apply padd_zero_l. Qed.

Lemma Z_steps (Q : Z -> Prop) : Q 0%Z -> (forall z, Q z <-> Q (z + 1)%Z) -> forall z, Q z.
Proof.
  intros H0 Hs z. pattern z. apply Z.bi_induction; [by intros ?? ->|done|]. intros n. apply (Hs n).
Qed.

Lemma smul_add a b P : smul (a + b) P = padd (smul a P) (smul b P).
Proof.
  revert b. apply Z_steps; [by rewrite Z.add_0_r, smul_0, padd_zero_r|]. intros b.
  rewrite Z.add_assoc, !smul_succ, (assoc padd). split; [by intros ->|apply padd_cancel_r].
Qed.
Lemma smul_opp a P : smul (- a) P = popp (smul a P).
Proof. apply popp_unique. by rewrite <- smul_add, Z.add_opp_diag_l. Qed.
Lemma smul_sub a b P : smul (a - b) P = padd (smul a P) (popp (smul b P)).
Proof. rewrite <- smul_opp, <- smul_add. f_equal. Qed.
Lemma smul_mul a b P : smul (a * b) P = smul a (smul b P).
Proof.
  revert a. apply Z_steps; [done|]. intros a.
  rewrite Z.mul_add_distr_r, Z.mul_1_l, smul_add, smul_succ. split; [by intros ->|apply padd_cancel_r].
Qed.
Lemma smul_zero a : smul a pzero = pzero.
Proof.
  revert a. apply Z_steps; [done|]. intros a. rewrite smul_succ, padd_zero_r. done.
Qed.
Lemma smul_2 P : smul 2 P = padd P P.
Proof. change 2%Z with (1 + 1)%Z. by rewrite smul_add, !smul_1. Qed.
Lemma smul_of_opp a P : smul a (popp P) = popp (smul a P).
Proof. rewrite <- (smul_1 (popp P)), <- (smul_1 P), <- smul_opp, <- !smul_mul, <- smul_opp. f_equal. lia. Qed.
