(* ===== verification/Sc25519.v ===== *)
(** * Sc25519: arithmetic modulo the order of the base point, [sc.c] of orlp_ed25519

    A scalar is a list of signed limbs of 21 bits.  The functions of the source are long
    straight-line programs made of three groups of assignments, which repeat with other
    indices: a limb is folded down by 252 bits, or its excess carried to the next one, with
    rounding or without. *)
From S2P Require Import Prelude CInt Fe25519.

Section programs.
Context {A : Arith}.
Local Open Scope c_scope.

Definition limb (s : list num) (i : nat) : num := nth i s (lit 0).

(** [s_j += s_i * k], [s_j -= s_i * k] *)
Definition sc_add_mul (j i : nat) (k : Z) (s : list num) : list num :=
  <[j := limb s j + limb s i * lit k]> s.
Definition sc_sub_mul (j i : nat) (k : Z) (s : list num) : list num :=
  <[j := limb s j - limb s i * lit k]> s.

(** The seven assignments that end in [s_i = 0]. *)
Definition sc_fold (i : nat) (s : list num) : list num :=
  let s := sc_add_mul (i - 12) i 666643 s in
  let s := sc_add_mul (i - 11) i 470296 s in
  let s := sc_add_mul (i - 10) i 654183 s in
  let s := sc_sub_mul (i - 9) i 997805 s in
  let s := sc_add_mul (i - 8) i 136657 s in
  let s := sc_sub_mul (i - 7) i 683901 s in
  <[i := lit 0]> s.

(** [carry = (s_i + (1 << 20)) >> 21; s_i+1 += carry; s_i -= carry << 21;] *)
Definition sc_carry (i : nat) (s : list num) : list num :=
  let '(carry, si) := carry64 21 (limb s i) in
  let s := <[S i := limb s (S i) + carry]> s in
  <[i := si]> s.
(** [carry = s_i >> 21; s_i+1 += carry; s_i -= carry << 21;] *)
Definition sc_floor (i : nat) (s : list num) : list num :=
  let '(carry, si) := floor64 21 (limb s i) in
  let s := <[S i := limb s (S i) + carry]> s in
  <[i := si]> s.

Definition steps (f : nat -> list num -> list num) (l : list nat) (s : list num) : list num :=
  fold_left (fun s i => f i s) l s.

(** What [orlp_sc_reduce] and [orlp_sc_muladd] have in common: from 24 limbs down to 12. *)
Definition sc_shrink (s : list num) : list num :=
  let s := steps sc_fold [23; 22; 21; 20; 19; 18]%nat s in
  let s := steps sc_carry [6; 8; 10; 12; 14; 16; 7; 9; 11; 13; 15]%nat s in
  let s := steps sc_fold [17; 16; 15; 14; 13; 12]%nat s in
  steps sc_carry [0; 2; 4; 6; 8; 10; 1; 3; 5; 7; 9; 11]%nat s.

Definition sc_finish (s : list num) : list num :=
  let s := sc_fold 12 s in
  let s := steps sc_floor [0; 1; 2; 3; 4; 5; 6; 7; 8; 9; 10; 11]%nat s in
  let s := sc_fold 12 s in
  steps sc_floor [0; 1; 2; 3; 4; 5; 6; 7; 8; 9; 10]%nat s.

Definition sc_reduce_limbs (s : list num) : list num := sc_finish (sc_shrink s).

(** The products of [orlp_sc_muladd]. *)
Local Notation "s .[ i ]" := (limb s i%nat) (at level 1, format "s .[ i ]").
Definition sc_products (a b c : list num) : list num :=
  [c.[0] + a.[0] * b.[0];
   c.[1] + a.[0] * b.[1] + a.[1] * b.[0];
   c.[2] + a.[0] * b.[2] + a.[1] * b.[1] + a.[2] * b.[0];
   c.[3] + a.[0] * b.[3] + a.[1] * b.[2] + a.[2] * b.[1] + a.[3] * b.[0];
   c.[4] + a.[0] * b.[4] + a.[1] * b.[3] + a.[2] * b.[2] + a.[3] * b.[1] + a.[4] * b.[0];
   c.[5] + a.[0] * b.[5] + a.[1] * b.[4] + a.[2] * b.[3] + a.[3] * b.[2] + a.[4] * b.[1] +
     a.[5] * b.[0];
   c.[6] + a.[0] * b.[6] + a.[1] * b.[5] + a.[2] * b.[4] + a.[3] * b.[3] + a.[4] * b.[2] +
     a.[5] * b.[1] + a.[6] * b.[0];
   c.[7] + a.[0] * b.[7] + a.[1] * b.[6] + a.[2] * b.[5] + a.[3] * b.[4] + a.[4] * b.[3] +
     a.[5] * b.[2] + a.[6] * b.[1] + a.[7] * b.[0];
   c.[8] + a.[0] * b.[8] + a.[1] * b.[7] + a.[2] * b.[6] + a.[3] * b.[5] + a.[4] * b.[4] +
     a.[5] * b.[3] + a.[6] * b.[2] + a.[7] * b.[1] + a.[8] * b.[0];
   c.[9] + a.[0] * b.[9] + a.[1] * b.[8] + a.[2] * b.[7] + a.[3] * b.[6] + a.[4] * b.[5] +
     a.[5] * b.[4] + a.[6] * b.[3] + a.[7] * b.[2] + a.[8] * b.[1] + a.[9] * b.[0];
   c.[10] + a.[0] * b.[10] + a.[1] * b.[9] + a.[2] * b.[8] + a.[3] * b.[7] + a.[4] * b.[6] +
     a.[5] * b.[5] + a.[6] * b.[4] + a.[7] * b.[3] + a.[8] * b.[2] + a.[9] * b.[1] + a.[10] * b.[0];
   c.[11] + a.[0] * b.[11] + a.[1] * b.[10] + a.[2] * b.[9] + a.[3] * b.[8] + a.[4] * b.[7] +
     a.[5] * b.[6] + a.[6] * b.[5] + a.[7] * b.[4] + a.[8] * b.[3] + a.[9] * b.[2] + a.[10] * b.[1] +
     a.[11] * b.[0];
   a.[1] * b.[11] + a.[2] * b.[10] + a.[3] * b.[9] + a.[4] * b.[8] + a.[5] * b.[7] + a.[6] * b.[6] +
     a.[7] * b.[5] + a.[8] * b.[4] + a.[9] * b.[3] + a.[10] * b.[2] + a.[11] * b.[1];
   a.[2] * b.[11] + a.[3] * b.[10] + a.[4] * b.[9] + a.[5] * b.[8] + a.[6] * b.[7] + a.[7] * b.[6] +
     a.[8] * b.[5] + a.[9] * b.[4] + a.[10] * b.[3] + a.[11] * b.[2];
   a.[3] * b.[11] + a.[4] * b.[10] + a.[5] * b.[9] + a.[6] * b.[8] + a.[7] * b.[7] + a.[8] * b.[6] +
     a.[9] * b.[5] + a.[10] * b.[4] + a.[11] * b.[3];
   a.[4] * b.[11] + a.[5] * b.[10] + a.[6] * b.[9] + a.[7] * b.[8] + a.[8] * b.[7] + a.[9] * b.[6] +
     a.[10] * b.[5] + a.[11] * b.[4];
   a.[5] * b.[11] + a.[6] * b.[10] + a.[7] * b.[9] + a.[8] * b.[8] + a.[9] * b.[7] + a.[10] * b.[6] +
     a.[11] * b.[5];
   a.[6] * b.[11] + a.[7] * b.[10] + a.[8] * b.[9] + a.[9] * b.[8] + a.[10] * b.[7] + a.[11] * b.[6];
   a.[7] * b.[11] + a.[8] * b.[10] + a.[9] * b.[9] + a.[10] * b.[8] + a.[11] * b.[7];
   a.[8] * b.[11] + a.[9] * b.[10] + a.[10] * b.[9] + a.[11] * b.[8];
   a.[9] * b.[11] + a.[10] * b.[10] + a.[11] * b.[9];
   a.[10] * b.[11] + a.[11] * b.[10];
   a.[11] * b.[11];
   lit 0].

Definition sc_product_carries (s : list num) : list num :=
  steps sc_carry [0; 2; 4; 6; 8; 10; 12; 14; 16; 18; 20; 22;
                  1; 3; 5; 7; 9; 11; 13; 15; 17; 19; 21]%nat s.
End programs.

(** ** Octets *)

(** [2097151 & (load_n(s + i) >> k)] *)
Definition limb_3 (s : bytes) (i : nat) (k : Z) : Z := Z.land 2097151 (Z.shiftr (load_3 s i) k).
Definition limb_4 (s : bytes) (i : nat) (k : Z) : Z := Z.land 2097151 (Z.shiftr (load_4 s i) k).

(** The limbs of 64 octets, the last of 29 bits. *)
Definition load_64 (s : bytes) : list Z :=
  [limb_3 s 0 0; limb_4 s 2 5; limb_3 s 5 2; limb_4 s 7 7; limb_4 s 10 4; limb_3 s 13 1;
   limb_4 s 15 6; limb_3 s 18 3; limb_3 s 21 0; limb_4 s 23 5; limb_3 s 26 2; limb_4 s 28 7;
   limb_4 s 31 4; limb_3 s 34 1; limb_4 s 36 6; limb_3 s 39 3; limb_3 s 42 0; limb_4 s 44 5;
   limb_3 s 47 2; limb_4 s 49 7; limb_4 s 52 4; limb_3 s 55 1; limb_4 s 57 6;
   Z.shiftr (load_4 s 60) 3].

(** The limbs of 32 octets, the last of 25 bits. *)
Definition load_32 (s : bytes) : list Z :=
  [limb_3 s 0 0; limb_4 s 2 5; limb_3 s 5 2; limb_4 s 7 7; limb_4 s 10 4; limb_3 s 13 1;
   limb_4 s 15 6; limb_3 s 18 3; limb_3 s 21 0; limb_4 s 23 5; limb_3 s 26 2;
   Z.shiftr (load_4 s 28) 7].

Local Notation "s .[ i ]" := (nth i%nat s 0) (at level 1, format "s .[ i ]").

(** [(unsigned char)] of each. *)
Definition sc_octets (s : list Z) : bytes :=
  byte_of_Z <$>
  [Z.shiftr s.[0] 0;
   Z.shiftr s.[0] 8;
   Z.lor (Z.shiftr s.[0] 16) (Z.shiftl s.[1] 5);
   Z.shiftr s.[1] 3;
   Z.shiftr s.[1] 11;
   Z.lor (Z.shiftr s.[1] 19) (Z.shiftl s.[2] 2);
   Z.shiftr s.[2] 6;
   Z.lor (Z.shiftr s.[2] 14) (Z.shiftl s.[3] 7);
   Z.shiftr s.[3] 1;
   Z.shiftr s.[3] 9;
   Z.lor (Z.shiftr s.[3] 17) (Z.shiftl s.[4] 4);
   Z.shiftr s.[4] 4;
   Z.shiftr s.[4] 12;
   Z.lor (Z.shiftr s.[4] 20) (Z.shiftl s.[5] 1);
   Z.shiftr s.[5] 7;
   Z.lor (Z.shiftr s.[5] 15) (Z.shiftl s.[6] 6);
   Z.shiftr s.[6] 2;
   Z.shiftr s.[6] 10;
   Z.lor (Z.shiftr s.[6] 18) (Z.shiftl s.[7] 3);
   Z.shiftr s.[7] 5;
   Z.shiftr s.[7] 13;
   Z.shiftr s.[8] 0;
   Z.shiftr s.[8] 8;
   Z.lor (Z.shiftr s.[8] 16) (Z.shiftl s.[9] 5);
   Z.shiftr s.[9] 3;
   Z.shiftr s.[9] 11;
   Z.lor (Z.shiftr s.[9] 19) (Z.shiftl s.[10] 2);
   Z.shiftr s.[10] 6;
   Z.lor (Z.shiftr s.[10] 14) (Z.shiftl s.[11] 7);
   Z.shiftr s.[11] 1;
   Z.shiftr s.[11] 9;
   Z.shiftr s.[11] 17].

(** The values of a list that has no undefined ones. *)
Definition sc_values (s : list (option Z)) : option (list Z) := mapM id s.

(** [None] is undefined behaviour.  The scalars are arrays of the sizes the source says. *)
Definition orlp_sc_reduce (s : bytes) : option bytes :=
  sc_octets <$> sc_values (sc_reduce_limbs (A := checked) (Some <$> load_64 s)).

Definition orlp_sc_muladd (a b c : bytes) : option bytes :=
  let s := sc_products (A := checked) (Some <$> load_32 a) (Some <$> load_32 b) (Some <$> load_32 c) in
  sc_octets <$> sc_values (sc_reduce_limbs (A := checked) (sc_product_carries (A := checked) s)).
