(* ===== verification/ScFacts.v ===== *)
(** * ScFacts: the scalar arithmetic computes modulo the group order *)
From S2P Require Import Prelude Octets CInt Fe25519 FeFacts FeBytes Sc25519.

(** The order of the base point. *)
Definition L25519 : Z := 2 ^ 252 + 27742317777372353535851937790883648493.

(** ** The three readings *)

Definition rel_limbs (c : list (@num checked)) (z : list (@num exact)) (r : list (@num interval)) : Prop :=
  Forall3 rel c z r.

Section rel.
Context (c : list (@num checked)) (z : list (@num exact)) (r : list (@num interval)).

Lemma rel_limb i : rel_limbs c z r -> rel (limb c i) (limb z i) (limb r i).
Proof.
  intros H. unfold limb. revert i. induction H as [|a b d c' z' r' Ha _ IH]; intros [|i]; cbn [nth];
    [apply rel_lit..|done|apply IH].
Qed.

Lemma rel_insert i a b d :
  rel a b d -> rel_limbs c z r -> rel_limbs (<[i := a]> c) (<[i := b]> z) (<[i := d]> r).
Proof.
  intros Ha H. revert i. induction H as [|a' b' d' c' z' r' H1 H2 IH]; intros [|i]; cbn;
    constructor; (done || apply IH).
Qed.
End rel.

#[export] Hint Resolve rel_limb rel_insert : crel.

(** A program on limbs that all readings agree on. *)
Definition agrees (f : forall A : Arith, list (@num A) -> list (@num A)) : Prop :=
  forall c z r, rel_limbs c z r -> rel_limbs (f checked c) (f exact z) (f interval r).

Lemma agrees_add_mul j i k : agrees (fun A => sc_add_mul j i k).
Proof. intros c z r H. unfold sc_add_mul. apply rel_insert; eauto 10 with crel. Qed.
Lemma agrees_sub_mul j i k : agrees (fun A => sc_sub_mul j i k).
Proof. intros c z r H. unfold sc_sub_mul. apply rel_insert; eauto 10 with crel. Qed.

Lemma agrees_fold i : agrees (fun A => sc_fold i).
Proof.
  intros c z r H. unfold sc_fold. cbv zeta. apply rel_insert; [apply rel_lit|].
  apply (agrees_sub_mul (i - 7) i 683901), (agrees_add_mul (i - 8) i 136657), (agrees_sub_mul (i - 9) i 997805),
    (agrees_add_mul (i - 10) i 654183), (agrees_add_mul (i - 11) i 470296), (agrees_add_mul (i - 12) i 666643), H.
Qed.

Lemma agrees_carry i : agrees (fun A => sc_carry i).
Proof.
  intros c z r H. unfold sc_carry. pose proof (rel_limb _ _ _ i H) as Hi.
  apply rel_carry64 with (k := 21) in Hi. revert Hi.
  generalize (carry64 21 (limb c i)), (carry64 21 (limb z i)), (carry64 21 (limb r i)).
  intros [? ?] [? ?] [? ?] [H1 H2]. cbn [fst snd] in *. eauto 10 with crel.
Qed.
Lemma agrees_floor i : agrees (fun A => sc_floor i).
Proof.
  intros c z r H. unfold sc_floor. pose proof (rel_limb _ _ _ i H) as Hi.
  apply rel_floor64 with (k := 21) in Hi. revert Hi.
  generalize (floor64 21 (limb c i)), (floor64 21 (limb z i)), (floor64 21 (limb r i)).
  intros [? ?] [? ?] [? ?] [H1 H2]. cbn [fst snd] in *. eauto 10 with crel.
Qed.

Lemma agrees_steps (f : forall A : Arith, nat -> list (@num A) -> list (@num A)) l :
  (forall i, agrees (fun A => f A i)) -> agrees (fun A => steps (f A) l).
Proof.
  intros Hf. induction l as [|i l IH]; intros c z r H; [done|]. cbn. apply IH, (Hf i), H.
Qed.

Lemma agrees_shrink : agrees (@sc_shrink).
Proof.
  intros c z r H. unfold sc_shrink. cbv zeta.
  apply (agrees_steps (@sc_carry)), (agrees_steps (@sc_fold)), (agrees_steps (@sc_carry)), (agrees_steps (@sc_fold)), H;
    first [apply agrees_carry|apply agrees_fold].
Qed.
Lemma agrees_finish : agrees (@sc_finish).
Proof.
  intros c z r H. unfold sc_finish. cbv zeta.
  apply (agrees_steps (@sc_floor)), (agrees_fold 12), (agrees_steps (@sc_floor)), (agrees_fold 12), H;
    apply agrees_floor.
Qed.
Lemma agrees_product_carries : agrees (@sc_product_carries).
Proof. apply (agrees_steps (@sc_carry)), agrees_carry. Qed.

Lemma rel_products c z r c' z' r' c'' z'' r'' :
  rel_limbs c z r -> rel_limbs c' z' r' -> rel_limbs c'' z'' r'' ->
  rel_limbs (sc_products c c' c'') (sc_products z z' z'') (sc_products r r' r'').
Proof.
  intros H H' H''. unfold sc_products.
  repeat first [apply Forall3_cons | apply Forall3_nil]; repeat first
    [apply rel_add64|apply rel_mul64|apply rel_lit|by apply rel_limb].
Qed.

(** ** Running in C *)

Definition in_range (z : Z) (r : range) : Prop :=
  match r with Some (lo, hi) => lo <= z <= hi | None => False end.
Definition within (l : list Z) (B : list range) : Prop := Forall2 in_range l B.

Lemma within_rel l B : within l B -> rel_limbs (Some <$> l) l B.
Proof.
  induction 1 as [|z [[lo hi]|] l B H _ IH]; [constructor| |done]. cbn. constructor; [by split|done].
Qed.

Definition defined (B : list range) : bool := forallb (fun r => if r is Some _ then true else false) B.

Lemma rel_within c z r : rel_limbs c z r -> defined r = true -> c = Some <$> z /\ within z r.
Proof.
  induction 1 as [|a b [[lo hi]|] c z r H _ IH]; [by split; [|constructor]| |done].
  destruct H as [-> H]. cbn. intros [-> Hw]%IH. split; [done|]. by constructor.
Qed.

Lemma run_limbs (f : forall A : Arith, list (@num A) -> list (@num A)) l B :
  agrees f -> within l B -> defined (f interval B) = true ->
  f checked (Some <$> l) = Some <$> f exact l /\ within (f exact l) (f interval B).
Proof. intros Hf Hl Hd. apply rel_within; [|done]. by apply Hf, within_rel. Qed.

Lemma sc_values_some l : sc_values (Some <$> l) = Some l.
Proof. unfold sc_values. apply mapM_fmap_Some. done. Qed.

(** ** Values *)

(** The number that the limbs spell, little-endian in base 2^21. *)
Definition sc_val (l : list Z) : Z := fold_right (fun s v => s + 2 ^ 21 * v) 0 l.

Lemma sc_val_app l l' : sc_val (l ++ l') = sc_val l + 2 ^ (21 * Z.of_nat (length l)) * sc_val l'.
Proof.
  induction l as [|s l IH]; [change (sc_val l' = 0 + 1 * sc_val l'); lia|]. cbn [app sc_val fold_right length]. fold (sc_val (l ++ l')) (sc_val l).
  rewrite IH. replace (21 * Z.of_nat (S (length l))) with (21 + 21 * Z.of_nat (length l)) by lia.
  rewrite Z.pow_add_r by lia. ring.
Qed.

Lemma sc_val_insert l i x :
  (i < length l)%nat -> sc_val (<[i := x]> l) = sc_val l + (x - nth i l 0) * 2 ^ (21 * Z.of_nat i).
Proof.
  revert i. induction l as [|s l IH]; intros [|i] Hi; cbn [length] in Hi; [lia|lia| |].
  { change (x + 2 ^ 21 * sc_val l = s + 2 ^ 21 * sc_val l + (x - s) * 1). ring. }
  change (sc_val (<[S i := x]> (s :: l))) with (s + 2 ^ 21 * sc_val (<[i := x]> l)).
  change (sc_val (s :: l)) with (s + 2 ^ 21 * sc_val l). cbn [nth]. rewrite IH by lia.
  replace (21 * Z.of_nat (S i)) with (21 + 21 * Z.of_nat i) by lia. rewrite Z.pow_add_r by lia. ring.
Qed.

Section exact.
Abbreviation limb := (@limb exact).
Implicit Types s : list Z.

Lemma limb_insert_ne s i j x : i <> j -> limb (<[i := x]> s) j = limb s j.
Proof.
  unfold Sc25519.limb. revert i j. induction s as [|a s IH]; intros [|i] [|j] H; try done. cbn. apply IH. lia.
Qed.
Lemma limb_insert_eq s i x : (i < length s)%nat -> limb (<[i := x]> s) i = x.
Proof.
  unfold Sc25519.limb. revert i. induction s as [|a s IH]; intros [|i] H; cbn [length] in H; [lia|lia|done|].
  cbn. apply IH. lia.
Qed.

Lemma add_mul_val j i k s : (j < length s)%nat -> i <> j ->
  sc_val (sc_add_mul (A := exact) j i k s) = sc_val s + limb s i * k * 2 ^ (21 * Z.of_nat j) /\
  limb (sc_add_mul (A := exact) j i k s) i = limb s i.
Proof.
  intros Hj Hi. unfold sc_add_mul. split; [|apply limb_insert_ne; lia]. rewrite sc_val_insert by done.
  change (nth j s 0) with (limb s j). set (x := limb s j). set (y := limb s i).
  change (sc_val s + (x + y * k - x) * 2 ^ (21 * Z.of_nat j) = sc_val s + y * k * 2 ^ (21 * Z.of_nat j))%Z. ring.
Qed.
Lemma sub_mul_val j i k s : (j < length s)%nat -> i <> j ->
  sc_val (sc_sub_mul (A := exact) j i k s) = sc_val s - limb s i * k * 2 ^ (21 * Z.of_nat j) /\
  limb (sc_sub_mul (A := exact) j i k s) i = limb s i.
Proof.
  intros Hj Hi. unfold sc_sub_mul. split; [|apply limb_insert_ne; lia]. rewrite sc_val_insert by done.
  change (nth j s 0) with (limb s j). set (x := limb s j). set (y := limb s i).
  change (sc_val s + (x - y * k - x) * 2 ^ (21 * Z.of_nat j) = sc_val s - y * k * 2 ^ (21 * Z.of_nat j))%Z. ring.
Qed.

Lemma add_mul_length {A : Arith} j i k (s : list num) : length (sc_add_mul j i k s) = length s.
Proof. apply length_insert. Qed.
Lemma sub_mul_length {A : Arith} j i k (s : list num) : length (sc_sub_mul j i k s) = length s.
Proof. apply length_insert. Qed.
Lemma fold_length {A : Arith} i (s : list num) : length (sc_fold i s) = length s.
Proof. unfold sc_fold. cbv zeta. by rewrite length_insert, !sub_mul_length, !add_mul_length, sub_mul_length, !add_mul_length. Qed.
Lemma carry_length {A : Arith} i (s : list num) : length (sc_carry i s) = length s.
Proof. unfold sc_carry. destruct (carry64 _ _). by rewrite !length_insert. Qed.
Lemma floor_length {A : Arith} i (s : list num) : length (sc_floor i s) = length s.
Proof. unfold sc_floor. destruct (floor64 _ _). by rewrite !length_insert. Qed.

(** Folding a limb takes away a multiple of the group order. *)
Lemma fold_val i s : (12 <= i < length s)%nat ->
  sc_val (sc_fold (A := exact) i s) = sc_val s - limb s i * 2 ^ (21 * Z.of_nat (i - 12)) * L25519.
Proof.
  intros Hi. unfold sc_fold. cbv zeta.
  destruct (add_mul_val (i - 12) i 666643 s) as [V1 E1]; [lia|lia|].
  assert (N: @length Z (sc_add_mul (A := exact) (i - 12) i 666643 s) = @length Z s) by apply length_insert. rename N into N1.
  set (s1 := sc_add_mul (A := exact) (i - 12) i 666643 s) in *. clearbody s1.
  destruct (add_mul_val (i - 11) i 470296 s1) as [V2 E2]; [lia|lia|].
  assert (N: @length Z (sc_add_mul (A := exact) (i - 11) i 470296 s1) = @length Z s1) by apply length_insert. rename N into N2.
  set (s2 := sc_add_mul (A := exact) (i - 11) i 470296 s1) in *. clearbody s2.
  destruct (add_mul_val (i - 10) i 654183 s2) as [V3 E3]; [lia|lia|].
  assert (N: @length Z (sc_add_mul (A := exact) (i - 10) i 654183 s2) = @length Z s2) by apply length_insert. rename N into N3.
  set (s3 := sc_add_mul (A := exact) (i - 10) i 654183 s2) in *. clearbody s3.
  destruct (sub_mul_val (i - 9) i 997805 s3) as [V4 E4]; [lia|lia|].
  assert (N: @length Z (sc_sub_mul (A := exact) (i - 9) i 997805 s3) = @length Z s3) by apply length_insert. rename N into N4.
  set (s4 := sc_sub_mul (A := exact) (i - 9) i 997805 s3) in *. clearbody s4.
  destruct (add_mul_val (i - 8) i 136657 s4) as [V5 E5]; [lia|lia|].
  assert (N: @length Z (sc_add_mul (A := exact) (i - 8) i 136657 s4) = @length Z s4) by apply length_insert. rename N into N5.
  set (s5 := sc_add_mul (A := exact) (i - 8) i 136657 s4) in *. clearbody s5.
  destruct (sub_mul_val (i - 7) i 683901 s5) as [V6 E6]; [lia|lia|].
  assert (N: @length Z (sc_sub_mul (A := exact) (i - 7) i 683901 s5) = @length Z s5) by apply length_insert. rename N into N6.
  set (s6 := sc_sub_mul (A := exact) (i - 7) i 683901 s5) in *. clearbody s6.
  rewrite sc_val_insert by lia. change (nth i s6 0) with (limb s6 i).
  rewrite V6, V5, V4, V3, V2, V1. rewrite E6, E5, E4, E3, E2, E1.
  set (x := limb s i). clearbody x. change (@lit exact 0) with 0.
  set (q := 2 ^ (21 * Z.of_nat (i - 12))).
  replace (21 * Z.of_nat (i - 11)) with (21 * Z.of_nat (i - 12) + 21) by lia.
  replace (21 * Z.of_nat (i - 10)) with (21 * Z.of_nat (i - 12) + 42) by lia.
  replace (21 * Z.of_nat (i - 9)) with (21 * Z.of_nat (i - 12) + 63) by lia.
  replace (21 * Z.of_nat (i - 8)) with (21 * Z.of_nat (i - 12) + 84) by lia.
  replace (21 * Z.of_nat (i - 7)) with (21 * Z.of_nat (i - 12) + 105) by lia.
  replace (21 * Z.of_nat i) with (21 * Z.of_nat (i - 12) + 252) by lia.
  rewrite !Z.pow_add_r by lia. fold q. unfold L25519. ring.
Qed.

Lemma carry_val i s : (S i < length s)%nat -> sc_val (sc_carry (A := exact) i s) = sc_val s.
Proof.
  intros Hi. unfold sc_carry. destruct (exact_carry_eq 21 (limb s i)) as [c ->].
  rewrite sc_val_insert by (rewrite length_insert; lia).
  change (nth i (<[S i := (limb s (S i) + c)%c]> s) 0) with (limb (<[S i := (limb s (S i) + c)%c]> s) i).
  rewrite limb_insert_ne by lia. rewrite sc_val_insert by lia. change (nth (S i) s 0) with (limb s (S i)).
  unfold add64, exact. replace (21 * Z.of_nat (S i)) with (21 + 21 * Z.of_nat i) by lia.
  rewrite Z.pow_add_r by lia. ring.
Qed.

Lemma floor_val i s : (S i < length s)%nat -> sc_val (sc_floor (A := exact) i s) = sc_val s.
Proof.
  intros Hi. unfold sc_floor. change (floor64 21 (limb s i)) with (exact_floor 21 (limb s i)).
  unfold exact_floor. set (c := Z.shiftr _ _). clearbody c.
  rewrite sc_val_insert by (rewrite length_insert; lia).
  change (nth i (<[S i := (limb s (S i) + c)%c]> s) 0) with (limb (<[S i := (limb s (S i) + c)%c]> s) i).
  rewrite limb_insert_ne by lia. rewrite sc_val_insert by lia. change (nth (S i) s 0) with (limb s (S i)).
  unfold add64, exact. replace (21 * Z.of_nat (S i)) with (21 + 21 * Z.of_nat i) by lia.
  rewrite Z.pow_add_r by lia. ring.
Qed.

(** Congruence modulo the group order. *)
Definition eql (x y : Z) : Prop := x mod L25519 = y mod L25519.

Definition keeps (n : nat) (v : Z) (s : list Z) : Prop := length s = n /\ eql (sc_val s) v.

Lemma steps_keeps n v (P : nat -> Prop) (f : nat -> list Z -> list Z) l s :
  (forall i s, P i -> keeps n v s -> keeps n v (f i s)) -> Forall P l -> keeps n v s ->
  keeps n v (steps (A := exact) f l s).
Proof. intros Hf Hl. revert s. induction Hl as [|i l Hi _ IH]; intros s Hs; [done|]. cbn. by apply IH, Hf. Qed.

Lemma keeps_fold n v i s : (12 <= i < n)%nat -> keeps n v s -> keeps n v (sc_fold (A := exact) i s).
Proof.
  intros Hi [<- Hv]. split; [apply (fold_length (A := exact))|]. rewrite fold_val by done.
  unfold eql in *. rewrite <- Hv. set (k := _ * 2 ^ _). clearbody k.
  replace (sc_val s - k * L25519) with (sc_val s + (- k) * L25519) by ring. by rewrite Z_mod_plus_full.
Qed.
Lemma keeps_carry n v i s : (S i < n)%nat -> keeps n v s -> keeps n v (sc_carry (A := exact) i s).
Proof. intros Hi [<- Hv]. split; [apply (carry_length (A := exact))|]. by rewrite carry_val. Qed.
Lemma keeps_floor n v i s : (S i < n)%nat -> keeps n v s -> keeps n v (sc_floor (A := exact) i s).
Proof. intros Hi [<- Hv]. split; [apply (floor_length (A := exact))|]. by rewrite floor_val. Qed.
End exact.

Ltac indices := repeat constructor; lia.

Lemma keeps_shrink v s : keeps 24 v s -> keeps 24 v (sc_shrink (A := exact) s).
Proof.
  intros H. unfold sc_shrink. cbv zeta.
  eapply steps_keeps; [apply keeps_carry|indices|]. eapply steps_keeps; [apply keeps_fold|indices|].
  eapply steps_keeps; [apply keeps_carry|indices|]. eapply steps_keeps; [apply keeps_fold|indices|]. exact H.
Qed.

(** Without a fold the value itself is kept. *)
Lemma steps_value n v (P : nat -> Prop) (f : nat -> list Z -> list Z) l s :
  (forall i s, P i -> length s = n -> length (f i s) = n /\ sc_val (f i s) = sc_val s) -> Forall P l ->
  length s = n /\ sc_val s = v -> @length Z (steps (A := exact) f l s) = n /\ sc_val (steps (A := exact) f l s) = v.
Proof.
  intros Hf Hl. revert s. induction Hl as [|i l Hi _ IH]; intros s [Hs Hv]; [done|]. cbn. apply IH.
  destruct (Hf i s Hi Hs) as [? ->]. done.
Qed.
Lemma carries_value v l s : Forall (fun i => (S i < 24)%nat) l -> length s = 24%nat /\ sc_val s = v ->
  @length Z (steps (sc_carry (A := exact)) l s) = 24%nat /\ sc_val (steps (sc_carry (A := exact)) l s) = v.
Proof.
  apply steps_value. intros i s' Hi Hn. split; [rewrite <- Hn; apply (carry_length (A := exact))|].
  apply carry_val. lia.
Qed.
Lemma floors_value v l s : Forall (fun i => (S i < 24)%nat) l -> length s = 24%nat /\ sc_val s = v ->
  @length Z (steps (sc_floor (A := exact)) l s) = 24%nat /\ sc_val (steps (sc_floor (A := exact)) l s) = v.
Proof.
  apply steps_value. intros i s' Hi Hn. split; [rewrite <- Hn; apply (floor_length (A := exact))|].
  apply floor_val. lia.
Qed.

(** ** Boxes *)

Definition inside (B C : list range) : bool :=
  forallb (fun p => match p with (Some (a, b), Some (c, d)) => (c <=? a) && (b <=? d) | _ => false end) (zip B C) &&
  (length B =? length C)%nat.

Lemma within_inside l B C : within l B -> inside B C = true -> within l C.
Proof.
  intros H. unfold inside. rewrite andb_true_iff, Nat.eqb_eq. revert C.
  induction H as [|z [[a b]|] l B Hz _ IH]; intros C HC; destruct C as [|[[c d]|] C]; cbn in HC; try (by destruct HC); [constructor|].
  revert HC. rewrite !andb_true_iff, !Z.leb_le. intros [[Hf ?] Hl]. cbn in Hz. constructor; [cbn; lia|]. apply IH. split; [done|lia].
Qed.

(** The smallest and the largest value of a box. *)
Definition box_val (f : Z * Z -> Z) (B : list range) : Z :=
  sc_val ((fun r => match r with Some p => f p | None => 0 end) <$> B).

Lemma within_val l B : within l B -> box_val fst B <= sc_val l <= box_val snd B.
Proof.
  induction 1 as [|z [[a b]|] l B Hz _ IH]; [done| |done].
  change (a + 2 ^ 21 * box_val fst B <= z + 2 ^ 21 * sc_val l <= b + 2 ^ 21 * box_val snd B). cbn in Hz. lia.
Qed.

Lemma within_limb l B i : within l B -> (i < length B)%nat -> in_range (nth i l 0) (nth i B None).
Proof.
  intros H. revert i. induction H as [|z r l B Hz _ IH]; intros [|i]; cbn; try lia; [done|].
  intros Hi. apply IH. lia.
Qed.

Lemma within_nth l B i lo hi : within l B -> (i < length B)%nat -> nth i B None = Some (lo, hi) -> lo <= nth i l 0 <= hi.
Proof. intros H Hi E. pose proof (within_limb _ _ _ H Hi) as R. by rewrite E in R. Qed.

(** ** The end of the reduction *)

(** What [sc_shrink] leaves, and what [sc_finish] makes of it. *)
Definition shrunk : list (@num interval) :=
  concat (replicate 6 [Some (- 2 ^ 28, 2 ^ 28); Some (- 2 ^ 20, 2 ^ 20)]) ++ [Some (-1, 28)] ++ replicate 11 (Some (0, 0)).
Definition finished : list (@num interval) :=
  replicate 11 (Some (0, 2 ^ 21 - 1)) ++ [Some (-1, 2 ^ 21)] ++ replicate 12 (Some (0, 0)).

Definition finish_once {A : Arith} (s : list num) : list num :=
  steps sc_floor [0; 1; 2; 3; 4; 5; 6; 7; 8; 9; 10; 11]%nat (sc_fold 12 s).

Lemma finish_eq {A : Arith} (s : list num) :
  sc_finish s = steps sc_floor [0; 1; 2; 3; 4; 5; 6; 7; 8; 9; 10]%nat (sc_fold 12 (finish_once s)).
Proof. unfold sc_finish, finish_once. cbv zeta. reflexivity. Qed.

Lemma agrees_finish_once : agrees (@finish_once).
Proof. intros c z r H. apply (agrees_steps (@sc_floor)), (agrees_fold 12), H; apply agrees_floor. Qed.

Lemma finish_top : nth 12 (finish_once (A := interval) shrunk) None = Some (-1, 0).
Proof. vm_compute. reflexivity. Qed.
Lemma finish_once_length : (12 < length (finish_once (A := interval) shrunk))%nat.
Proof. vm_compute. lia. Qed.
Lemma finish_fold_box : defined (sc_fold (A := interval) 12 shrunk) = true /\
  -2 ^ 252 < box_val fst (sc_fold (A := interval) 12 shrunk) /\
  box_val snd (sc_fold (A := interval) 12 shrunk) < L25519.
Proof. vm_compute. done. Qed.
Lemma finish_once_box : defined (finish_once (A := interval) shrunk) = true /\
  0 <= box_val fst (<[12%nat := Some (0, 0)]> (finish_once (A := interval) shrunk)) /\
  box_val snd (<[12%nat := Some (0, 0)]> (finish_once (A := interval) shrunk)) < 2 ^ 252.
Proof. vm_compute. done. Qed.

Lemma finish_once_value (s : list Z) : length s = 24%nat ->
  @length Z (finish_once (A := exact) s) = 24%nat /\
  sc_val (finish_once (A := exact) s) = sc_val s - limb (A := exact) s 12 * L25519.
Proof.
  intros Hn. assert (sc_val (sc_fold (A := exact) 12 s) = sc_val s - limb (A := exact) s 12 * L25519) as <-.
  { rewrite fold_val by lia. change (2 ^ (21 * Z.of_nat (12 - 12))) with 1. by rewrite Z.mul_1_r. }
  apply floors_value; [indices|]. split; [|done]. rewrite <- Hn. apply (fold_length (A := exact)).
Qed.

Lemma finish_val (s : list Z) : length s = 24%nat ->
  sc_val (sc_finish (A := exact) s) =
  sc_val (finish_once (A := exact) s) - limb (A := exact) (finish_once (A := exact) s) 12 * L25519.
Proof.
  intros Hn. rewrite finish_eq. destruct (finish_once_value s Hn) as [Hl _].
  set (s2 := finish_once (A := exact) s) in *. clearbody s2.
  assert (sc_val (sc_fold (A := exact) 12 s2) = sc_val s2 - limb (A := exact) s2 12 * L25519) as <-.
  { rewrite fold_val by lia. change (2 ^ (21 * Z.of_nat (12 - 12))) with 1. by rewrite Z.mul_1_r. }
  apply floors_value; [indices|]. split; [|done]. rewrite <- Hl. apply (fold_length (A := exact)).
Qed.

Lemma finish_value (s : list Z) : within s shrunk ->
  0 <= sc_val (sc_finish (A := exact) s) < L25519 /\ eql (sc_val (sc_finish (A := exact) s)) (sc_val s).
Proof.
  intros Hs. assert (length s = 24%nat) as Hn by exact (Forall2_length Hs).
  destruct (finish_once_value s Hn) as [N2 V2]. rewrite finish_val by exact Hn.
  assert (box_val fst (sc_fold (A := interval) 12 shrunk) <= sc_val s - limb (A := exact) s 12 * L25519 <=
    box_val snd (sc_fold (A := interval) 12 shrunk)) as W1.
  { destruct (run_limbs (fun A => sc_fold 12) s shrunk (agrees_fold 12) Hs (proj1 finish_fold_box)) as [_ W%within_val].
    rewrite fold_val in W by lia. change (2 ^ (21 * Z.of_nat (12 - 12))) with 1 in W. by rewrite Z.mul_1_r in W. }
  destruct (run_limbs (@finish_once) s shrunk agrees_finish_once Hs (proj1 finish_once_box)) as [_ W2].
  destruct finish_fold_box as (_ & F1 & F2), finish_once_box as (_ & F3 & F4).
  revert V2 N2 W2. generalize (finish_once (A := exact) s). intros s2 V2 N2 W2.
  pose proof (within_nth _ _ 12 _ _ W2 finish_once_length finish_top) as R2. change (nth 12 s2 0) with (limb (A := exact) s2 12) in R2.
  assert (within (<[12%nat := 0]> s2) (<[12%nat := Some (0, 0)]> (finish_once (A := interval) shrunk)))
    as W3%within_val by (apply Forall2_insert; [exact W2|split; reflexivity]).
  rewrite sc_val_insert in W3 by lia. change (nth 12 s2 0) with (limb (A := exact) s2 12) in W3.
  change (21 * Z.of_nat 12) with 252 in W3. rewrite V2 in *.
  revert R2 W1 W3 F1 F2 F3 F4. generalize (box_val fst (sc_fold (A := interval) 12 shrunk)),
    (box_val snd (sc_fold (A := interval) 12 shrunk)), (box_val fst (<[12%nat := Some (0, 0)]> (finish_once (A := interval) shrunk))),
    (box_val snd (<[12%nat := Some (0, 0)]> (finish_once (A := interval) shrunk))).
  generalize (limb (A := exact) s2 12) (limb (A := exact) s 12). change (@num exact) with Z. generalize (sc_val s).
  unfold L25519, eql. intros v x y a b c d R2 W1 W3 F1 F2 F3 F4. split.
  - assert (x = 0 \/ x = -1) as [-> | ->] by lia; lia.
  - set (L := 2 ^ 252 + _). replace (v - y * L - x * L) with (v + (- y - x) * L) by ring. apply Z_mod_plus_full.
Qed.

(** ** The two functions on limbs *)

Definition box_64 : list (@num interval) := replicate 23 (Some (0, 2 ^ 21 - 1)) ++ [Some (0, 2 ^ 29 - 1)].
Definition box_32 : list (@num interval) := replicate 11 (Some (0, 2 ^ 21 - 1)) ++ [Some (0, 2 ^ 25 - 1)].

Lemma finish_box : defined (sc_finish (A := interval) shrunk) = true /\
  inside (sc_finish (A := interval) shrunk) finished = true.
Proof. vm_compute. done. Qed.

Lemma agrees_reduce_limbs : agrees (@sc_reduce_limbs).
Proof. intros c z r H. unfold sc_reduce_limbs. apply agrees_finish, agrees_shrink, H. Qed.

Lemma limbs_reduced (s : list Z) (B : list (@num interval)) : within s B ->
  defined (sc_shrink (A := interval) B) = true -> inside (sc_shrink (A := interval) B) shrunk = true ->
  length s = 24%nat ->
  exists r, sc_reduce_limbs (A := checked) (Some <$> s) = Some <$> r /\ within r finished /\
    0 <= sc_val r < L25519 /\ eql (sc_val r) (sc_val s).
Proof.
  intros Hs Hd Hi Hn. destruct finish_box as [Hf Hfi].
  destruct (run_limbs (@sc_shrink) s B agrees_shrink Hs Hd) as [E1 W1].
  apply within_inside with (C := shrunk) in W1; [|exact Hi].
  destruct (run_limbs (@sc_finish) _ shrunk agrees_finish W1 Hf) as [E2 W2].
  apply within_inside with (C := finished) in W2; [|exact Hfi].
  destruct (finish_value _ W1) as [V1 V2]. exists (sc_finish (A := exact) (sc_shrink (A := exact) s)).
  split; [exact (eq_trans (f_equal (@sc_finish checked) E1) E2)|]. split; [exact W2|]. split; [exact V1|].
  unfold eql in *. rewrite V2. apply keeps_shrink. by split.
Qed.

Lemma products_val (a b c : list Z) : length a = 12%nat -> length b = 12%nat -> length c = 12%nat ->
  sc_val (sc_products (A := exact) a b c) = sc_val a * sc_val b + sc_val c.
Proof.
  intros Ha Hb Hc.
  do 12 (destruct a as [|? a]; [discriminate Ha|]); destruct a; [|discriminate Ha].
  do 12 (destruct b as [|? b]; [discriminate Hb|]); destruct b; [|discriminate Hb].
  do 12 (destruct c as [|? c]; [discriminate Hc|]); destruct c; [|discriminate Hc]. clear.
  unfold sc_products, limb. cbn [nth]. unfold add64, mul64, lit, exact. unfold sc_val. cbn [fold_right].
  ring.
Qed.

(** ** Octets *)

Lemma load_3_le_val s i : load_3 s i = (le_val s / 2 ^ (8 * Z.of_nat i)) mod 2 ^ 24.
Proof.
  rewrite load_3_val, !octet_at_val. rewrite !Nat2Z.inj_add, !Z.mul_add_distr_l.
  rewrite !div_pow_add by lia. generalize (le_val s / 2 ^ (8 * Z.of_nat i)). intros v. cbn [Z.of_nat]. 
  change (8 * Z.of_nat 1) with 8. change (8 * Z.of_nat 2) with 16. dlia.
Qed.
Lemma load_4_le_val s i : load_4 s i = (le_val s / 2 ^ (8 * Z.of_nat i)) mod 2 ^ 32.
Proof.
  rewrite load_4_val, !octet_at_val. rewrite !Nat2Z.inj_add, !Z.mul_add_distr_l.
  rewrite !div_pow_add by lia. generalize (le_val s / 2 ^ (8 * Z.of_nat i)). intros v.
  change (8 * Z.of_nat 1) with 8. change (8 * Z.of_nat 2) with 16. change (8 * Z.of_nat 3) with 24. dlia.
Qed.

Lemma mod_pow_div x m n : 0 <= n <= m -> x mod 2 ^ m / 2 ^ n = x / 2 ^ n mod 2 ^ (m - n).
Proof.
  intros H. assert (2 ^ m = 2 ^ n * 2 ^ (m - n)) as -> by (rewrite <- Z.pow_add_r by lia; f_equal; lia).
  rewrite Z.rem_mul_r by lia. rewrite Z.mul_comm, Z.div_add, Z.div_small by (pose proof (Z.mod_pos_bound x (2 ^ n)); lia). lia.
Qed.
Lemma mod_pow_mod x m n : 0 <= n <= m -> (x mod 2 ^ m) mod 2 ^ n = x mod 2 ^ n.
Proof.
  intros H. assert (2 ^ m = 2 ^ n * 2 ^ (m - n)) as -> by (rewrite <- Z.pow_add_r by lia; f_equal; lia).
  rewrite Z.rem_mul_r by lia. rewrite Z.mul_comm, Z_mod_plus_full. apply Z.mod_mod. lia.
Qed.

(** The [k]-th group of 21 bits. *)
Lemma limb_3_val s i k n : 0 <= k <= 3 -> 21 * n = 8 * Z.of_nat i + k -> limb_3 s i k = (le_val s / 2 ^ (21 * n)) mod 2 ^ 21.
Proof.
  intros Hk ->. unfold limb_3. rewrite load_3_le_val, Z.shiftr_div_pow2 by lia. rewrite Z.land_comm.
  change 2097151 with (Z.ones 21). rewrite Z.land_ones by lia. rewrite mod_pow_div by lia.
  rewrite mod_pow_mod by lia. by rewrite <- div_pow_add by lia.
Qed.
Lemma limb_4_val s i k n : 0 <= k <= 11 -> 21 * n = 8 * Z.of_nat i + k -> limb_4 s i k = (le_val s / 2 ^ (21 * n)) mod 2 ^ 21.
Proof.
  intros Hk ->. unfold limb_4. rewrite load_4_le_val, Z.shiftr_div_pow2 by lia. rewrite Z.land_comm.
  change 2097151 with (Z.ones 21). rewrite Z.land_ones by lia. rewrite mod_pow_div by lia.
  rewrite mod_pow_mod by lia. by rewrite <- div_pow_add by lia.
Qed.

(** [n] digits of 21 bits, and the rest. *)
Fixpoint split_21 (n : nat) (v : Z) : list Z :=
  match n with O => [v] | S n => v mod 2 ^ 21 :: split_21 n (v / 2 ^ 21) end.

Lemma split_21_val n v : sc_val (split_21 n v) = v.
Proof.
  revert v. induction n as [|n IH]; intros v; [change (v + 2 ^ 21 * 0 = v); lia|].
  change (v mod 2 ^ 21 + 2 ^ 21 * sc_val (split_21 n (v / 2 ^ 21)) = v). rewrite IH.
  pose proof (Z.div_mod v (2 ^ 21) ltac:(lia)). lia.
Qed.

Lemma split_21_length n v : length (split_21 n v) = S n.
Proof. revert v. induction n as [|n IH]; intros v; [done|]. cbn. by rewrite IH. Qed.

Lemma split_21_within n v k : 0 <= v < 2 ^ (21 * Z.of_nat n + k) -> 0 <= k ->
  within (split_21 n v) (replicate n (Some (0, 2 ^ 21 - 1)) ++ [Some (0, 2 ^ k - 1)]).
Proof.
  revert v. induction n as [|n IH]; intros v Hv Hk.
  { constructor; [|constructor]. change (21 * Z.of_nat 0 + k) with k in Hv. unfold in_range. lia. }
  constructor; [unfold in_range; pose proof (Z.mod_pos_bound v (2 ^ 21)); lia|].
  apply IH; [|done]. split; [apply Z.div_pos; lia|]. apply Z.div_lt_upper_bound; [lia|].
  rewrite <- Z.pow_add_r by lia. replace (21 + (21 * Z.of_nat n + k)) with (21 * Z.of_nat (S n) + k) by lia. lia.
Qed.

Lemma split_21_eq n v :
  split_21 n v = ((fun i => (v / 2 ^ (21 * Z.of_nat i)) mod 2 ^ 21) <$> seq 0 n) ++ [v / 2 ^ (21 * Z.of_nat n)].
Proof.
  revert v. induction n as [|n IH]; intros v.
  { cbn. change (2 ^ 0) with 1. by rewrite Z.div_1_r. }
  cbn [split_21 seq fmap list_fmap app]. change (2 ^ (21 * Z.of_nat 0)) with 1. rewrite Z.div_1_r. f_equal.
  rewrite IH, <- fmap_S_seq, <- list_fmap_compose. f_equal.
  - apply list_fmap_ext. intros j i _. unfold compose.
    replace (21 * Z.of_nat (S i)) with (21 + 21 * Z.of_nat i) by lia. by rewrite div_pow_add by lia.
  - replace (21 * Z.of_nat (S n)) with (21 + 21 * Z.of_nat n) by lia. by rewrite div_pow_add by lia.
Qed.

Lemma last_limb s i k : length s = (i + 4)%nat -> 0 <= k <= 32 ->
  Z.shiftr (load_4 s i) k = le_val s / 2 ^ (8 * Z.of_nat i + k).
Proof.
  intros Hl Hk. rewrite load_4_le_val, Z.shiftr_div_pow2 by lia. pose proof (le_val_bound s _ Hl).
  rewrite Z.mod_small; [by rewrite <- div_pow_add by lia|]. split; [apply Z.div_pos; lia|].
  apply Z.div_lt_upper_bound; [lia|]. rewrite <- Z.pow_add_r by lia.
  replace (8 * Z.of_nat i + 32) with (8 * Z.of_nat (i + 4)) by lia. lia.
Qed.

Lemma load_64_val s : length s = 64%nat -> load_64 s = split_21 23 (le_val s).
Proof.
  intros H. unfold load_64. rewrite split_21_eq, (last_limb s 60) by (lia || exact H). cbn [seq fmap list_fmap app].
  repeat (apply f_equal2; [first [apply limb_3_val; lia|apply limb_4_val; lia|reflexivity]|]). reflexivity.
Qed.
Lemma load_32_val s : length s = 32%nat -> load_32 s = split_21 11 (le_val s).
Proof.
  intros H. unfold load_32. rewrite split_21_eq, (last_limb s 28) by (lia || exact H). cbn [seq fmap list_fmap app].
  repeat (apply f_equal2; [first [apply limb_3_val; lia|apply limb_4_val; lia|reflexivity]|]). reflexivity.
Qed.

Lemma octet_in a w k : 0 <= k <= 13 -> byte_of_Z (Z.shiftr a k) = byte_of_Z ((a + 2 ^ 21 * w) / 2 ^ k).
Proof.
  intros Hk. apply byte_of_Z_eq. rewrite Z.shiftr_div_pow2 by lia.
  replace (2 ^ 21) with (2 ^ (13 - k) * 2 ^ 8 * 2 ^ k) by (rewrite <- !Z.pow_add_r by lia; f_equal; lia).
  replace (_ * 2 ^ k * w) with (2 ^ (13 - k) * w * 256 * 2 ^ k) by ring.
  rewrite Z.div_add by lia. by rewrite Z_mod_plus_full.
Qed.
Lemma octet_across a b w k : 0 <= a < 2 ^ 21 -> 13 < k < 21 ->
  byte_of_Z (Z.lor (Z.shiftr a k) (Z.shiftl b (21 - k))) = byte_of_Z ((a + 2 ^ 21 * (b + 2 ^ 21 * w)) / 2 ^ k).
Proof.
  intros Ha Hk. apply byte_of_Z_eq. rewrite Z.shiftr_div_pow2 by lia. rewrite lor_bytes; [|lia|].
  2: { split; [apply Z.div_pos; lia|]. apply Z.div_lt_upper_bound; [lia|]. rewrite <- Z.pow_add_r by lia.
       replace (k + (21 - k)) with 21 by lia. lia. }
  replace (2 ^ 21 * (b + 2 ^ 21 * w)) with (2 ^ (21 - k) * (b + 2 ^ 21 * w) * 2 ^ k).
  2: { replace (2 ^ 21) with (2 ^ (21 - k) * 2 ^ k) at 2 by (rewrite <- Z.pow_add_r by lia; f_equal; lia). ring. }
  rewrite Z.div_add by lia.
  replace (a / 2 ^ k + 2 ^ (21 - k) * (b + 2 ^ 21 * w)) with (a / 2 ^ k + 2 ^ (21 - k) * b + 2 ^ (21 - k) * 2 ^ 13 * w * 256)
    by (change 256 with (2 ^ 8); replace (2 ^ 21) with (2 ^ 13 * 2 ^ 8) by reflexivity; ring).
  by rewrite Z_mod_plus_full.
Qed.

Section octets.
Context (v : Z).

Lemma next_limb n a w : 0 <= n -> v / 2 ^ n = a + 2 ^ 21 * w -> 0 <= a <= 2 ^ 21 - 1 -> v / 2 ^ (n + 21) = w.
Proof. intros Hn E Ha. rewrite div_pow_add, E by lia. rewrite Z.mul_comm, Z.div_add by lia. rewrite Z.div_small by lia. lia. Qed.

Lemma split_octet n a w k j : v / 2 ^ n = a + 2 ^ 21 * w -> 0 <= k <= 13 -> 0 <= n -> 8 * Z.of_nat j = n + k ->
  byte_of_Z (Z.shiftr a k) = byte_of_Z (v / 2 ^ (8 * Z.of_nat j)).
Proof. intros E Hk Hn ->. rewrite div_pow_add, E by lia. by apply octet_in. Qed.
Lemma octet_over n a b w k l j : v / 2 ^ n = a + 2 ^ 21 * (b + 2 ^ 21 * w) -> 0 <= a <= 2 ^ 21 - 1 -> 13 < k < 21 ->
  l = 21 - k -> 0 <= n -> 8 * Z.of_nat j = n + k ->
  byte_of_Z (Z.lor (Z.shiftr a k) (Z.shiftl b l)) = byte_of_Z (v / 2 ^ (8 * Z.of_nat j)).
Proof. intros E Ha Hk -> Hn ->. rewrite div_pow_add, E by lia. apply octet_across; lia. Qed.
Lemma octet_last n a k j : v / 2 ^ n = a + 2 ^ 21 * 0 -> 0 <= k -> 0 <= n -> 8 * Z.of_nat j = n + k ->
  byte_of_Z (Z.shiftr a k) = byte_of_Z (v / 2 ^ (8 * Z.of_nat j)).
Proof. intros E Hk Hn ->. rewrite div_pow_add, E, Z.shiftr_div_pow2 by lia. do 2 f_equal. lia. Qed.
End octets.

Lemma sc_octets_eq r : within r finished -> sc_octets r = le_octets 32 (sc_val r).
Proof.
  intros H. unfold finished, within in H. cbn [replicate app] in H.
  repeat match goal with H : Forall2 _ _ (_ :: _) |- _ => apply list.Forall2_cons_inv_r in H as (? & ? & ? & H & ->) end.
  apply list.Forall2_nil_inv_r in H as ->. unfold in_range in *.
  repeat match goal with H : 0 <= ?x <= 0 |- _ => assert (x = 0) as -> by lia; clear H end.
  match goal with |- _ = le_octets _ ?V => set (v := V);
    assert (v / 2 ^ 0 = V) as E by (change (2 ^ 0) with 1; by rewrite Z.div_1_r) end.
  clearbody v. cbn [sc_val fold_right] in E. unfold sc_octets. cbn [nth].
  do 11 (let E' := fresh "E" in rename E into E';
    match type of E' with _ / 2 ^ ?n = _ =>
      pose proof (next_limb v n _ _ ltac:(lia) E' ltac:(assumption)) as E; let k := eval compute in (n + 21) in change (n + 21) with k in E end).
  unfold le_octets. cbn [seq fmap list_fmap].
  repeat (apply f_equal2; [first [eapply split_octet; [eassumption|lia..] | eapply octet_over; [eassumption|lia..] | eapply (octet_last v 231); [exact E|lia..]]|]).
  reflexivity.
Qed.

Lemma agrees_products_carried (a b c : list Z) : within a box_32 -> within b box_32 -> within c box_32 ->
  sc_product_carries (A := checked) (sc_products (A := checked) (Some <$> a) (Some <$> b) (Some <$> c)) =
    @fmap list _ Z (@num checked) Some (sc_product_carries (A := exact) (sc_products (A := exact) a b c)) /\
  within (sc_product_carries (A := exact) (sc_products (A := exact) a b c))
    (sc_product_carries (A := interval) (sc_products (A := interval) box_32 box_32 box_32)).
Proof.
  intros Ha Hb Hc. apply rel_within; [|vm_compute; reflexivity].
  apply agrees_product_carries, rel_products; by apply within_rel.
Qed.

Lemma octets_reduced (r : list Z) : within r finished -> 0 <= sc_val r < L25519 ->
  exists t, sc_octets <$> sc_values (Some <$> r) = Some t /\ length t = 32%nat /\ le_val t = sc_val r.
Proof.
  intros Hr Hv. rewrite sc_values_some. exists (le_octets 32 (sc_val r)). split_and!.
  - change (Some (sc_octets r) = Some (le_octets 32 (sc_val r))). by rewrite sc_octets_eq.
  - done.
  - rewrite le_octets_val. apply Z.mod_small. unfold L25519 in Hv. lia.
Qed.

Lemma sc_reduce_ok s : length s = 64%nat ->
  exists t, orlp_sc_reduce s = Some t /\ length t = 32%nat /\ le_val t = le_val s mod L25519.
Proof.
  intros Hs. unfold orlp_sc_reduce. rewrite load_64_val by done.
  destruct (limbs_reduced (split_21 23 (le_val s)) box_64) as (r & -> & Hr & V & E).
  { apply (split_21_within 23 _ 29); [|lia]. by apply (le_val_bound s 64). }
  { vm_compute. reflexivity. }
  { vm_compute. reflexivity. }
  { apply split_21_length. }
  destruct (octets_reduced r Hr V) as (t & -> & Ht & Vt). exists t. split_and!; [done..|].
  rewrite Vt. unfold eql in E. rewrite Z.mod_small in E by exact V. by rewrite E, split_21_val.
Qed.

Lemma sc_muladd_ok a b c : length a = 32%nat -> length b = 32%nat -> length c = 32%nat ->
  exists t, orlp_sc_muladd a b c = Some t /\ length t = 32%nat /\
    le_val t = (le_val a * le_val b + le_val c) mod L25519.
Proof.
  intros Ha Hb Hc. unfold orlp_sc_muladd. rewrite !load_32_val by done. cbv zeta.
  assert (forall s, length s = 32%nat -> within (split_21 11 (le_val s)) box_32) as Hw.
  { intros s Hs. apply (split_21_within 11 _ 25); [|lia]. by apply (le_val_bound s 32). }
  destruct (agrees_products_carried _ _ _ (Hw a Ha) (Hw b Hb) (Hw c Hc)) as [-> W].
  set (p := sc_products (A := exact) _ _ _) in *.
  assert (length p = 24%nat /\ sc_val p = le_val a * le_val b + le_val c) as Hp.
  { split; [reflexivity|]. unfold p. by rewrite products_val, !split_21_val by apply split_21_length. }
  clearbody p. apply (carries_value _ [0; 2; 4; 6; 8; 10; 12; 14; 16; 18; 20; 22; 1; 3; 5; 7; 9; 11; 13; 15; 17; 19; 21]%nat)
    in Hp as [Np Vp]; [|indices].
  destruct (limbs_reduced (sc_product_carries (A := exact) p) _ W) as (r & Er & Hr & V & E).
  { vm_compute. reflexivity. }
  { vm_compute. reflexivity. }
  { exact Np. }
  destruct (octets_reduced r Hr V) as (t & Et & Ht & Vt). exists t.
  split; [exact (eq_trans (f_equal (fun l => sc_octets <$> sc_values l) Er) Et)|]. split; [done|].
  rewrite Vt. unfold eql in E. rewrite Z.mod_small in E by exact V. rewrite E. f_equal. exact Vp.
Qed.

(** C31: [orlp_sc_muladd] takes the octets of [a], [b] and [c] to those of [a * b + c] modulo the order of the base point, without undefined behaviour. *)
Theorem sc_muladd_correct a b c : length a = 32%nat -> length b = 32%nat -> length c = 32%nat ->
  exists t, orlp_sc_muladd a b c = Some t /\ length t = 32%nat /\
    le_val t = (le_val a * le_val b + le_val c) mod L25519.
Proof. apply sc_muladd_ok. Qed.
Lemma sc_muladd_correct_witness : exists t,
  orlp_sc_muladd (replicate 32 xff) (replicate 32 x80) (replicate 32 x01) = Some t /\ length t = 32%nat /\
  le_val t = (le_val (replicate 32 xff) * le_val (replicate 32 x80) + le_val (replicate 32 x01)) mod L25519.
Proof. by apply (sc_muladd_correct (replicate 32 xff) (replicate 32 x80) (replicate 32 x01)). Defined.
