(* ===== verification/Sha512.v ===== *)
(** * Sha512: the hash of Ed25519, [sha512.c] of orlp_ed25519

    [uint64_t] is [Z] with its wrap-around ([u64]); the arrays [S], [W] and [md->state] are
    lists, [md->buf] is the list of its 128 octets.  A NULL context is not modelled: every
    caller passes the address of a local one. *)
From S2P Require Import Prelude.

(** The K array. *)
Definition K : list Z :=
  [0x428a2f98d728ae22; 0x7137449123ef65cd; 0xb5c0fbcfec4d3b2f; 0xe9b5dba58189dbbc;
   0x3956c25bf348b538; 0x59f111f1b605d019; 0x923f82a4af194f9b; 0xab1c5ed5da6d8118;
   0xd807aa98a3030242; 0x12835b0145706fbe; 0x243185be4ee4b28c; 0x550c7dc3d5ffb4e2;
   0x72be5d74f27b896f; 0x80deb1fe3b1696b1; 0x9bdc06a725c71235; 0xc19bf174cf692694;
   0xe49b69c19ef14ad2; 0xefbe4786384f25e3; 0x0fc19dc68b8cd5b5; 0x240ca1cc77ac9c65;
   0x2de92c6f592b0275; 0x4a7484aa6ea6e483; 0x5cb0a9dcbd41fbd4; 0x76f988da831153b5;
   0x983e5152ee66dfab; 0xa831c66d2db43210; 0xb00327c898fb213f; 0xbf597fc7beef0ee4;
   0xc6e00bf33da88fc2; 0xd5a79147930aa725; 0x06ca6351e003826f; 0x142929670a0e6e70;
   0x27b70a8546d22ffc; 0x2e1b21385c26c926; 0x4d2c6dfc5ac42aed; 0x53380d139d95b3df;
   0x650a73548baf63de; 0x766a0abb3c77b2a8; 0x81c2c92e47edaee6; 0x92722c851482353b;
   0xa2bfe8a14cf10364; 0xa81a664bbc423001; 0xc24b8b70d0f89791; 0xc76c51a30654be30;
   0xd192e819d6ef5218; 0xd69906245565a910; 0xf40e35855771202a; 0x106aa07032bbd1b8;
   0x19a4c116b8d2d0c8; 0x1e376c085141ab53; 0x2748774cdf8eeb99; 0x34b0bcb5e19b48a8;
   0x391c0cb3c5c95a63; 0x4ed8aa4ae3418acb; 0x5b9cca4f7763e373; 0x682e6ff3d6b2b8a3;
   0x748f82ee5defb2fc; 0x78a5636f43172f60; 0x84c87814a1f0ab72; 0x8cc702081a6439ec;
   0x90befffa23631e28; 0xa4506cebde82bde9; 0xbef9a3f7b2c67915; 0xc67178f2e372532b;
   0xca273eceea26619c; 0xd186b8c721c0c207; 0xeada7dd6cde0eb1e; 0xf57d4f7fee6ed178;
   0x06f067aa72176fba; 0x0a637dc5a2c898a6; 0x113f9804bef90dae; 0x1b710b35131c471b;
   0x28db77f523047d84; 0x32caab7b40c72493; 0x3c9ebe0a15c9bebc; 0x431d67c49c100d4c;
   0x4cc5d4becb3e42b6; 0x597f299cfc657e2a; 0x5fcb6fab3ad6faec; 0x6c44198c4a475817].

(** ** Logical functions *)

Definition ROR64c (x y : Z) : Z :=
  Z.land (Z.lor (Z.shiftr (Z.land x 0xFFFFFFFFFFFFFFFF) (Z.land y 63)) (u64 (Z.shiftl x (64 - Z.land y 63))))
    0xFFFFFFFFFFFFFFFF.

Definition at8 (p : bytes) (i : nat) : Z := byte_to_Z (default x00 (p !! i)).

Definition STORE64H (x : Z) : bytes :=
  byte_of_Z <$>
  [Z.land (Z.shiftr x 56) 255; Z.land (Z.shiftr x 48) 255; Z.land (Z.shiftr x 40) 255; Z.land (Z.shiftr x 32) 255;
   Z.land (Z.shiftr x 24) 255; Z.land (Z.shiftr x 16) 255; Z.land (Z.shiftr x 8) 255; Z.land x 255].

Definition LOAD64H (y : bytes) (o : nat) : Z :=
  let b k := Z.land (at8 y (o + k)) 255 in
  Z.lor (Z.lor (Z.lor (Z.lor (Z.lor (Z.lor (Z.lor
    (Z.shiftl (b 0%nat) 56) (Z.shiftl (b 1%nat) 48)) (Z.shiftl (b 2%nat) 40)) (Z.shiftl (b 3%nat) 32))
    (Z.shiftl (b 4%nat) 24)) (Z.shiftl (b 5%nat) 16)) (Z.shiftl (b 6%nat) 8)) (b 7%nat).

Definition Ch (x y z : Z) : Z := Z.lxor z (Z.land x (Z.lxor y z)).
Definition Maj (x y z : Z) : Z := Z.lor (Z.land (Z.lor x y) z) (Z.land x y).
Definition S_ (x n : Z) : Z := ROR64c x n.
Definition R_ (x n : Z) : Z := Z.shiftr (Z.land x 0xFFFFFFFFFFFFFFFF) n.
Definition Sigma0 (x : Z) : Z := Z.lxor (Z.lxor (S_ x 28) (S_ x 34)) (S_ x 39).
Definition Sigma1 (x : Z) : Z := Z.lxor (Z.lxor (S_ x 14) (S_ x 18)) (S_ x 41).
Definition Gamma0 (x : Z) : Z := Z.lxor (Z.lxor (S_ x 1) (S_ x 8)) (R_ x 7).
Definition Gamma1 (x : Z) : Z := Z.lxor (Z.lxor (S_ x 19) (S_ x 61)) (R_ x 6).

(** ** The compression *)

Record orlp_sha512_context := Sha512_context {
  md_length : Z;
  md_state : list Z;
  md_curlen : nat;
  md_buf : bytes
}.

Definition word (l : list Z) (i : nat) : Z := nth i l 0.

(** The 80 words: the block, then [W[i] = Gamma1(W[i-2]) + W[i-7] + Gamma0(W[i-15]) + W[i-16]]. *)
Definition load_words (buf : bytes) (W : list Z) : list Z :=
  fold_left (fun W i => <[i := LOAD64H buf (8 * i)]> W) (seq 0 16) W.
Definition fill_words (W : list Z) : list Z :=
  fold_left (fun W i =>
      <[i := u64 (Gamma1 (word W (i - 2)) + word W (i - 7) + Gamma0 (word W (i - 15)) + word W (i - 16))]> W)
    (seq 16 64) W.

(** [t0 = h + Sigma1(e) + Ch(e,f,g) + K[i] + W[i]; t1 = Sigma0(a) + Maj(a,b,c); d += t0; h = t0 + t1;] *)
Definition RND (W : list Z) (a b c d e f g h i : nat) (S : list Z) : list Z :=
  let t0 := u64 (word S h + Sigma1 (word S e) + Ch (word S e) (word S f) (word S g) + word K i + word W i) in
  let t1 := u64 (Sigma0 (word S a) + Maj (word S a) (word S b) (word S c)) in
  let S := <[d := u64 (word S d + t0)]> S in
  <[h := u64 (t0 + t1)]> S.

Definition rounds8 (W : list Z) (i : nat) (S : list Z) : list Z :=
  let S := RND W 0 1 2 3 4 5 6 7 (i + 0) S in
  let S := RND W 7 0 1 2 3 4 5 6 (i + 1) S in
  let S := RND W 6 7 0 1 2 3 4 5 (i + 2) S in
  let S := RND W 5 6 7 0 1 2 3 4 (i + 3) S in
  let S := RND W 4 5 6 7 0 1 2 3 (i + 4) S in
  let S := RND W 3 4 5 6 7 0 1 2 (i + 5) S in
  let S := RND W 2 3 4 5 6 7 0 1 (i + 6) S in
  RND W 1 2 3 4 5 6 7 0 (i + 7) S.

(** The feedback: [md->state[i] = md->state[i] + S[i]]. *)
Definition feedback (state S : list Z) : list Z := zip_with (fun x y => u64 (x + y)) state S.

Definition sha512_compress (md : orlp_sha512_context) (block : bytes) : orlp_sha512_context :=
  let W := fill_words (load_words block (replicate 80 0)) in
  let S := fold_left (fun S k => rounds8 W (8 * k) S) (seq 0 10) (md_state md) in
  {| md with md_state := feedback (md_state md) S |}.

(** ** The interface *)

Definition orlp_sha512_init (md : orlp_sha512_context) : orlp_sha512_context :=
  {| md with md_curlen := 0%nat; md_length := 0;
     md_state := [0x6a09e667f3bcc908; 0xbb67ae8584caa73b; 0x3c6ef372fe94f82b; 0xa54ff53a5f1d36f1;
               0x510e527fade682d1; 0x9b05688c2b3e6c1f; 0x1f83d9abfb41bd6b; 0x5be0cd19137e2179] |}.

(** [buf[i + curlen] = in[i]] for [i < n]. *)
Definition copy_in (at_ : nat) (x buf : bytes) : bytes := take at_ buf ++ x ++ drop (at_ + length x) buf.

(** One turn of [while (inlen > 0)]: the new context and what is left of the input. *)
Definition update_turn (md : orlp_sha512_context) (input : bytes) : orlp_sha512_context * bytes :=
  if (md_curlen md =? 0)%nat && (128 <=? length input)%nat then
    let md := sha512_compress md (take 128 input) in
    ({| md with md_length := u64 (md_length md + 128 * 8) |}, drop 128 input)
  else
    let n := Nat.min (length input) (128 - md_curlen md) in
    let md := {| md with md_buf := copy_in (md_curlen md) (take n input) (md_buf md); md_curlen := (md_curlen md + n)%nat |} in
    let input := drop n input in
    if (md_curlen md =? 128)%nat then
      let md := sha512_compress md (md_buf md) in
      ({| md with md_length := u64 (md_length md + 8 * 128); md_curlen := 0%nat |}, input)
    else (md, input).

Fixpoint update_loop (fuel : nat) (md : orlp_sha512_context) (input : bytes) : option orlp_sha512_context :=
  match input with
  | [] => Some md
  | _ =>
      match fuel with
      | O => None
      | S fuel => let '(md, input) := update_turn md input in update_loop fuel md input
      end
  end.

(** The status and the context; the outer [None] is a loop that does not end.  The input is a
    pointer: NULL is the inner [None]. *)
Definition orlp_sha512_update (md : orlp_sha512_context) (input : option bytes) : option (Z * orlp_sha512_context) :=
  match input with
  | None => Some (1, md)
  | Some input =>
      if (128 <? md_curlen md)%nat then Some (1, md)
      else pair 0 <$> update_loop (S (length input)) md input
  end.

(** [while (md->curlen < n) md->buf[md->curlen++] = 0;] *)
Definition zeros_to (n : nat) (md : orlp_sha512_context) : orlp_sha512_context :=
  {| md with md_buf := copy_in (md_curlen md) (replicate (n - md_curlen md) x00) (md_buf md); md_curlen := Nat.max n (md_curlen md) |}.

(** [md->length += md->curlen * 8; md->buf[md->curlen++] = 0x80;] *)
Definition append_one (md : orlp_sha512_context) : orlp_sha512_context :=
  let md := {| md with md_length := u64 (md_length md + Z.of_nat (md_curlen md) * 8) |} in
  {| md with md_buf := <[md_curlen md := x80]> (md_buf md); md_curlen := S (md_curlen md) |}.

(** [if (md->curlen > 112) ...] *)
Definition make_room (md : orlp_sha512_context) : orlp_sha512_context :=
  if (112 <? md_curlen md)%nat then
    let md := zeros_to 128 md in
    let md := sha512_compress md (md_buf md) in
    {| md with md_curlen := 0%nat |}
  else md.

(** Zeros up to 120, then [STORE64H(md->length, md->buf+120)]. *)
Definition store_length (md : orlp_sha512_context) : orlp_sha512_context :=
  let md := zeros_to 120 md in
  {| md with md_buf := copy_in 120 (STORE64H (md_length md)) (md_buf md) |}.

Definition orlp_sha512_final (md : orlp_sha512_context) (out : bytes) : Z * orlp_sha512_context * bytes :=
  if (128 <=? md_curlen md)%nat then (1, md, out)
  else
    let md := append_one md in
    let md := make_room md in
    let md := store_length md in
    let md := sha512_compress md (md_buf md) in
    (0, md, concat (STORE64H <$> md_state md)).

(** What an uninitialised context may hold does not matter. *)
Definition fresh_context : orlp_sha512_context := Sha512_context 0 (replicate 8 0) 0 (replicate 128 x00).

Definition orlp_sha512 (message out : bytes) : option (Z * bytes) :=
  let ctx := orlp_sha512_init fresh_context in
  match orlp_sha512_update ctx (Some message) with
  | Some (0, ctx) => let '(ret, _, out) := orlp_sha512_final ctx out in Some (ret, out)
  | Some (ret, _) => Some (ret, out)
  | None => None
  end.
