(* ===== verification/Sha512Facts.v ===== *)
(** * Sha512Facts: [sha512.c] computes SHA-512

    [Fips] is the hash of FIPS 180-4, its constants taken from the roots of the primes.
    The streaming interface computes it from any sequence of updates. *)
From S2P Require Import Prelude Sha512.

(** ** FIPS 180-4 *)

Module Fips.

Definition SHR (n x : Z) : Z := Z.shiftr x n.
Definition ROTR (n x : Z) : Z := Z.lor (Z.shiftr x n) (Z.shiftl x (64 - n) mod 2 ^ 64).

Definition Ch (x y z : Z) : Z := Z.lxor (Z.land x y) (Z.land (Z.lnot x) z).
Definition Maj (x y z : Z) : Z := Z.lxor (Z.lxor (Z.land x y) (Z.land x z)) (Z.land y z).
Definition Sum0 (x : Z) : Z := Z.lxor (Z.lxor (ROTR 28 x) (ROTR 34 x)) (ROTR 39 x).
Definition Sum1 (x : Z) : Z := Z.lxor (Z.lxor (ROTR 14 x) (ROTR 18 x)) (ROTR 41 x).
Definition sigma0 (x : Z) : Z := Z.lxor (Z.lxor (ROTR 1 x) (ROTR 8 x)) (SHR 7 x).
Definition sigma1 (x : Z) : Z := Z.lxor (Z.lxor (ROTR 19 x) (ROTR 61 x)) (SHR 6 x).

(** The constants: the first 64 bits of the fractional parts of the cube roots of the first
    eighty primes, of the square roots of the first eight. *)
Definition primes_below (n : nat) : list Z :=
  filter (fun p => forallb (fun d => negb (p mod Z.of_nat d =? 0)) (seq 2 (Z.to_nat p - 2)) = true)
    (Z.of_nat <$> seq 2 (n - 2)).

(** The largest number whose cube is at most [n], by its bits from [2 ^ b]. *)
Fixpoint cube_root (b : nat) (r n : Z) : Z :=
  let t := r + 2 ^ Z.of_nat b in
  let r := if t * t * t <=? n then t else r in
  match b with O => r | S b => cube_root b r n end.

Definition K : list Z := (fun p => cube_root 67 0 (p * 2 ^ 192) mod 2 ^ 64) <$> primes_below 410.
Definition H0 : list Z := (fun p => Z.sqrt (p * 2 ^ 128) mod 2 ^ 64) <$> primes_below 20.

(** Big-endian octets. *)
Definition be_octets (n : nat) (v : Z) : bytes := (fun i => byte_of_Z (v / 2 ^ (8 * Z.of_nat (n - 1 - i)))) <$> seq 0 n.
Definition be_number (s : bytes) : Z := fold_left (fun v b => v * 256 + byte_to_Z b) s 0.

(** The message schedule. *)
Definition next_word (w : list Z) : Z :=
  let t := length w in
  (sigma1 (nth (t - 2) w 0) + nth (t - 7) w 0 + sigma0 (nth (t - 15) w 0) + nth (t - 16) w 0) mod 2 ^ 64.
Fixpoint extend (n : nat) (w : list Z) : list Z :=
  match n with O => w | S n => extend n (w ++ [next_word w]) end.
Definition block_words (m : bytes) : list Z :=
  (fun i => be_number (take 8 (drop (8 * i) m))) <$> seq 0 16.
Definition schedule (m : bytes) : list Z := extend 64 (block_words m).

(** The eight working variables. *)
Record regs := Regs { a : Z; b : Z; c : Z; d : Z; e : Z; f : Z; g : Z; h : Z }.

Definition round (v : regs) (k w : Z) : regs :=
  let T1 := (h v + Sum1 (e v) + Ch (e v) (f v) (g v) + k + w) mod 2 ^ 64 in
  let T2 := (Sum0 (a v) + Maj (a v) (b v) (c v)) mod 2 ^ 64 in
  Regs ((T1 + T2) mod 2 ^ 64) (a v) (b v) (c v) ((d v + T1) mod 2 ^ 64) (e v) (f v) (g v).

Definition regs_of (H : list Z) : regs :=
  let n i := nth i H 0 in Regs (n 0%nat) (n 1%nat) (n 2%nat) (n 3%nat) (n 4%nat) (n 5%nat) (n 6%nat) (n 7%nat).
Definition regs_list (v : regs) : list Z := [a v; b v; c v; d v; e v; f v; g v; h v].

Definition compress (H : list Z) (m : bytes) : list Z :=
  let w := schedule m in
  let v := fold_left (fun v t => round v (nth t K 0) (nth t w 0)) (seq 0 80) (regs_of H) in
  zip_with (fun x y => (x + y) mod 2 ^ 64) H (regs_list v).

(** The first [n] blocks of [m]. *)
Fixpoint hash_blocks (n : nat) (H : list Z) (m : bytes) : list Z :=
  match n with O => H | S n => hash_blocks n (compress H (take 128 m)) (drop 128 m) end.

(** A one bit, the fewest zeros that make whole blocks with the 128 bits of the length. *)
Definition pad (l : Z) (m : bytes) : bytes :=
  let k := Z.to_nat ((111 - blen m) mod 128) in
  m ++ [x80] ++ replicate k x00 ++ be_octets 16 l.

Definition hash (l : Z) (m : bytes) : bytes :=
  let p := pad l m in concat (be_octets 8 <$> hash_blocks (length p / 128) H0 p).

(** The length is that of the message in bits. *)
Definition sha512 (m : bytes) : bytes := hash (8 * blen m) m.
End Fips.

(** The code keeps the length in 64 bits. *)
Definition sha512_u64 (m : bytes) : bytes := Fips.hash (u64 (8 * blen m)) m.

Lemma sha512_u64_fips m : 8 * blen m < 2 ^ 64 -> sha512_u64 m = Fips.sha512 m.
Proof. intros H. unfold sha512_u64. rewrite u64_small by (pose proof (blen_nonneg m); lia). done. Qed.

(** ** Words *)

Definition w64 (x : Z) : Prop := 0 <= x < 2 ^ 64.

Lemma w64_u64 x : w64 (u64 x).
Proof. apply u64_range. Qed.

Lemma land_mask x : Z.land x 0xFFFFFFFFFFFFFFFF = x mod 2 ^ 64.
Proof. change 0xFFFFFFFFFFFFFFFF with (Z.ones 64). by apply Z.land_ones. Qed.

Lemma S_rotr x n : w64 x -> 0 < n < 64 -> S_ x n = Fips.ROTR n x.
Proof.
  intros Hx Hn. unfold S_, ROR64c, Fips.ROTR.
  assert (Z.land n 63 = n) as ->.
  { change 63 with (Z.ones 6). rewrite Z.land_ones by lia. apply Z.mod_small. lia. }
  rewrite Z.land_lor_distr_l, !land_mask. unfold u64. rewrite Z.mod_mod by lia.
  rewrite (Z.mod_small x) by exact Hx. f_equal. apply Z.mod_small.
  rewrite Z.shiftr_div_pow2 by lia. unfold w64 in Hx. split; [apply Z.div_pos; lia|].
  apply Z.div_lt_upper_bound; [lia|]. assert (1 <= 2 ^ n) by (apply (Z.pow_le_mono_r 2 0 n); lia). nia.
Qed.
Lemma R_shr x n : w64 x -> R_ x n = Fips.SHR n x.
Proof. intros Hx. unfold R_, Fips.SHR. by rewrite land_mask, Z.mod_small by exact Hx. Qed.

Lemma Sigma0_eq x : w64 x -> Sigma0 x = Fips.Sum0 x.
Proof. intros H. unfold Sigma0, Fips.Sum0. by rewrite !S_rotr by (done || lia). Qed.
Lemma Sigma1_eq x : w64 x -> Sigma1 x = Fips.Sum1 x.
Proof. intros H. unfold Sigma1, Fips.Sum1. by rewrite !S_rotr by (done || lia). Qed.
Lemma Gamma0_eq x : w64 x -> Gamma0 x = Fips.sigma0 x.
Proof. intros H. unfold Gamma0, Fips.sigma0. by rewrite !S_rotr, R_shr by (done || lia). Qed.
Lemma Gamma1_eq x : w64 x -> Gamma1 x = Fips.sigma1 x.
Proof. intros H. unfold Gamma1, Fips.sigma1. by rewrite !S_rotr, R_shr by (done || lia). Qed.

Ltac bitwise := intros; apply Z.bits_inj'; intros ? ?;
  rewrite ?Z.lxor_spec, ?Z.lor_spec, ?Z.land_spec, ?Z.lnot_spec, ?Z.lxor_spec, ?Z.lor_spec, ?Z.land_spec by done;
  repeat match goal with |- context [Z.testbit ?x ?n] => destruct (Z.testbit x n) end; done.

Lemma Ch_eq x y z : Ch x y z = Fips.Ch x y z.
Proof. unfold Ch, Fips.Ch. bitwise. Qed.
Lemma Maj_eq x y z : Maj x y z = Fips.Maj x y z.
Proof. unfold Maj, Fips.Maj. bitwise. Qed.

Lemma cube_root_ok b r n : 0 <= r -> r * r * r <= n ->
  n < (r + 2 ^ Z.of_nat (S b)) * (r + 2 ^ Z.of_nat (S b)) * (r + 2 ^ Z.of_nat (S b)) ->
  let q := Fips.cube_root b r n in 0 <= q /\ q * q * q <= n < (q + 1) * (q + 1) * (q + 1).
Proof.
  revert r. induction b as [|b IH]; intros r Hr Hl Hu; cbn [Fips.cube_root] in *; cbv zeta.
  - change (2 ^ Z.of_nat 0) with 1. change (2 ^ Z.of_nat 1) with 2 in Hu.
    destruct (Z.leb_spec ((r + 1) * (r + 1) * (r + 1)) n); [|lia].
    replace (r + 1 + 1) with (r + 2) by lia. lia.
  - assert (2 ^ Z.of_nat (S (S b)) = 2 ^ Z.of_nat (S b) + 2 ^ Z.of_nat (S b)) as E.
    { replace (Z.of_nat (S (S b))) with (1 + Z.of_nat (S b)) by lia. rewrite Z.pow_add_r by lia. lia. }
    rewrite E in Hu. set (t := 2 ^ Z.of_nat (S b)) in *. assert (0 < t) by (subst t; lia). rewrite Z.add_assoc in Hu.
    destruct (Z.leb_spec ((r + t) * (r + t) * (r + t)) n); apply IH; lia.
Qed.

Lemma cube_root_unique n q : 0 <= q < 2 ^ 68 -> q * q * q <= n < (q + 1) * (q + 1) * (q + 1) -> Fips.cube_root 67 0 n = q.
Proof.
  intros Hq Hn. assert (0 <= n) by nia. destruct (cube_root_ok 67 0 n) as [Hr Hc]; [lia|lia| |].
  { change (0 + 2 ^ Z.of_nat 68) with (2 ^ 68). nia. }
  set (r := Fips.cube_root 67 0 n) in *. clearbody r.
  destruct (Z.lt_trichotomy r q) as [L|[E|L]]; [|done|]; exfalso.
  - assert ((r + 1) * (r + 1) <= q * q) by nia. nia.
  - assert ((q + 1) * (q + 1) <= r * r) by nia. nia.
Qed.

(** The integer parts of the roots. *)
Definition root_part (p : Z) : Z :=
  if p <? 8 then 1 else if p <? 27 then 2 else if p <? 64 then 3 else if p <? 125 then 4
  else if p <? 216 then 5 else if p <? 343 then 6 else 7.

Definition K_check (p k : Z) : bool :=
  let q := root_part p * 2 ^ 64 + k in
  let n := p * 2 ^ 192 in
  (0 <=? k) && (k <? 2 ^ 64) && (q * q * q <=? n) && (n <? (q + 1) * (q + 1) * (q + 1)).

Lemma K_check_ok p k : K_check p k = true -> Fips.cube_root 67 0 (p * 2 ^ 192) mod 2 ^ 64 = k.
Proof.
  unfold K_check. rewrite !andb_true_iff, !Z.leb_le, !Z.ltb_lt. intros [[[? ?] ?] ?].
  assert (0 <= root_part p < 8) by (unfold root_part; repeat destruct (_ <? _); lia).
  rewrite (cube_root_unique _ (root_part p * 2 ^ 64 + k)) by lia.
  rewrite Z.add_comm, Z_mod_plus_full. by apply Z.mod_small.
Qed.

Lemma K_checked (l l' : list Z) : Forall2 (fun p k => K_check p k = true) l l' ->
  l' = (fun p => Fips.cube_root 67 0 (p * 2 ^ 192) mod 2 ^ 64) <$> l.
Proof. induction 1 as [|p k l l' H _ IH]; [done|]. rewrite fmap_cons. by rewrite (K_check_ok p k), <- IH. Qed.

Lemma K_eq : K = Fips.K.
Proof.
  apply K_checked.
  replace (Fips.primes_below 410) with (ltac:(let v := eval vm_compute in (Fips.primes_below 410) in exact v))
    by (vm_compute; reflexivity).
  repeat (constructor; [vm_compute; reflexivity|]). constructor.
Qed.

(** ** A round *)

(** The array [S] as the working variables, rotated [r] times. *)
Definition view (r : nat) (S : list Z) : Fips.regs :=
  let n i := word S ((i + 8 - r) mod 8) in
  Fips.Regs (n 0%nat) (n 1%nat) (n 2%nat) (n 3%nat) (n 4%nat) (n 5%nat) (n 6%nat) (n 7%nat).

Definition words_ok (n : nat) (S : list Z) : Prop := length S = n /\ Forall w64 S.

Lemma words_insert n S i x : words_ok n S -> words_ok n (<[i := u64 x]> S).
Proof. intros [<- H]. split; [apply length_insert|]. by apply Forall_insert, w64_u64. Qed.
Lemma words_nth n S i : words_ok n S -> w64 (word S i).
Proof.
  intros [_ H]. unfold word. destruct (decide (i < length S)%nat) as [Hi|Hi].
  - by apply (list.Forall_nth w64).
  - rewrite nth_overflow by lia. unfold w64. lia.
Qed.

Section rnd.
Context (W : list Z) (i : nat).

Lemma RND_ok a b c d e f g h S : words_ok 8 S -> words_ok 8 (RND W a b c d e f g h i S).
Proof. intros H. unfold RND. by do 2 apply words_insert. Qed.

Definition turn (r : nat) (S : list Z) : list Z :=
  let x j := ((j + 8 - r) mod 8)%nat in RND W (x 0%nat) (x 1%nat) (x 2%nat) (x 3%nat) (x 4%nat) (x 5%nat) (x 6%nat) (x 7%nat) i S.

Lemma turn_ok r S : words_ok 8 S -> words_ok 8 (turn r S).
Proof. apply RND_ok. Qed.

Lemma turn_round r S : (r < 8)%nat -> words_ok 8 S ->
  view (r + 1) (turn r S) = Fips.round (view r S) (word K i) (word W i).
Proof.
  intros Hr [Hn Hs]. do 8 (destruct Hs as [|? ? ? Hs]; [discriminate Hn|]). destruct Hs; [|discriminate Hn].
  do 8 (destruct r as [|r]; [unfold turn, view, RND, Fips.round, word;
    cbn -[Z.add Z.modulo u64 Sigma0 Sigma1 Fips.Sum0 Fips.Sum1 Ch Maj Fips.Ch Fips.Maj K];
    rewrite <- ?Ch_eq, <- ?Maj_eq, ?Sigma0_eq, ?Sigma1_eq by done; reflexivity|]). lia.
Qed.
End rnd.

Lemma rounds8_turns W i S : rounds8 W i S =
  turn W (i + 7) 7 (turn W (i + 6) 6 (turn W (i + 5) 5 (turn W (i + 4) 4
    (turn W (i + 3) 3 (turn W (i + 2) 2 (turn W (i + 1) 1 (turn W (i + 0) 0 S))))))).
Proof.
  unfold rounds8. cbv zeta. repeat (unfold turn at 1; cbv zeta; cbn [Nat.add Nat.sub Nat.modulo Nat.divmod fst snd]; apply f_equal).
  reflexivity.
Qed.

Lemma rounds8_ok W i S : words_ok 8 S ->
  words_ok 8 (rounds8 W i S) /\
  view 0 (rounds8 W i S) =
    fold_left (fun v t => Fips.round v (word K t) (word W t)) ((fun j => (i + j)%nat) <$> seq 0 8) (view 0 S).
Proof.
  intros H. rewrite rounds8_turns.
  split; [by repeat apply turn_ok|].
  match goal with |- view 0 ?x = _ => change (view 0 x) with (view (7 + 1) x) end.
  rewrite turn_round by (lia || by repeat apply turn_ok). change (view 7) with (view (6 + 1)).
  rewrite turn_round by (lia || by repeat apply turn_ok). change (view 6) with (view (5 + 1)).
  rewrite turn_round by (lia || by repeat apply turn_ok). change (view 5) with (view (4 + 1)).
  rewrite turn_round by (lia || by repeat apply turn_ok). change (view 4) with (view (3 + 1)).
  rewrite turn_round by (lia || by repeat apply turn_ok). change (view 3) with (view (2 + 1)).
  rewrite turn_round by (lia || by repeat apply turn_ok). change (view 2) with (view (1 + 1)).
  rewrite turn_round by (lia || by repeat apply turn_ok). change (view 1) with (view (0 + 1)).
  rewrite turn_round by (lia || done). reflexivity.
Qed.

Lemma all_rounds W R n : words_ok 8 R ->
  let R' := fold_left (fun S k => rounds8 W (8 * k) S) (seq 0 n) R in
  words_ok 8 R' /\
  view 0 R' = fold_left (fun v t => Fips.round v (word K t) (word W t)) (seq 0 (8 * n)) (view 0 R).
Proof.
  intros H. cbv zeta. induction n as [|n [IHo IHv]]; [done|].
  rewrite seq_S, fold_left_app. cbn [fold_left]. destruct (rounds8_ok W (8 * (0 + n)) _ IHo) as [Ho Hv].
  split; [exact Ho|]. rewrite Hv, IHv. replace (8 * S n)%nat with (8 * n + 8)%nat by lia.
  assert (seq (0 + 8 * n) 8 = (fun j => (8 * (0 + n) + j)%nat) <$> seq 0 8) as E by (rewrite fmap_add_seq; f_equal; lia).
  by rewrite seq_app, E, fold_left_app.
Qed.

(** ** The schedule *)

Lemma fips_number_app s t : Fips.be_number (s ++ t) = Fips.be_number s * 256 ^ blen t + Fips.be_number t.
Proof.
  unfold Fips.be_number. rewrite fold_left_app. generalize (fold_left (fun v b => v * 256 + byte_to_Z b) s 0). clear s.
  induction t as [|b t IH]; intros v; [change (v = v * 256 ^ 0 + 0); lia|]. cbn [fold_left]. rewrite (IH (v * 256 + _)), (IH (0 * 256 + _)).
  rewrite blen_cons, Z.pow_add_r by (pose proof (blen_nonneg t); lia). change (256 ^ 1) with 256. ring.
Qed.

Lemma be_number_range s : 0 <= Fips.be_number s < 256 ^ blen s.
Proof.
  induction s as [|b s IH] using rev_ind; [change (0 <= 0 < 256 ^ 0); lia|]. rewrite fips_number_app, blen_app.
  change (Fips.be_number [b]) with (0 * 256 + byte_to_Z b). change (blen [b]) with 1. pose proof (byte_to_Z_range b).
  rewrite Z.pow_add_r by (pose proof (blen_nonneg s); lia). change (256 ^ 1) with 256. lia.
Qed.

Lemma at8_land p i : Z.land (at8 p i) 255 = at8 p i.
Proof. change 255 with (Z.ones 8). rewrite Z.land_ones by lia. apply Z.mod_small, byte_to_Z_range. Qed.

Lemma lor_step x y k j : 0 <= k -> 0 <= y < 256 -> j = 8 + k ->
  Z.lor (Z.shiftl x j) (Z.shiftl y k) = Z.shiftl (x * 256 + y) k.
Proof.
  intros Hk Hy ->. rewrite <- Z.shiftl_shiftl by lia. rewrite <- Z.shiftl_lor. f_equal.
  rewrite lor_shiftl_add by lia. lia.
Qed.

Lemma LOAD64H_number y o : (o + 8 <= length y)%nat -> LOAD64H y o = Fips.be_number (take 8 (drop o y)).
Proof.
  intros H. unfold LOAD64H. rewrite !at8_land.
  assert (exists b0 b1 b2 b3 b4 b5 b6 b7, take 8 (drop o y) = [b0; b1; b2; b3; b4; b5; b6; b7]) as
    (b0 & b1 & b2 & b3 & b4 & b5 & b6 & b7 & E).
  { assert (length (take 8 (drop o y)) = 8%nat) as Hl by (rewrite length_take, length_drop; lia).
    revert Hl. generalize (take 8 (drop o y)). intros l Hl.
    do 8 (destruct l as [|? l]; [discriminate Hl|]). destruct l; [|discriminate Hl]. by do 8 eexists. }
  assert (forall k x, [b0; b1; b2; b3; b4; b5; b6; b7] !! k = Some x -> at8 y (o + k) = byte_to_Z x) as Hk.
  { intros k x Hx. rewrite <- E in Hx. apply lookup_take_Some in Hx as [Hx _]. rewrite lookup_drop in Hx.
    unfold at8. by rewrite Hx. }
  rewrite (Hk 0%nat b0), (Hk 1%nat b1), (Hk 2%nat b2), (Hk 3%nat b3), (Hk 4%nat b4), (Hk 5%nat b5), (Hk 6%nat b6), (Hk 7%nat b7) by done.
  rewrite E. unfold Fips.be_number. cbn [fold_left].
  pose proof (byte_to_Z_range b0). pose proof (byte_to_Z_range b1). pose proof (byte_to_Z_range b2). pose proof (byte_to_Z_range b3).
  pose proof (byte_to_Z_range b4). pose proof (byte_to_Z_range b5). pose proof (byte_to_Z_range b6). pose proof (byte_to_Z_range b7).
  rewrite (lor_step _ _ 48 56), (lor_step _ _ 40 48), (lor_step _ _ 32 40), (lor_step _ _ 24 32), (lor_step _ _ 16 24), (lor_step _ _ 8 16) by lia.
  rewrite lor_shiftl_add by lia. lia.
Qed.

Lemma be_word p : (8 <= length p)%nat -> w64 (Fips.be_number (take 8 p)).
Proof.
  intros H. pose proof (be_number_range (take 8 p)) as R. unfold blen in R. rewrite length_take_le in R by done. exact R.
Qed.

(** One more element of an array that is filled from the left. *)
Lemma take_S_insert {A} (l : list A) k x : (k < length l)%nat -> take (S k) (<[k := x]> l) = take k l ++ [x].
Proof.
  intros H. rewrite (take_S_r _ _ x) by (by apply list_lookup_insert_eq). by rewrite take_insert_ge.
Qed.

Lemma load_words_ok m W n : (n <= 16)%nat -> (128 <= length m)%nat -> length W = 80%nat ->
  let W' := fold_left (fun W i => <[i := LOAD64H m (8 * i)]> W) (seq 0 n) W in
  length W' = 80%nat /\ take n W' = (fun i => Fips.be_number (take 8 (drop (8 * i) m))) <$> seq 0 n.
Proof.
  intros Hn Hm HW. cbv zeta. induction n as [|n IH]; [done|]. destruct IH as [IHl IHt]; [lia|].
  rewrite seq_S, fold_left_app, fmap_app. cbn [fold_left fmap list_fmap]. rewrite length_insert.
  change (0 + n)%nat with n. split; [done|]. rewrite take_S_insert by lia. by rewrite IHt, LOAD64H_number by lia.
Qed.

Lemma extend_S n w : Fips.extend (S n) w = Fips.extend n w ++ [Fips.next_word (Fips.extend n w)].
Proof. revert w. induction n as [|n IH]; intros w; [done|]. change (Fips.extend (S (S n)) w) with (Fips.extend (S n) (w ++ [Fips.next_word w])). by rewrite IH. Qed.

Lemma extend_length n w : length (Fips.extend n w) = (n + length w)%nat.
Proof. induction n as [|n IH]; [done|]. rewrite extend_S, length_app, IH. cbn. lia. Qed.

Lemma next_word_range w : w64 (Fips.next_word w).
Proof. apply (u64_range). Qed.
Lemma extend_ok n w : Forall w64 w -> Forall w64 (Fips.extend n w).
Proof. intros H. induction n as [|n IH]; [done|]. rewrite extend_S. apply list.Forall_app. split; [done|]. repeat constructor; apply next_word_range. Qed.

Lemma fill_words_ok W n : (n <= 64)%nat -> length W = 80%nat -> Forall w64 (take 16 W) ->
  let W' := fold_left (fun W i =>
      <[i := u64 (Gamma1 (word W (i - 2)) + word W (i - 7) + Gamma0 (word W (i - 15)) + word W (i - 16))]> W)
    (seq 16 n) W in
  length W' = 80%nat /\ take (16 + n) W' = Fips.extend n (take 16 W).
Proof.
  intros Hn HW Hok. cbv zeta. induction n as [|n IH]; [done|]. destruct IH as [IHl IHt]; [lia|].
  rewrite seq_S, fold_left_app. cbn [fold_left]. rewrite length_insert. split; [exact IHl|].
  set (W1 := fold_left _ (seq 16 n) W) in *. clearbody W1.
  replace (16 + S n)%nat with (S (16 + n)) by lia. rewrite take_S_insert by lia. rewrite extend_S, IHt. do 2 f_equal.
  set (w := Fips.extend n (take 16 W)) in *. assert (Forall w64 w) as Hw by (by apply extend_ok).
  assert (length w = (16 + n)%nat) as Hl by (rewrite <- IHt, length_take; lia).
  assert (forall k, (0 < k <= 16)%nat -> word W1 (16 + n - k) = nth (length w - k) w 0 /\ w64 (nth (length w - k) w 0)) as E.
  { intros k Hk. unfold word. rewrite Hl, <- IHt, nth_take by lia. split; [done|].
    rewrite <- (nth_take _ _ (16 + n)), IHt by lia. apply (list.Forall_nth w64); [done|lia]. }
  unfold Fips.next_word. cbv zeta.
  destruct (E 2%nat ltac:(lia)) as [-> ?], (E 7%nat ltac:(lia)) as [-> ?], (E 15%nat ltac:(lia)) as [-> ?],
    (E 16%nat ltac:(lia)) as [-> ?].
  rewrite Gamma1_eq, Gamma0_eq by done. done.
Qed.

Lemma schedule_words m : (128 <= length m)%nat -> fill_words (load_words m (replicate 80 0)) = Fips.schedule m.
Proof.
  intros Hm. destruct (load_words_ok m (replicate 80 0) 16) as [Hl Ht]; [lia|done|apply length_replicate|].
  assert (Forall w64 (take 16 (load_words m (replicate 80 0)))) as Hw.
  { unfold load_words. rewrite Ht. apply list.Forall_fmap, list.Forall_forall. intros i Hi%elem_of_seq. unfold compose.
    apply be_word. rewrite length_drop. lia. }
  destruct (fill_words_ok (load_words m (replicate 80 0)) 64 ltac:(lia) Hl Hw) as [Fl Ft].
  unfold fill_words, Fips.schedule, Fips.block_words, load_words in *. rewrite <- Ht, <- Ft. symmetry. apply take_ge. lia.
Qed.

(** ** A block *)

Lemma schedule_ok m t : (128 <= length m)%nat -> w64 (word (Fips.schedule m) t).
Proof.
  intros Hm. apply (words_nth 80). unfold Fips.schedule. split.
  - rewrite extend_length. reflexivity.
  - apply extend_ok. unfold Fips.block_words. apply list.Forall_fmap, list.Forall_forall. intros i Hi%elem_of_seq.
    apply be_word. rewrite length_drop. lia.
Qed.

Lemma view_0 S : words_ok 8 S -> S = Fips.regs_list (view 0 S) /\ view 0 S = Fips.regs_of S.
Proof.
  intros [Hn _]. do 8 (destruct S as [|? S]; [discriminate Hn|]). destruct S; [|discriminate Hn]. done.
Qed.

Lemma rounds_done W H R : words_ok 8 H -> R = fold_left (fun S k => rounds8 W (8 * k) S) (seq 0 10) H ->
  words_ok 8 R /\
  R = Fips.regs_list (fold_left (fun v t => Fips.round v (nth t K 0) (nth t W 0)) (seq 0 (8 * 10)) (Fips.regs_of H)).
Proof.
  intros Hs E. destruct (all_rounds W H 10 Hs) as [Ho Hv]. rewrite <- E in Ho, Hv. split; [exact Ho|].
  destruct (view_0 _ Ho) as [Ev _]. rewrite (proj2 (view_0 _ Hs)) in Hv. rewrite Ev, Hv. reflexivity.
Qed.

Lemma feedback_ok H R : words_ok 8 H -> words_ok 8 R -> words_ok 8 (feedback H R).
Proof.
  intros [Hs _] [Ho _]. split; [unfold feedback; rewrite length_zip_with; lia|].
  clear. revert H. induction R as [|x R IH]; intros [|y l]; try constructor; [apply u64_range|apply IH].
Qed.

Lemma compress_block md m : words_ok 8 (md_state md) -> (128 <= length m)%nat ->
  sha512_compress md m = {| md with md_state := Fips.compress (md_state md) m |} /\
  words_ok 8 (Fips.compress (md_state md) m).
Proof.
  intros Hs Hm. unfold sha512_compress, Fips.compress. cbv zeta. rewrite schedule_words by done. rewrite <- K_eq.
  remember (fold_left (fun S k => rounds8 (Fips.schedule m) (8 * k) S) (seq 0 10) (md_state md)) as R eqn:E.
  destruct (rounds_done _ _ _ Hs E) as [Ho Hv]. change (seq 0 80) with (seq 0 (8 * 10)). rewrite <- Hv.
  split; [done|]. by apply feedback_ok.
Qed.

Lemma hash_blocks_app n k H full m : length full = (128 * n)%nat ->
  Fips.hash_blocks (n + k) H (full ++ m) = Fips.hash_blocks k (Fips.hash_blocks n H full) m.
Proof.
  revert H full. induction n as [|n IH]; intros H full Hl.
  { apply nil_length_inv in Hl as ->. done. }
  cbn [Nat.add Fips.hash_blocks]. rewrite take_app_le, drop_app_le by lia. apply IH. rewrite length_drop. lia.
Qed.

Lemma hash_blocks_one H m : length m = 128%nat -> Fips.hash_blocks 1 H m = Fips.compress H m.
Proof. intros Hm. cbn. by rewrite take_ge by lia. Qed.

(** ** The stream *)

(** The context has absorbed [m]: whole blocks are in the state, the rest in the buffer. *)
Inductive absorbs (md : orlp_sha512_context) (m : bytes) : Prop :=
| Absorbs (blocks : nat) (full tail : bytes) :
  m = full ++ tail -> length full = (128 * blocks)%nat -> (length tail < 128)%nat ->
  md_state md = Fips.hash_blocks blocks Fips.H0 full -> words_ok 8 (md_state md) ->
  md_curlen md = length tail -> take (length tail) (md_buf md) = tail -> length (md_buf md) = 128%nat ->
  md_length md = u64 (1024 * Z.of_nat blocks) -> absorbs md m.

Lemma H0_eq md : md_state (orlp_sha512_init md) = Fips.H0.
Proof. cbn [orlp_sha512_init md_state]. vm_compute. reflexivity. Qed.
Lemma init_words md : words_ok 8 (md_state (orlp_sha512_init md)).
Proof. split; [done|]. cbn [orlp_sha512_init md_state]. unfold w64. repeat (constructor; [lia|]). constructor. Qed.

Lemma absorbs_init md : length (md_buf md) = 128%nat -> absorbs (orlp_sha512_init md) [].
Proof.
  intros H. apply (Absorbs _ _ 0%nat [] []); try apply H0_eq; try done.
  - cbn. lia.
  - apply init_words.
Qed.

Lemma copy_in_length at_ x b : (at_ + length x <= length b)%nat -> length (copy_in at_ x b) = length b.
Proof. intros H. unfold copy_in. rewrite !length_app, length_take, length_drop. lia. Qed.
Lemma copy_in_take at_ x b : (at_ + length x <= length b)%nat -> take (at_ + length x) (copy_in at_ x b) = take at_ b ++ x.
Proof. intros H. unfold copy_in. rewrite app_assoc. apply take_app_length'. rewrite length_app, length_take. lia. Qed.

Lemma u64_add x y : u64 (u64 x + y) = u64 (x + y).
Proof. unfold u64. by rewrite Z.add_mod_idemp_l by lia. Qed.

Lemma absorbs_block md md1 n full b : 
  length full = (128 * n)%nat -> length b = 128%nat -> md_state md = Fips.hash_blocks n Fips.H0 full ->
  words_ok 8 (md_state md) -> md_length md = u64 (1024 * Z.of_nat n) -> length (md_buf md) = 128%nat ->
  md1 = sha512_compress md b ->
  absorbs {| md1 with md_length := u64 (md_length md1 + 1024); md_curlen := 0%nat |} (full ++ b).
Proof.
  intros Hf Hb Hst Hw Hl Hbuf ->. destruct (compress_block md b Hw) as [-> Hw']; [lia|].
  apply (Absorbs _ _ (n + 1)%nat (full ++ b) []); cbn [md_state md_length md_curlen md_buf length]; try done.
  - by rewrite app_nil_r.
  - rewrite length_app. lia.
  - lia.
  - rewrite hash_blocks_app, hash_blocks_one, Hst by done. done.
  - rewrite Hl, u64_add. f_equal. lia.
Qed.

Lemma turn_absorbs md m input : absorbs md m -> input <> [] ->
  exists x rest, input = x ++ rest /\ x <> [] /\ (update_turn md input).2 = rest /\ absorbs (update_turn md input).1 (m ++ x).
Proof.
  intros [n full tail -> Hf Ht Hst Hw Hc Hb Hbl Hl] Hi. unfold update_turn.
  destruct ((md_curlen md =? 0)%nat && (128 <=? length input)%nat) eqn:E.
  - apply andb_true_iff in E as [E1%Nat.eqb_eq E2%Nat.leb_le]. exists (take 128 input), (drop 128 input).
    cbn [fst snd]. split_and!; [by rewrite take_drop|by destruct input|done|].
    assert (tail = []) as -> by (apply nil_length_inv; lia). rewrite app_nil_r.
    pose proof (absorbs_block md _ n full (take 128 input) Hf ltac:(rewrite length_take; lia) Hst Hw Hl Hbl eq_refl) as H.
    destruct (compress_block md (take 128 input) Hw) as [Ec _]; [rewrite length_take; lia|].
    rewrite Ec in *. cbn [md_state md_length md_curlen md_buf] in *. rewrite E1. exact H.
  - cbv zeta. rewrite Hc. set (k := Nat.min (length input) (128 - length tail)).
    assert (0 < k)%nat as Hk by (destruct input; [done|cbn [length] in k; lia]).
    exists (take k input), (drop k input). assert (length (take k input) = k) as Hlk by (rewrite length_take; lia).
    assert (take k input <> []) as Hne by (intros E0; rewrite E0 in Hlk; cbn in Hlk; lia).
    set (b := copy_in (length tail) (take k input) (md_buf md)).
    assert (length b = 128%nat) as Hlb by (unfold b; rewrite copy_in_length; lia).
    assert (take (length tail + k) b = tail ++ take k input) as Htb.
    { rewrite <- Hlk at 1. unfold b. rewrite copy_in_take by lia. by rewrite Hb. }
    cbn [md_curlen]. destruct (Nat.eqb_spec (length tail + k) 128) as [E1|E1]; cbn [fst snd].
    + split_and!; [by rewrite take_drop|done|done|]. rewrite <- app_assoc.
      assert (b = tail ++ take k input) as Eb by (rewrite <- Htb, E1, take_ge by lia; done). rewrite <- Eb.
      exact (absorbs_block {| md with md_buf := b; md_curlen := (length tail + k)%nat |} _ n full b Hf Hlb Hst Hw Hl Hlb eq_refl).
    + split_and!; [by rewrite take_drop|done|done|].
      apply (Absorbs _ _ n full (tail ++ take k input)); cbn [md_state md_length md_curlen md_buf]; try done.
      * by rewrite app_assoc.
      * rewrite length_app. lia.
      * rewrite length_app. lia.
      * rewrite length_app, Hlk. exact Htb.
Qed.

Lemma loop_absorbs fuel md m input : absorbs md m -> (length input <= fuel)%nat ->
  exists md', update_loop fuel md input = Some md' /\ absorbs md' (m ++ input).
Proof.
  revert md m input. induction fuel as [|fuel IH]; intros md m input H Hf.
  { destruct input; [|cbn in Hf; lia]. exists md. by rewrite app_nil_r. }
  destruct input as [|b input]; [exists md; by rewrite app_nil_r|].
  destruct (turn_absorbs md m (b :: input) H ltac:(done)) as (x & rest & E & Hx & E2 & H2). cbn [update_loop].
  destruct (update_turn md (b :: input)) as [md' rest']. cbn [fst snd] in *. subst rest'. rewrite E, app_assoc. apply IH; [done|].
  rewrite E, length_app in Hf. destruct x; [done|]. cbn in Hf. lia.
Qed.

Lemma update_absorbs md m input : absorbs md m ->
  exists md', orlp_sha512_update md (Some input) = Some (0, md') /\ absorbs md' (m ++ input).
Proof.
  intros H. destruct (loop_absorbs (S (length input)) md m input H ltac:(lia)) as (md' & E & H').
  exists md'. split; [|done]. unfold orlp_sha512_update. rewrite E. destruct H.
  destruct (Nat.ltb_spec 128 (md_curlen md)); [lia|]. done.
Qed.

(** ** The end *)

Lemma be_octets_length n v : length (Fips.be_octets n v) = n.
Proof. unfold Fips.be_octets. by rewrite length_fmap, length_seq. Qed.

Lemma byte_of_land x : byte_of_Z (Z.land x 255) = byte_of_Z x.
Proof. change 255 with (Z.ones 8). rewrite Z.land_ones by lia. apply byte_of_Z_mod. Qed.

Lemma STORE64H_octets x : STORE64H x = Fips.be_octets 8 x.
Proof.
  unfold STORE64H, Fips.be_octets. cbn [fmap list_fmap seq]. rewrite !byte_of_land, !Z.shiftr_div_pow2 by lia.
  change (2 ^ (8 * Z.of_nat (8 - 1 - 7))) with 1. by rewrite Z.div_1_r.
Qed.

Lemma be_octets_16 v : 0 <= v < 2 ^ 64 -> Fips.be_octets 16 v = replicate 8 x00 ++ STORE64H v.
Proof.
  intros Hv. rewrite STORE64H_octets. unfold Fips.be_octets.
  change (seq 0 16) with (seq 0 8 ++ ((fun i => 8 + i)%nat <$> seq 0 8)). rewrite fmap_app, <- list_fmap_compose. f_equal.
  cbn [fmap list_fmap seq replicate]. 
  repeat (apply f_equal2; [rewrite Z.div_small by (split; [lia|eapply Z.lt_le_trans; [apply Hv|apply Z.pow_le_mono_r; lia]]); done|]).
  done.
Qed.

Lemma zeros_to_buf n md : (n <= length (md_buf md))%nat -> (md_curlen md <= n)%nat ->
  md_curlen (zeros_to n md) = n /\ length (md_buf (zeros_to n md)) = length (md_buf md) /\
  take n (md_buf (zeros_to n md)) = take (md_curlen md) (md_buf md) ++ replicate (n - md_curlen md) x00.
Proof.
  intros Hn Hc. unfold zeros_to. cbn [md_curlen md_buf]. split_and!; [lia| |].
  - rewrite copy_in_length; [done|]. rewrite length_replicate. lia.
  - pose proof (copy_in_take (md_curlen md) (replicate (n - md_curlen md) x00) (md_buf md)) as H.
    rewrite length_replicate in H. replace (md_curlen md + (n - md_curlen md))%nat with n in H by lia. apply H. lia.
Qed.

(** The last block: zeros from the current position, and the length. *)
Lemma last_block md : length (md_buf md) = 128%nat -> (md_curlen md <= 120)%nat ->
  md_buf (store_length md) =
    take (md_curlen md) (md_buf md) ++ replicate (120 - md_curlen md) x00 ++ STORE64H (md_length md).
Proof.
  intros Hb Hc. unfold store_length. cbv zeta. cbn [md_buf].
  destruct (zeros_to_buf 120 md) as (_ & Hl & Ht); [lia|done|].
  change (md_length (zeros_to 120 md)) with (md_length md).
  assert (length (STORE64H (md_length md)) = 8%nat) as L8 by done.
  rewrite <- (take_ge (copy_in _ _ _) (120 + length (STORE64H (md_length md)))) by (rewrite copy_in_length; lia).
  rewrite copy_in_take by lia. by rewrite Ht, <- app_assoc.
Qed.

(** The padding in terms of the part that is not in a whole block. *)
Definition padded_tail (k : nat) (tail : bytes) (l : Z) : bytes := tail ++ [x80] ++ replicate k x00 ++ Fips.be_octets 16 l.

Lemma pad_tail n full tail l : length full = (128 * n)%nat -> (length tail < 128)%nat ->
  let k := (if (length tail <? 112) then 111 - length tail else 239 - length tail)%nat in
  Fips.pad l (full ++ tail) = full ++ padded_tail k tail l.
Proof.
  intros Hf Ht k. unfold Fips.pad, padded_tail. cbv zeta. rewrite <- app_assoc. do 4 f_equal.
  rewrite blen_app. unfold blen. rewrite Hf.
  replace (111 - (Z.of_nat (128 * n) + Z.of_nat (length tail))) with (111 - Z.of_nat (length tail) + (- Z.of_nat n) * 128) by lia.
  rewrite Z_mod_plus_full. subst k. destruct (Nat.ltb_spec (length tail) 112).
  - rewrite Z.mod_small by lia. f_equal. lia.
  - replace (111 - Z.of_nat (length tail)) with (239 - Z.of_nat (length tail) + (-1) * 128) by lia.
    rewrite Z_mod_plus_full, Z.mod_small by lia. f_equal. lia.
Qed.

Lemma sha512_blocks n j l m full t : length full = (128 * n)%nat -> length t = (128 * j)%nat -> Fips.pad l m = full ++ t ->
  Fips.hash l m = concat (Fips.be_octets 8 <$> Fips.hash_blocks j (Fips.hash_blocks n Fips.H0 full) t).
Proof.
  intros Hf Ht E. unfold Fips.hash. cbv zeta. rewrite E, length_app, Hf, Ht.
  replace (128 * n + 128 * j)%nat with ((n + j) * 128)%nat by lia. rewrite Nat.div_mul by lia.
  by rewrite hash_blocks_app.
Qed.

Lemma store_words (l : list Z) : concat (STORE64H <$> l) = concat (Fips.be_octets 8 <$> l).
Proof. f_equal. apply list_fmap_ext. intros i x _. apply STORE64H_octets. Qed.

Lemma replicate_split {A} (x : A) k j n : (k = j + n)%nat -> replicate k x = replicate j x ++ replicate n x.
Proof. intros ->. apply replicate_add. Qed.

Lemma take_marked (buf tail : bytes) : take (length tail) buf = tail -> (length tail < length buf)%nat ->
  take (S (length tail)) (<[length tail := x80]> buf) = tail ++ [x80].
Proof. intros H Hl. rewrite take_S_insert by done. by rewrite H. Qed.

Lemma final_short md n full tail : length full = (128 * n)%nat -> (length tail < 112)%nat ->
  md_state md = Fips.hash_blocks n Fips.H0 full -> words_ok 8 (md_state md) ->
  md_curlen md = S (length tail) -> take (S (length tail)) (md_buf md) = tail ++ [x80] -> length (md_buf md) = 128%nat ->
  w64 (md_length md) ->
  length (md_buf (store_length md)) = 128%nat /\
  concat (STORE64H <$> Fips.compress (md_state md) (md_buf (store_length md))) = Fips.hash (md_length md) (full ++ tail).
Proof.
  intros Hf Ht Hst Hw Hc Hb Hbl Hl. rewrite last_block by lia. rewrite Hc, Hb.
  assert ((tail ++ [x80]) ++ replicate (120 - S (length tail)) x00 ++ STORE64H (md_length md) =
    padded_tail (111 - length tail) tail (md_length md)) as ->.
  { unfold padded_tail. rewrite be_octets_16 by exact Hl.
    rewrite (replicate_split _ (120 - S (length tail)) (111 - length tail) 8) by lia. by rewrite <- !app_assoc. }
  assert (length (padded_tail (111 - length tail) tail (md_length md)) = 128%nat) as Lp.
  { unfold padded_tail. rewrite !length_app, length_replicate, be_octets_length. cbn [length]. lia. }
  split; [exact Lp|]. pose proof (pad_tail n full tail (md_length md) Hf ltac:(lia)) as Hp. cbv zeta in Hp.
  destruct (Nat.ltb_spec (length tail) 112); [|lia].
  rewrite (sha512_blocks n 1 _ _ _ _ Hf Lp Hp), hash_blocks_one by exact Lp. by rewrite store_words, Hst.
Qed.

Lemma final_long md n full tail b1 : length full = (128 * n)%nat -> (112 <= length tail < 128)%nat ->
  b1 = tail ++ [x80] ++ replicate (127 - length tail) x00 ->
  md_state md = Fips.compress (Fips.hash_blocks n Fips.H0 full) b1 ->
  md_curlen md = 0%nat -> length (md_buf md) = 128%nat ->
  w64 (md_length md) ->
  length (md_buf (store_length md)) = 128%nat /\
  concat (STORE64H <$> Fips.compress (md_state md) (md_buf (store_length md))) = Fips.hash (md_length md) (full ++ tail).
Proof.
  intros Hf Ht Eb Hst Hc Hbl Hl. rewrite last_block by lia. rewrite Hc. cbn [take app Nat.sub].
  set (b2 := replicate 120 x00 ++ _).
  assert (padded_tail (239 - length tail) tail (md_length md) = b1 ++ b2) as Ep.
  { unfold padded_tail, b2. rewrite be_octets_16 by exact Hl.
    rewrite (replicate_split _ (239 - length tail) (127 - length tail) 112), (replicate_split _ 120 112 8) by lia.
    by rewrite Eb, <- !app_assoc. }
  assert (length b1 = 128%nat) as L1 by (rewrite Eb, !length_app, length_replicate; cbn [length]; lia).
  assert (length b2 = 128%nat) as L2 by (unfold b2; rewrite length_app, length_replicate; done).
  split; [exact L2|]. pose proof (pad_tail n full tail (md_length md) Hf ltac:(lia)) as Hp. cbv zeta in Hp.
  destruct (Nat.ltb_spec (length tail) 112); [lia|]. rewrite Ep in Hp.
  rewrite (sha512_blocks n 2 _ _ _ (b1 ++ b2) Hf ltac:(rewrite length_app; lia) Hp), Hst, store_words.
  rewrite (hash_blocks_app 1 1) by exact L1.
  rewrite (hash_blocks_one _ b1) by exact L1. rewrite hash_blocks_one by exact L2. reflexivity.
Qed.

Lemma append_one_ok md n full tail : length full = (128 * n)%nat -> (length tail < 128)%nat ->
  md_curlen md = length tail -> take (length tail) (md_buf md) = tail -> length (md_buf md) = 128%nat ->
  md_length md = u64 (1024 * Z.of_nat n) ->
  md_state (append_one md) = md_state md /\ md_curlen (append_one md) = S (length tail) /\
  take (S (length tail)) (md_buf (append_one md)) = tail ++ [x80] /\ length (md_buf (append_one md)) = 128%nat /\
  md_length (append_one md) = u64 (8 * blen (full ++ tail)).
Proof.
  intros Hf Ht Hc Hb Hbl Hl. unfold append_one. cbv zeta. cbn [md_state md_curlen md_buf md_length]. split_and!.
  - done.
  - lia.
  - rewrite Hc. apply take_marked; [done|lia].
  - by rewrite length_insert.
  - rewrite Hl, u64_add, Hc. f_equal. rewrite blen_app. unfold blen. lia.
Qed.

Lemma final_absorbs md m out : absorbs md m ->
  exists md', orlp_sha512_final md out = (0, md', sha512_u64 m) /\ length (md_buf md') = 128%nat.
Proof.
  intros [n full tail -> Hf Ht Hst Hw Hc Hb Hbl Hl]. unfold orlp_sha512_final.
  destruct (Nat.leb_spec 128 (md_curlen md)); [lia|]. cbv zeta.
  destruct (append_one_ok md n full tail) as (S1 & C1 & B1 & BL1 & L1); [done..|]. unfold sha512_u64. rewrite <- L1.
  rewrite <- S1 in Hst, Hw. assert (w64 (md_length (append_one md))) as Hw1 by (rewrite L1; apply w64_u64). clear L1.
  set (md1 := append_one md) in *. clearbody md1. clear md Hc Hb Hbl Hl H S1.
  assert (exists md2, make_room md1 = md2 /\ words_ok 8 (md_state md2) /\ length (md_buf (store_length md2)) = 128%nat /\
    concat (STORE64H <$> Fips.compress (md_state md2) (md_buf (store_length md2))) = Fips.hash (md_length md1) (full ++ tail))
    as (md2 & -> & Hw2 & Lb & <-).
  { unfold make_room. rewrite C1. destruct (Nat.ltb_spec 112 (S (length tail))) as [Hlong|Hshort].
    - destruct (zeros_to_buf 128 md1) as (Cz & BLz & Bz); [lia..|]. rewrite C1, B1, take_ge in Bz by lia.
      rewrite <- app_assoc in Bz. change (128 - S (length tail))%nat with (127 - length tail)%nat in Bz.
      destruct (compress_block (zeros_to 128 md1) (md_buf (zeros_to 128 md1)) Hw) as [Ec Hw2]; [lia|].
      eexists. split; [reflexivity|]. cbv zeta. rewrite Ec. split; [exact Hw2|].
      match goal with |- context [store_length ?x] => change (md_length md1) with (md_length x) end.
      apply (final_long _ n full tail (md_buf (zeros_to 128 md1))); [done|lia|exact Bz| |done|cbn [md_buf]; lia|exact Hw1].
      cbn [md_state]. change (md_state (zeros_to 128 md1)) with (md_state md1). by rewrite Hst.
    - exists md1. split; [done|]. split; [exact Hw|]. apply (final_short _ n full tail); done || lia. }
  destruct (compress_block (store_length md2) (md_buf (store_length md2)) Hw2) as [-> _]; [lia|].
  eexists. split; [reflexivity|exact Lb].
Qed.

(** A sequence of updates. *)
Fixpoint updates (md : orlp_sha512_context) (chunks : list bytes) : option orlp_sha512_context :=
  match chunks with
  | [] => Some md
  | c :: chunks =>
      match orlp_sha512_update md (Some c) with
      | Some (0, md) => updates md chunks
      | _ => None
      end
  end.

Lemma updates_absorb md m chunks : absorbs md m ->
  exists md', updates md chunks = Some md' /\ absorbs md' (m ++ concat chunks).
Proof.
  revert md m. induction chunks as [|c chunks IH]; intros md m H; [exists md; by rewrite app_nil_r|].
  destruct (update_absorbs md m c H) as (md1 & E & H1). cbn [updates concat]. rewrite E, app_assoc. by apply IH.
Qed.

(** C32: whatever the context held before and however the message is cut into updates, [orlp_sha512_init], [orlp_sha512_update] and [orlp_sha512_final] all succeed and write the SHA-512 of FIPS 180-4 of the whole message. *)
Theorem sha512_streaming md chunks out : length (md_buf md) = 128%nat -> 8 * blen (concat chunks) < 2 ^ 64 ->
  exists md1 md2, updates (orlp_sha512_init md) chunks = Some md1 /\
    orlp_sha512_final md1 out = (0, md2, Fips.sha512 (concat chunks)).
Proof.
  intros Hb Hm. destruct (updates_absorb (orlp_sha512_init md) [] chunks) as (md1 & E & H); [by apply absorbs_init|].
  destruct (final_absorbs md1 _ out H) as (md2 & E2 & _). exists md1, md2. split; [done|].
  rewrite E2. cbn [app]. by rewrite sha512_u64_fips.
Qed.
Lemma sha512_streaming_witness : exists md1 md2,
  updates (orlp_sha512_init fresh_context) [str "a"; str "bc"] = Some md1 /\
    orlp_sha512_final md1 [] = (0, md2, Fips.sha512 (concat [str "a"; str "bc"])).
Proof. by apply (sha512_streaming fresh_context [str "a"; str "bc"] []). Defined.
