(* ===== verification/Ge25519.v ===== *)
(** * Ge25519: the group of Ed25519, the point operations of [ge.c] of orlp_ed25519

    A point has several representations, one for each use.  The functions are the
    straight-line programs of the source over the operations of [Fe25519]. *)
From S2P Require Import Prelude CInt Fe25519.

(** [orlp_ge_p2] (x = X/Z, y = Y/Z), [orlp_ge_p3] (with XY = ZT), [orlp_ge_p1p1] (x = X/Z, y = Y/T),
    [orlp_ge_precomp] (y+x, y-x, 2dxy) and [orlp_ge_cached]. *)
Record orlp_ge_p2 (T : Type) := Ge_p2 { p2_X : fe T; p2_Y : fe T; p2_Z : fe T }.
Record orlp_ge_p3 (T : Type) := Ge_p3 { p3_X : fe T; p3_Y : fe T; p3_Z : fe T; p3_T : fe T }.
Record orlp_ge_p1p1 (T : Type) := Ge_p1p1 { p1_X : fe T; p1_Y : fe T; p1_Z : fe T; p1_T : fe T }.
Record orlp_ge_precomp (T : Type) := Ge_precomp { yplusx : fe T; yminusx : fe T; xy2d : fe T }.
Record orlp_ge_cached (T : Type) := Ge_cached { YplusX : fe T; YminusX : fe T; ca_Z : fe T; T2d : fe T }.
Arguments Ge_p2 {T}. Arguments p2_X {T}. Arguments p2_Y {T}. Arguments p2_Z {T}.
Arguments Ge_p3 {T}. Arguments p3_X {T}. Arguments p3_Y {T}. Arguments p3_Z {T}. Arguments p3_T {T}.
Arguments Ge_p1p1 {T}. Arguments p1_X {T}. Arguments p1_Y {T}. Arguments p1_Z {T}. Arguments p1_T {T}.
Arguments Ge_precomp {T}. Arguments yplusx {T}. Arguments yminusx {T}. Arguments xy2d {T}.
Arguments Ge_cached {T}. Arguments YplusX {T}. Arguments YminusX {T}. Arguments ca_Z {T}. Arguments T2d {T}.

Definition precomp_map {T U} (g : T -> U) (q : orlp_ge_precomp T) : orlp_ge_precomp U :=
  Ge_precomp (fe_map g (yplusx q)) (fe_map g (yminusx q)) (fe_map g (xy2d q)).

(** Constants. *)
Definition fe_lit {A : Arith} (f : fe Z) : fe num := fe_map lit f.
Definition d : fe Z :=
  Fe (-10913610) 13857413 (-15372611) 6949391 114729 (-8787816) (-6275908) (-3247719) (-18696448) (-12055116).
Definition sqrtm1 : fe Z :=
  Fe (-32595792) (-7943725) 9377950 3500415 12389472 (-272473) (-25146209) (-2005654) 326686 11406482.
Definition d2 : fe Z :=
  Fe (-21827239) (-5839606) (-30745221) 13898782 229458 15978800 (-12551817) (-6495438) 29715968 9444199.

Section programs.
Context {A : Arith}.
Implicit Types (p : orlp_ge_p3 num).

(** ** Sums and differences *)

Definition orlp_ge_add p (q : orlp_ge_cached num) : orlp_ge_p1p1 num :=
  let rX := orlp_fe_add (p3_Y p) (p3_X p) in
  let rY := orlp_fe_sub (p3_Y p) (p3_X p) in
  let rZ := orlp_fe_mul rX (YplusX q) in
  let rY := orlp_fe_mul rY (YminusX q) in
  let rT := orlp_fe_mul (T2d q) (p3_T p) in
  let rX := orlp_fe_mul (p3_Z p) (ca_Z q) in
  let t0 := orlp_fe_add rX rX in
  let rX := orlp_fe_sub rZ rY in
  let rY := orlp_fe_add rZ rY in
  let rZ := orlp_fe_add t0 rT in
  let rT := orlp_fe_sub t0 rT in
  Ge_p1p1 rX rY rZ rT.

Definition orlp_ge_sub p (q : orlp_ge_cached num) : orlp_ge_p1p1 num :=
  let rX := orlp_fe_add (p3_Y p) (p3_X p) in
  let rY := orlp_fe_sub (p3_Y p) (p3_X p) in
  let rZ := orlp_fe_mul rX (YminusX q) in
  let rY := orlp_fe_mul rY (YplusX q) in
  let rT := orlp_fe_mul (T2d q) (p3_T p) in
  let rX := orlp_fe_mul (p3_Z p) (ca_Z q) in
  let t0 := orlp_fe_add rX rX in
  let rX := orlp_fe_sub rZ rY in
  let rY := orlp_fe_add rZ rY in
  let rZ := orlp_fe_sub t0 rT in
  let rT := orlp_fe_add t0 rT in
  Ge_p1p1 rX rY rZ rT.

Definition orlp_ge_madd p (q : orlp_ge_precomp num) : orlp_ge_p1p1 num :=
  let rX := orlp_fe_add (p3_Y p) (p3_X p) in
  let rY := orlp_fe_sub (p3_Y p) (p3_X p) in
  let rZ := orlp_fe_mul rX (yplusx q) in
  let rY := orlp_fe_mul rY (yminusx q) in
  let rT := orlp_fe_mul (xy2d q) (p3_T p) in
  let t0 := orlp_fe_add (p3_Z p) (p3_Z p) in
  let rX := orlp_fe_sub rZ rY in
  let rY := orlp_fe_add rZ rY in
  let rZ := orlp_fe_add t0 rT in
  let rT := orlp_fe_sub t0 rT in
  Ge_p1p1 rX rY rZ rT.

Definition orlp_ge_msub p (q : orlp_ge_precomp num) : orlp_ge_p1p1 num :=
  let rX := orlp_fe_add (p3_Y p) (p3_X p) in
  let rY := orlp_fe_sub (p3_Y p) (p3_X p) in
  let rZ := orlp_fe_mul rX (yminusx q) in
  let rY := orlp_fe_mul rY (yplusx q) in
  let rT := orlp_fe_mul (xy2d q) (p3_T p) in
  let t0 := orlp_fe_add (p3_Z p) (p3_Z p) in
  let rX := orlp_fe_sub rZ rY in
  let rY := orlp_fe_add rZ rY in
  let rZ := orlp_fe_sub t0 rT in
  let rT := orlp_fe_add t0 rT in
  Ge_p1p1 rX rY rZ rT.

(** ** Conversions *)

Definition orlp_ge_p1p1_to_p2 (p : orlp_ge_p1p1 num) : orlp_ge_p2 num :=
  let rX := orlp_fe_mul (p1_X p) (p1_T p) in
  let rY := orlp_fe_mul (p1_Y p) (p1_Z p) in
  let rZ := orlp_fe_mul (p1_Z p) (p1_T p) in
  Ge_p2 rX rY rZ.

Definition orlp_ge_p1p1_to_p3 (p : orlp_ge_p1p1 num) : orlp_ge_p3 num :=
  let rX := orlp_fe_mul (p1_X p) (p1_T p) in
  let rY := orlp_fe_mul (p1_Y p) (p1_Z p) in
  let rZ := orlp_fe_mul (p1_Z p) (p1_T p) in
  let rT := orlp_fe_mul (p1_X p) (p1_Y p) in
  Ge_p3 rX rY rZ rT.

Definition orlp_ge_p2_0 : orlp_ge_p2 num := Ge_p2 orlp_fe_0 orlp_fe_1 orlp_fe_1.
Definition orlp_ge_p3_0 : orlp_ge_p3 num := Ge_p3 orlp_fe_0 orlp_fe_1 orlp_fe_1 orlp_fe_0.

Definition orlp_ge_p3_to_cached p : orlp_ge_cached num :=
  Ge_cached (orlp_fe_add (p3_Y p) (p3_X p)) (orlp_fe_sub (p3_Y p) (p3_X p)) (orlp_fe_copy (p3_Z p))
    (orlp_fe_mul (p3_T p) (fe_lit d2)).

Definition orlp_ge_p3_to_p2 p : orlp_ge_p2 num :=
  Ge_p2 (orlp_fe_copy (p3_X p)) (orlp_fe_copy (p3_Y p)) (orlp_fe_copy (p3_Z p)).

(** ** Doubling *)

Definition orlp_ge_p2_dbl (p : orlp_ge_p2 num) : orlp_ge_p1p1 num :=
  let rX := orlp_fe_sq (p2_X p) in
  let rZ := orlp_fe_sq (p2_Y p) in
  let rT := orlp_fe_sq2 (p2_Z p) in
  let rY := orlp_fe_add (p2_X p) (p2_Y p) in
  let t0 := orlp_fe_sq rY in
  let rY := orlp_fe_add rZ rX in
  let rZ := orlp_fe_sub rZ rX in
  let rX := orlp_fe_sub t0 rY in
  let rT := orlp_fe_sub rT rZ in
  Ge_p1p1 rX rY rZ rT.

Definition orlp_ge_p3_dbl p : orlp_ge_p1p1 num := orlp_ge_p2_dbl (orlp_ge_p3_to_p2 p).
End programs.

(** ** Octets

    Here the arithmetic is that of C, and [None] is undefined behaviour. *)

#[local] Existing Instance checked.

(** [s[i] ^= v] *)
Definition xor_at (s : bytes) (i : nat) (v : Z) : bytes := alter (fun b => byte_of_Z (Z.lxor (byte_to_Z b) v)) i s.

Definition point_bytes (X Y Z_ : fe (@num checked)) : option bytes :=
  let recip := orlp_fe_invert Z_ in
  let x := orlp_fe_mul X recip in
  let y := orlp_fe_mul Y recip in
  let? s := orlp_fe_tobytes y in
  let? n := orlp_fe_isnegative x in
  Some (xor_at s 31 (Z.shiftl n 7)).

Definition orlp_ge_p3_tobytes (h : orlp_ge_p3 (@num checked)) : option bytes := point_bytes (p3_X h) (p3_Y h) (p3_Z h).
Definition orlp_ge_tobytes (h : orlp_ge_p2 (@num checked)) : option bytes := point_bytes (p2_X h) (p2_Y h) (p2_Z h).

(** The inner [None] is the status -1. *)
Definition orlp_ge_frombytes_negate_vartime (s : bytes) : option (option (orlp_ge_p3 (@num checked))) :=
  let hY := orlp_fe_frombytes s in
  let hZ := orlp_fe_1 in
  let u := orlp_fe_sq hY in
  let v := orlp_fe_mul u (fe_lit d) in
  let u := orlp_fe_sub u hZ in
  let v := orlp_fe_add v hZ in
  let v3 := orlp_fe_sq v in
  let v3 := orlp_fe_mul v3 v in
  let hX := orlp_fe_sq v3 in
  let hX := orlp_fe_mul hX v in
  let hX := orlp_fe_mul hX u in
  let hX := orlp_fe_pow22523 hX in
  let hX := orlp_fe_mul hX v3 in
  let hX := orlp_fe_mul hX u in
  let vxx := orlp_fe_sq hX in
  let vxx := orlp_fe_mul vxx v in
  let check := orlp_fe_sub vxx u in
  let? nonzero := orlp_fe_isnonzero check in
  let? root :=
    if nonzero then
      let check := orlp_fe_add vxx u in
      let? nonzero := orlp_fe_isnonzero check in
      if nonzero then Some None else Some (Some (orlp_fe_mul hX (fe_lit sqrtm1)))
    else Some (Some hX) in
  match root with
  | None => Some None
  | Some hX =>
      let? n := orlp_fe_isnegative hX in
      let hX := if n =? Z.shiftr (byte_to_Z (default x00 (s !! 31%nat))) 7 then orlp_fe_neg hX else hX in
      Some (Some (Ge_p3 hX hY hZ (orlp_fe_mul hX hY)))
  end.
