(* ===== verification/GeFacts.v ===== *)
(** * GeFacts: the point operations are those of the group

    A representation stands for a point when its limbs are within the bounds the field
    operations need, no operation on the way is undefined, and its coordinates are those of
    the point. *)
From Stdlib Require Import Zmod Field.
From S2P Require Import Prelude CInt Fe25519 FeFacts FeBytes Primes Edwards EdGroup Ge25519.
Local Open Scope F_scope.
Add Field F_field_inst : F_field.
Opaque Zmod.add Zmod.sub Zmod.mul Zmod.opp Zmod.mdiv Zmod.inv Zmod.of_Z.

#[local] Existing Instance checked.

(** ** Field elements *)

(** The limbs are defined, satisfy [B], and make the field element [x]. *)
Definition is_fe (B : fe Z -> Prop) (e : fe num) (x : F) : Prop :=
  exists z, e = c_fe z /\ B z /\ toF (fval z) = x.

Abbreviation tight := (le25 101).
Abbreviation mid := (le25 110).
Abbreviation wide := (le26 110).
Abbreviation loose := (le26 165).

Lemma bounded_weaken e o e' o' f : bounded e o f -> (e <= e')%Z -> (o <= o')%Z -> bounded e' o' f.
Proof.
  unfold bounded. intros (H0 & H1 & H2 & H3 & H4 & H5 & H6 & H7 & H8 & H9) He Ho.
  repeat split; (etrans; [eassumption|assumption]).
Qed.

Lemma is_weaken (B C : fe Z -> Prop) e x : (forall z, B z -> C z) -> is_fe B e x -> is_fe C e x.
Proof. intros HBC (z & E & Hz & V). exists z. auto. Qed.
Lemma tight_mid e x : is_fe tight e x -> is_fe mid e x.
Proof. apply is_weaken. intros z H. apply (bounded_weaken _ _ _ _ _ H); by vm_compute. Qed.
Lemma mid_wide e x : is_fe mid e x -> is_fe wide e x.
Proof. apply is_weaken. intros z H. apply (bounded_weaken _ _ _ _ _ H); by vm_compute. Qed.
Lemma wide_loose e x : is_fe wide e x -> is_fe loose e x.
Proof. apply is_weaken. intros z H. apply (bounded_weaken _ _ _ _ _ H); by vm_compute. Qed.

Lemma is_eq B e x y : is_fe B e x -> x = y -> is_fe B e y.
Proof. by intros H ->. Qed.

Section ops.
Context (e f : fe num) (x y : F).

Lemma is_mul : is_fe loose e x -> is_fe loose f y -> is_fe tight (orlp_fe_mul e f) (x * y).
Proof.
  intros (a & -> & Ha & <-) (b & -> & Hb & <-). destruct (mul_ok a b Ha Hb) as (h & -> & Hh & V).
  exists h. split; [done|]. split; [done|]. rewrite <- toF_mul. by apply toF_eq.
Qed.
Lemma is_sq : is_fe loose e x -> is_fe tight (orlp_fe_sq e) (x * x).
Proof.
  intros (a & -> & Ha & <-). destruct (sq_ok a Ha) as (h & -> & Hh & V).
  exists h. split; [done|]. split; [done|]. rewrite <- toF_mul. by apply toF_eq.
Qed.
Lemma is_sq2 : is_fe loose e x -> is_fe tight (orlp_fe_sq2 e) (x * x + x * x).
Proof.
  intros (a & -> & Ha & <-). destruct (sq2_ok a Ha) as (h & -> & Hh & V).
  exists h. split; [done|]. split; [done|]. rewrite <- toF_mul, <- toF_add. apply toF_eq. rewrite V. f_equal. lia.
Qed.
Lemma is_add : is_fe mid e x -> is_fe mid f y -> is_fe wide (orlp_fe_add e f) (x + y).
Proof.
  intros (a & -> & Ha & <-) (b & -> & Hb & <-). destruct (add_ok a b Ha Hb) as (h & -> & Hh & V).
  exists h. split; [done|]. split; [done|]. by rewrite V, toF_add.
Qed.
Lemma is_sub : is_fe mid e x -> is_fe mid f y -> is_fe wide (orlp_fe_sub e f) (x - y).
Proof.
  intros (a & -> & Ha & <-) (b & -> & Hb & <-). destruct (sub_ok a b Ha Hb) as (h & -> & Hh & V).
  exists h. split; [done|]. split; [done|]. by rewrite V, toF_sub.
Qed.
Lemma is_neg : is_fe mid e x -> is_fe mid (orlp_fe_neg e) (- x).
Proof.
  intros (a & -> & Ha & <-). destruct (neg_ok a Ha) as (h & -> & Hh & V).
  exists h. split; [done|]. split; [done|]. by rewrite V, toF_opp.
Qed.
Lemma is_copy B : is_fe B e x -> is_fe B (orlp_fe_copy e) x.
Proof. by destruct e. Qed.

(** With one wide argument. *)
Lemma is_add_wide : is_fe wide e x -> is_fe mid f y -> is_fe loose (orlp_fe_add e f) (x + y).
Proof.
  intros (a & -> & Ha & <-) (b & -> & Hb & <-).
  destruct (run_program _ _ _ (165 * 2 ^ 26 / 100) (165 * 2 ^ 25 / 100)
    (rel_add _ _ _ _ _ _ (rel_box _ _ _ Ha) (rel_box _ _ _ Hb))) as [E C]; [by vm_compute|].
  eexists. split; [exact E|]. split; [exact C|]. by rewrite add_val, toF_add.
Qed.
Lemma is_sub_wide : is_fe wide e x -> is_fe mid f y -> is_fe loose (orlp_fe_sub e f) (x - y).
Proof.
  intros (a & -> & Ha & <-) (b & -> & Hb & <-).
  destruct (run_program _ _ _ (165 * 2 ^ 26 / 100) (165 * 2 ^ 25 / 100)
    (rel_sub _ _ _ _ _ _ (rel_box _ _ _ Ha) (rel_box _ _ _ Hb))) as [E C]; [by vm_compute|].
  eexists. split; [exact E|]. split; [exact C|]. by rewrite sub_val, toF_sub.
Qed.
Lemma is_wide_sub : is_fe mid e x -> is_fe wide f y -> is_fe loose (orlp_fe_sub e f) (x - y).
Proof.
  intros (a & -> & Ha & <-) (b & -> & Hb & <-).
  destruct (run_program _ _ _ (165 * 2 ^ 26 / 100) (165 * 2 ^ 25 / 100)
    (rel_sub _ _ _ _ _ _ (rel_box _ _ _ Ha) (rel_box _ _ _ Hb))) as [E C]; [by vm_compute|].
  eexists. split; [exact E|]. split; [exact C|]. by rewrite sub_val, toF_sub.
Qed.
End ops.

Lemma is_0 : is_fe tight orlp_fe_0 0.
Proof. exists (Fe 0 0 0 0 0 0 0 0 0 0)%Z. split; [done|]. split; [unfold le25, bounded; split_and!; by vm_compute|]. apply toF_0. Qed.
Lemma is_1 : is_fe tight orlp_fe_1 1.
Proof. exists (Fe 1 0 0 0 0 0 0 0 0 0)%Z. split; [done|]. split; [unfold le25, bounded; split_and!; by vm_compute|]. apply toF_1. Qed.

(** The bound of a term follows from its head. *)
Ltac weaken_to B :=
  lazymatch B with
  | tight => idtac
  | mid => apply tight_mid
  | wide => apply mid_wide, tight_mid
  | loose => apply wide_loose, mid_wide, tight_mid
  end.
Ltac fe_leaf :=
  match goal with
  | H : is_fe ?C ?e _ |- is_fe ?B ?f _ => constr_eq C B; constr_eq e f; exact H
  | |- is_fe loose _ _ => apply wide_loose; fe_leaf
  | |- is_fe wide _ _ => apply mid_wide; fe_leaf
  | |- is_fe mid _ _ => apply tight_mid; fe_leaf
  end.
Ltac is_sum e := lazymatch e with orlp_fe_add _ _ => idtac | orlp_fe_sub _ _ => idtac end.
Ltac fe_bounds :=
  lazymatch goal with
  | |- is_fe ?B (orlp_fe_mul _ _) _ => weaken_to B; apply is_mul; fe_bounds
  | |- is_fe ?B (orlp_fe_sq _) _ => weaken_to B; apply is_sq; fe_bounds
  | |- is_fe ?B (orlp_fe_sq2 _) _ => weaken_to B; apply is_sq2; fe_bounds
  | |- is_fe ?B orlp_fe_0 _ => weaken_to B; apply is_0
  | |- is_fe ?B orlp_fe_1 _ => weaken_to B; apply is_1
  | |- is_fe ?B (orlp_fe_copy _) _ => apply is_copy; fe_bounds
  | |- is_fe wide (orlp_fe_add _ _) _ => apply is_add; fe_bounds
  | |- is_fe wide (orlp_fe_sub _ _) _ => apply is_sub; fe_bounds
  | |- is_fe loose (orlp_fe_add ?a ?b) _ =>
      first [is_sum a; apply is_add_wide; fe_bounds | apply wide_loose, is_add; fe_bounds]
  | |- is_fe loose (orlp_fe_sub ?a ?b) _ =>
      first [is_sum a; apply is_sub_wide; fe_bounds | is_sum b; apply is_wide_sub; fe_bounds | apply wide_loose, is_sub; fe_bounds]
  | |- is_fe mid (orlp_fe_neg _) _ => apply is_neg; fe_bounds
  | |- _ => fe_leaf
  end.

(** ** Points *)

Definition p2_is (h : orlp_ge_p2 num) (P : pt) : Prop :=
  exists z, z <> 0 /\ is_fe mid (p2_X h) (px P * z) /\ is_fe mid (p2_Y h) (py P * z) /\ is_fe mid (p2_Z h) z.
Definition p3_is (h : orlp_ge_p3 num) (P : pt) : Prop :=
  exists z, z <> 0 /\ is_fe mid (p3_X h) (px P * z) /\ is_fe mid (p3_Y h) (py P * z) /\ is_fe mid (p3_Z h) z /\
    is_fe mid (p3_T h) (px P * py P * z).
Definition p1_is (h : orlp_ge_p1p1 num) (P : pt) : Prop :=
  exists z t, z <> 0 /\ t <> 0 /\ is_fe loose (p1_X h) (px P * z) /\ is_fe loose (p1_Y h) (py P * t) /\
    is_fe loose (p1_Z h) z /\ is_fe loose (p1_T h) t.
Definition precomp_is (q : orlp_ge_precomp num) (Q : pt) : Prop :=
  is_fe mid (yplusx q) (py Q + px Q) /\ is_fe mid (yminusx q) (py Q - px Q) /\
  is_fe mid (xy2d q) ((dF + dF) * px Q * py Q).
Definition cached_is (q : orlp_ge_cached num) (Q : pt) : Prop :=
  exists z, z <> 0 /\ is_fe wide (YplusX q) (py Q * z + px Q * z) /\ is_fe wide (YminusX q) (py Q * z - px Q * z) /\
    is_fe mid (ca_Z q) z /\ is_fe mid (T2d q) ((dF + dF) * px Q * py Q * z).

Lemma F_2_nz : (1 + 1 : F) <> 0.
Proof. rewrite <- toF_1, <- toF_add, <- toF_0, toF_eq. by vm_compute. Qed.

(** The completed sum of two points over denominators. *)
Section sum.
Context (P Q : pt) (z w : F) (Hz : z <> 0) (Hw : w <> 0).

Let k := dF * px P * py P * px Q * py Q.
Let zw := z * w + z * w.

Lemma sum_nz : zw <> 0.
Proof. replace zw with ((1 + 1) * (z * w)) by (unfold zw; ring). auto using F_mul_nz, F_2_nz. Qed.
Lemma sum_plus : zw * (1 + k) <> 0.
Proof. apply F_mul_nz; [apply sum_nz|]. apply complete_plus; apply pt_on. Qed.
Lemma sum_minus : zw * (1 - k) <> 0.
Proof. apply F_mul_nz; [apply sum_nz|]. apply complete_minus; apply pt_on. Qed.
Lemma sum_x : px (padd P Q) * (zw * (1 + k)) = zw * (px P * py Q + py P * px Q).
Proof. rewrite px_padd. unfold add_x. pose proof (complete_plus _ _ _ _ (pt_on P) (pt_on Q)) as H. unfold k in *. fieldF. Qed.
Lemma sum_y : py (padd P Q) * (zw * (1 - k)) = zw * (py P * py Q + px P * px Q).
Proof. rewrite py_padd. unfold add_y. pose proof (complete_minus _ _ _ _ (pt_on P) (pt_on Q)) as H. unfold k in *. fieldF. Qed.
End sum.

(** ** The operations *)

(** Every limb is defined and within the bounds the next operation needs. *)
Ltac limbs := cbv zeta; cbn [p1_X p1_Y p1_Z p1_T p2_X p2_Y p2_Z p3_X p3_Y p3_Z p3_T yplusx yminusx xy2d YplusX YminusX ca_Z T2d];
  split_and!; (eapply is_eq; [fe_bounds|]).

Lemma ge_add_is p P q Q : p3_is p P -> cached_is q Q -> p1_is (orlp_ge_add p q) (padd P Q).
Proof.
  intros (z & Hz & X1 & Y1 & Z1 & T1) (w & Hw & Yp & Ym & Zq & T2).
  eexists _, _. split; [exact (sum_plus P Q z w Hz Hw)|]. split; [exact (sum_minus P Q z w Hz Hw)|].
  rewrite sum_x, sum_y. unfold orlp_ge_add. limbs; ring.
Qed.
Lemma ge_sub_is p P q Q : p3_is p P -> cached_is q Q -> p1_is (orlp_ge_sub p q) (padd P (popp Q)).
Proof.
  intros (z & Hz & X1 & Y1 & Z1 & T1) (w & Hw & Yp & Ym & Zq & T2).
  eexists _, _. split; [exact (sum_plus P (popp Q) z w Hz Hw)|]. split; [exact (sum_minus P (popp Q) z w Hz Hw)|].
  rewrite sum_x, sum_y, px_popp, py_popp. unfold orlp_ge_sub. limbs; ring.
Qed.
Lemma ge_madd_is p P q Q : p3_is p P -> precomp_is q Q -> p1_is (orlp_ge_madd p q) (padd P Q).
Proof.
  intros (z & Hz & X1 & Y1 & Z1 & T1) (Yp & Ym & T2).
  eexists _, _. split; [exact (sum_plus P Q z 1 Hz F_1_nz)|]. split; [exact (sum_minus P Q z 1 Hz F_1_nz)|].
  rewrite sum_x, sum_y. unfold orlp_ge_madd. limbs; ring.
Qed.
Lemma ge_msub_is p P q Q : p3_is p P -> precomp_is q Q -> p1_is (orlp_ge_msub p q) (padd P (popp Q)).
Proof.
  intros (z & Hz & X1 & Y1 & Z1 & T1) (Yp & Ym & T2).
  eexists _, _. split; [exact (sum_plus P (popp Q) z 1 Hz F_1_nz)|]. split; [exact (sum_minus P (popp Q) z 1 Hz F_1_nz)|].
  rewrite sum_x, sum_y, px_popp, py_popp. unfold orlp_ge_msub. limbs; ring.
Qed.

Lemma p1p1_to_p2_is p P : p1_is p P -> p2_is (orlp_ge_p1p1_to_p2 p) P.
Proof.
  intros (z & t & Hz & Ht & X & Y & Z_ & T). exists (z * t). split; [by apply F_mul_nz|].
  unfold orlp_ge_p1p1_to_p2. limbs; ring.
Qed.
Lemma p1p1_to_p3_is p P : p1_is p P -> p3_is (orlp_ge_p1p1_to_p3 p) P.
Proof.
  intros (z & t & Hz & Ht & X & Y & Z_ & T). exists (z * t). split; [by apply F_mul_nz|].
  unfold orlp_ge_p1p1_to_p3. limbs; ring.
Qed.

Lemma p2_0_is : p2_is orlp_ge_p2_0 pzero.
Proof. exists 1. split; [apply F_1_nz|]. unfold orlp_ge_p2_0. cbn [px py pzero]. limbs; ring. Qed.
Lemma p3_0_is : p3_is orlp_ge_p3_0 pzero.
Proof. exists 1. split; [apply F_1_nz|]. unfold orlp_ge_p3_0. cbn [px py pzero]. limbs; ring. Qed.

Lemma p3_to_p2_is p P : p3_is p P -> p2_is (orlp_ge_p3_to_p2 p) P.
Proof.
  intros (z & Hz & X & Y & Z_ & T). exists z. split; [done|]. unfold orlp_ge_p3_to_p2. limbs; ring.
Qed.

Lemma is_lit f : mid f -> is_fe mid (fe_lit f) (toF (fval f)).
Proof. intros H. exists f. by split. Qed.

Lemma d2_is : is_fe mid (fe_lit d2) (dF + dF).
Proof.
  eapply is_eq; [apply is_lit; unfold le25, bounded; split_and!; by vm_compute|].
  unfold dF. rewrite <- toF_add. apply toF_eq. by vm_compute.
Qed.
Lemma d_is : is_fe mid (fe_lit d) dF.
Proof.
  eapply is_eq; [apply is_lit; unfold le25, bounded; split_and!; by vm_compute|].
  unfold dF. apply toF_eq. by vm_compute.
Qed.
Lemma sqrtm1_is : is_fe mid (fe_lit sqrtm1) iF.
Proof.
  eapply is_eq; [apply is_lit; unfold le25, bounded; split_and!; by vm_compute|].
  unfold iF. apply toF_eq. by vm_compute.
Qed.

Lemma p3_to_cached_is p P : p3_is p P -> cached_is (orlp_ge_p3_to_cached p) P.
Proof.
  intros (z & Hz & X & Y & Z_ & T). exists z. split; [done|]. unfold orlp_ge_p3_to_cached. pose proof d2_is as D. limbs; ring.
Qed.

Section double.
Context (P : pt).
Lemma double_x : px (padd P P) * (py P * py P - px P * px P) = (1 + 1) * (px P * py P).
Proof.
  rewrite px_padd. unfold add_x. pose proof (pt_on P) as H. unfold on_curve in H.
  pose proof (complete_plus _ _ _ _ (pt_on P) (pt_on P)) as Hn.
  replace (py P * py P - px P * px P) with (1 + dF * px P * py P * px P * py P) by ring [H]. fieldF.
Qed.
Lemma double_y : py (padd P P) * ((1 + 1) - (py P * py P - px P * px P)) = py P * py P + px P * px P.
Proof.
  rewrite py_padd. unfold add_y. pose proof (pt_on P) as H. unfold on_curve in H.
  pose proof (complete_minus _ _ _ _ (pt_on P) (pt_on P)) as Hn.
  replace ((1 + 1) - (py P * py P - px P * px P)) with (1 - dF * px P * py P * px P * py P) by ring [H]. fieldF.
Qed.
Lemma double_nz : py P * py P - px P * px P <> 0 /\ (1 + 1) - (py P * py P - px P * px P) <> 0.
Proof.
  pose proof (complete_plus _ _ _ _ (pt_on P) (pt_on P)) as Hp. pose proof (complete_minus _ _ _ _ (pt_on P) (pt_on P)) as Hm.
  pose proof (pt_on P) as H. unfold on_curve in H.
  replace (py P * py P - px P * px P) with (1 + dF * px P * py P * px P * py P) by ring [H].
  split; [exact Hp|]. replace (1 + 1 - (1 + dF * px P * py P * px P * py P)) with (1 - dF * px P * py P * px P * py P) by ring. exact Hm.
Qed.
End double.

Lemma p2_dbl_is p P : p2_is p P -> p1_is (orlp_ge_p2_dbl p) (padd P P).
Proof.
  intros (z & Hz & X & Y & Z_). destruct (double_nz P) as [N1 N2].
  exists (z * z * (py P * py P - px P * px P)), (z * z * ((1 + 1) - (py P * py P - px P * px P))).
  split; [auto using F_mul_nz|]. split; [auto using F_mul_nz|].
  replace (px (padd P P) * (z * z * (py P * py P - px P * px P))) with (z * z * ((1 + 1) * (px P * py P)))
    by (rewrite <- double_x; ring).
  replace (py (padd P P) * (z * z * ((1 + 1) - (py P * py P - px P * px P)))) with (z * z * (py P * py P + px P * px P))
    by (rewrite <- double_y; ring).
  unfold orlp_ge_p2_dbl. limbs; ring.
Qed.
Lemma p3_dbl_is p P : p3_is p P -> p1_is (orlp_ge_p3_dbl p) (padd P P).
Proof. intros H. by apply p2_dbl_is, p3_to_p2_is. Qed.
