(* ===== verification/GeBytes.v ===== *)
(** * GeBytes: the octets of a point

    [orlp_ge_p3_tobytes] writes the encoding of the point, whatever represents it;
    [orlp_ge_frombytes_negate_vartime] finds the point with the given ordinate and sign,
    negated, or reports that there is none. *)
From Stdlib Require Import Zmod Field.
From S2P Require Import Prelude Octets CInt Fe25519 FeFacts FeBytes ScFacts Primes Edwards EdGroup Ge25519 GeFacts.
Local Open Scope F_scope.
Add Field F_field_inst : F_field.
Opaque Zmod.add Zmod.sub Zmod.mul Zmod.opp Zmod.mdiv Zmod.inv Zmod.of_Z Zmod.pow.

#[local] Existing Instance checked.

(** ** Powers *)

Abbreviation fpow := (@Zmod.pow p25519).

Lemma toF_pow a n : (0 <= n)%Z -> toF (a ^ n) = fpow (toF a) n.
Proof. intros Hn. by apply Zmod.of_Z_pow. Qed.
Lemma fpow_add x a b : (0 <= a)%Z -> (0 <= b)%Z -> fpow x (a + b) = fpow x a * fpow x b.
Proof. apply Zmod.pow_add_r_nonneg. Qed.
Lemma fpow_mul x a b : (0 <= a)%Z -> (0 <= b)%Z -> fpow x (a * b) = fpow (fpow x a) b.
Proof. apply Zmod.pow_mul_r_nonneg. Qed.
Lemma fpow_1 x : fpow x 1 = x.
Proof. apply Zmod.pow_1_r. Qed.
Lemma fpow_2 x : fpow x 2 = x * x.
Proof. apply Zmod.pow_2_r. Qed.
Lemma fpow_nz (x : F) n : (0 <= n)%Z -> x <> 0 -> fpow x n <> 0.
Proof.
  intros Hn Hx. revert n Hn. apply natlike_ind; [rewrite Zmod.pow_0_r; apply F_1_nz|].
  intros n Hn IH. rewrite Zmod.pow_succ_nonneg_r by done. by apply F_mul_nz.
Qed.
Lemma fpow_0_l n : n <> 0%Z -> fpow 0 n = 0.
Proof. apply Zmod.pow_0_l. Qed.
Lemma fermat (x : F) : x <> 0 -> fpow x (p25519 - 1) = 1.
Proof. intros Hx. apply (Zmod.fermat_nz x Hx p25519_prime). Qed.

Lemma is_invert e x : is_fe loose e x -> x <> 0 -> exists y, x * y = 1 /\ is_fe tight (orlp_fe_invert e) y.
Proof.
  intros (a & -> & Ha & <-) Hx. destruct (invert_ok a Ha) as (h & -> & Hh & V).
  exists (toF (fval h)). split; [|by exists h].
  apply toF_eq in V. rewrite V, toF_pow by (by vm_compute).
  rewrite <- (fpow_1 (toF (fval a))) at 1. rewrite <- fpow_add by (by vm_compute).
  replace (1 + (p25519 - 2))%Z with (p25519 - 1)%Z by lia. by apply fermat.
Qed.
Lemma is_pow22523 e x : is_fe loose e x -> is_fe tight (orlp_fe_pow22523 e) (fpow x (2 ^ 252 - 3)).
Proof.
  intros (a & -> & Ha & <-). destruct (pow22523_ok a Ha) as (h & -> & Hh & V).
  exists h. split; [done|]. split; [done|]. apply toF_eq in V. by rewrite V, toF_pow by (by vm_compute).
Qed.

(** ** The encoding *)

(** The representative between 0 and p - 1, and its parity. *)
Definition rep (x : F) : Z := Zmod.unsigned x.
Definition parity (x : F) : Z := rep x mod 2.

Lemma rep_toF z : rep (toF z) = (z mod p25519)%Z.
Proof. apply Zmod.unsigned_of_Z. Qed.
Lemma toF_rep x : toF (rep x) = x.
Proof. apply Zmod.of_Z_unsigned. Qed.
Lemma rep_range x : (0 <= rep x < p25519)%Z.
Proof. apply Zmod.unsigned_pos_bound. done. Qed.
Lemma rep_inj x y : rep x = rep y -> x = y.
Proof. apply Zmod.unsigned_inj. Qed.
Lemma rep_0 : rep 0 = 0%Z.
Proof. rewrite <- toF_0. apply rep_toF. Qed.
Lemma rep_opp x : x <> 0 -> rep (- x) = (p25519 - rep x)%Z.
Proof.
  intros Hx. assert (rep x <> 0%Z) as Hr by (intros E; apply Hx, rep_inj; by rewrite rep_0).
  pose proof (rep_range x). rewrite <- (toF_rep x), <- toF_opp, rep_toF, toF_rep.
  symmetry. apply (Z.mod_unique_pos _ _ (-1)); lia.
Qed.
Lemma parity_range x : (0 <= parity x < 2)%Z.
Proof. apply Z.mod_pos_bound. lia. Qed.
Lemma parity_opp x : x <> 0 -> parity (- x) = (1 - parity x)%Z.
Proof. intros Hx. unfold parity. rewrite (rep_opp x Hx). unfold p25519. dlia. Qed.
Lemma parity_0 : parity 0 = 0%Z.
Proof. unfold parity. by rewrite rep_0. Qed.

(** The ordinate with the parity of the abscissa as its top bit. *)
Definition encode (P : pt) : bytes := le_octets 32 (rep (py P) + 2 ^ 255 * parity (px P)).

Lemma encode_length P : length (encode P) = 32%nat.
Proof. done. Qed.
Lemma encode_val P : le_val (encode P) = (rep (py P) + 2 ^ 255 * parity (px P))%Z.
Proof.
  unfold encode. rewrite le_octets_val. apply Z.mod_small.
  pose proof (rep_range (py P)). pose proof (parity_range (px P)). unfold p25519 in *. lia.
Qed.

(** ** Reading and writing field elements *)

Lemma is_tobytes e x : is_fe wide e x ->
  exists s, orlp_fe_tobytes e = Some s /\ length s = 32%nat /\ le_val s = rep x.
Proof.
  intros (a & -> & Ha & <-). destruct (tobytes_ok a Ha) as (s & E & Hl & V). exists s. by rewrite rep_toF.
Qed.

Lemma is_isnegative e x : is_fe wide e x -> orlp_fe_isnegative e = Some (parity x).
Proof.
  intros H. destruct (is_tobytes e x H) as (s & E & Hl & V). unfold orlp_fe_isnegative. rewrite E. cbn. f_equal.
  unfold parity. rewrite <- V. destruct s as [|b s]; [done|]. cbn [lookup list_lookup default from_option le_val].
  change 1%Z with (Z.ones 1). rewrite Z.land_ones by lia. unfold id. dlia.
Qed.

Lemma or_all_zero s r : (0 <= r)%Z -> fold_left (fun r b => Z.lor r (byte_to_Z b)) s r = 0%Z <-> r = 0%Z /\ le_val s = 0%Z.
Proof.
  revert r. induction s as [|b s IH]; intros r Hr; cbn [fold_left le_val]; [tauto|].
  pose proof (byte_to_Z_range b). pose proof (le_val_range s).
  rewrite IH by (apply Z.lor_nonneg; lia). rewrite Z.lor_eq_0_iff. lia.
Qed.
Lemma is_isnonzero e x : is_fe wide e x -> orlp_fe_isnonzero e = Some (negb (bool_decide (x = 0))).
Proof.
  intros H. destruct (is_tobytes e x H) as (s & E & Hl & V). unfold orlp_fe_isnonzero. rewrite E. cbn. do 2 f_equal.
  pose proof (or_all_zero s 0 ltac:(lia)) as Hz. rewrite V in Hz.
  case_bool_decide as Hx.
  - apply Z.eqb_eq, Hz. split; [done|]. by rewrite Hx, rep_0.
  - apply Z.eqb_neq. intros [_ E0]%Hz. apply Hx, rep_inj. by rewrite rep_0.
Qed.

Lemma xor_top s n : length s = 32%nat -> (le_val s < 2 ^ 255)%Z -> (0 <= n < 2)%Z ->
  length (xor_at s 31 (Z.shiftl n 7)) = 32%nat /\ le_val (xor_at s 31 (Z.shiftl n 7)) = (le_val s + 2 ^ 255 * n)%Z.
Proof.
  intros Hl Hv Hn. assert (exists t b, s = t ++ [b] /\ length t = 31%nat) as (t & b & -> & Ht).
  { destruct (exists_last (l := s)) as (t & b & ->); [by intros ->|]. exists t, b. rewrite length_app in Hl. cbn in Hl.
    split; [done|lia]. }
  assert (forall u v, le_val (u ++ [v]) = (le_val u + 256 ^ blen u * byte_to_Z v)%Z) as Happ.
  { induction u as [|c u IH]; intros v; cbn [app le_val].
    - change (byte_to_Z v + 256 * 0 = 0 + 1 * byte_to_Z v)%Z. lia.
    - rewrite IH, blen_cons, Z.pow_add_r by (pose proof (blen_nonneg u); lia). change (256 ^ 1)%Z with 256%Z. ring. }
  unfold xor_at. replace 31%nat with (length t + 0)%nat by lia. rewrite alter_app_r. cbn [alter list_alter].
  rewrite !length_app. split; [cbn; lia|]. rewrite !Happ in *. unfold blen in *. rewrite Ht in *.
  change (256 ^ Z.of_nat 31)%Z with (2 ^ 248)%Z in *. rewrite byte_to_of_Z.
  pose proof (le_val_range t) as Hr. unfold blen in Hr. rewrite Ht in Hr. change (256 ^ Z.of_nat 31)%Z with (2 ^ 248)%Z in Hr.
  pose proof (byte_to_Z_range b) as Hb. assert (byte_to_Z b < 128)%Z as Hb' by lia.
  assert (Z.lxor (byte_to_Z b) (Z.shiftl n 7) = byte_to_Z b + 128 * n)%Z as ->.
  { assert (n = 0%Z \/ n = 1%Z) as [-> | ->] by lia; [change (Z.shiftl 0 7) with 0%Z; rewrite Z.lxor_0_r; lia|].
    change (Z.shiftl 1 7) with (Z.shiftl 1 7). rewrite Z.lxor_comm. rewrite <- Z.add_nocarry_lxor; [change (Z.shiftl 1 7) with 128%Z; lia|].
    apply Z.bits_inj'. intros k Hk. rewrite Z.land_spec, Z.bits_0. destruct (decide (k < 7)%Z) as [Hk7|Hk7].
    - by rewrite Z.shiftl_spec_low.
    - assert (Z.testbit (byte_to_Z b) k = false) as ->; [|by rewrite andb_false_r].
      apply Z.testbit_false; [lia|]. rewrite Z.div_small; [done|].
      assert (2 ^ 7 <= 2 ^ k)%Z by (apply Z.pow_le_mono_r; lia). lia. }
  rewrite Z.mod_small by lia. lia.
Qed.

Lemma point_bytes_is X Y Z_ P z : z <> 0 -> is_fe mid X (px P * z) -> is_fe mid Y (py P * z) -> is_fe mid Z_ z ->
  point_bytes X Y Z_ = Some (encode P).
Proof.
  intros Hz HX HY HZ. unfold point_bytes. cbv zeta.
  destruct (is_invert Z_ z) as (w & Hw & HI); [by apply wide_loose, mid_wide|done|].
  assert (is_fe tight (orlp_fe_mul X (orlp_fe_invert Z_)) (px P)) as Hx.
  { eapply is_eq; [fe_bounds|]. transitivity (px P * (z * w)); [ring|]. rewrite Hw. ring. }
  assert (is_fe tight (orlp_fe_mul Y (orlp_fe_invert Z_)) (py P)) as Hy.
  { eapply is_eq; [fe_bounds|]. transitivity (py P * (z * w)); [ring|]. rewrite Hw. ring. }
  destruct (is_tobytes _ _ (mid_wide _ _ (tight_mid _ _ Hy))) as (s & -> & Hl & V).
  cbv beta iota. rewrite (is_isnegative _ _ (mid_wide _ _ (tight_mid _ _ Hx))). cbv beta iota. f_equal.
  pose proof (rep_range (py P)). destruct (xor_top s (parity (px P)) Hl) as [Lx Vx];
    [unfold p25519 in *; lia|apply parity_range|].
  apply le_val_inj; [by rewrite encode_length|]. by rewrite encode_val, Vx, V.
Qed.

Lemma p3_tobytes_is h P : p3_is h P -> orlp_ge_p3_tobytes h = Some (encode P).
Proof. intros (z & Hz & X & Y & Z_ & _). by apply (point_bytes_is _ _ _ P z). Qed.
Lemma p2_tobytes_is h P : p2_is h P -> orlp_ge_tobytes h = Some (encode P).
Proof. intros (z & Hz & X & Y & Z_). by apply (point_bytes_is _ _ _ P z). Qed.

(** ** Square roots *)

Section root.
Context (y : F).
Let u := y * y - 1.
Let v := y * y * dF + 1.

Lemma on_curve_root x : on_curve x y <-> x * x * v = u.
Proof.
  unfold on_curve, u, v. split; intros H.
  - transitivity (dF * x * x * y * y + x * x); [ring|]. rewrite H. ring.
  - transitivity (x * x * (y * y * dF + 1) - x * x); [ring|]. rewrite H. ring.
Qed.

Lemma v_nz : v <> 0.
Proof.
  unfold v. intros H. assert (y <> 0) as Hy.
  { intros ->. apply F_1_nz. rewrite <- H. ring. }
  apply (d_not_square (iF / y)). transitivity ((iF * iF) / (y * y)); [fieldF|]. rewrite i_square.
  transitivity ((- (1) + (y * y * dF + 1)) / (y * y)); [by rewrite H; f_equal; ring|]. fieldF.
Qed.

Let v3 := v * v * v.
Let w := v3 * v3 * v * u.
Definition candidate : F := fpow w (2 ^ 252 - 3) * v3 * u.

Lemma candidate_square : candidate * candidate * v = u * fpow w (2 ^ 253 - 5).
Proof.
  unfold candidate. replace (2 ^ 253 - 5)%Z with ((2 ^ 252 - 3) + (2 ^ 252 - 3) + 1)%Z by lia.
  rewrite !fpow_add, fpow_1 by (by vm_compute). unfold w. ring.
Qed.

(** When there is a point, the candidate is its abscissa up to sign or a root of -1. *)
Lemma candidate_root x : on_curve x y ->
  candidate * candidate * v = u \/ candidate * candidate * v = - u /\ u <> 0.
Proof.
  intros H%on_curve_root. rewrite candidate_square. destruct (decide (u = 0)) as [E|Hu]; [left; rewrite E; ring|].
  set (c := x * (v * v * v * v)). assert (w = c * c) as ->.
  { unfold w, c. rewrite <- H at 1. unfold v3. ring. }
  assert (c <> 0) as Hc.
  { apply F_mul_nz; [|auto using F_mul_nz, v_nz]. intros ->. apply Hu. rewrite <- H. ring. }
  assert (fpow (c * c) (2 ^ 253 - 5) * fpow (c * c) (2 ^ 253 - 5) = 1) as Ht.
  { rewrite <- fpow_add by (by vm_compute). rewrite <- fpow_2, <- fpow_mul by (by vm_compute).
    replace (2 * (2 ^ 253 - 5 + (2 ^ 253 - 5)))%Z with (p25519 - 1)%Z by (by vm_compute). by apply fermat. }
  set (t := fpow _ _) in *. clearbody t. assert ((t - 1) * (t + 1) = 0) as [E|E]%F_mul_0.
  { transitivity (t * t - 1); [ring|]. rewrite Ht. ring. }
  - left. replace t with (t - 1 + 1) by ring. rewrite E. ring.
  - right. split; [|done]. replace t with (t + 1 - 1) by ring. rewrite E. ring.
Qed.

(** Two points with one ordinate differ by a sign. *)
Lemma roots_opposite x x' : on_curve x y -> on_curve x' y -> x' = x \/ x' = - x.
Proof.
  intros H%on_curve_root H'%on_curve_root. assert ((x' - x) * (x' + x) = 0) as [E|E]%F_mul_0.
  { assert (v * ((x' - x) * (x' + x)) = 0) as [E|E]%F_mul_0; [|by destruct v_nz|exact E].
    transitivity (x' * x' * v - x * x * v); [ring|]. rewrite H, H'. ring. }
  - left. by apply F_sub_0.
  - right. apply F_sub_0. rewrite <- E. ring.
Qed.
End root.

(** ** Decoding *)

Definition ordinate (s : bytes) : F := toF (le_val s mod 2 ^ 255).
Definition sign_bit (s : bytes) : Z := le_val s / 2 ^ 255.

Lemma is_frombytes s : length s = 32%nat -> is_fe mid (orlp_fe_frombytes s) (ordinate s).
Proof.
  intros Hs. destruct (frombytes_ok s Hs) as (h & -> & Hh & V). exists h. split; [done|]. split; [done|]. by apply toF_eq.
Qed.

Lemma top_shift s : length s = 32%nat -> Z.shiftr (byte_to_Z (default x00 (s !! 31%nat))) 7 = sign_bit s.
Proof.
  intros Hs. fold (octet_at s 31). rewrite octet_at_val, Z.shiftr_div_pow2 by lia. unfold sign_bit.
  pose proof (le_val_bound s _ Hs) as Hv. change (8 * Z.of_nat 32)%Z with 256%Z in Hv. change (8 * Z.of_nat 31)%Z with 248%Z.
  rewrite (Z.mod_small (le_val s / 2 ^ 248)) by dlia. rewrite Z.div_div by lia. done.
Qed.

Lemma is_one : is_fe (bounded 1 1) orlp_fe_1 1.
Proof. exists (Fe 1 0 0 0 0 0 0 0 0 0)%Z. split; [done|]. split; [unfold bounded; split_and!; by vm_compute|]. apply toF_1. Qed.
Lemma is_sub_one e x : is_fe tight e x -> is_fe mid (orlp_fe_sub e orlp_fe_1) (x - 1).
Proof.
  intros (a & -> & Ha & <-). destruct is_one as (b & -> & Hb & <-).
  destruct (run_program _ _ _ (110 * 2 ^ 25 / 100) (110 * 2 ^ 24 / 100)
    (rel_sub _ _ _ _ _ _ (rel_box _ _ _ Ha) (rel_box _ _ _ Hb))) as [E C]; [by vm_compute|].
  eexists. split; [exact E|]. split; [exact C|]. by rewrite sub_val, toF_sub.
Qed.
Lemma is_add_one e x : is_fe tight e x -> is_fe mid (orlp_fe_add e orlp_fe_1) (x + 1).
Proof.
  intros (a & -> & Ha & <-). destruct is_one as (b & -> & Hb & <-).
  destruct (run_program _ _ _ (110 * 2 ^ 25 / 100) (110 * 2 ^ 24 / 100)
    (rel_add _ _ _ _ _ _ (rel_box _ _ _ Ha) (rel_box _ _ _ Hb))) as [E C]; [by vm_compute|].
  eexists. split; [exact E|]. split; [exact C|]. by rewrite add_val, toF_add.
Qed.

(** The point with ordinate [y], and the sign bit unless its abscissa is zero. *)
Definition names (s : bytes) (P : pt) : Prop :=
  py P = ordinate s /\ (px P = 0 \/ parity (px P) = sign_bit s).

Lemma signed_root hX x s (Hs : length s = 32%nat) (H : on_curve x (ordinate s)) :
  is_fe tight hX x ->
  exists P n, names s P /\ orlp_fe_isnegative hX = Some n /\
    is_fe mid (if (n =? Z.shiftr (byte_to_Z (default x00 (s !! 31%nat))) 7)%Z then orlp_fe_neg hX else hX) (px (popp P)).
Proof.
  intros HX. rewrite top_shift by done. rewrite (is_isnegative _ _ (mid_wide _ _ (tight_mid _ _ HX))).
  destruct (Z.eqb_spec (parity x) (sign_bit s)) as [E|E].
  - exists (pt_of _ _ H), (parity x). split; [split; [done|by right]|]. split; [done|].
    rewrite (proj2 (Z.eqb_eq _ _) E), px_popp. by apply is_neg, tight_mid.
  - exists (pt_of _ _ (on_curve_opp _ _ H)), (parity x). split; [|split; [done|]].
    + split; [done|]. cbn [px]. destruct (decide (x = 0)) as [->|Hx]; [left; ring|]. right.
      rewrite parity_opp by done. pose proof (parity_range x).
      assert (0 <= sign_bit s < 2)%Z; [|lia]. unfold sign_bit. pose proof (le_val_bound s _ Hs). dlia.
    + rewrite (proj2 (Z.eqb_neq _ _) E), px_popp. cbn [px]. apply tight_mid. eapply is_eq; [exact HX|ring].
Qed.

(** What the program has computed when it looks for a root. *)
Lemma candidate_limbs hY y : is_fe mid hY y ->
  let u := orlp_fe_sq hY in
  let v := orlp_fe_mul u (fe_lit d) in
  let u := orlp_fe_sub u orlp_fe_1 in
  let v := orlp_fe_add v orlp_fe_1 in
  let v3 := orlp_fe_mul (orlp_fe_sq v) v in
  let hX := orlp_fe_mul (orlp_fe_mul (orlp_fe_sq v3) v) u in
  let hX := orlp_fe_mul (orlp_fe_mul (orlp_fe_pow22523 hX) v3) u in
  let vxx := orlp_fe_mul (orlp_fe_sq hX) v in
  is_fe mid u (y * y - 1) /\ is_fe mid v (y * y * dF + 1) /\ is_fe tight hX (candidate y) /\
  is_fe tight vxx (candidate y * candidate y * (y * y * dF + 1)).
Proof.
  intros Hy u0 v0 u v v3 w hX vxx. pose proof d_is as D.
  assert (is_fe mid u (y * y - 1)) as Hu by (apply is_sub_one; unfold u0; fe_bounds).
  assert (is_fe mid v (y * y * dF + 1)) as Hv.
  { apply is_add_one. unfold v0, u0. eapply is_eq; [fe_bounds|reflexivity]. }
  clearbody u v. clear u0 v0.
  assert (is_fe tight v3 _) as H3 by (unfold v3; fe_bounds). clearbody v3.
  assert (is_fe tight w _) as Hw by (unfold w; fe_bounds). clearbody w.
  assert (is_fe tight (orlp_fe_pow22523 w) _) as Hp by (apply is_pow22523; fe_leaf).
  assert (is_fe tight hX (candidate y)) as HX.
  { unfold hX. eapply is_eq; [fe_bounds|]. unfold candidate. f_equal. }
  clearbody hX. split_and!; [done..|]. unfold vxx. fe_bounds.
Qed.

(** From the root on. *)
Lemma decode_tail s hX hY x : length s = 32%nat -> on_curve x (ordinate s) -> is_fe tight hX x -> is_fe mid hY (ordinate s) ->
  exists h P,
    (let? n := orlp_fe_isnegative hX in
     let hX := if (n =? Z.shiftr (byte_to_Z (default x00 (s !! 31%nat))) 7)%Z then orlp_fe_neg hX else hX in
     Some (Some (Ge_p3 hX hY orlp_fe_1 (orlp_fe_mul hX hY)))) = Some (Some h) /\ p3_is h (popp P) /\ names s P.
Proof.
  intros Hs Hx HX HY. destruct (signed_root hX x s Hs Hx HX) as (P & n & HN & -> & HX'). cbv beta iota zeta.
  eexists _, P. split; [reflexivity|]. split; [|exact HN]. exists 1. split; [apply F_1_nz|].
  destruct HN as [Ey _]. rewrite <- Ey in HY. set (X := if (n =? _)%Z then _ else hX) in *. clearbody X.
  rewrite py_popp. limbs; ring.
Qed.

Lemma frombytes_cases s : length s = 32%nat ->
  (exists h P, orlp_ge_frombytes_negate_vartime s = Some (Some h) /\ p3_is h (popp P) /\ names s P) \/
  (orlp_ge_frombytes_negate_vartime s = Some None /\ forall P, py P <> ordinate s).
Proof.
  intros Hs. unfold orlp_ge_frombytes_negate_vartime.
  pose proof (is_frombytes s Hs) as HY. set (hY := orlp_fe_frombytes s) in *.
  destruct (candidate_limbs hY _ HY) as (Hu & Hv & HX & Hvxx). cbv zeta in *.
  set (u := orlp_fe_sub (orlp_fe_sq hY) orlp_fe_1) in *.
  set (v := orlp_fe_add (orlp_fe_mul (orlp_fe_sq hY) (fe_lit d)) orlp_fe_1) in *.
  set (hX := orlp_fe_mul (orlp_fe_mul (orlp_fe_pow22523 _) _) u) in *.
  set (vxx := orlp_fe_mul (orlp_fe_sq hX) v) in *. set (y := ordinate s) in *.
  clearbody hY u v hX vxx.
  assert (is_fe wide (orlp_fe_sub vxx u) (candidate y * candidate y * (y * y * dF + 1) - (y * y - 1))) as C1 by fe_bounds.
  assert (is_fe wide (orlp_fe_add vxx u) (candidate y * candidate y * (y * y * dF + 1) + (y * y - 1))) as C2 by fe_bounds.
  rewrite (is_isnonzero _ _ C1). cbv beta iota. case_bool_decide as E1; cbn [negb].
  { destruct (decode_tail s hX hY (candidate y)) as (h & P & E & H); [done|by apply on_curve_root, F_sub_0|done..|].
    left. exists h, P. by split. }
  rewrite (is_isnonzero _ _ C2). cbv beta iota. case_bool_decide as E2; cbn [negb].
  { pose proof sqrtm1_is as Hi.
    destruct (decode_tail s (orlp_fe_mul hX (fe_lit sqrtm1)) hY (candidate y * iF)) as (h & P & E & H); [done| |fe_bounds|done|].
    { fold y. apply on_curve_root. transitivity ((iF * iF) * (candidate y * candidate y * (y * y * dF + 1))); [ring|].
      rewrite i_square. transitivity (y * y - 1 - (candidate y * candidate y * (y * y * dF + 1) + (y * y - 1))); [ring|].
      rewrite E2. ring. }
    left. exists h, P. by split. }
  right. split; [done|]. intros P Hy. pose proof (pt_on P) as HP. rewrite Hy in HP.
  destruct (candidate_root y (px P) HP) as [E|[E _]]; [apply E1|apply E2]; fold y; rewrite E; ring.
Qed.

Lemma split_top a b : (0 <= a < 2 ^ 255)%Z -> ((a + 2 ^ 255 * b) mod 2 ^ 255 = a /\ (a + 2 ^ 255 * b) / 2 ^ 255 = b)%Z.
Proof.
  intros Ha. split; symmetry; [apply (Z.mod_unique_pos _ _ b)|apply (Z.div_unique_pos _ _ _ a)]; lia.
Qed.
Lemma encode_parts P : ordinate (encode P) = py P /\ sign_bit (encode P) = parity (px P).
Proof.
  unfold ordinate, sign_bit. rewrite encode_val. pose proof (rep_range (py P)) as R.
  destruct (split_top (rep (py P)) (parity (px P))) as [-> ->]; [unfold p25519 in R; lia|]. by rewrite toF_rep.
Qed.

(** Two points with one name are one. *)
Lemma names_unique s P Q : names s P -> names s Q -> Q = P.
Proof.
  intros [Hy Hx] [Hy' Hx']. apply pt_eq; [|congruence].
  pose proof (pt_on Q) as HQ. rewrite Hy', <- Hy in HQ. destruct (roots_opposite _ _ _ (pt_on P) HQ) as [E|E]; [exact E|].
  destruct (decide (px P = 0)) as [E0|Hnz]; [rewrite E, E0; ring|].
  destruct Hx as [Hx|Hx]; [by destruct Hnz|]. destruct Hx' as [Hx'|Hx'].
  - destruct Hnz. transitivity (- - px P); [ring|]. rewrite <- E, Hx'. ring.
  - rewrite E, parity_opp in Hx' by exact Hnz. lia.
Qed.

(** A point is found by its encoding. *)
Lemma names_self P : names (encode P) P.
Proof. destruct (encode_parts P) as [Ey Es]. split; [by rewrite Ey|right; by rewrite Es]. Qed.
Lemma names_encode P Q : names (encode P) Q -> Q = P.
Proof. apply names_unique, names_self. Qed.

Lemma frombytes_encode P : exists h, orlp_ge_frombytes_negate_vartime (encode P) = Some (Some h) /\ p3_is h (popp P).
Proof.
  destruct (frombytes_cases (encode P) (encode_length P)) as [(h & Q & E & H & N)|[_ N]].
  - apply names_encode in N as ->. exists h. exact (conj E H).
  - destruct (N P). symmetry. apply encode_parts.
Qed.
