(* ===== verification/GeScalar.v ===== *)
(** * GeScalar: the scalar multiplications of [ge.c] of orlp_ed25519

    [orlp_ge_scalarmult_base] adds table entries for 64 signed digits of four bits,
    selected without branches; [orlp_ge_double_scalarmult_vartime] walks two sparse
    signed expansions at once.  The arithmetic is that of C. *)
From S2P Require Import Prelude Octets CInt Fe25519 Ge25519 GeTables.

#[local] Existing Instance checked.

(** [signed char] *)
Definition s8 (z : Z) : Z := (z + 128) mod 256 - 128.

(** ** Selection *)

Definition equal (b c : Z) : Z :=
  let ub := u8 b in
  let uc := u8 c in
  let x := Z.lxor ub uc in
  let y := u64 (x - 1) in
  u8 (Z.shiftr y 63).

Definition negative (b : Z) : Z := u8 (Z.shiftr (u64 b) 63).

(** A selection between elements with undefined limbs is undefined. *)
Definition fe_undefined : fe (option Z) := Fe None None None None None None None None None None.
Definition fe_cmov (f g : fe (option Z)) (b : Z) : fe (option Z) :=
  match fe_values f, fe_values g with
  | Some f, Some g => fe_map Some (orlp_fe_cmov f g b)
  | _, _ => fe_undefined
  end.

Definition cmov (t u : orlp_ge_precomp num) (b : Z) : orlp_ge_precomp num :=
  Ge_precomp (fe_cmov (yplusx t) (yplusx u) b) (fe_cmov (yminusx t) (yminusx u) b) (fe_cmov (xy2d t) (xy2d u) b).

Definition precomp_lit (q : orlp_ge_precomp Z) : orlp_ge_precomp num := precomp_map lit q.
Definition precomp_undefined : orlp_ge_precomp (option Z) := Ge_precomp fe_undefined fe_undefined fe_undefined.

(** An index out of range is undefined. *)
Definition table_at (l : list (orlp_ge_precomp Z)) (j : nat) : orlp_ge_precomp num :=
  match l !! j with Some q => precomp_lit q | None => precomp_undefined end.

Definition select (pos : nat) (b : Z) : orlp_ge_precomp num :=
  let bnegative := negative b in
  let babs := u8 (b - Z.shiftl (Z.land (- bnegative) b) 1) in
  let row := default [] (base !! pos) in
  let t := Ge_precomp orlp_fe_1 orlp_fe_1 orlp_fe_0 in
  let t := cmov t (table_at row 0) (equal babs 1) in
  let t := cmov t (table_at row 1) (equal babs 2) in
  let t := cmov t (table_at row 2) (equal babs 3) in
  let t := cmov t (table_at row 3) (equal babs 4) in
  let t := cmov t (table_at row 4) (equal babs 5) in
  let t := cmov t (table_at row 5) (equal babs 6) in
  let t := cmov t (table_at row 6) (equal babs 7) in
  let t := cmov t (table_at row 7) (equal babs 8) in
  let minust := Ge_precomp (orlp_fe_copy (yminusx t)) (orlp_fe_copy (yplusx t)) (orlp_fe_neg (xy2d t)) in
  cmov t minust bnegative.

(** ** Multiples of the base point *)

Definition nibbles (a : bytes) : list Z :=
  flat_map (fun i => [Z.land (Z.shiftr (octet_at a i) 0) 15; Z.land (Z.shiftr (octet_at a i) 4) 15]) (seq 0 32).

(** The loop over [i < 63], and [e[63] += carry]. *)
Definition recode_step (st : list Z * Z) (i : nat) : list Z * Z :=
  let '(e, carry) := st in
  let ei := s8 (nth i e 0 + carry) in
  let carry := s8 (ei + 8) in
  let carry := Z.shiftr carry 4 in
  let ei := s8 (ei - Z.shiftl carry 4) in
  (<[i := ei]> e, carry).
Definition recode (e : list Z) : list Z :=
  let '(e, carry) := fold_left recode_step (seq 0 63) (e, 0) in
  <[63%nat := s8 (nth 63 e 0 + carry)]> e.

Definition add_selected (e : list Z) (h : orlp_ge_p3 num) (i : nat) : orlp_ge_p3 num :=
  let t := select (i / 2) (nth i e 0) in
  let r := orlp_ge_madd h t in
  orlp_ge_p1p1_to_p3 r.

Definition orlp_ge_scalarmult_base (a : bytes) : orlp_ge_p3 num :=
  let e := recode (nibbles a) in
  let h := orlp_ge_p3_0 in
  let h := fold_left (add_selected e) ((fun k => 2 * k + 1)%nat <$> seq 0 32) h in
  let r := orlp_ge_p3_dbl h in
  let s := orlp_ge_p1p1_to_p2 r in
  let r := orlp_ge_p2_dbl s in
  let s := orlp_ge_p1p1_to_p2 r in
  let r := orlp_ge_p2_dbl s in
  let s := orlp_ge_p1p1_to_p2 r in
  let r := orlp_ge_p2_dbl s in
  let h := orlp_ge_p1p1_to_p3 r in
  fold_left (add_selected e) ((fun k => 2 * k)%nat <$> seq 0 32) h.

(** ** Sliding windows *)

Definition scalar_bits (a : bytes) : list Z :=
  (fun i => Z.land 1 (Z.shiftr (octet_at a (i / 8)) (Z.of_nat i mod 8))) <$> seq 0 256.

(** [for (k = i + b; k < 256; ++k) { if (!r[k]) { r[k] = 1; break; } r[k] = 0; }] *)
Fixpoint slide_carry (n k : nat) (r : list Z) : list Z :=
  match n with
  | O => r
  | S n => if nth k r 0 =? 0 then <[k := 1]> r else slide_carry n (S k) (<[k := 0]> r)
  end.

(** [for (b = 1; b <= 6 && i + b < 256; ++b)] *)
Fixpoint slide_window (i : nat) (bs : list nat) (r : list Z) : list Z :=
  match bs with
  | [] => r
  | b :: bs =>
      if (i + b <? 256)%nat then
        let ri := nth i r 0 in
        let x := Z.shiftl (nth (i + b) r 0) (Z.of_nat b) in
        if nth (i + b) r 0 =? 0 then slide_window i bs r
        else if ri + x <=? 15 then
          let r := <[i := s8 (ri + x)]> r in
          slide_window i bs (<[(i + b)%nat := 0]> r)
        else if -15 <=? ri - x then
          let r := <[i := s8 (ri - x)]> r in
          slide_window i bs (slide_carry (256 - (i + b)) (i + b) r)
        else r
      else r
  end.

Definition slide_step (r : list Z) (i : nat) : list Z :=
  if nth i r 0 =? 0 then r else slide_window i [1; 2; 3; 4; 5; 6]%nat r.

Definition slide (a : bytes) : list Z := fold_left slide_step (seq 0 256) (scalar_bits a).

(** [Ai[]], an index out of range is undefined. *)
Definition cached_undefined : orlp_ge_cached (option Z) := Ge_cached fe_undefined fe_undefined fe_undefined fe_undefined.
Definition cached_at (l : list (orlp_ge_cached num)) (j : Z) : orlp_ge_cached num :=
  default cached_undefined (l !! Z.to_nat j).

(** A, 3A, 5A, 7A, 9A, 11A, 13A, 15A *)
Definition odd_multiples (Ap : orlp_ge_p3 num) : list (orlp_ge_cached num) :=
  let next A2 q :=
    let t := orlp_ge_add A2 q in
    let u := orlp_ge_p1p1_to_p3 t in
    orlp_ge_p3_to_cached u in
  let Ai0 := orlp_ge_p3_to_cached Ap in
  let t := orlp_ge_p3_dbl Ap in
  let A2 := orlp_ge_p1p1_to_p3 t in
  let Ai1 := next A2 Ai0 in
  let Ai2 := next A2 Ai1 in
  let Ai3 := next A2 Ai2 in
  let Ai4 := next A2 Ai3 in
  let Ai5 := next A2 Ai4 in
  let Ai6 := next A2 Ai5 in
  let Ai7 := next A2 Ai6 in
  [Ai0; Ai1; Ai2; Ai3; Ai4; Ai5; Ai6; Ai7].

(** One turn of the main loop, at digit [i]. *)
Definition double_step (Ai : list (orlp_ge_cached num)) (aslide bslide : list Z) (r : orlp_ge_p2 num) (i : nat) : orlp_ge_p2 num :=
  let ai := nth i aslide 0 in
  let bi := nth i bslide 0 in
  let t := orlp_ge_p2_dbl r in
  let t :=
    if 0 <? ai then orlp_ge_add (orlp_ge_p1p1_to_p3 t) (cached_at Ai (ai ÷ 2))
    else if ai <? 0 then orlp_ge_sub (orlp_ge_p1p1_to_p3 t) (cached_at Ai (- ai ÷ 2))
    else t in
  let t :=
    if 0 <? bi then orlp_ge_madd (orlp_ge_p1p1_to_p3 t) (table_at Bi (Z.to_nat (bi ÷ 2)))
    else if bi <? 0 then orlp_ge_msub (orlp_ge_p1p1_to_p3 t) (table_at Bi (Z.to_nat (- bi ÷ 2)))
    else t in
  orlp_ge_p1p1_to_p2 t.

(** [for (i = 255; i >= 0; --i) if (aslide[i] || bslide[i]) break;]: the digits that are left. *)
Fixpoint top_digit (n : nat) (aslide bslide : list Z) : nat :=
  match n with
  | O => O
  | S n => if negb (nth n aslide 0 =? 0) || negb (nth n bslide 0 =? 0) then S n else top_digit n aslide bslide
  end.

Definition orlp_ge_double_scalarmult_vartime (a : bytes) (Ap : orlp_ge_p3 num) (b : bytes) : orlp_ge_p2 num :=
  let aslide := slide a in
  let bslide := slide b in
  let Ai := odd_multiples Ap in
  fold_left (double_step Ai aslide bslide) (rev (seq 0 (top_digit 256 aslide bslide))) orlp_ge_p2_0.
