(* ===== verification/GeTableFacts.v ===== *)
(** * GeTableFacts: the tables are multiples of the base point

    Checked by computation: each entry is on the curve, its neighbours differ by the first
    one of the row, and a row is 256 times the one before it.  The sums are compared
    without divisions. *)
From Stdlib Require Import Zmod Field.
From Bignums Require Import BigZ.BigZ.
From S2P Require Import Prelude CInt Fe25519 FeFacts ScFacts Primes Edwards EdGroup Ge25519 GeFacts GeBytes GeTables GeScalar.
Local Open Scope F_scope.
Add Field F_field_inst : F_field.
Opaque Zmod.add Zmod.sub Zmod.mul Zmod.opp Zmod.mdiv Zmod.inv Zmod.of_Z.

(** ** Computing in the field *)

Definition bigp : bigZ := Eval vm_compute in BigZ.of_Z p25519.
Definition bigd : bigZ := Eval vm_compute in BigZ.of_Z d25519.
(** 1/2 *)
Definition bighalf : bigZ := Eval vm_compute in BigZ.of_Z ((p25519 + 1) / 2).

Declare Scope big_scope.
Delimit Scope big_scope with big.
Definition bmul (a b : bigZ) : bigZ := BigZ.modulo (BigZ.mul a b) bigp.
Definition badd (a b : bigZ) : bigZ := BigZ.add a b.
Definition bsub (a b : bigZ) : bigZ := BigZ.sub a b.
Definition beq (a b : bigZ) : bool := BigZ.eqb (BigZ.modulo (bsub a b) bigp) BigZ.zero.
Arguments bmul (a b)%_big. Arguments badd (a b)%_big. Arguments bsub (a b)%_big. Arguments beq (a b)%_big.
Notation "a * b" := (bmul a b) : big_scope.
Notation "a + b" := (badd a b) : big_scope.
Notation "a - b" := (bsub a b) : big_scope.

Definition val (a : bigZ) : F := toF (BigZ.to_Z a).

Lemma bigp_val : BigZ.to_Z bigp = p25519.
Proof. vm_compute. reflexivity. Qed.
Lemma val_mul a b : val (a * b)%big = val a * val b.
Proof.
  unfold val, bmul. rewrite BigZ.spec_modulo, BigZ.spec_mul, bigp_val, <- toF_mul. apply toF_eq. apply Z.mod_mod. done.
Qed.
Lemma val_add a b : val (a + b)%big = val a + val b.
Proof. unfold val, badd. by rewrite BigZ.spec_add, toF_add. Qed.
Lemma val_sub a b : val (a - b)%big = val a - val b.
Proof. unfold val, bsub. by rewrite BigZ.spec_sub, toF_sub. Qed.
Lemma val_0 : val BigZ.zero = 0.
Proof. unfold val. by rewrite BigZ.spec_0, toF_0. Qed.
Lemma val_1 : val BigZ.one = 1.
Proof. unfold val. by rewrite BigZ.spec_1, toF_1. Qed.
Lemma val_d : val bigd = dF.
Proof. unfold val. replace (BigZ.to_Z bigd) with d25519 by (vm_compute; reflexivity). done. Qed.
Lemma val_half : val bighalf + val bighalf = 1.
Proof. rewrite <- val_add, <- val_1. unfold badd. apply toF_eq. vm_compute. reflexivity. Qed.

Lemma beq_val a b : beq a b = true -> val a = val b.
Proof.
  unfold beq, bsub. rewrite BigZ.spec_eqb, BigZ.spec_modulo, BigZ.spec_sub, bigp_val, BigZ.spec_0. intros H%Z.eqb_eq.
  apply F_sub_0. unfold val. rewrite <- toF_sub, <- toF_0. apply toF_eq. unfold eqp. by rewrite H.
Qed.
Ltac vals := repeat first [rewrite val_mul|rewrite val_add|rewrite val_sub|rewrite val_0|rewrite val_1|rewrite val_d].
Ltac vals_in H := repeat first [rewrite val_mul in H|rewrite val_add in H|rewrite val_sub in H|rewrite val_0 in H|rewrite val_1 in H|rewrite val_d in H].

(** ** Points by their coordinates *)

Definition at_ (c : bigZ * bigZ) (P : pt) : Prop := px P = val c.1 /\ py P = val c.2.

Lemma at_unique c P Q : at_ c P -> at_ c Q -> P = Q.
Proof. intros [H1 H2] [H3 H4]. apply pt_eq; congruence. Qed.

Definition check_curve (c : bigZ * bigZ) : bool :=
  let '(x, y) := c in let xx := (x * x)%big in let yy := (y * y)%big in
  beq (bigd * (xx * yy))%big (yy - xx - BigZ.one)%big.

Lemma check_curve_ok c : check_curve c = true -> exists P, at_ c P.
Proof.
  destruct c as [x y]. unfold check_curve. cbv zeta. intros H%beq_val. vals_in H.
  assert (on_curve (val x) (val y)) as Hc by (unfold on_curve; rewrite <- H; ring).
  exists (pt_of _ _ Hc). split; reflexivity.
Qed.

(** [c3 = c1 + c2] *)
Definition check_sum (c1 c2 c3 : bigZ * bigZ) : bool :=
  let '(x1, y1) := c1 in let '(x2, y2) := c2 in let '(x3, y3) := c3 in
  let a := (x1 * y2)%big in let b := (y1 * x2)%big in
  let k := (bigd * (a * b))%big in
  beq (x3 + x3 * k)%big (a + b)%big && beq (y3 - y3 * k)%big (y1 * y2 + x1 * x2)%big.

Lemma cancel_r (a b c : F) : c <> 0 -> a * c = b * c -> a = b.
Proof. intros Hc H. apply F_sub_0. destruct (F_mul_0 (a - b) c) as [E|E]; [|exact E|done]. transitivity (a * c - b * c); [ring|]. rewrite H. ring. Qed.

Lemma check_sum_ok c1 c2 c3 P Q : check_sum c1 c2 c3 = true -> at_ c1 P -> at_ c2 Q -> at_ c3 (padd P Q).
Proof.
  destruct c1 as [x1 y1], c2 as [x2 y2], c3 as [x3 y3]. unfold check_sum. cbv zeta.
  intros [Hx%beq_val Hy%beq_val]%andb_true_iff [X1 Y1] [X2 Y2]. cbn [fst snd] in *.
  vals_in Hx. vals_in Hy. rewrite <- ?X1, <- ?Y1, <- ?X2, <- ?Y2 in Hx, Hy.
  pose proof (complete_plus _ _ _ _ (pt_on P) (pt_on Q)) as Hp. pose proof (complete_minus _ _ _ _ (pt_on P) (pt_on Q)) as Hm.
  split; [rewrite px_padd; unfold add_x; apply (cancel_r _ _ _ Hp)|rewrite py_padd; unfold add_y; apply (cancel_r _ _ _ Hm)].
  - transitivity (px P * py Q + py P * px Q); [fieldF|]. rewrite <- Hx. cbn [fst]. ring.
  - transitivity (py P * py Q + px P * px Q); [fieldF|]. rewrite <- Hy. cbn [snd]. ring.
Qed.

(** Each element of a list is [step] more than the one before it. *)
Fixpoint check_chain (step prev : bigZ * bigZ) (l : list (bigZ * bigZ)) : bool :=
  match l with [] => true | c :: l => check_sum prev step c && check_chain step c l end.

Lemma check_chain_ok step prev l Q a b :
  check_chain step prev l = true -> at_ step (smul b Q) -> at_ prev (smul a Q) ->
  forall j c, l !! j = Some c -> at_ c (smul (a + Z.of_nat (S j) * b) Q).
Proof.
  revert prev a. induction l as [|c' l IH]; intros prev a H Hs Hp j c Hj; [done|].
  cbn [check_chain] in H. apply andb_true_iff in H as [Hc Hl].
  assert (at_ c' (smul (a + b) Q)) as H' by (rewrite smul_add; by apply (check_sum_ok prev step)).
  destruct j as [|j].
  - injection Hj as <-. by replace (a + Z.of_nat 1 * b)%Z with (a + b)%Z by lia.
  - replace (a + Z.of_nat (S (S j)) * b)%Z with (a + b + Z.of_nat (S j) * b)%Z by lia. by apply (IH c').
Qed.

(** ** Doubling without divisions *)

Definition projective : Type := bigZ * bigZ * bigZ.
Definition at_proj (q : projective) (P : pt) : Prop :=
  let '(X, Y, Z) := q in exists z, z <> 0 /\ val X = px P * z /\ val Y = py P * z /\ val Z = z.

Definition proj_of (c : bigZ * bigZ) : projective := (c.1, c.2, BigZ.one).
Lemma proj_of_ok c P : at_ c P -> at_proj (proj_of c) P.
Proof. intros [E1 E2]. exists 1. split; [apply F_1_nz|]. rewrite E1, E2, val_1. repeat split; ring. Qed.

Definition proj_double (q : projective) : projective :=
  let '(X, Y, Z) := q in
  let xx := (X * X)%big in let yy := (Y * Y)%big in let zz := (Z * Z)%big in let xy := (X * Y)%big in
  let g := (yy - xx)%big in let h := (zz + zz - g)%big in
  ((xy + xy) * h, (yy + xx) * g, g * h)%big.

Lemma proj_double_ok q P : at_proj q P -> at_proj (proj_double q) (padd P P).
Proof.
  destruct q as [[X Y] Z]. intros (z & Hz & HX & HY & HZ). destruct (double_nz P) as [N1 N2]. unfold proj_double, at_proj. cbv zeta.
  exists ((z * z * (py P * py P - px P * px P)) * (z * z * ((1 + 1) - (py P * py P - px P * px P)))).
  split; [auto 10 using F_mul_nz|]. vals. rewrite HX, HY, HZ. split_and!.
  - transitivity (px (padd P P) * (py P * py P - px P * px P) * (z * z * z * z) * ((1 + 1) - (py P * py P - px P * px P))); [rewrite double_x|]; ring.
  - transitivity (py (padd P P) * ((1 + 1) - (py P * py P - px P * px P)) * (z * z * z * z) * (py P * py P - px P * px P)); [rewrite double_y|]; ring.
  - ring.
Qed.

Lemma proj_doubles n q P : at_proj q P -> at_proj (Nat.iter n proj_double q) (smul (2 ^ Z.of_nat n) P).
Proof.
  intros H. induction n as [|n IH]; [by rewrite smul_1|]. cbn [Nat.iter].
  replace (2 ^ Z.of_nat (S n))%Z with (2 * 2 ^ Z.of_nat n)%Z by (rewrite Nat2Z.inj_succ, Z.pow_succ_r by lia; done).
  rewrite smul_mul, smul_2. by apply proj_double_ok.
Qed.

Definition check_proj (q : projective) (c : bigZ * bigZ) : bool :=
  let '(X, Y, Z) := q in beq (c.1 * Z)%big X && beq (c.2 * Z)%big Y.
Lemma check_proj_ok q c P : check_proj q c = true -> at_proj q P -> at_ c P.
Proof.
  destruct q as [[X Y] Z], c as [x y]. unfold check_proj. intros [Hx%beq_val Hy%beq_val]%andb_true_iff (z & Hz & HX & HY & HZ).
  vals_in Hx. vals_in Hy. cbn [fst snd] in *.
  split; cbn [fst snd]; apply (cancel_r _ _ z Hz); [rewrite <- HX, <- Hx, HZ|rewrite <- HY, <- Hy, HZ]; reflexivity.
Qed.

(** ** Entries *)

Definition big26 : bigZ := Eval vm_compute in BigZ.of_Z (2 ^ 26).
Definition big25 : bigZ := Eval vm_compute in BigZ.of_Z (2 ^ 25).
Definition fe_big (f : fe Z) : bigZ :=
  let h (a b c : bigZ) := BigZ.add a (BigZ.mul b c) in let o := BigZ.of_Z in
  h (o (fe0 f)) big26 (h (o (fe1 f)) big25 (h (o (fe2 f)) big26 (h (o (fe3 f)) big25 (h (o (fe4 f)) big26
    (h (o (fe5 f)) big25 (h (o (fe6 f)) big26 (h (o (fe7 f)) big25 (h (o (fe8 f)) big26 (o (fe9 f)))))))))).

Lemma fe_big_val f : val (fe_big f) = toF (fval f).
Proof.
  unfold val, fe_big. f_equal. cbv zeta beta. repeat (rewrite BigZ.spec_add || rewrite BigZ.spec_mul || rewrite BigZ.spec_of_Z).
  replace (BigZ.to_Z big26) with (2 ^ 26)%Z by (vm_compute; reflexivity).
  replace (BigZ.to_Z big25) with (2 ^ 25)%Z by (vm_compute; reflexivity). unfold fval. ring.
Qed.

Definition small (f : fe Z) : bool :=
  let e := (110 * 2 ^ 25 / 100)%Z in let o := (110 * 2 ^ 24 / 100)%Z in
  forallb (fun z => Z.abs z <=? e)%Z [fe0 f; fe2 f; fe4 f; fe6 f; fe8 f] &&
  forallb (fun z => Z.abs z <=? o)%Z [fe1 f; fe3 f; fe5 f; fe7 f; fe9 f].
Lemma small_mid f : small f = true -> mid f.
Proof.
  unfold small, le25, bounded. cbv zeta. cbn [forallb]. rewrite !andb_true_iff, !Z.leb_le. intros H. decompose [and] H. repeat split; assumption.
Qed.

(** The coordinates an entry stands for. *)
Definition coords (q : orlp_ge_precomp Z) : bigZ * bigZ :=
  let yp := fe_big (yplusx q) in let ym := fe_big (yminusx q) in
  ((bighalf * (yp - ym))%big, (bighalf * (yp + ym))%big).

Definition check_entry (q : orlp_ge_precomp Z) : bool :=
  small (yplusx q) && small (yminusx q) && small (xy2d q) && check_curve (coords q) &&
  (let '(x, y) := coords q in let k := (bigd * (x * y))%big in beq (fe_big (xy2d q)) (k + k)%big).

Lemma check_entry_ok q P : check_entry q = true -> at_ (coords q) P -> precomp_is (precomp_lit q) P.
Proof.
  unfold check_entry. rewrite !andb_true_iff. intros [[[[S1 S2] S3] _] H] [HX HY].
  unfold coords in *. cbv zeta in *. cbn [fst snd] in *. apply beq_val in H. vals_in H. vals_in HX. vals_in HY.
  rewrite !fe_big_val in *. set (yp := toF (fval (yplusx q))) in *. set (ym := toF (fval (yminusx q))) in *.
  set (hf := val bighalf) in *. pose proof val_half as Hh. fold hf in Hh.
  unfold precomp_is, precomp_lit, precomp_map. cbn [yplusx yminusx xy2d]. split_and!.
  - eapply is_eq; [apply is_lit, small_mid, S1|]. fold yp. rewrite HX, HY.
    transitivity (yp * (hf + hf)); [rewrite Hh; ring|ring].
  - eapply is_eq; [apply is_lit, small_mid, S2|]. fold ym. rewrite HX, HY.
    transitivity (ym * (hf + hf)); [rewrite Hh; ring|ring].
  - eapply is_eq; [apply is_lit, small_mid, S3|]. rewrite H, HX, HY. ring.
Qed.

(** ** The table of powers of 256 *)

Definition check_row (row : list (orlp_ge_precomp Z)) : bool :=
  (length row =? 8)%nat && forallb check_entry row &&
  match coords <$> row with [] => false | c :: l => check_chain c c l end.

Definition row_first (row : list (orlp_ge_precomp Z)) : bigZ * bigZ :=
  match row with q :: _ => coords q | [] => (BigZ.zero, BigZ.zero) end.
Definition row_last (row : list (orlp_ge_precomp Z)) : bigZ * bigZ :=
  match row !! 7%nat with Some q => coords q | None => (BigZ.zero, BigZ.zero) end.
(** [c'] is 2^n times [c]. *)
Definition check_doubled (n : nat) (c c' : bigZ * bigZ) : bool := check_proj (Nat.iter n proj_double (proj_of c)) c'.

Fixpoint check_rows (rows : list (list (orlp_ge_precomp Z))) : bool :=
  match rows with
  | [] => true
  | row :: rest => check_row row && match rest with row' :: _ => check_doubled 5 (row_last row) (row_first row') | [] => true end && check_rows rest
  end.

Lemma check_row_at row Q k : check_row row = true -> at_ (row_first row) (smul k Q) ->
  forall j q, row !! j = Some q -> at_ (coords q) (smul ((Z.of_nat j + 1) * k) Q).
Proof.
  unfold check_row. rewrite !andb_true_iff. intros [[_ _] Hc] Hf j q Hj.
  destruct row as [|q0 row]; [inversion Hj|]. cbn [fmap list_fmap row_first] in *.
  destruct j as [|j].
  - injection Hj as <-. replace ((Z.of_nat 0 + 1) * k)%Z with k by lia. exact Hf.
  - change (row !! j = Some q) in Hj. pose proof (check_chain_ok (coords q0) (coords q0) (coords <$> row) Q k k Hc Hf Hf j (coords q)) as H.
    replace ((Z.of_nat (S j) + 1) * k)%Z with (k + Z.of_nat (S j) * k)%Z by lia. apply H. rewrite list_lookup_fmap, Hj. reflexivity.
Qed.

Lemma check_row_entry row q j : check_row row = true -> row !! j = Some q -> check_entry q = true.
Proof.
  unfold check_row. rewrite !andb_true_iff. intros [[_ He] _] Hj. rewrite forallb_forall in He. apply He.
  apply list_elem_of_In. by apply list_elem_of_lookup_2 in Hj.
Qed.

Lemma check_row_length row : check_row row = true -> length row = 8%nat.
Proof. unfold check_row. rewrite !andb_true_iff. intros [[H%Nat.eqb_eq _] _]. exact H. Qed.

Lemma doubled_at n c c' P : check_doubled n c c' = true -> at_ c P -> at_ c' (smul (2 ^ Z.of_nat n) P).
Proof. intros H Hc. exact (check_proj_ok _ _ _ H (proj_doubles n _ _ (proj_of_ok _ _ Hc))). Qed.

Lemma row_last_at row Q k : check_row row = true -> at_ (row_first row) (smul k Q) -> at_ (row_last row) (smul (8 * k) Q).
Proof.
  intros Hr Hf. unfold row_last. destruct (lookup_lt_is_Some_2 row 7) as [q Hq]; [rewrite (check_row_length row Hr); lia|].
  rewrite Hq. exact (check_row_at row Q k Hr Hf 7 q Hq).
Qed.

Lemma check_next_ok row row' Q k : check_row row = true -> check_doubled 5 (row_last row) (row_first row') = true -> at_ (row_first row) (smul k Q) ->
  at_ (row_first row') (smul (256 * k) Q).
Proof.
  intros Hr Hn Hf. pose proof (doubled_at 5 _ _ _ Hn (row_last_at row Q k Hr Hf)) as H. rewrite <- smul_mul in H.
  replace (256 * k)%Z with (2 ^ Z.of_nat 5 * (8 * k))%Z by lia. exact H.
Qed.

Lemma check_rows_ok rows Q k : check_rows rows = true -> (forall row, rows !! 0%nat = Some row -> at_ (row_first row) (smul k Q)) ->
  forall i row, rows !! i = Some row -> check_row row = true /\ at_ (row_first row) (smul (256 ^ Z.of_nat i * k) Q).
Proof.
  revert k. induction rows as [|row0 rows IH]; intros k H Hf i row Hi; [inversion Hi|].
  cbn [check_rows] in H. apply andb_true_iff in H as [[H0 Hn]%andb_true_iff Hr]. specialize (Hf row0 eq_refl).
  destruct i as [|i].
  - injection Hi as <-. split; [exact H0|]. by rewrite Z.mul_1_l.
  - change (rows !! i = Some row) in Hi. replace (256 ^ Z.of_nat (S i) * k)%Z with (256 ^ Z.of_nat i * (256 * k))%Z
      by (rewrite Nat2Z.inj_succ, Z.pow_succ_r by lia; ring).
    apply (IH (256 * k)%Z Hr); [|exact Hi]. intros row' E. destruct rows as [|row1 rows]; [discriminate E|].
    injection E as <-. exact (check_next_ok row0 row1 Q k H0 Hn Hf).
Qed.

(** ** The base point *)

Definition Bx : Z := 15112221349535400772501151409588531511454012693041857206046113283949847762202.
Definition By : Z := 46316835694926478169428394003475163141307993866256225615783033603165251855960.

Lemma B_on_curve : on_curve (toF Bx) (toF By).
Proof.
  unfold on_curve, dF. rewrite <- toF_1, <- !toF_mul, <- !toF_sub. apply toF_eq. vm_compute. reflexivity.
Qed.
Definition B25519 : pt := pt_of (toF Bx) (toF By) B_on_curve.

(** The point (x, 4/5) with x even. *)
Lemma B_ordinate : py B25519 * toF 5 = toF 4 /\ parity (px B25519) = 0%Z.
Proof.
  split.
  - cbn [B25519 py]. rewrite <- toF_mul. apply toF_eq. vm_compute. reflexivity.
  - unfold parity. cbn [B25519 px]. rewrite rep_toF. vm_compute. reflexivity.
Qed.

Definition B_big : bigZ * bigZ := Eval vm_compute in (BigZ.of_Z Bx, BigZ.of_Z By).
Lemma B_big_at : at_ B_big B25519.
Proof.
  split; cbn [B25519 px py]; unfold val; f_equal; vm_compute; reflexivity.
Qed.

(** The same point in other coordinates modulo p. *)
Definition same (c c' : bigZ * bigZ) : bool := beq c.1 c'.1 && beq c.2 c'.2.
Lemma same_at c c' P : same c c' = true -> at_ c P -> at_ c' P.
Proof. unfold same. intros [E1%beq_val E2%beq_val]%andb_true_iff [H1 H2]. split; congruence. Qed.

Lemma base_checks : check_rows base = true /\ same B_big (row_first base_0) = true /\ length base = 32%nat.
Proof. vm_compute. split_and!; reflexivity. Qed.

(** [base[i][j] = (j+1)*256^i*B], as the comment of the source says. *)
Lemma base_entry i j : (i < 32)%nat -> (j < 8)%nat ->
  exists row q, base !! i = Some row /\ row !! j = Some q /\
    precomp_is (precomp_lit q) (smul ((Z.of_nat j + 1) * 256 ^ Z.of_nat i) B25519).
Proof.
  intros Hi Hj. destruct base_checks as (Hc & Hs & Hl).
  destruct (lookup_lt_is_Some_2 base i) as [row Hrow]; [rewrite Hl; exact Hi|].
  destruct (check_rows_ok base B25519 1 Hc) with (i := i) (row := row) as [Hr Hf]; [|exact Hrow|].
  { intros row0 E. injection E as <-. rewrite smul_1. exact (same_at _ _ _ Hs B_big_at). }
  destruct (lookup_lt_is_Some_2 row j) as [q Hq]; [rewrite (check_row_length row Hr); exact Hj|].
  exists row, q. split; [exact Hrow|]. split; [exact Hq|].
  apply check_entry_ok; [exact (check_row_entry row q j Hr Hq)|].
  rewrite Z.mul_1_r in Hf. exact (check_row_at row B25519 _ Hr Hf j q Hq).
Qed.

(** [Bi]: B, 3B, 5B, up to 15B. *)
Definition check_Bi : bool :=
  match Bi, base_0 with
  | q0 :: rest, _ :: b2 :: _ =>
      forallb check_entry Bi && same B_big (coords q0) && check_chain (coords b2) (coords q0) (coords <$> rest)
  | _, _ => false
  end.
Lemma Bi_checks : check_Bi = true /\ length Bi = 8%nat.
Proof. vm_compute. split; reflexivity. Qed.

Lemma check_Bi_ok l l0 : match l, l0 with
    | q0 :: rest, _ :: b2 :: _ =>
        forallb check_entry l && same B_big (coords q0) && check_chain (coords b2) (coords q0) (coords <$> rest)
    | _, _ => false end = true ->
  (forall q, l0 !! 1%nat = Some q -> at_ (coords q) (smul 2 B25519)) ->
  forall j q, l !! j = Some q -> precomp_is (precomp_lit q) (smul (2 * Z.of_nat j + 1) B25519).
Proof.
  intros H H2 j q Hj. destruct l as [|q0 rest]; [discriminate H|]. destruct l0 as [|? [|b2 ?]]; [discriminate H..|].
  apply andb_true_iff in H as [[He Hs]%andb_true_iff Hc]. specialize (H2 b2 eq_refl).
  pose proof (same_at _ _ _ Hs B_big_at) as H0. rewrite <- (smul_1 B25519) in H0.
  apply check_entry_ok.
  - rewrite forallb_forall in He. apply He, list_elem_of_In. exact (list_elem_of_lookup_2 _ _ _ Hj).
  - destruct j as [|j]; [injection Hj as <-; exact H0|]. change (rest !! j = Some q) in Hj.
    pose proof (check_chain_ok (coords b2) (coords q0) (coords <$> rest) B25519 1 2 Hc H2 H0 j (coords q)) as H.
    replace (2 * Z.of_nat (S j) + 1)%Z with (1 + Z.of_nat (S j) * 2)%Z by lia. apply H. rewrite list_lookup_fmap, Hj. reflexivity.
Qed.

Lemma Bi_entry j : (j < 8)%nat ->
  exists q, Bi !! j = Some q /\ precomp_is (precomp_lit q) (smul (2 * Z.of_nat j + 1) B25519).
Proof.
  intros Hj. destruct Bi_checks as [Hc Hl]. destruct (lookup_lt_is_Some_2 Bi j) as [q Hq]; [rewrite Hl; exact Hj|].
  exists q. split; [exact Hq|]. revert j q Hj Hq. intros j q _. revert j q. apply (check_Bi_ok Bi base_0 Hc).
  intros q Hq. destruct base_checks as (Hr & Hs & _).
  destruct (check_rows_ok base B25519 1 Hr) with (i := 0%nat) (row := base_0) as [H0 Hf]; [|reflexivity|].
  { intros row0 E. injection E as <-. rewrite smul_1. exact (same_at _ _ _ Hs B_big_at). }
  exact (check_row_at base_0 B25519 1 H0 Hf 1 q Hq).
Qed.

(** ** The order of the base point *)

Definition proj_add (q : projective) (c : bigZ * bigZ) : projective :=
  let '(X, Y, Z) := q in let '(x, y) := c in
  let zz := (Z * Z)%big in let a := (X * y)%big in let b := (Y * x)%big in
  let k := (bigd * (a * b))%big in
  let g := (zz + k)%big in let h := (zz - k)%big in
  (Z * (a + b) * h, Z * (Y * y + X * x) * g, g * h)%big.

Lemma proj_add_ok q c P Q : at_proj q P -> at_ c Q -> at_proj (proj_add q c) (padd P Q).
Proof.
  destruct q as [[X Y] Z], c as [x y]. intros (z & Hz & HX & HY & HZ) [Hx Hy]. cbn [fst snd] in *.
  pose proof (complete_plus _ _ _ _ (pt_on P) (pt_on Q)) as Hp. pose proof (complete_minus _ _ _ _ (pt_on P) (pt_on Q)) as Hm.
  set (k := dF * px P * py P * px Q * py Q) in *. unfold proj_add, at_proj. cbv zeta.
  exists (z * z * (1 + k) * (z * z * (1 - k))). split; [auto 10 using F_mul_nz|]. vals. rewrite HX, HY, HZ, <- Hx, <- Hy.
  assert (px (padd P Q) * (1 + k) = px P * py Q + py P * px Q) as Ex.
  { rewrite px_padd. unfold add_x, k in *. fieldF. }
  assert (py (padd P Q) * (1 - k) = py P * py Q + px P * px Q) as Ey.
  { rewrite py_padd. unfold add_y, k in *. fieldF. }
  repeat split.
  - transitivity (px (padd P Q) * (1 + k) * (z * z) * (z * z) * (1 - k)); [rewrite Ex; unfold k|]; ring.
  - transitivity (py (padd P Q) * (1 - k) * (z * z) * (z * z) * (1 + k)); [rewrite Ey; unfold k|]; ring.
  - unfold k. ring.
Qed.

Fixpoint proj_smul (e : positive) (c : bigZ * bigZ) : projective :=
  match e with
  | xH => proj_of c
  | xO e => proj_double (proj_smul e c)
  | xI e => proj_add (proj_double (proj_smul e c)) c
  end.
Lemma proj_smul_ok e c P : at_ c P -> at_proj (proj_smul e c) (smul (Z.pos e) P).
Proof.
  intros Hc. induction e as [e IH|e IH|]; cbn [proj_smul].
  - replace (Z.pos e~1) with (2 * Z.pos e + 1)%Z by lia. rewrite smul_succ, smul_mul, smul_2.
    apply proj_add_ok; [|exact Hc]. by apply proj_double_ok.
  - replace (Z.pos e~0) with (2 * Z.pos e)%Z by lia. rewrite smul_mul, smul_2. by apply proj_double_ok.
  - rewrite smul_1. by apply proj_of_ok.
Qed.

Definition check_zero (q : projective) : bool := let '(X, Y, Z) := q in beq X BigZ.zero && beq Y Z.
Lemma check_zero_ok q P : check_zero q = true -> at_proj q P -> P = pzero.
Proof.
  destruct q as [[X Y] Z]. unfold check_zero. intros [Hx%beq_val Hy%beq_val]%andb_true_iff (z & Hz & HX & HY & HZ).
  vals_in Hx. apply pt_eq; cbn [pzero px py]; apply (cancel_r _ _ z Hz).
  - rewrite <- HX, Hx. ring.
  - rewrite <- HY, Hy, HZ. ring.
Qed.

Lemma order_check : check_zero (proj_smul (Z.to_pos L25519) B_big) = true.
Proof. vm_compute. reflexivity. Qed.

Lemma order_B : smul L25519 B25519 = pzero.
Proof. exact (check_zero_ok _ _ order_check (proj_smul_ok (Z.to_pos L25519) _ _ B_big_at)). Qed.

Lemma smul_mod a : smul (a mod L25519) B25519 = smul a B25519.
Proof.
  rewrite (Z.div_mod a L25519) at 2 by (by vm_compute). rewrite smul_add, Z.mul_comm, smul_mul, order_B, smul_zero.
  symmetry. apply padd_zero_l.
Qed.
