(* ===== verification/GeScalarFacts.v ===== *)
(** * GeScalarFacts: the scalar multiplications compute multiples of points *)
From Stdlib Require Import Zmod Field.
From S2P Require Import Prelude Octets CInt Fe25519 FeFacts FeBytes ScFacts Primes Edwards EdGroup Ge25519 GeFacts GeBytes GeTables GeScalar GeTableFacts.
Add Field F_field_inst : F_field.
Opaque Zmod.add Zmod.sub Zmod.mul Zmod.opp Zmod.mdiv Zmod.inv Zmod.of_Z.

#[local] Existing Instance checked.

(** ** Selection *)

Lemma fe_cmov_0 f g : fe_cmov (c_fe f) (c_fe g) 0 = c_fe f.
Proof.
  unfold fe_cmov. rewrite !fe_values_c. unfold orlp_fe_cmov, fe_xor, fe_xor_masked. cbn.
  by rewrite !Z.land_0_r, !Z.lxor_0_r; destruct f.
Qed.
Lemma fe_cmov_1 f g : fe_cmov (c_fe f) (c_fe g) 1 = c_fe g.
Proof.
  unfold fe_cmov. rewrite !fe_values_c. unfold orlp_fe_cmov, fe_xor, fe_xor_masked. cbn.
  by rewrite !Z.land_m1_r, <- !Z.lxor_assoc, !Z.lxor_nilpotent, !Z.lxor_0_l; destruct g.
Qed.

Lemma fe_cmov_is B e f x y c : is_fe B e x -> is_fe B f y -> c = 0 \/ c = 1 ->
  is_fe B (fe_cmov e f c) (if c =? 1 then y else x).
Proof.
  intros (a & -> & Ha & Va) (b & -> & Hb & Vb) [-> | ->]; cbn [Z.eqb Pos.eqb].
  - rewrite fe_cmov_0. by exists a.
  - rewrite fe_cmov_1. by exists b.
Qed.

Lemma cmov_is t u P Q c : precomp_is t P -> precomp_is u Q -> c = 0 \/ c = 1 ->
  precomp_is (cmov t u c) (if c =? 1 then Q else P).
Proof.
  intros (T1 & T2 & T3) (U1 & U2 & U3) Hc. unfold cmov.
  pose proof (fe_cmov_is _ _ _ _ _ c T1 U1 Hc). pose proof (fe_cmov_is _ _ _ _ _ c T2 U2 Hc).
  pose proof (fe_cmov_is _ _ _ _ _ c T3 U3 Hc). destruct (c =? 1); split_and!; assumption.
Qed.

Lemma precomp_opp t P : precomp_is t P ->
  precomp_is (Ge_precomp (orlp_fe_copy (yminusx t)) (orlp_fe_copy (yplusx t)) (orlp_fe_neg (xy2d t))) (popp P).
Proof.
  intros (T1 & T2 & T3). unfold precomp_is. cbn [yplusx yminusx xy2d]. rewrite px_popp, py_popp. split_and!.
  - apply is_copy. eapply is_eq; [exact T2|ring].
  - apply is_copy. eapply is_eq; [exact T1|ring].
  - eapply is_eq; [by apply is_neg|ring].
Qed.

Lemma precomp_zero : precomp_is (Ge_precomp orlp_fe_1 orlp_fe_1 orlp_fe_0) pzero.
Proof.
  unfold precomp_is. cbn [yplusx yminusx xy2d pzero px py]. split_and!; (eapply is_eq; [fe_bounds|ring]).
Qed.

(** The digits are small, so these are tables. *)
Definition digits_to (n : nat) : list Z := (fun i => Z.of_nat i - Z.of_nat n) <$> seq 0 (2 * n + 1).
Lemma in_digits n b : - Z.of_nat n <= b <= Z.of_nat n -> b ∈ digits_to n.
Proof.
  intros Hb. unfold digits_to. apply list_elem_of_fmap. exists (Z.to_nat (b + Z.of_nat n)). split; [lia|].
  apply elem_of_seq. lia.
Qed.
Lemma for_digits n (f : Z -> bool) b : forallb f (digits_to n) = true -> - Z.of_nat n <= b <= Z.of_nat n -> f b = true.
Proof. intros H Hb%in_digits. rewrite forallb_forall in H. by apply H, list_elem_of_In. Qed.

Lemma negative_eq b : -8 <= b <= 8 -> negative b = if b <? 0 then 1 else 0.
Proof. intros Hb. apply Z.eqb_eq. by apply (for_digits 8 (fun b => negative b =? if b <? 0 then 1 else 0)). Qed.
Lemma babs_eq b : -8 <= b <= 8 -> u8 (b - Z.shiftl (Z.land (- (if b <? 0 then 1 else 0)) b) 1) = Z.abs b.
Proof.
  intros Hb. apply Z.eqb_eq.
  by apply (for_digits 8 (fun b => u8 (b - Z.shiftl (Z.land (- (if b <? 0 then 1 else 0)) b) 1) =? Z.abs b)).
Qed.
Lemma equal_eq b c : -8 <= b <= 8 -> -8 <= c <= 8 -> equal (Z.abs b) c = if Z.abs b =? c then 1 else 0.
Proof.
  intros Hb Hc. apply Z.eqb_eq.
  apply (for_digits 8 (fun c => equal (Z.abs b) c =? if Z.abs b =? c then 1 else 0)); [|done].
  by apply (for_digits 8 (fun b => forallb (fun c => equal (Z.abs b) c =? if Z.abs b =? c then 1 else 0) (digits_to 8))).
Qed.

Lemma table_at_base pos j : (pos < 32)%nat -> (j < 8)%nat ->
  precomp_is (table_at (default [] (base !! pos)) j) (smul ((Z.of_nat j + 1) * 256 ^ Z.of_nat pos) B25519).
Proof.
  intros Hp Hj. destruct (base_entry pos j Hp Hj) as (row & q & E1 & E2 & H). rewrite E1. unfold table_at, default, from_option, id.
  rewrite E2. exact H.
Qed.

Lemma bit_01 (c : bool) : (if c then 1 else 0) = 0 \/ (if c then 1 else 0) = 1.
Proof. destruct c; [by right|by left]. Qed.
Lemma if_bit {A} (c : bool) (x y : A) : (if (if c then 1 else 0) =? 1 then x else y) = if c then x else y.
Proof. by destruct c. Qed.

Lemma select_is pos b : (pos < 32)%nat -> -8 <= b <= 8 ->
  precomp_is (select pos b) (smul (b * 256 ^ Z.of_nat pos) B25519).
Proof.
  intros Hp Hb. unfold select. rewrite (negative_eq b Hb), (babs_eq b Hb). cbv zeta.
  rewrite !(equal_eq b _ Hb) by lia. pose proof (fun j => table_at_base pos j Hp) as Ht.
  set (row := default [] (base !! pos)) in *. clearbody row. set (k := 256 ^ Z.of_nat pos) in *.
  pose proof (cmov_is _ _ _ _ _ precomp_zero (Ht 0%nat ltac:(lia)) (bit_01 (Z.abs b =? 1))) as H.
  apply (fun H => cmov_is _ _ _ _ _ H (Ht 1%nat ltac:(lia)) (bit_01 (Z.abs b =? 2))) in H.
  apply (fun H => cmov_is _ _ _ _ _ H (Ht 2%nat ltac:(lia)) (bit_01 (Z.abs b =? 3))) in H.
  apply (fun H => cmov_is _ _ _ _ _ H (Ht 3%nat ltac:(lia)) (bit_01 (Z.abs b =? 4))) in H.
  apply (fun H => cmov_is _ _ _ _ _ H (Ht 4%nat ltac:(lia)) (bit_01 (Z.abs b =? 5))) in H.
  apply (fun H => cmov_is _ _ _ _ _ H (Ht 5%nat ltac:(lia)) (bit_01 (Z.abs b =? 6))) in H.
  apply (fun H => cmov_is _ _ _ _ _ H (Ht 6%nat ltac:(lia)) (bit_01 (Z.abs b =? 7))) in H.
  apply (fun H => cmov_is _ _ _ _ _ H (Ht 7%nat ltac:(lia)) (bit_01 (Z.abs b =? 8))) in H.
  rewrite !if_bit in H.
  match type of H with precomp_is ?t ?P => set (t8 := t) in *; assert (P = smul (Z.abs b * k) B25519) as EP end.
  { clear H. assert (Z.abs b = 0 \/ Z.abs b = 1 \/ Z.abs b = 2 \/ Z.abs b = 3 \/ Z.abs b = 4 \/ Z.abs b = 5 \/ Z.abs b = 6 \/
      Z.abs b = 7 \/ Z.abs b = 8) as Hc by lia. decompose [or] Hc; match goal with E : Z.abs b = _ |- _ => rewrite E end; reflexivity. }
  rewrite EP in H. pose proof (cmov_is _ _ _ _ _ H (precomp_opp _ _ H) (bit_01 (b <? 0))) as H'. rewrite if_bit in H'.
  clearbody t8. destruct (Z.ltb_spec b 0).
  - rewrite <- smul_opp in H'. by replace (b * k) with (- (Z.abs b * k)) by (rewrite Z.abs_neq by lia; ring).
  - by replace (b * k) with (Z.abs b * k) by (by rewrite Z.abs_eq).
Qed.

(** ** Signed digits of four bits *)

(** The number that digits spell in base [2 ^ w]. *)
Definition digits_val (w : Z) (e : list Z) : Z := fold_right (fun d v => d + 2 ^ w * v) 0 e.

Section digits.
Context (w : Z) (Hw : 0 <= w).

Lemma digits_app e f : digits_val w (e ++ f) = digits_val w e + 2 ^ (w * Z.of_nat (length e)) * digits_val w f.
Proof.
  induction e as [|x e IH]; [rewrite Z.mul_0_r; change (2 ^ 0) with 1; change (digits_val w []) with 0; cbn [app]; lia|].
  cbn [app length]. change (digits_val w (x :: e ++ f)) with (x + 2 ^ w * digits_val w (e ++ f)).
  change (digits_val w (x :: e)) with (x + 2 ^ w * digits_val w e). rewrite IH.
  replace (w * Z.of_nat (S (length e))) with (w + w * Z.of_nat (length e)) by lia. rewrite Z.pow_add_r by lia. ring.
Qed.

Lemma digits_val_insert e i x : (i < length e)%nat ->
  digits_val w (<[i := x]> e) = digits_val w e + (x - nth i e 0) * 2 ^ (w * Z.of_nat i).
Proof.
  revert i. induction e as [|y e IH]; intros [|i] Hi; cbn [length] in Hi; try lia.
  - change (x + 2 ^ w * digits_val w e = y + 2 ^ w * digits_val w e + (x - y) * 2 ^ (w * 0)). rewrite Z.mul_0_r. lia.
  - change (digits_val w (<[S i := x]> (y :: e))) with (y + 2 ^ w * digits_val w (<[i := x]> e)).
    change (digits_val w (y :: e)) with (y + 2 ^ w * digits_val w e). cbn [nth]. rewrite IH by lia.
    replace (w * Z.of_nat (S i)) with (w + w * Z.of_nat i) by lia. rewrite Z.pow_add_r by lia. ring.
Qed.
End digits.

Lemma s8_small z : -128 <= z < 128 -> s8 z = z.
Proof. intros H. unfold s8. rewrite Z.mod_small by lia. lia. Qed.

Lemma nibbles_val_aux a :
  digits_val 4 (flat_map (fun i => [Z.land (Z.shiftr (octet_at a i) 0) 15; Z.land (Z.shiftr (octet_at a i) 4) 15]) (seq 0 (length a))) = le_val a.
Proof.
  induction a as [|b a IH]; [done|]. cbn [length seq flat_map]. rewrite <- seq_shift, flat_map_concat_map, map_map, <- flat_map_concat_map.
  rewrite digits_app by lia. change (flat_map _ (seq 0 (length a))) with
    (flat_map (fun i => [Z.land (Z.shiftr (octet_at a i) 0) 15; Z.land (Z.shiftr (octet_at a i) 4) 15]) (seq 0 (length a))).
  rewrite IH. cbn [length le_val]. change (octet_at (b :: a) 0) with (byte_to_Z b). change (2 ^ (4 * Z.of_nat 2)) with 256.
  change 15 with (Z.ones 4). rewrite !Z.land_ones by lia. rewrite Z.shiftr_0_r, Z.shiftr_div_pow2 by lia.
  unfold digits_val. cbn [fold_right]. pose proof (byte_to_Z_range b). dlia.
Qed.
Lemma nibbles_val a : length a = 32%nat -> digits_val 4 (nibbles a) = le_val a.
Proof. intros H. rewrite <- (nibbles_val_aux a), H. done. Qed.

Lemma nibbles_length a : length (nibbles a) = 64%nat.
Proof. done. Qed.

Lemma nibble_range x k : 0 <= Z.land (Z.shiftr x k) 15 <= 15.
Proof.
  change 15 with (Z.ones 4) at 1 2. rewrite Z.land_ones by lia. pose proof (Z.mod_pos_bound (Z.shiftr x k) (2 ^ 4)). 
  change (Z.ones 4) with 15. lia.
Qed.
Lemma nibbles_range a i : 0 <= nth i (nibbles a) 0 <= 15.
Proof.
  destruct (nth_in_or_default i (nibbles a) 0) as [Hi|E]; [|unfold nibbles in *; lia].
  unfold nibbles in *. apply in_flat_map in Hi as (j & _ & [E|[E|[]]]); rewrite <- E; apply nibble_range.
Qed.
Lemma nibbles_top a : length a = 32%nat -> le_val a < 2 ^ 255 -> nth 63 (nibbles a) 0 <= 7.
Proof.
  intros Ha Hv. change (nth 63 (nibbles a) 0) with (Z.land (Z.shiftr (octet_at a 31) 4) 15).
  rewrite octet_at_val, Z.shiftr_div_pow2 by lia. change 15 with (Z.ones 4). rewrite Z.land_ones by lia.
  change (8 * Z.of_nat 31) with 248. pose proof (le_val_range a). dlia.
Qed.

(** After [n] steps. *)
Definition recoded (v n : Z) (e0 : list Z) (st : list Z * Z) : Prop :=
  let '(e, c) := st in
  length e = 64%nat /\ digits_val 4 e + c * 16 ^ n = v /\ 0 <= c <= 1 /\
  (forall j, Z.of_nat j < n -> -8 <= nth j e 0 <= 7) /\ (forall j, n <= Z.of_nat j -> nth j e 0 = nth j e0 0).

Lemma nth_insert_eq (l : list Z) i x : (i < length l)%nat -> nth i (<[i := x]> l) 0 = x.
Proof. exact (limb_insert_eq l i x). Qed.
Lemma nth_insert_ne (l : list Z) i j x : i <> j -> nth j (<[i := x]> l) 0 = nth j l 0.
Proof. exact (limb_insert_ne l i j x). Qed.

Lemma recode_step_ok v i e0 st : (i < 64)%nat -> (forall j, 0 <= nth j e0 0 <= 15) ->
  recoded v (Z.of_nat i) e0 st -> recoded v (Z.of_nat (S i)) e0 (recode_step st i).
Proof.
  intros Hi H0. destruct st as [e c]. intros (Hl & Hv & Hc & Hlow & Hhigh). unfold recode_step.
  rewrite (Hhigh i) by lia. specialize (H0 i). set (x := nth i e0 0) in *.
  rewrite (s8_small (x + c)), (s8_small (x + c + 8)), Z.shiftr_div_pow2 by lia. set (c' := (x + c + 8) / 2 ^ 4).
  assert (0 <= c' <= 1 /\ -8 <= x + c - 16 * c' <= 7) as [Hc' Hx] by (unfold c'; dlia).
  rewrite Z.shiftl_mul_pow2, s8_small by lia. unfold recoded. rewrite length_insert. split_and!; try done; try lia.
  - rewrite digits_val_insert by lia. rewrite (Hhigh i) by lia. fold x. rewrite <- Hv.
    replace (4 * Z.of_nat i) with (Z.of_nat i * 4) by lia. replace (2 ^ (Z.of_nat i * 4)) with (16 ^ Z.of_nat i)
      by (change 16 with (2 ^ 4); rewrite <- Z.pow_mul_r by lia; f_equal; lia).
    rewrite Nat2Z.inj_succ, Z.pow_succ_r by lia. ring.
  - intros j Hj. destruct (decide (j = i)) as [->|Hne]; [rewrite nth_insert_eq by lia; lia|].
    rewrite nth_insert_ne by lia. apply Hlow. lia.
  - intros j Hj. rewrite nth_insert_ne by lia. apply Hhigh. lia.
Qed.

Lemma recode_ok a : length a = 32%nat -> le_val a < 2 ^ 255 ->
  length (recode (nibbles a)) = 64%nat /\ digits_val 4 (recode (nibbles a)) = le_val a /\
  forall j, (j < 64)%nat -> -8 <= nth j (recode (nibbles a)) 0 <= 8.
Proof.
  intros Ha Hv. unfold recode.
  assert (forall n, (n <= 63)%nat -> recoded (le_val a) (Z.of_nat n) (nibbles a) (fold_left recode_step (seq 0 n) (nibbles a, 0))) as H.
  { induction n as [|n IH]; intros Hn.
    - cbn [fold_left seq]. split_and!; try done; try lia. rewrite nibbles_val by done. lia.
    - rewrite seq_S, fold_left_app. cbn [fold_left]. apply recode_step_ok; [lia|apply nibbles_range|apply IH; lia]. }
  specialize (H 63%nat ltac:(lia)). destruct (fold_left _ _ _) as [e c]. destruct H as (Hl & Hd & Hc & Hlow & Hhigh).
  pose proof (nibbles_top a Ha Hv) as Ht. pose proof (nibbles_range a 63) as Ht0. rewrite <- (Hhigh 63%nat) in Ht, Ht0 by lia.
  rewrite s8_small by lia. rewrite length_insert. split_and!; [done| |].
  - rewrite digits_val_insert by lia. rewrite <- Hd. change (2 ^ (4 * Z.of_nat 63)) with (16 ^ Z.of_nat 63). ring.
  - intros j Hj. destruct (decide (j = 63%nat)) as [->|Hne]; [rewrite nth_insert_eq by lia; lia|].
    rewrite nth_insert_ne by lia. specialize (Hlow j ltac:(lia)). lia.
Qed.

(** ** Multiples of the base point *)

Lemma add_selected_is e h i P : p3_is h P -> (i / 2 < 32)%nat -> -8 <= nth i e 0 <= 8 ->
  p3_is (add_selected e h i) (padd P (smul (nth i e 0 * 256 ^ Z.of_nat (i / 2)) B25519)).
Proof. intros Hh Hi He. apply p1p1_to_p3_is, ge_madd_is; [exact Hh|]. by apply select_is. Qed.

Lemma add_selected_fold e f n h P : p3_is h P -> (n <= 32)%nat -> (forall k, (f k / 2 = k)%nat) ->
  (forall k, (k < n)%nat -> -8 <= nth (f k) e 0 <= 8) ->
  p3_is (fold_left (add_selected e) (f <$> seq 0 n) h)
    (padd P (smul (digits_val 8 ((fun k => nth (f k) e 0) <$> seq 0 n)) B25519)).
Proof.
  intros Hh Hn Hf. induction n as [|n IH]; intros He; [by rewrite padd_zero_r|].
  rewrite seq_S, !fmap_app, fold_left_app. cbn [fold_left fmap list_fmap Nat.add].
  rewrite digits_app by lia. rewrite length_fmap, length_seq. change (digits_val 8 [nth (f n) e 0]) with (nth (f n) e 0 + 2 ^ 8 * 0).
  rewrite Z.mul_0_r, Z.add_0_r, smul_add, (assoc padd). rewrite (Z.mul_comm (2 ^ _)).
  replace (2 ^ (8 * Z.of_nat n)) with (256 ^ Z.of_nat (f n / 2)) by (rewrite Hf, Z.pow_mul_r by lia; done).
  apply add_selected_is; [apply IH; [lia|]|rewrite Hf; lia|apply He; lia].
  intros k Hk. apply He. lia.
Qed.

Lemma digits_pairs n e : length e = (2 * n)%nat ->
  digits_val 4 e = digits_val 8 ((fun k => nth (2 * k) e 0) <$> seq 0 n) + 16 * digits_val 8 ((fun k => nth (2 * k + 1) e 0) <$> seq 0 n).
Proof.
  revert e. induction n as [|n IH]; intros e He; [by apply nil_length_inv in He as ->|].
  destruct e as [|x [|y e]]; cbn [length] in He; [lia|lia|].
  change (digits_val 4 (x :: y :: e)) with (x + 2 ^ 4 * (y + 2 ^ 4 * digits_val 4 e)). rewrite IH by lia.
  cbn [seq]. rewrite !fmap_cons, <- !fmap_S_seq, <- !list_fmap_compose.
  change (nth (2 * 0) (x :: y :: e) 0) with x. change (nth (2 * 0 + 1) (x :: y :: e) 0) with y.
  assert (((fun k => nth (2 * k) (x :: y :: e) 0) ∘ S) <$> seq 0 n = (fun k => nth (2 * k) e 0) <$> seq 0 n) as ->.
  { apply list_fmap_ext. intros k j _. unfold compose. replace (2 * S j)%nat with (S (S (2 * j)))%nat by lia. done. }
  assert (((fun k => nth (2 * k + 1) (x :: y :: e) 0) ∘ S) <$> seq 0 n = (fun k => nth (2 * k + 1) e 0) <$> seq 0 n) as ->.
  { apply list_fmap_ext. intros k j _. unfold compose. replace (2 * S j + 1)%nat with (S (S (2 * j + 1)))%nat by lia. done. }
  set (E := digits_val 8 ((fun k => nth (2 * k) e 0) <$> seq 0 n)). set (O := digits_val 8 ((fun k => nth (2 * k + 1) e 0) <$> seq 0 n)).
  change (x + 2 ^ 4 * (y + 2 ^ 4 * (E + 16 * O)) = x + 2 ^ 8 * E + 16 * (y + 2 ^ 8 * O)). lia.
Qed.

Lemma scalarmult_base_is a : length a = 32%nat -> le_val a < 2 ^ 255 ->
  p3_is (orlp_ge_scalarmult_base a) (smul (le_val a) B25519).
Proof.
  intros Ha Hv. unfold orlp_ge_scalarmult_base. cbv zeta. destruct (recode_ok a Ha Hv) as (Hl & Hd & He).
  set (e := recode (nibbles a)) in *. clearbody e. rewrite <- Hd, (digits_pairs 32) by done.
  rewrite Z.add_comm, smul_add, smul_mul.
  apply add_selected_fold; [|lia|intros k; rewrite Nat.mul_comm; by apply Nat.div_mul|intros k Hk; apply He; lia].
  assert (p3_is (fold_left (add_selected e) ((fun k => 2 * k + 1)%nat <$> seq 0 32) orlp_ge_p3_0)
    (smul (digits_val 8 ((fun k => nth (2 * k + 1) e 0) <$> seq 0 32)) B25519)) as H.
  { rewrite <- (padd_zero_l (smul _ _)).
    apply (add_selected_fold e (fun k => 2 * k + 1)%nat); [apply p3_0_is|lia| |intros k Hk; apply He; lia].
    intros k. rewrite Nat.mul_comm, Nat.div_add_l by lia. change (1 / 2)%nat with 0%nat. lia. }
  set (Q := smul (digits_val 8 _) B25519) in *. clearbody Q.
  change 16 with (2 * (2 * (2 * 2))). rewrite !smul_mul, !smul_2.
  apply p1p1_to_p3_is, p2_dbl_is, p1p1_to_p2_is, p2_dbl_is, p1p1_to_p2_is, p2_dbl_is, p1p1_to_p2_is, p3_dbl_is, H.
Qed.
