(* ===== verification/SlideFacts.v ===== *)
(** * SlideFacts: the sparse signed expansion of [ge.c]

    [slide] rewrites the 256 bits of a number below 2^253 to digits that are zero or odd
    and at most 15 in absolute value, without changing the number.  A window never runs
    over the end of the array, nor a carry. *)
From S2P Require Import Prelude Octets CInt Fe25519 FeFacts FeBytes ScFacts Ge25519 GeTables GeScalar GeScalarFacts.

(** The number above position [k], and its digits. *)
Definition up (k : nat) (r : list Z) : Z := digits_val 1 (drop k r).
Definition bits_from (k : nat) (r : list Z) : Prop := forall j, (k <= j)%nat -> nth j r 0 = 0 \/ nth j r 0 = 1.

Lemma up_step k r : (k < length r)%nat -> up k r = nth k r 0 + 2 * up (S k) r.
Proof.
  intros Hk. unfold up. destruct (lookup_lt_is_Some_2 r k Hk) as [x Hx]. rewrite (drop_S _ x) by done.
  by rewrite (nth_lookup_Some _ _ _ _ Hx).
Qed.
Lemma up_insert_lt j k x r : (j < k)%nat -> up k (<[j := x]> r) = up k r.
Proof. intros H. unfold up. by rewrite drop_insert_lt. Qed.
Lemma up_nonneg k r : bits_from k r -> 0 <= up k r.
Proof.
  unfold up. intros H. assert (Forall (fun x => 0 <= x) (drop k r)) as Hf.
  { apply list.Forall_lookup. intros j x Hj. rewrite lookup_drop in Hj. specialize (H (k + j)%nat ltac:(lia)).
    rewrite (nth_lookup_Some _ _ _ _ Hj) in H. lia. }
  induction Hf as [|x l Hx _ IH]; [done|]. change (digits_val 1 (x :: l)) with (x + 2 ^ 1 * digits_val 1 l). lia.
Qed.

Lemma bits_insert k i x r : bits_from k r -> x = 0 \/ x = 1 -> bits_from k (<[i := x]> r).
Proof.
  intros H Hx j Hj. destruct (decide (i = j)) as [->|Hne]; [|rewrite nth_insert_ne by done; by apply H].
  destruct (decide (j < length r)%nat) as [Hl|Hl]; [by rewrite nth_insert_eq|].
  rewrite list_insert_ge by lia. by apply H.
Qed.
Lemma bits_weaken k l r : (k <= l)%nat -> bits_from k r -> bits_from l r.
Proof. intros H Hb j Hj. apply Hb. lia. Qed.
Lemma bits_insert_low k i x r : (i < k)%nat -> bits_from k r -> bits_from k (<[i := x]> r).
Proof. intros H Hb j Hj. rewrite nth_insert_ne by lia. by apply Hb. Qed.

Lemma total_split k r : (k <= length r)%nat -> digits_val 1 r = digits_val 1 (take k r) + 2 ^ Z.of_nat k * up k r.
Proof.
  intros H. rewrite <- (take_drop k r) at 1. rewrite digits_app by lia. rewrite length_take_le by lia. by rewrite Z.mul_1_l.
Qed.

Lemma nth_same_take k j (r r' : list Z) : take k r' = take k r -> (j < k)%nat -> nth j r' 0 = nth j r 0.
Proof. intros H Hj. by rewrite <- (nth_take r' j k), <- (nth_take r j k), H. Qed.

(** ** The carry *)

Lemma slide_carry_ok n k r : length r = (k + n)%nat -> bits_from k r -> up k r + 1 < 2 ^ Z.of_nat n ->
  let r' := slide_carry n k r in
  length r' = length r /\ take k r' = take k r /\ bits_from k r' /\ up k r' = up k r + 1.
Proof.
  revert k r. induction n as [|n IH]; intros k r Hl Hb Hu; cbv zeta.
  { pose proof (up_nonneg k r Hb). cbn in Hu. lia. }
  cbn [slide_carry]. destruct (Z.eqb_spec (nth k r 0) 0) as [E|E].
  - rewrite length_insert, take_insert_ge by lia. split_and!; [done|done|by apply bits_insert; [|right]|].
    rewrite (up_step k (<[k := 1]> r)), (up_step k r) by (rewrite ?length_insert; lia).
    rewrite nth_insert_eq, up_insert_lt by lia. lia.
  - assert (nth k r 0 = 1) as E1 by (destruct (Hb k); lia).
    pose proof (up_step k r ltac:(lia)) as Hs. rewrite E1 in Hs.
    destruct (IH (S k) (<[k := 0]> r)) as (L & T & B & U).
    + rewrite length_insert. lia.
    + apply bits_insert; [|by left]. by apply (bits_weaken k); [lia|].
    + rewrite up_insert_lt by lia. rewrite Nat2Z.inj_succ, Z.pow_succ_r in Hu by lia. lia.
    + rewrite length_insert in L. rewrite up_insert_lt in U by lia.
      assert (take k (slide_carry n (S k) (<[k := 0]> r)) = take k r) as T'.
      { apply (f_equal (take k)) in T. rewrite !take_take in T. replace (k `min` S k)%nat with k in T by lia.
        rewrite T. by apply take_insert_ge. }
      assert (nth k (slide_carry n (S k) (<[k := 0]> r)) 0 = 0) as N.
      { rewrite (nth_same_take (S k) k _ _ T) by lia. by rewrite nth_insert_eq by lia. }
      split_and!; [done|done| |].
      * intros j Hj. destruct (decide (j = k)) as [->|Hne]; [by left|]. apply B. lia.
      * rewrite up_step by lia. rewrite N, U. lia.
Qed.

(** ** A window *)

Definition digit (x : Z) : Prop := x = 0 \/ (x mod 2 = 1 /\ -15 <= x <= 15).

(** Positions below [i] are done, the bits from [i] on make at most 2^253. *)
Record started (v : Z) (i : nat) (r : list Z) : Prop := {
  st_length : length r = 256%nat;
  st_total : digits_val 1 r = v;
  st_digits : forall j, (j < i)%nat -> digit (nth j r 0);
  st_bits : bits_from i r;
  st_bound : 2 ^ Z.of_nat i * up i r <= 2 ^ 253
}.

(** In the window at [i], position [i + b] is next; the window holds [w] with what is above. *)
Record window (v w : Z) (i b : nat) (r : list Z) : Prop := {
  wi_length : length r = 256%nat;
  wi_total : digits_val 1 r = v;
  wi_digits : forall j, (j < i)%nat -> digit (nth j r 0);
  wi_bits : bits_from (i + b) r;
  wi_zeros : forall j, (i < j < i + b)%nat -> nth j r 0 = 0;
  wi_odd : nth i r 0 mod 2 = 1;
  wi_range : -15 <= nth i r 0 <= 15;
  wi_small : - 2 ^ Z.of_nat b < nth i r 0 < 2 ^ Z.of_nat b;
  wi_sum : nth i r 0 * 2 ^ Z.of_nat i + 2 ^ Z.of_nat (i + b) * up (i + b) r = w;
  wi_neg : nth i r 0 < 0 -> (4 <= b)%nat /\ (i + 4 <= 253)%nat
}.

Lemma zeros_up r i b k : (i + k <= b)%nat -> (b <= length r)%nat -> (forall j, (i <= j < b)%nat -> nth j r 0 = 0) ->
  up i r = 2 ^ Z.of_nat k * up (i + k) r.
Proof.
  intros Hk Hb H. induction k as [|k IH]; [rewrite Nat.add_0_r; change (2 ^ Z.of_nat 0) with 1; lia|].
  rewrite IH by lia. rewrite up_step by lia. rewrite (H (i + k)%nat) by lia.
  rewrite Nat2Z.inj_succ, Z.pow_succ_r by lia. replace (i + S k)%nat with (S (i + k)) by lia. ring.
Qed.

Lemma up_past k r : (length r <= k)%nat -> up k r = 0.
Proof. intros H. unfold up. by rewrite drop_ge. Qed.

Lemma window_above v w i b r : (i < 256)%nat -> (1 <= b)%nat -> window v w i b r ->
  2 ^ Z.of_nat (S i) * up (S i) r = 2 ^ Z.of_nat (i + b) * up (i + b) r.
Proof.
  intros Hi Hb W. destruct (decide (i + b <= 256)%nat) as [H|H].
  - rewrite (zeros_up r (S i) (i + b) (b - 1)); [|lia|rewrite (wi_length _ _ _ _ _ W); lia|intros j Hj; apply (wi_zeros _ _ _ _ _ W); lia].
    rewrite Z.mul_assoc, <- Z.pow_add_r by lia. replace (S i + (b - 1))%nat with (i + b)%nat by lia. f_equal. f_equal. lia.
  - rewrite (up_past (i + b)) by (rewrite (wi_length _ _ _ _ _ W); lia).
    rewrite (zeros_up r (S i) 256 (255 - i)); [|lia|rewrite (wi_length _ _ _ _ _ W); lia|intros j Hj; apply (wi_zeros _ _ _ _ _ W); lia].
    rewrite (up_past _ r) by (rewrite (wi_length _ _ _ _ _ W); lia). lia.
Qed.

(** The window can stop anywhere. *)
Lemma window_stop v w i b r : (i < 256)%nat -> (1 <= b)%nat -> w <= 2 ^ 253 -> window v w i b r -> started v (S i) r.
Proof.
  intros Hi Hb Hw W. pose proof (window_above v w i b r Hi Hb W) as Ha.
  destruct W as [Hl Ht Hd Hbits Hz Ho Hr Hs Hsum Hneg]. split; [done|done| | |].
  - intros j Hj. destruct (decide (j = i)) as [->|Hne]; [right; done|apply Hd; lia].
  - intros j Hj. destruct (decide (j < i + b)%nat) as [H|H]; [left; apply Hz; lia|apply Hbits; lia].
  - rewrite Ha. assert (0 < 2 ^ Z.of_nat i) by lia. destruct (decide (0 <= nth i r 0)) as [Hp|Hn].
    + assert (0 <= nth i r 0 * 2 ^ Z.of_nat i) by nia. lia.
    + destruct Hneg as [Hb4 Hi4]; [lia|]. assert (- 15 * 2 ^ Z.of_nat i <= nth i r 0 * 2 ^ Z.of_nat i) by nia.
      set (u := up (i + b) r) in *. replace (2 ^ Z.of_nat (i + b) * u) with (2 ^ Z.of_nat i * 16 * (2 ^ Z.of_nat (b - 4) * u)) in *.
      2: { rewrite Z.mul_assoc. f_equal. change 16 with (2 ^ 4). rewrite <- !Z.pow_add_r by lia. f_equal. lia. }
      assert (2 ^ 253 = 2 ^ Z.of_nat i * 16 * 2 ^ (249 - Z.of_nat i)) as E.
      { change 16 with (2 ^ 4). rewrite <- !Z.pow_add_r by lia. f_equal. lia. }
      rewrite E in *. set (m := 2 ^ (249 - Z.of_nat i)) in *. set (k := 2 ^ Z.of_nat (b - 4) * u) in *. clearbody m k.
      set (t := 2 ^ Z.of_nat i) in *. clearbody t. destruct (Z.le_gt_cases k m) as [Hle|Hgt].
      * apply Z.mul_le_mono_nonneg_l; [lia|exact Hle].
      * assert (t * 16 * (m + 1) <= t * 16 * k) by (apply Z.mul_le_mono_nonneg_l; lia). lia.
Qed.

Lemma window_start v i r : (i < 256)%nat -> nth i r 0 <> 0 -> started v i r ->
  window v (2 ^ Z.of_nat i * up i r) i 1 r.
Proof.
  intros Hi Hx [Hl Ht Hd Hb Hw]. assert (nth i r 0 = 1) as E by (destruct (Hb i); lia).
  split; rewrite ?E; try done; try lia.
  - apply (bits_weaken i); [lia|done].
  - rewrite (up_step i) by lia. rewrite E. replace (i + 1)%nat with (S i) by lia. rewrite Nat2Z.inj_succ, Z.pow_succ_r by lia. ring.
Qed.

(** Position [i + b] holds nothing. *)
Lemma window_skip v w i b r : window v w i b r -> (i + b < 256)%nat -> nth (i + b) r 0 = 0 -> window v w i (S b) r.
Proof.
  intros [Hl Ht Hd Hb Hz Ho Hr Hs Hsum Hneg] Hib E. replace (i + S b)%nat with (S (i + b)) in * by lia.
  assert (2 ^ Z.of_nat b <= 2 ^ Z.of_nat (S b)) by (apply Z.pow_le_mono_r; lia).
  split; try done; try lia; replace (i + S b)%nat with (S (i + b)) by lia.
  - apply (bits_weaken (i + b)); [lia|done].
  - intros j Hj. destruct (decide (j = (i + b)%nat)) as [->|Hne]; [exact E|]. apply Hz. lia.
  - rewrite <- Hsum, (up_step (i + b)) by lia. rewrite E, Nat2Z.inj_succ, Z.pow_succ_r by lia. ring.
Qed.

Lemma odd_step x b : (1 <= b)%nat -> x mod 2 = 1 -> (x + 2 ^ Z.of_nat b) mod 2 = 1 /\ (x - 2 ^ Z.of_nat b) mod 2 = 1.
Proof.
  intros Hb Hx. replace (2 ^ Z.of_nat b) with (2 * 2 ^ Z.of_nat (b - 1)).
  2: { rewrite <- Z.pow_succ_r by lia. f_equal. lia. }
  set (k := 2 ^ Z.of_nat (b - 1)). clearbody k. dlia.
Qed.

(** Position [i + b] moves into the window. *)
Lemma window_move v w i b r r' x : window v w i b r -> (i + b < 256)%nat ->
  length r' = 256%nat -> (forall j, (j < i + b)%nat -> j <> i -> nth j r' 0 = nth j r 0) -> nth i r' 0 = x -> nth (i + b) r' 0 = 0 ->
  bits_from (S (i + b)) r' -> x mod 2 = 1 -> -15 <= x <= 15 -> - 2 ^ Z.of_nat (S b) < x < 2 ^ Z.of_nat (S b) ->
  (x < 0 -> (4 <= S b)%nat /\ (i + 4 <= 253)%nat) ->
  (x - nth i r 0) * 2 ^ Z.of_nat i + 2 ^ Z.of_nat (i + b) * (2 * up (S (i + b)) r' - up (i + b) r) = 0 ->
  digits_val 1 r' = v ->
  window v w i (S b) r'.
Proof.
  intros [Hl Ht Hd Hb Hz Ho Hr Hs Hsum Hneg] Hib Hl' Hsame Hx H0 Hb' Ho' Hr' Hs' Hneg' Hsum' Ht'.
  replace (i + S b)%nat with (S (i + b)) in * by lia. split; rewrite ?Hx; replace (i + S b)%nat with (S (i + b)) by lia; try assumption.
  - intros j Hj. rewrite Hsame by lia. by apply Hd.
  - intros j Hj. destruct (decide (j = (i + b)%nat)) as [->|Hne]; [exact H0|]. rewrite Hsame by lia. apply Hz. lia.
  - rewrite <- Hsum, Nat2Z.inj_succ, Z.pow_succ_r by lia. lia.
Qed.

Lemma window_add v w i b r : window v w i b r -> (1 <= b)%nat -> (i + b < 256)%nat -> nth (i + b) r 0 = 1 ->
  nth i r 0 + 2 ^ Z.of_nat b <= 15 ->
  window v w i (S b) (<[(i + b)%nat := 0]> (<[i := nth i r 0 + 2 ^ Z.of_nat b]> r)).
Proof.
  intros W Hb1 Hib E Hx. pose proof W as [Hl Ht Hd Hb Hz Ho Hr Hs Hsum Hneg]. set (x := nth i r 0) in *.
  destruct (odd_step x b Hb1 Ho) as [Ho1 _]. assert (0 < 2 ^ Z.of_nat b) by lia.
  eapply (window_move v w i b r _ (x + 2 ^ Z.of_nat b) W Hib).
  - by rewrite !length_insert.
  - intros j Hj Hne. rewrite !nth_insert_ne by lia. done.
  - rewrite nth_insert_ne by lia. apply nth_insert_eq. lia.
  - apply nth_insert_eq. rewrite length_insert. lia.
  - apply bits_insert_low; [lia|]. apply bits_insert_low; [lia|]. by apply (bits_weaken (i + b)); [lia|].
  - exact Ho1.
  - lia.
  - rewrite Nat2Z.inj_succ, Z.pow_succ_r by lia. lia.
  - intros Hn. destruct Hneg; lia.
  - rewrite !up_insert_lt by lia. rewrite (up_step (i + b) r), E by lia. fold x.
    rewrite Nat2Z.inj_add, Z.pow_add_r by lia. ring.
  - rewrite digits_val_insert by (rewrite ?length_insert; lia). rewrite nth_insert_ne, E by lia.
    rewrite digits_val_insert by lia. fold x. rewrite Ht, !Z.mul_1_l, Nat2Z.inj_add, Z.pow_add_r by lia. ring.
Qed.

(** Position [i + b] is subtracted, and carried on. *)
Lemma window_sub v w i b r : window v w i b r -> w <= 2 ^ 253 -> (1 <= b)%nat -> (i + b < 256)%nat -> nth (i + b) r 0 = 1 ->
  15 < nth i r 0 + 2 ^ Z.of_nat b -> -15 <= nth i r 0 - 2 ^ Z.of_nat b ->
  window v w i (S b) (slide_carry (256 - (i + b)) (i + b) (<[i := nth i r 0 - 2 ^ Z.of_nat b]> r)).
Proof.
  intros W Hw Hb1 Hib E Hx1 Hx2. pose proof W as [Hl Ht Hd Hb Hz Ho Hr Hs Hsum Hneg]. set (x := nth i r 0) in *.
  destruct (odd_step x b Hb1 Ho) as [_ Ho1]. set (r1 := <[i := x - 2 ^ Z.of_nat b]> r).
  assert (0 < x /\ (3 <= b)%nat) as [Hx0 Hb3].
  { assert (b = 1 \/ b = 2 \/ b = 3 \/ b = 4 \/ 5 <= b)%nat as [-> | [-> | [-> | [-> | H5]]]] by lia; cbn in *; try lia. }
  pose proof (up_step (i + b) r ltac:(lia)) as Hup. rewrite E in Hup.
  pose proof (up_nonneg (S (i + b)) r (bits_weaken (i + b) (S (i + b)) r ltac:(lia) Hb)) as Hup0.
  assert (2 ^ Z.of_nat (i + b) * up (i + b) r < 2 ^ 253) as Hlt by (assert (0 < x * 2 ^ Z.of_nat i) by (apply Z.mul_pos_pos; lia); lia).
  assert (i + b <= 252)%nat as Hi252.
  { destruct (decide (i + b <= 252)%nat); [done|]. assert (2 ^ 253 <= 2 ^ Z.of_nat (i + b)) by (apply Z.pow_le_mono_r; lia). nia. }
  destruct (slide_carry_ok (256 - (i + b)) (i + b) r1) as (L & T & B & U).
  - unfold r1. rewrite length_insert. lia.
  - unfold r1. by apply bits_insert_low; [lia|].
  - unfold r1. rewrite up_insert_lt by lia. assert (2 ^ 256 = 2 ^ Z.of_nat (i + b) * 2 ^ Z.of_nat (256 - (i + b))) as E256.
    { rewrite <- Z.pow_add_r by lia. f_equal. lia. }
    assert (2 ^ Z.of_nat (i + b) <= 2 ^ 252) by (apply Z.pow_le_mono_r; lia). nia.
  - set (r2 := slide_carry _ _ r1) in *. unfold r1 in L, U. rewrite length_insert in L. rewrite up_insert_lt in U by lia.
    assert (forall j, (j < i + b)%nat -> nth j r2 0 = nth j r1 0) as Hsame by (intros j Hj; by apply (nth_same_take (i + b))).
    assert (nth (i + b) r2 0 = 0) as N0.
    { pose proof (up_step (i + b) r2 ltac:(lia)) as Hu2. destruct (B (i + b)%nat ltac:(lia)) as [N|N]; [exact N|]. rewrite N in Hu2. lia. }
    eapply (window_move v w i b r _ (x - 2 ^ Z.of_nat b) W Hib).
    + lia.
    + intros j Hj Hne. rewrite Hsame by lia. unfold r1. by rewrite nth_insert_ne.
    + rewrite Hsame by lia. apply nth_insert_eq. lia.
    + exact N0.
    + by apply (bits_weaken (i + b)); [lia|].
    + exact Ho1.
    + lia.
    + rewrite Nat2Z.inj_succ, Z.pow_succ_r by lia. lia.
    + lia.
    + pose proof (up_step (i + b) r2 ltac:(lia)) as Hu2. rewrite N0, U in Hu2. fold x. rewrite <- (Z.add_0_l (2 * _)), <- Hu2.
      rewrite Nat2Z.inj_add, Z.pow_add_r by lia. ring.
    + rewrite (total_split (i + b) r2), T, U by lia.
      pose proof (total_split (i + b) r1 ltac:(unfold r1; rewrite length_insert; lia)) as Ht1.
      unfold r1 in Ht1 at 1. rewrite digits_val_insert in Ht1 by lia. fold x in Ht1. rewrite Ht, Z.mul_1_l in Ht1.
      unfold r1 in Ht1 at 2. rewrite up_insert_lt in Ht1 by lia.
      rewrite Z.mul_add_distr_l, Z.mul_1_r. rewrite Nat2Z.inj_add, Z.pow_add_r in * by lia. lia.
Qed.

Lemma slide_window_ok v w i n b r : (i < 256)%nat -> (1 <= b)%nat -> w <= 2 ^ 253 -> window v w i b r ->
  exists b', (1 <= b')%nat /\ window v w i b' (slide_window i (seq b n) r).
Proof.
  intros Hi. revert b r. induction n as [|n IH]; intros b r Hb Hw W; [by exists b|].
  cbn [seq slide_window]. destruct (Nat.ltb_spec (i + b) 256) as [Hib|Hib]; [|by exists b].
  cbv zeta. pose proof (wi_bits _ _ _ _ _ W (i + b)%nat ltac:(lia)) as Hbit. pose proof (wi_range _ _ _ _ _ W) as Hr.
  pose proof (wi_small _ _ _ _ _ W) as Hs.
  destruct (Z.eqb_spec (nth (i + b) r 0) 0) as [E|E]; [apply IH; [lia|done|by apply window_skip]|].
  assert (nth (i + b) r 0 = 1) as E1 by lia. rewrite E1, Z.shiftl_1_l.
  destruct (Z.leb_spec (nth i r 0 + 2 ^ Z.of_nat b) 15).
  { rewrite s8_small by lia. apply IH; [lia|done|by apply window_add]. }
  destruct (Z.leb_spec (-15) (nth i r 0 - 2 ^ Z.of_nat b)).
  { rewrite s8_small by lia. apply IH; [lia|done|by apply window_sub]. }
  by exists b.
Qed.

Lemma slide_step_ok v i r : (i < 256)%nat -> started v i r -> started v (S i) (slide_step r i).
Proof.
  intros Hi H. unfold slide_step. destruct (Z.eqb_spec (nth i r 0) 0) as [E|E].
  - destruct H as [Hl Ht Hd Hb Hw]. split; try done.
    + intros j Hj. destruct (decide (j = i)) as [->|Hne]; [by left|]. apply Hd. lia.
    + by apply (bits_weaken i); [lia|].
    + rewrite (up_step i) in Hw by lia. rewrite E in Hw. rewrite Nat2Z.inj_succ, Z.pow_succ_r by lia. lia.
  - destruct (slide_window_ok v _ i 6 1 r Hi ltac:(lia) (st_bound _ _ _ H) (window_start v i r Hi E H)) as (b & Hb & W).
    exact (window_stop _ _ _ _ _ Hi Hb (st_bound _ _ _ H) W).
Qed.

(** ** The bits *)

Definition bit_at (a : bytes) (i : nat) : Z := Z.land 1 (Z.shiftr (octet_at a (i / 8)) (Z.of_nat i mod 8)).

Lemma bit_at_next b a i : bit_at (b :: a) (8 + i) = bit_at a i.
Proof.
  unfold bit_at. replace ((8 + i) / 8)%nat with (S (i / 8)).
  2: { change (8 + i)%nat with (1 * 8 + i)%nat. rewrite Nat.div_add_l by lia. lia. }
  replace (Z.of_nat (8 + i) mod 8) with (Z.of_nat i mod 8); [done|].
  rewrite Nat2Z.inj_add, Z.add_comm. change (Z.of_nat 8) with (1 * 8). by rewrite Z_mod_plus_full.
Qed.
Lemma byte_bits b a : digits_val 1 (bit_at (b :: a) <$> seq 0 8) = byte_to_Z b.
Proof. by destruct b. Qed.

Lemma bits_val_aux a : digits_val 1 (bit_at a <$> seq 0 (8 * length a)) = le_val a.
Proof.
  induction a as [|b a IH]; [done|]. replace (8 * length (b :: a))%nat with (8 + 8 * length a)%nat by (cbn [length]; lia).
  rewrite seq_app, fmap_app, digits_app, byte_bits by lia. rewrite length_fmap, length_seq.
  assert (bit_at (b :: a) <$> seq (0 + 8) (8 * length a) = bit_at a <$> seq 0 (8 * length a)) as ->.
  { change (0 + 8)%nat with (8 + 0)%nat. rewrite <- (fmap_add_seq 8 0), <- list_fmap_compose.
    apply list_fmap_ext. intros k i _. exact (bit_at_next b a i). }
  rewrite IH. cbn [le_val]. reflexivity.
Qed.
Lemma scalar_bits_val a : length a = 32%nat -> digits_val 1 (scalar_bits a) = le_val a.
Proof. intros H. rewrite <- (bits_val_aux a), H. done. Qed.

Lemma scalar_bits_bits a : bits_from 0 (scalar_bits a).
Proof.
  intros j _. destruct (nth_in_or_default j (scalar_bits a) 0) as [Hi|E]; [|by left].
  apply list_elem_of_In, list_elem_of_fmap in Hi as (i & -> & _). fold (bit_at a i).
  assert (bit_at a i = Z.shiftr (octet_at a (i / 8)) (Z.of_nat i mod 8) mod 2) as ->.
  { unfold bit_at. rewrite Z.land_comm. exact (Z.land_ones _ 1 ltac:(lia)). }
  pose proof (Z.mod_pos_bound (Z.shiftr (octet_at a (i / 8)) (Z.of_nat i mod 8)) 2 ltac:(lia)).
  unfold bit_at in *. lia.
Qed.

(** The digits of [slide] are good and spell the same number. *)
Lemma slide_ok a : length a = 32%nat -> le_val a <= 2 ^ 253 ->
  length (slide a) = 256%nat /\ digits_val 1 (slide a) = le_val a /\ forall j, digit (nth j (slide a) 0).
Proof.
  intros Ha Hv. unfold slide.
  assert (forall n, (n <= 256)%nat -> started (le_val a) n (fold_left slide_step (seq 0 n) (scalar_bits a))) as H.
  { induction n as [|n IH]; intros Hn.
    - cbn [seq fold_left]. split; [done|by apply scalar_bits_val|lia|apply scalar_bits_bits|].
      unfold up. rewrite drop_0, scalar_bits_val by done. change (2 ^ Z.of_nat 0) with 1. lia.
    - rewrite seq_S, fold_left_app. cbn [fold_left]. apply slide_step_ok; [lia|]. apply IH. lia. }
  destruct (H 256%nat ltac:(lia)) as [Hl Ht Hd _ _]. split_and!; [done|done|]. intros j.
  destruct (decide (j < 256)%nat) as [Hj|Hj]; [by apply Hd|]. left. apply nth_overflow. lia.
Qed.
