(* ===== verification/GeDouble.v ===== *)
(** * GeDouble: the double scalar multiplication of [ge.c]

    The loop of [orlp_ge_double_scalarmult_vartime] doubles an accumulator and adds, at the
    non-zero digits of the two expansions, an odd multiple of A and of the base point. *)
From S2P Require Import Prelude Octets CInt Fe25519 FeFacts FeBytes Primes Edwards EdGroup ScFacts Ge25519 GeFacts GeBytes GeTables GeScalar GeTableFacts GeScalarFacts SlideFacts.
Local Open Scope Z_scope.

#[local] Existing Instance checked.

(** ** The odd multiples *)

Section multiples.
Lemma padd_shuffle P Q R S : padd (padd P Q) (padd R S) = padd (padd P R) (padd Q S).
Proof. rewrite <- !(assoc padd). f_equal. rewrite !(assoc padd). f_equal. apply (comm padd). Qed.

Context (Ap : orlp_ge_p3 num) (A : pt) (HA : p3_is Ap A).

Lemma next_multiple A2 q k : p3_is A2 (smul 2 A) -> cached_is q (smul k A) ->
  cached_is (orlp_ge_p3_to_cached (orlp_ge_p1p1_to_p3 (orlp_ge_add A2 q))) (smul (2 + k) A).
Proof. intros H2 Hq. rewrite smul_add. by apply p3_to_cached_is, p1p1_to_p3_is, ge_add_is. Qed.

Lemma odd_multiples_forall :
  Forall2 (fun q k => cached_is q (smul k A)) (odd_multiples Ap) [1; 2 + 1; 2 + (2 + 1); 2 + (2 + (2 + 1)); 2 + (2 + (2 + (2 + 1)));
    2 + (2 + (2 + (2 + (2 + 1)))); 2 + (2 + (2 + (2 + (2 + (2 + 1))))); 2 + (2 + (2 + (2 + (2 + (2 + (2 + 1))))))].
Proof.
  unfold odd_multiples. cbv zeta.
  assert (p3_is (orlp_ge_p1p1_to_p3 (orlp_ge_p3_dbl Ap)) (smul 2 A)) as H2 by (rewrite smul_2; by apply p1p1_to_p3_is, p3_dbl_is).
  assert (cached_is (orlp_ge_p3_to_cached Ap) (smul 1 A)) as H1 by (rewrite smul_1; by apply p3_to_cached_is).
  set (A2 := orlp_ge_p1p1_to_p3 (orlp_ge_p3_dbl Ap)) in *. set (q := orlp_ge_p3_to_cached Ap) in *. clearbody A2 q.
  repeat (apply list.Forall2_cons; split; [repeat apply next_multiple; assumption|]). apply list.Forall2_nil. exact I.
Qed.

Lemma cached_at_lookup l n q : l !! n = Some q -> cached_at l (Z.of_nat n) = q.
Proof. intros H. unfold cached_at. rewrite Nat2Z.id. exact (f_equal (default cached_undefined) H). Qed.

Lemma cached_at_is j : 0 <= j <= 7 -> cached_is (cached_at (odd_multiples Ap) j) (smul (2 * j + 1) A).
Proof.
  intros Hj. pose proof odd_multiples_forall as H. set (l := odd_multiples Ap) in *. clearbody l.
  assert (exists n, j = Z.of_nat n /\ (n < 8)%nat) as (n & -> & Hn) by (exists (Z.to_nat j); lia).
  destruct (lookup_lt_is_Some_2 l n) as [q Hq]; [rewrite (list.Forall2_length _ _ _ H); exact Hn|]. rewrite (cached_at_lookup l n q Hq).
  destruct (list.Forall2_lookup_l _ _ _ _ _ H Hq) as (k & Hk & Hc).
  replace (2 * Z.of_nat n + 1) with k; [exact Hc|]. clear Hc Hq H.
  do 8 (destruct n as [|n]; [by injection Hk as <-|]). lia.
Qed.

(** ** One digit *)

Lemma half_digit x : digit x -> 0 < x -> 0 <= x ÷ 2 <= 7 /\ 2 * (x ÷ 2) + 1 = x.
Proof. intros [->|[H1 H2]] H; [lia|]. rewrite Z.quot_div_nonneg by lia. pose proof (Z.div_mod x 2). lia. Qed.
Lemma digit_opp x : digit x -> digit (- x).
Proof. intros [->|[H1 H2]]; [by left|right]. split; [|lia]. rewrite Z.mod_opp_l_nz by lia. lia. Qed.

Lemma table_at_Bi j : 0 <= j <= 7 -> precomp_is (table_at Bi (Z.to_nat j)) (smul (2 * j + 1) B25519).
Proof.
  intros Hj. destruct (Bi_entry (Z.to_nat j) ltac:(lia)) as (q & E & H). unfold table_at. rewrite E.
  rewrite Z2Nat.id in H by lia. exact H.
Qed.

(** The addend at a digit of [a], and at a digit of [b]. *)
Lemma add_digit_a t P ai : p1_is t P -> digit ai ->
  p1_is (if 0 <? ai then orlp_ge_add (orlp_ge_p1p1_to_p3 t) (cached_at (odd_multiples Ap) (ai ÷ 2))
         else if ai <? 0 then orlp_ge_sub (orlp_ge_p1p1_to_p3 t) (cached_at (odd_multiples Ap) (- ai ÷ 2))
         else t) (padd P (smul ai A)).
Proof.
  intros Ht Hd. destruct (Z.ltb_spec 0 ai) as [Hp|Hp]; [|destruct (Z.ltb_spec ai 0) as [Hn|Hn]].
  - destruct (half_digit ai Hd Hp) as [Hj E].
    assert (smul ai A = smul (2 * (ai ÷ 2) + 1) A) as -> by (by rewrite E). apply ge_add_is; [by apply p1p1_to_p3_is|by apply cached_at_is].
  - destruct (half_digit (- ai) (digit_opp _ Hd) ltac:(lia)) as [Hj E].
    assert (smul ai A = popp (smul (2 * (- ai ÷ 2) + 1) A)) as -> by (rewrite E, <- smul_opp; f_equal; lia).
    apply ge_sub_is; [by apply p1p1_to_p3_is|by apply cached_at_is].
  - assert (ai = 0) as -> by lia. rewrite smul_0, padd_zero_r. exact Ht.
Qed.

Lemma add_digit_b t P bi : p1_is t P -> digit bi ->
  p1_is (if 0 <? bi then orlp_ge_madd (orlp_ge_p1p1_to_p3 t) (table_at Bi (Z.to_nat (bi ÷ 2)))
         else if bi <? 0 then orlp_ge_msub (orlp_ge_p1p1_to_p3 t) (table_at Bi (Z.to_nat (- bi ÷ 2)))
         else t) (padd P (smul bi B25519)).
Proof.
  intros Ht Hd. destruct (Z.ltb_spec 0 bi) as [Hp|Hp]; [|destruct (Z.ltb_spec bi 0) as [Hn|Hn]].
  - destruct (half_digit bi Hd Hp) as [Hj E].
    assert (smul bi B25519 = smul (2 * (bi ÷ 2) + 1) B25519) as -> by (by rewrite E). apply ge_madd_is; [by apply p1p1_to_p3_is|by apply table_at_Bi].
  - destruct (half_digit (- bi) (digit_opp _ Hd) ltac:(lia)) as [Hj E].
    assert (smul bi B25519 = popp (smul (2 * (- bi ÷ 2) + 1) B25519)) as -> by (rewrite E, <- smul_opp; f_equal; lia).
    apply ge_msub_is; [by apply p1p1_to_p3_is|by apply table_at_Bi].
  - assert (bi = 0) as -> by lia. rewrite smul_0, padd_zero_r. exact Ht.
Qed.

(** [a A + b B] *)
Definition combine (a b : Z) : pt := padd (smul a A) (smul b B25519).

Lemma combine_0 : combine 0 0 = pzero.
Proof. unfold combine. rewrite !smul_0. apply padd_zero_l. Qed.
Lemma combine_step a b x y : padd (padd (padd (combine a b) (combine a b)) (smul x A)) (smul y B25519) = combine (x + 2 * a) (y + 2 * b).
Proof.
  unfold combine. rewrite padd_shuffle, <- !smul_2, <- !smul_mul, <- (assoc padd), padd_shuffle, <- !smul_add.
  by rewrite (Z.add_comm x), (Z.add_comm y).
Qed.

Lemma double_step_is asl bsl i r : (i < length asl)%nat -> (i < length bsl)%nat ->
  (forall j, digit (nth j asl 0)) -> (forall j, digit (nth j bsl 0)) ->
  p2_is r (combine (up (S i) asl) (up (S i) bsl)) ->
  p2_is (double_step (odd_multiples Ap) asl bsl r i) (combine (up i asl) (up i bsl)).
Proof.
  intros Ha Hb Hda Hdb Hr. rewrite (up_step i asl), (up_step i bsl), <- combine_step by done.
  unfold double_step. cbv zeta. apply p1p1_to_p2_is, add_digit_b, Hdb. apply add_digit_a, Hda. by apply p2_dbl_is.
Qed.

Lemma double_loop_is asl bsl n r : (n <= length asl)%nat -> (n <= length bsl)%nat ->
  (forall j, digit (nth j asl 0)) -> (forall j, digit (nth j bsl 0)) ->
  p2_is r (combine (up n asl) (up n bsl)) ->
  p2_is (fold_left (double_step (odd_multiples Ap) asl bsl) (rev (seq 0 n)) r) (combine (up 0 asl) (up 0 bsl)).
Proof.
  intros Ha Hb Hda Hdb. revert r. induction n as [|n IH]; intros r Hr; [exact Hr|].
  rewrite seq_S, rev_app_distr. cbn [rev app fold_left Nat.add]. apply IH; [lia|lia|].
  by apply double_step_is.
Qed.

(** ** The digits that are skipped *)

Lemma top_digit_le n asl bsl : (top_digit n asl bsl <= n)%nat.
Proof. induction n as [|n IH]; cbn [top_digit]; [lia|]. destruct (_ || _); lia. Qed.

Lemma top_digit_up n asl bsl : (n <= length asl)%nat -> (n <= length bsl)%nat -> up n asl = 0 -> up n bsl = 0 ->
  up (top_digit n asl bsl) asl = 0 /\ up (top_digit n asl bsl) bsl = 0.
Proof.
  induction n as [|n IH]; intros Ha Hb Ea Eb; cbn [top_digit]; [done|].
  destruct (Z.eqb_spec (nth n asl 0) 0) as [E1|E1]; cbn [negb orb]; [|done].
  destruct (Z.eqb_spec (nth n bsl 0) 0) as [E2|E2]; cbn [negb]; [|done].
  apply IH; [lia|lia| |]; rewrite up_step by lia; [rewrite E1, Ea|rewrite E2, Eb]; done.
Qed.

(** From any two arrays of 256 digits. *)
Lemma double_digits_is asl bsl : length asl = 256%nat -> length bsl = 256%nat ->
  (forall j, digit (nth j asl 0)) -> (forall j, digit (nth j bsl 0)) ->
  p2_is (fold_left (double_step (odd_multiples Ap) asl bsl) (rev (seq 0 (top_digit 256 asl bsl))) orlp_ge_p2_0)
    (combine (digits_val 1 asl) (digits_val 1 bsl)).
Proof.
  generalize 256%nat. intros m La Lb Da Db.
  assert (up m asl = 0 /\ up m bsl = 0) as [Ua Ub] by (unfold up; rewrite !drop_ge by lia; done).
  destruct (top_digit_up m asl bsl) as [Ta Tb]; [lia|lia|exact Ua|exact Ub|]. pose proof (top_digit_le m asl bsl) as Hn.
  revert Ta Tb Hn. generalize (top_digit m asl bsl). intros n Ta Tb Hn.
  rewrite <- (drop_0 asl), <- (drop_0 bsl) at 2. apply double_loop_is; [lia|lia|exact Da|exact Db|].
  rewrite Ta, Tb, combine_0. apply p2_0_is.
Qed.

Lemma double_scalarmult_ok a b : length a = 32%nat -> length b = 32%nat -> le_val a <= 2 ^ 253 -> le_val b <= 2 ^ 253 ->
  p2_is (orlp_ge_double_scalarmult_vartime a Ap b) (padd (smul (le_val a) A) (smul (le_val b) B25519)).
Proof.
  intros Ha Hb Va Vb. destruct (slide_ok a Ha Va) as (La & Ea & Da). destruct (slide_ok b Hb Vb) as (Lb & Eb & Db).
  rewrite <- Ea, <- Eb. exact (double_digits_is (slide a) (slide b) La Lb Da Db).
Qed.
End multiples.

(** C30: the two scalar multiplications compute, without undefined behaviour, the octets of [b B] and of [a A + b B] for scalars up to 2^253, whatever the digits of their expansions. *)
Theorem scalarmult_correct a Ap A b : p3_is Ap A -> length a = 32%nat -> length b = 32%nat -> le_val a <= 2 ^ 253 -> le_val b <= 2 ^ 253 ->
  orlp_ge_p3_tobytes (orlp_ge_scalarmult_base b) = Some (encode (smul (le_val b) B25519)) /\
  orlp_ge_tobytes (orlp_ge_double_scalarmult_vartime a Ap b) = Some (encode (padd (smul (le_val a) A) (smul (le_val b) B25519))).
Proof.
  intros HA Ha Hb Va Vb. split; [apply p3_tobytes_is, scalarmult_base_is; [exact Hb|lia]|].
  exact (p2_tobytes_is _ _ (double_scalarmult_ok Ap A HA a b Ha Hb Va Vb)).
Qed.
Lemma scalarmult_correct_witness :
  orlp_ge_p3_tobytes (orlp_ge_scalarmult_base (replicate 32 x05)) = Some (encode (smul (le_val (replicate 32 x05)) B25519)) /\
  orlp_ge_tobytes (orlp_ge_double_scalarmult_vartime (replicate 32 x03) orlp_ge_p3_0 (replicate 32 x05)) =
    Some (encode (padd (smul (le_val (replicate 32 x03)) pzero) (smul (le_val (replicate 32 x05)) B25519))).
Proof.
  apply (scalarmult_correct (replicate 32 x03) orlp_ge_p3_0 pzero (replicate 32 x05) p3_0_is eq_refl eq_refl); vm_compute; intros H; discriminate H.
Defined.
