(* ===== verification/OrlpEd25519.v ===== *)
(** * OrlpEd25519: keys, signatures and their verification, [keypair.c], [sign.c] and [verify.c]

    Buffers are the lists of their octets; [octets o n p] reads [n] octets at [p + o], and a
    read outside the buffer is undefined ([None]).  A message is the list of its
    [message_len] octets.  The hash context goes through the calls as in the code, and what
    the code does with a status (nothing) is done here. *)
From S2P Require Import Prelude Octets CInt Fe25519 Sc25519 Sha512 Ge25519 GeTables GeScalar.

(** ** [keypair.c] *)

(** [private_key[0] &= 248; private_key[31] &= 63; private_key[31] |= 64;] *)
Definition clamp (private_key : bytes) : bytes :=
  let private_key := <[0%nat := byte_of_Z (Z.land (octet_at private_key 0) 248)]> private_key in
  let private_key := <[31%nat := byte_of_Z (Z.land (octet_at private_key 31) 63)]> private_key in
  <[31%nat := byte_of_Z (Z.lor (octet_at private_key 31) 64)]> private_key.

(** The public and the private key; what the buffers hold before does not matter. *)
Definition orlp_ed25519_create_keypair (seed : bytes) : option (bytes * bytes) :=
  seed ← octets 0 32 seed;
  '(_, private_key) ← orlp_sha512 seed (replicate 64 x00);
  let private_key := clamp private_key in
  a ← octets 0 32 private_key;
  let A := orlp_ge_scalarmult_base a in
  public_key ← orlp_ge_p3_tobytes A;
  Some (public_key, private_key).

(** ** [sign.c] *)

(** [orlp_sc_reduce(s)]: the first 32 octets of [s] are written. *)
Definition reduce_in_place (s : bytes) : option bytes :=
  t ← orlp_sc_reduce s;
  Some (t ++ drop 32 s).

Definition orlp_ed25519_sign (message public_key private_key : bytes) : option bytes :=
  let hash := orlp_sha512_init fresh_context in
  nonce_key ← octets 32 32 private_key;
  '(_, hash) ← orlp_sha512_update hash (Some nonce_key);
  '(_, hash) ← orlp_sha512_update hash (Some message);
  let '(_, hash, r) := orlp_sha512_final hash (replicate 64 x00) in
  r ← reduce_in_place r;
  r ← octets 0 32 r;
  let R := orlp_ge_scalarmult_base r in
  signature ← orlp_ge_p3_tobytes R;
  let hash := orlp_sha512_init hash in
  '(_, hash) ← orlp_sha512_update hash (Some signature);
  public_key ← octets 0 32 public_key;
  '(_, hash) ← orlp_sha512_update hash (Some public_key);
  '(_, hash) ← orlp_sha512_update hash (Some message);
  let '(_, hash, hram) := orlp_sha512_final hash (replicate 64 x00) in
  hram ← reduce_in_place hram;
  hram ← octets 0 32 hram;
  a ← octets 0 32 private_key;
  s ← orlp_sc_muladd hram a r;
  Some (signature ++ s).

(** ** [verify.c] *)

Definition consttime_equal (x y : bytes) : Z :=
  let r := Z.lxor (octet_at x 0) (octet_at y 0) in
  let r := fold_left (fun r i => Z.lor r (Z.lxor (octet_at x i) (octet_at y i))) (seq 1 31) r in
  if r =? 0 then 1 else 0.

Definition orlp_ed25519_verify (signature message public_key : bytes) : option Z :=
  top ← signature !! 63%nat;
  if negb (Z.land (byte_to_Z top) 224 =? 0) then Some 0 else
  public_key ← octets 0 32 public_key;
  negated ← orlp_ge_frombytes_negate_vartime public_key;
  match negated with
  | None => Some 0
  | Some A =>
      let hash := orlp_sha512_init fresh_context in
      R_octets ← octets 0 32 signature;
      '(_, hash) ← orlp_sha512_update hash (Some R_octets);
      '(_, hash) ← orlp_sha512_update hash (Some public_key);
      '(_, hash) ← orlp_sha512_update hash (Some message);
      let '(_, hash, h) := orlp_sha512_final hash (replicate 64 x00) in
      h ← reduce_in_place h;
      h ← octets 0 32 h;
      s ← octets 32 32 signature;
      let R := orlp_ge_double_scalarmult_vartime h A s in
      checker ← orlp_ge_tobytes R;
      if consttime_equal checker R_octets =? 0 then Some 0 else Some 1
  end.
