(* ===== verification/OrlpFacts.v ===== *)
(** * OrlpFacts: the signatures are those of RFC 8032

    Keys, signatures and verification of [keypair.c], [sign.c] and [verify.c] against the
    definitions of the RFC on points of the curve; what is signed is accepted, and accepted
    is exactly what satisfies the equation. *)
From S2P Require Import Prelude Octets CInt Fe25519 FeFacts FeBytes Primes Edwards EdGroup Sc25519 ScFacts Sha512 Sha512Facts Ge25519 GeFacts GeBytes GeTables GeScalar GeTableFacts GeScalarFacts SlideFacts GeDouble OrlpEd25519.
Local Open Scope Z_scope.

(** ** The scheme *)

Module Rfc8032.
Section scheme.
Context (H : bytes -> bytes).

(** 5.1.5: the lowest three bits and the highest are cleared, the second highest is set. *)
Definition prune (h : bytes) : Z := 2 ^ 254 + 8 * ((le_val h mod 2 ^ 254) / 8).
Definition scalar (seed : bytes) : Z := prune (take 32 (H seed)).
Definition prefix (seed : bytes) : bytes := drop 32 (H seed).
Definition public_key (seed : bytes) : bytes := encode (smul (scalar seed) B25519).

(** 5.1.6, with the secret scalar, the prefix and the encoded public key. *)
Definition nonce (prefix m : bytes) : Z := le_val (H (prefix ++ m)) mod L25519.
Definition challenge (R pub m : bytes) : Z := le_val (H (R ++ pub ++ m)) mod L25519.
Definition signature (a : Z) (prefix pub m : bytes) : bytes :=
  let r := nonce prefix m in
  let R := encode (smul r B25519) in
  R ++ le_octets 32 ((challenge R pub m * a + r) mod L25519).
Definition sign (seed m : bytes) : bytes := signature (scalar seed) (prefix seed) (public_key seed) m.

(** The check of [verify.c]: the equation of 5.1.7 without the cofactor, [S B = R + k A], on
    the encodings.  The range is that of the code, [S < 2^253]; the RFC asks for [S < L]. *)
Definition accepts (sg m pub : bytes) : Prop :=
  let S := le_val (drop 32 sg) in
  S < 2 ^ 253 /\
  exists A, names pub A /\
    encode (padd (popp (smul (challenge (take 32 sg) pub m) A)) (smul S B25519)) = take 32 sg.
End scheme.
End Rfc8032.

(** ** Buffers *)

Lemma bind_some {A B} (m : option A) (x : A) (k : A -> option B) : m = Some x -> mbind k m = k x.
Proof. by intros ->. Qed.

(** ** The bits of the secret scalar *)

Lemma for_octet (f : Z -> bool) b : forallb (fun n => f (Z.of_nat n)) (seq 0 256) = true -> 0 <= b < 256 -> f b = true.
Proof.
  intros H Hb. rewrite forallb_forall in H. rewrite <- (Z2Nat.id b) by lia. apply (H (Z.to_nat b)). apply in_seq. lia.
Qed.
Lemma clamp_low b : 0 <= b < 256 -> Z.land b 248 mod 256 = b - b mod 8.
Proof.
  intros Hb. apply Z.eqb_eq. revert b Hb. refine (fun b => for_octet (fun b => Z.land b 248 mod 256 =? b - b mod 8) b _).
  vm_compute. reflexivity.
Qed.
Lemma clamp_high b : 0 <= b < 256 -> Z.lor (Z.land b 63 mod 256) 64 mod 256 = b mod 64 + 64.
Proof.
  intros Hb. apply Z.eqb_eq. revert b Hb.
  refine (fun b => for_octet (fun b => Z.lor (Z.land b 63 mod 256) 64 mod 256 =? b mod 64 + 64) b _). vm_compute. reflexivity.
Qed.

Lemma clamp_length h : length (clamp h) = length h.
Proof. unfold clamp. by rewrite !length_insert. Qed.
Lemma clamp_drop h : drop 32 (clamp h) = drop 32 h.
Proof. unfold clamp. by rewrite !drop_insert_lt by lia. Qed.
Lemma take_update i (g : Z -> Byte.byte) p : (i < 32)%nat ->
  take 32 (<[i := g (octet_at p i)]> p) = <[i := g (octet_at (take 32 p) i)]> (take 32 p).
Proof. intros Hi. rewrite take_insert_lt by done. unfold octet_at. by rewrite lookup_take_lt. Qed.
Lemma clamp_take h : take 32 (clamp h) = clamp (take 32 h).
Proof.
  unfold clamp. cbv zeta.
  rewrite (take_update 31 (fun x => byte_of_Z (Z.lor x 64))) by lia.
  rewrite (take_update 31 (fun x => byte_of_Z (Z.land x 63))) by lia.
  by rewrite (take_update 0 (fun x => byte_of_Z (Z.land x 248))) by lia.
Qed.

(** What is cleared and set, on the number. *)
Lemma prune_bits v : 0 <= v < 2 ^ 256 ->
  let b31 := v / 2 ^ 248 in
  v - v mod 8 + (b31 mod 64 + 64 - b31) * 2 ^ 248 = 2 ^ 254 + 8 * ((v mod 2 ^ 254) / 8).
Proof.
  intros Hv b31. pose proof (Z.div_mod v (2 ^ 254) ltac:(lia)) as E1. pose proof (Z.div_mod v (2 ^ 248) ltac:(lia)) as E2.
  pose proof (Z.div_mod b31 64 ltac:(lia)) as E3. pose proof (Z.div_mod (v mod 2 ^ 254) 8 ltac:(lia)) as E4.
  assert (b31 / 64 = v / 2 ^ 254) as E5 by (unfold b31; rewrite Z.div_div by lia; done).
  assert ((v mod 2 ^ 254) mod 8 = v mod 8) as E6 by (exact (Z.mod_mod_divide v (2 ^ 254) 8 ltac:(exists (2 ^ 251); lia))).
  fold b31 in E2. lia.
Qed.

Lemma clamp_val a : length a = 32%nat -> le_val (clamp a) = Rfc8032.prune a.
Proof.
  intros Ha. pose proof (le_val_bound a 32 Ha) as Hv. change (8 * Z.of_nat 32) with 256 in Hv.
  pose proof (octet_at_val a 31) as E31. change (8 * Z.of_nat 31) with 248 in E31.
  rewrite (Z.mod_small (_ / _)) in E31 by (split; [apply Z.div_pos; lia|apply Z.div_lt_upper_bound; lia]).
  pose proof (octet_at_val a 0) as E0. change (8 * Z.of_nat 0) with 0 in E0. rewrite Z.div_1_r in E0.
  assert (0 <= octet_at a 0 < 256 /\ 0 <= octet_at a 31 < 256) as [H0 H31] by (split; apply byte_to_Z_range).
  unfold clamp. rewrite !le_val_insert by (rewrite ?length_insert; lia).
  rewrite !octet_at_insert by (rewrite ?length_insert; lia). rewrite !octet_at_insert_ne by done.
  rewrite clamp_low, clamp_high by done. unfold Rfc8032.prune. rewrite <- (prune_bits _ Hv), <- E31.
  assert (octet_at a 0 mod 8 = le_val a mod 8) as -> by (rewrite E0; exact (Z.mod_mod_divide (le_val a) 256 8 ltac:(exists 32; lia))).
  change (2 ^ (8 * Z.of_nat 0)) with 1. change (8 * Z.of_nat 31) with 248. lia.
Qed.

Lemma prune_bound a : 0 <= Rfc8032.prune a < 2 ^ 255.
Proof.
  unfold Rfc8032.prune. pose proof (Z.mod_pos_bound (le_val a) (2 ^ 254) ltac:(lia)) as H.
  pose proof (Z.div_mod (le_val a mod 2 ^ 254) 8 ltac:(lia)). pose proof (Z.mod_pos_bound (le_val a mod 2 ^ 254) 8 ltac:(lia)).
  pose proof (Z.div_pos (le_val a mod 2 ^ 254) 8). lia.
Qed.

(** ** The hash and the scalars *)

Lemma sha512_u64_length m : length (sha512_u64 m) = 64%nat.
Proof.
  unfold sha512_u64, Fips.hash. set (p := Fips.pad _ m). clearbody p. generalize (length p / 128)%nat. intros n.
  assert (forall H, length H = 8%nat -> length (Fips.hash_blocks n H p) = 8%nat) as Hn.
  { revert p. induction n as [|n IH]; intros p H HH; [exact HH|]. cbn [Fips.hash_blocks]. apply IH.
    unfold Fips.compress. rewrite length_zip_with, HH. done. }
  specialize (Hn Fips.H0 eq_refl). set (l := Fips.hash_blocks n Fips.H0 p) in *. clearbody l.
  do 8 (destruct l as [|? l]; [discriminate Hn|]). destruct l; [|discriminate Hn].
  cbn [fmap list_fmap concat]. rewrite !length_app, !be_octets_length. reflexivity.
Qed.

(** Three updates are enough for every message of the scheme. *)
Lemma update_bind {A} md m input (k : Z * orlp_sha512_context -> option A) : absorbs md m ->
  exists md', absorbs md' (m ++ input) /\ mbind k (orlp_sha512_update md (Some input)) = k (0, md').
Proof.
  intros H. destruct (update_absorbs md m input H) as (md' & E & H'). exists md'. split; [exact H'|exact (bind_some _ _ k E)].
Qed.

Lemma orlp_sha512_ok m out : orlp_sha512 m out = Some (0, sha512_u64 m).
Proof.
  assert (length (md_buf fresh_context) = 128%nat) as Hf by reflexivity.
  destruct (update_absorbs _ _ m (absorbs_init _ Hf)) as (md & E & H). destruct (final_absorbs md _ out H) as (md' & E' & _).
  unfold orlp_sha512. cbv zeta. rewrite E, E'. reflexivity.
Qed.

Lemma reduce_in_place_ok s : length s = 64%nat ->
  exists t, reduce_in_place s = Some (t ++ drop 32 s) /\ length t = 32%nat /\ le_val t = le_val s mod L25519 /\
    octets 0 32 (t ++ drop 32 s) = Some t.
Proof.
  intros Hs. destruct (sc_reduce_ok s Hs) as (t & E & Ht & V). exists t. split_and!; [|exact Ht|exact V|].
  - exact (bind_some _ _ _ E).
  - rewrite octets_ok by (rewrite length_app; lia). rewrite drop_0, take_app_le by lia. by rewrite take_ge by lia.
Qed.

Lemma reduced_scalar v : 0 <= v mod L25519 < 2 ^ 253.
Proof. pose proof (Z.mod_pos_bound v L25519). unfold L25519 in *. lia. Qed.

(** The octets of a multiple of the base point. *)
Lemma base_octets a : length a = 32%nat -> le_val a < 2 ^ 255 ->
  orlp_ge_p3_tobytes (orlp_ge_scalarmult_base a) = Some (encode (smul (le_val a) B25519)).
Proof. intros Ha Hv. apply p3_tobytes_is. exact (scalarmult_base_is a Ha Hv). Qed.

(** ** Keys *)

Lemma keypair_steps seed s ret h a pub : octets 0 32 seed = Some s -> orlp_sha512 s (replicate 64 x00) = Some (ret, h) ->
  octets 0 32 (clamp h) = Some a -> orlp_ge_p3_tobytes (orlp_ge_scalarmult_base a) = Some pub ->
  orlp_ed25519_create_keypair seed = Some (pub, clamp h).
Proof.
  intros E1 E2 E3 E4. unfold orlp_ed25519_create_keypair.
  refine (eq_trans (bind_some _ _ _ E1) _). refine (eq_trans (bind_some _ _ _ E2) _).
  refine (eq_trans (bind_some _ _ _ E3) _). exact (bind_some _ _ _ E4).
Qed.

Lemma create_keypair_ok seed : length seed = 32%nat ->
  orlp_ed25519_create_keypair seed = Some (Rfc8032.public_key sha512_u64 seed, clamp (sha512_u64 seed)).
Proof.
  intros Hs. pose proof (sha512_u64_length seed) as Hl. pose proof (orlp_sha512_ok seed (replicate 64 x00)) as Hh.
  unfold Rfc8032.public_key, Rfc8032.scalar. revert Hl Hh. generalize (sha512_u64 seed). intros h Hl Hh.
  assert (length (take 32 h) = 32%nat) as Ht by (rewrite length_take; lia).
  refine (keypair_steps seed seed 0 h (clamp (take 32 h)) _ (octets_all 32 seed Hs) Hh _ _).
  - rewrite octets_ok by (rewrite clamp_length; lia). by rewrite drop_0, clamp_take.
  - rewrite <- (clamp_val _ Ht). apply base_octets; [by rewrite clamp_length|]. rewrite (clamp_val _ Ht). apply prune_bound.
Qed.

(** ** Signatures *)

(** A hash over two and over three updates, from any context with its 128 octets. *)
Lemma hash_two md x y out : length (md_buf md) = 128%nat -> exists md1 md2 md3,
  orlp_sha512_update (orlp_sha512_init md) (Some x) = Some (0, md1) /\ orlp_sha512_update md1 (Some y) = Some (0, md2) /\
  orlp_sha512_final md2 out = (0, md3, sha512_u64 (x ++ y)) /\ length (md_buf md3) = 128%nat.
Proof.
  intros H. destruct (update_absorbs _ _ x (absorbs_init md H)) as (md1 & E1 & H1).
  destruct (update_absorbs _ _ y H1) as (md2 & E2 & H2). destruct (final_absorbs _ _ out H2) as (md3 & E3 & H3).
  exists md1, md2, md3. exact (conj E1 (conj E2 (conj E3 H3))).
Qed.
Lemma hash_three md x y z out : length (md_buf md) = 128%nat -> exists md1 md2 md3 md4,
  orlp_sha512_update (orlp_sha512_init md) (Some x) = Some (0, md1) /\ orlp_sha512_update md1 (Some y) = Some (0, md2) /\
  orlp_sha512_update md2 (Some z) = Some (0, md3) /\ orlp_sha512_final md3 out = (0, md4, sha512_u64 (x ++ y ++ z)).
Proof.
  intros H. destruct (update_absorbs _ _ x (absorbs_init md H)) as (md1 & E1 & H1).
  destruct (update_absorbs _ _ y H1) as (md2 & E2 & H2). destruct (update_absorbs _ _ z H2) as (md3 & E3 & H3).
  destruct (final_absorbs _ _ out H3) as (md4 & E4 & _). rewrite <- app_assoc in E4.
  exists md1, md2, md3, md4. exact (conj E1 (conj E2 (conj E3 E4))).
Qed.

Lemma sign_steps m pub priv nk md1 md2 md3 h1 r1 r R md4 pk md5 md6 md7 h2 k1 k a s :
  octets 32 32 priv = Some nk ->
  orlp_sha512_update (orlp_sha512_init fresh_context) (Some nk) = Some (0, md1) ->
  orlp_sha512_update md1 (Some m) = Some (0, md2) ->
  orlp_sha512_final md2 (replicate 64 x00) = (0, md3, h1) ->
  reduce_in_place h1 = Some r1 -> octets 0 32 r1 = Some r ->
  orlp_ge_p3_tobytes (orlp_ge_scalarmult_base r) = Some R ->
  orlp_sha512_update (orlp_sha512_init md3) (Some R) = Some (0, md4) ->
  octets 0 32 pub = Some pk ->
  orlp_sha512_update md4 (Some pk) = Some (0, md5) ->
  orlp_sha512_update md5 (Some m) = Some (0, md6) ->
  orlp_sha512_final md6 (replicate 64 x00) = (0, md7, h2) ->
  reduce_in_place h2 = Some k1 -> octets 0 32 k1 = Some k -> octets 0 32 priv = Some a ->
  orlp_sc_muladd k a r = Some s ->
  orlp_ed25519_sign m pub priv = Some (R ++ s).
Proof.
  intros E1 E2 E3 F1 E4 E5 E6 E7 E8 E9 E10 F2 E11 E12 E13 E14. unfold orlp_ed25519_sign. cbv zeta.
  refine (eq_trans (bind_some _ _ _ E1) _). refine (eq_trans (bind_some _ _ _ E2) _).
  refine (eq_trans (bind_some _ _ _ E3) _). cbv beta iota. rewrite F1. cbv beta iota.
  refine (eq_trans (bind_some _ _ _ E4) _). refine (eq_trans (bind_some _ _ _ E5) _).
  refine (eq_trans (bind_some _ _ _ E6) _). refine (eq_trans (bind_some _ _ _ E7) _).
  refine (eq_trans (bind_some _ _ _ E8) _). refine (eq_trans (bind_some _ _ _ E9) _).
  refine (eq_trans (bind_some _ _ _ E10) _). cbv beta iota. rewrite F2. cbv beta iota.
  refine (eq_trans (bind_some _ _ _ E11) _). refine (eq_trans (bind_some _ _ _ E12) _).
  refine (eq_trans (bind_some _ _ _ E13) _). exact (bind_some _ _ _ E14).
Qed.

Lemma sign_ok m pub priv : length pub = 32%nat -> length priv = 64%nat ->
  orlp_ed25519_sign m pub priv =
    Some (Rfc8032.signature sha512_u64 (le_val (take 32 priv)) (drop 32 priv) pub m).
Proof.
  intros Hpub Hpriv. assert (length (md_buf fresh_context) = 128%nat) as Hf by reflexivity.
  assert (length (take 32 priv) = 32%nat) as Ht by (rewrite length_take; lia).
  destruct (hash_two fresh_context (drop 32 priv) m (replicate 64 x00) Hf) as (md1 & md2 & md3 & E1 & E2 & E3 & Hb).
  unfold Rfc8032.signature, Rfc8032.nonce, Rfc8032.challenge. cbv zeta.
  pose proof (sha512_u64_length (drop 32 priv ++ m)) as L1. revert E3 L1. generalize (sha512_u64 (drop 32 priv ++ m)). intros h1 E3 L1.
  destruct (reduce_in_place_ok h1 L1) as (r & E4 & Lr & Vr & E5). rewrite <- Vr.
  assert (le_val r < 2 ^ 255) as Br by (rewrite Vr; pose proof (reduced_scalar (le_val h1)); lia).
  pose proof (base_octets r Lr Br) as E6. revert E6. generalize (encode (smul (le_val r) B25519)). intros R E6.
  destruct (hash_three md3 R pub m (replicate 64 x00) Hb) as (md4 & md5 & md6 & md7 & E7 & E8 & E9 & E10).
  pose proof (sha512_u64_length (R ++ pub ++ m)) as L2. revert E10 L2. generalize (sha512_u64 (R ++ pub ++ m)). intros h2 E10 L2.
  destruct (reduce_in_place_ok h2 L2) as (k & E11 & Lk & Vk & E12). rewrite <- Vk.
  destruct (sc_muladd_ok k (take 32 priv) r Lk Ht Lr) as (s & E13 & Ls & Vs). rewrite <- Vs, (le_octets_le s 32 Ls).
  assert (octets 32 32 priv = Some (drop 32 priv)) as En
    by (rewrite octets_ok by lia; rewrite take_ge by (rewrite length_drop; lia); done).
  assert (octets 0 32 priv = Some (take 32 priv)) as Ea by (rewrite octets_ok by lia; by rewrite drop_0).
  exact (sign_steps m pub priv _ md1 md2 md3 h1 _ r R md4 pub md5 md6 md7 h2 _ k _ s En E1 E2 E3 E4 E5 E6 E7
    (octets_all 32 pub Hpub) E8 E9 E10 E11 E12 Ea E13).
Qed.

(** ** Verification *)

Lemma consttime_equal_ok x y : length x = 32%nat -> length y = 32%nat ->
  consttime_equal x y = if bool_decide (x = y) then 1 else 0.
Proof.
  intros Hx Hy. unfold consttime_equal. cbv zeta. set (r := fold_left _ _ _).
  assert (r = 0 <-> x = y) as H.
  { unfold r. rewrite (or_fold_zero (fun i => Z.lxor (octet_at x i) (octet_at y i))), Z.lxor_eq_0_iff. split.
    - intros [H0 H]. apply (list_eq_same_length _ _ 32); [lia|lia|]. intros i a b Hi Ha Hb.
      assert (octet_at x i = octet_at y i) as E.
      { destruct i as [|i]; [exact H0|]. apply Z.lxor_eq_0_iff, H. apply elem_of_seq. lia. }
      unfold octet_at in E. rewrite Ha, Hb in E. cbn [default from_option id] in E.
      rewrite <- (byte_of_to_Z a), <- (byte_of_to_Z b). by rewrite E.
    - intros ->. split; [done|]. intros i _. apply Z.lxor_nilpotent. }
  case_bool_decide as E; [by rewrite (proj2 H E)|]. destruct (Z.eqb_spec r 0) as [E0|]; [by destruct E; apply H|done].
Qed.

Lemma top_bits sg : length sg = 64%nat ->
  exists top, sg !! 63%nat = Some top /\ (Z.land (byte_to_Z top) 224 = 0 <-> le_val (drop 32 sg) < 2 ^ 253).
Proof.
  intros H. destruct (lookup_lt_is_Some_2 sg 63) as [top Ht]; [lia|]. exists top. split; [exact Ht|].
  assert (length (drop 32 sg) = 32%nat) as L by (rewrite length_drop; lia).
  pose proof (octet_at_val (drop 32 sg) 31) as E. unfold octet_at in E. rewrite lookup_drop in E.
  change (32 + 31)%nat with 63%nat in E. rewrite Ht in E. cbn [default from_option id] in E.
  pose proof (le_val_bound _ 32 L) as B. change (8 * Z.of_nat 32) with 256 in B. change (8 * Z.of_nat 31) with 248 in E.
  rewrite Z.mod_small in E by (split; [apply Z.div_pos; lia|apply Z.div_lt_upper_bound; lia]).
  assert (forall b, 0 <= b < 256 -> (Z.land b 224 = 0 <-> b < 32)) as Hb.
  { intros b Hb. assert ((Z.land b 224 =? 0) = (b <? 32)) as Eb.
    { apply eqb_prop. revert b Hb. refine (fun b => for_octet (fun b => Bool.eqb (Z.land b 224 =? 0) (b <? 32)) b _).
      vm_compute. reflexivity. }
    rewrite <- Z.eqb_eq, Eb, Z.ltb_lt. done. }
  rewrite (Hb _ (byte_to_Z_range top)), E. clear. split; intros H.
  - pose proof (Z.div_mod (le_val (drop 32 sg)) (2 ^ 248) ltac:(lia)). pose proof (Z.mod_pos_bound (le_val (drop 32 sg)) (2 ^ 248) ltac:(lia)). lia.
  - apply Z.div_lt_upper_bound; lia.
Qed.

Lemma verify_steps sg m pub top pk A Ro md1 md2 md3 md4 hh h1 h s checker :
  sg !! 63%nat = Some top -> Z.land (byte_to_Z top) 224 = 0 -> octets 0 32 pub = Some pk ->
  orlp_ge_frombytes_negate_vartime pk = Some (Some A) -> octets 0 32 sg = Some Ro ->
  orlp_sha512_update (orlp_sha512_init fresh_context) (Some Ro) = Some (0, md1) ->
  orlp_sha512_update md1 (Some pk) = Some (0, md2) ->
  orlp_sha512_update md2 (Some m) = Some (0, md3) ->
  orlp_sha512_final md3 (replicate 64 x00) = (0, md4, hh) ->
  reduce_in_place hh = Some h1 -> octets 0 32 h1 = Some h -> octets 32 32 sg = Some s ->
  orlp_ge_tobytes (orlp_ge_double_scalarmult_vartime h A s) = Some checker ->
  orlp_ed25519_verify sg m pub = if consttime_equal checker Ro =? 0 then Some 0 else Some 1.
Proof.
  intros E1 E2 E3 E4 E5 E6 E7 E8 F E9 E10 E11 E12. unfold orlp_ed25519_verify. cbv zeta.
  refine (eq_trans (bind_some _ _ _ E1) _). rewrite E2. cbv beta iota. change (negb (0 =? 0)) with false. cbv beta iota.
  refine (eq_trans (bind_some _ _ _ E3) _). refine (eq_trans (bind_some _ _ _ E4) _). cbv beta iota.
  refine (eq_trans (bind_some _ _ _ E5) _). refine (eq_trans (bind_some _ _ _ E6) _).
  refine (eq_trans (bind_some _ _ _ E7) _). refine (eq_trans (bind_some _ _ _ E8) _). cbv beta iota. rewrite F. cbv beta iota.
  refine (eq_trans (bind_some _ _ _ E9) _). refine (eq_trans (bind_some _ _ _ E10) _).
  refine (eq_trans (bind_some _ _ _ E11) _). exact (bind_some _ _ _ E12).
Qed.

Lemma verify_malleated sg m pub top : sg !! 63%nat = Some top -> Z.land (byte_to_Z top) 224 <> 0 ->
  orlp_ed25519_verify sg m pub = Some 0.
Proof.
  intros E1 E2. unfold orlp_ed25519_verify. refine (eq_trans (bind_some _ _ _ E1) _). by rewrite (proj2 (Z.eqb_neq _ _) E2).
Qed.
Lemma verify_not_point sg m pub top : sg !! 63%nat = Some top -> length pub = 32%nat ->
  orlp_ge_frombytes_negate_vartime pub = Some None -> orlp_ed25519_verify sg m pub = Some 0.
Proof.
  intros E1 Hp E3. unfold orlp_ed25519_verify. refine (eq_trans (bind_some _ _ _ E1) _). destruct (negb _); [reflexivity|].
  refine (eq_trans (bind_some _ _ _ (octets_all 32 pub Hp)) _). exact (bind_some _ _ _ E3).
Qed.

(** On a signature and a key of the right length there is an answer, and it is the equation's. *)
Lemma verify_ok sg m pub : length sg = 64%nat -> length pub = 32%nat ->
  (orlp_ed25519_verify sg m pub = Some 1 /\ Rfc8032.accepts sha512_u64 sg m pub) \/
  (orlp_ed25519_verify sg m pub = Some 0 /\ ~ Rfc8032.accepts sha512_u64 sg m pub).
Proof.
  intros Hsg Hpub. destruct (top_bits sg Hsg) as (top & Etop & Btop). unfold Rfc8032.accepts. cbv zeta.
  destruct (decide (Z.land (byte_to_Z top) 224 = 0)) as [Ez|Ez].
  2: { right. split; [by apply (verify_malleated _ _ _ top)|]. intros [H _]. by apply Ez, Btop. }
  pose proof (proj1 Btop Ez) as HS. clear Btop.
  destruct (frombytes_cases pub Hpub) as [(hA & A & E4 & HA & HN)|[E4 HN]].
  2: { right. split; [by apply (verify_not_point _ _ _ top)|]. intros (_ & A & [Hy _] & _). by destruct (HN A). }
  assert (length (md_buf fresh_context) = 128%nat) as Hf by reflexivity.
  assert (length (take 32 sg) = 32%nat) as Lt by (rewrite length_take; lia).
  assert (length (drop 32 sg) = 32%nat) as Ld by (rewrite length_drop; lia).
  destruct (hash_three fresh_context (take 32 sg) pub m (replicate 64 x00) Hf) as (md1 & md2 & md3 & md4 & E6 & E7 & E8 & F).
  unfold Rfc8032.challenge. pose proof (sha512_u64_length (take 32 sg ++ pub ++ m)) as L. revert F L.
  generalize (sha512_u64 (take 32 sg ++ pub ++ m)). intros hh F L.
  destruct (reduce_in_place_ok hh L) as (h & E9 & Lh & Vh & E10). rewrite <- Vh.
  assert (le_val h <= 2 ^ 253) as Bh by (rewrite Vh; pose proof (reduced_scalar (le_val hh)); lia).
  pose proof (p2_tobytes_is _ _ (double_scalarmult_ok hA (popp A) HA h (drop 32 sg) Lh Ld Bh ltac:(lia))) as E12.
  rewrite smul_of_opp in E12. revert E12. generalize (encode_length (padd (popp (smul (le_val h) A)) (smul (le_val (drop 32 sg)) B25519))).
  set (P := padd _ _). intros LP E12.
  assert (octets 0 32 sg = Some (take 32 sg)) as E5 by (rewrite octets_ok by lia; by rewrite drop_0).
  assert (octets 32 32 sg = Some (drop 32 sg)) as E11 by (rewrite octets_ok by lia; by rewrite (take_ge (drop 32 sg)) by lia).
  pose proof (verify_steps sg m pub top pub hA _ md1 md2 md3 md4 hh _ h _ _ Etop Ez (octets_all 32 pub Hpub) E4 E5 E6 E7 E8 F E9 E10 E11 E12) as E.
  rewrite consttime_equal_ok in E by assumption. case_bool_decide as Eq; [left|right]; (split; [exact E|]).
  - split; [exact HS|]. exists A. split; [exact HN|exact Eq].
  - intros (_ & Q & HQ & HE). apply Eq. unfold P. rewrite (names_unique _ _ _ HQ HN). exact HE.
Qed.

(** ** What is signed is accepted *)

Section accepted.
Context (H : bytes -> bytes).

Lemma signature_length a prefix pub m : length (Rfc8032.signature H a prefix pub m) = 64%nat.
Proof. unfold Rfc8032.signature. cbv zeta. by rewrite length_app, encode_length, le_octets_length. Qed.

(** - (k a) B + (k a + r mod L) B = r B *)
Lemma equation_holds k a r :
  padd (popp (smul k (smul a B25519))) (smul ((k * a + r) mod L25519) B25519) = smul r B25519.
Proof. rewrite smul_mod, smul_add, smul_mul, (assoc padd), padd_opp_l. apply padd_zero_l. Qed.

Lemma signature_accepted a prefix m :
  Rfc8032.accepts H (Rfc8032.signature H a prefix (encode (smul a B25519)) m) m (encode (smul a B25519)).
Proof.
  unfold Rfc8032.accepts, Rfc8032.signature. cbv zeta. set (r := Rfc8032.nonce H prefix m). set (pub := encode (smul a B25519)).
  set (R := encode (smul r B25519)). assert (length R = 32%nat) as LR by apply encode_length.
  rewrite take_app_length' by exact LR. rewrite drop_app_length' by exact LR. set (k := Rfc8032.challenge H R pub m).
  pose proof (reduced_scalar (k * a + r)) as B.
  rewrite le_octets_val, (Z.mod_small (_ mod _) (2 ^ _)) by (change (8 * Z.of_nat 32) with 256; lia).
  split; [lia|]. exists (smul a B25519). split; [apply names_self|]. by rewrite equation_holds.
Qed.
End accepted.

Lemma created_accepts seed m : length seed = 32%nat -> exists pub priv sg,
  orlp_ed25519_create_keypair seed = Some (pub, priv) /\ length pub = 32%nat /\ length priv = 64%nat /\
  orlp_ed25519_sign m pub priv = Some sg /\ length sg = 64%nat /\ orlp_ed25519_verify sg m pub = Some 1.
Proof.
  intros Hs. pose proof (create_keypair_ok seed Hs) as E. pose proof (sha512_u64_length seed) as Hl.
  unfold Rfc8032.public_key, Rfc8032.scalar in E. revert E Hl. generalize (sha512_u64 seed). intros h E Hl.
  assert (length (take 32 h) = 32%nat) as Ht by (rewrite length_take; lia).
  assert (length (clamp h) = 64%nat) as Hc by (by rewrite clamp_length).
  set (pub := encode _) in *. assert (length pub = 32%nat) as Hp by apply encode_length.
  pose proof (sign_ok m pub (clamp h) Hp Hc) as Es. rewrite clamp_take, (clamp_val _ Ht), clamp_drop in Es.
  pose proof (signature_length sha512_u64 (Rfc8032.prune (take 32 h)) (drop 32 h) pub m) as Hsg.
  pose proof (signature_accepted sha512_u64 (Rfc8032.prune (take 32 h)) (drop 32 h) m) as Ha. fold pub in Ha.
  set (sg := Rfc8032.signature _ _ _ _ _) in *. exists pub, (clamp h), sg.
  refine (conj E (conj Hp (conj Hc (conj Es (conj Hsg _))))).
  destruct (verify_ok sg m pub Hsg Hp) as [[Ev _]|[_ Hn]]; [exact Ev|by destruct Hn].
Qed.

(** ** With SHA-512 *)

Lemma sha512_small m n : length m = n -> (Z.of_nat n <= 2 ^ 60) -> sha512_u64 m = Fips.sha512 m.
Proof. intros Hn H. apply sha512_u64_fips. unfold blen. lia. Qed.

Lemma signature_fips a prefix pub m : length prefix = 32%nat -> length pub = 32%nat -> blen m < 2 ^ 59 ->
  Rfc8032.signature sha512_u64 a prefix pub m = Rfc8032.signature Fips.sha512 a prefix pub m.
Proof.
  intros Hp Hq Hm. unfold Rfc8032.signature, Rfc8032.nonce, Rfc8032.challenge. cbv zeta. unfold blen in Hm.
  rewrite (sha512_small (prefix ++ m) (32 + length m)) by (rewrite ?length_app; lia).
  set (R := encode _). assert (length R = 32%nat) as LR by apply encode_length.
  by rewrite (sha512_small (R ++ pub ++ m) (32 + (32 + length m))) by (rewrite ?length_app; lia).
Qed.

(** C27: for any seed, [orlp_ed25519_create_keypair] gives a public and a private key, [orlp_ed25519_sign] signs any message with them, without undefined behaviour, and [orlp_ed25519_verify] accepts the signature. *)
Theorem ed25519_sign_then_verify seed m : length seed = 32%nat -> exists pub priv sg,
  orlp_ed25519_create_keypair seed = Some (pub, priv) /\ length pub = 32%nat /\ length priv = 64%nat /\
  orlp_ed25519_sign m pub priv = Some sg /\ length sg = 64%nat /\ orlp_ed25519_verify sg m pub = Some 1.
Proof. exact (created_accepts seed m). Qed.
Lemma ed25519_sign_then_verify_witness : exists pub priv sg,
  orlp_ed25519_create_keypair (replicate 32 x07) = Some (pub, priv) /\ length pub = 32%nat /\ length priv = 64%nat /\
  orlp_ed25519_sign (str "hello") pub priv = Some sg /\ length sg = 64%nat /\ orlp_ed25519_verify sg (str "hello") pub = Some 1.
Proof. exact (ed25519_sign_then_verify (replicate 32 x07) (str "hello") eq_refl). Defined.

(** C28: the public key and the signature are those that RFC 8032 defines with SHA-512: the scalar is the pruned first half of the hash of the seed, the nonce and the challenge are hashes reduced modulo the group order, R is the encoded multiple of the base point. *)
Theorem ed25519_sign_rfc8032 seed m : length seed = 32%nat -> blen m < 2 ^ 59 -> exists priv,
  orlp_ed25519_create_keypair seed = Some (Rfc8032.public_key Fips.sha512 seed, priv) /\
  orlp_ed25519_sign m (Rfc8032.public_key Fips.sha512 seed) priv = Some (Rfc8032.sign Fips.sha512 seed m).
Proof.
  intros Hs Hm. pose proof (create_keypair_ok seed Hs) as E. pose proof (sha512_u64_length seed) as Hl.
  pose proof (sha512_small seed 32 Hs ltac:(lia)) as EH.
  unfold Rfc8032.sign, Rfc8032.public_key, Rfc8032.scalar, Rfc8032.prefix in *. rewrite EH in E, Hl.
  exists (clamp (Fips.sha512 seed)). split; [exact E|]. clear E EH. revert Hl. generalize (Fips.sha512 seed). intros h Hl.
  assert (length (take 32 h) = 32%nat) as Ht by (rewrite length_take; lia).
  assert (length (clamp h) = 64%nat) as Hc by (by rewrite clamp_length).
  rewrite (sign_ok m _ (clamp h) (encode_length _) Hc). f_equal. rewrite clamp_take, (clamp_val _ Ht), clamp_drop.
  apply signature_fips; [rewrite length_drop; lia|apply encode_length|exact Hm].
Qed.
Lemma ed25519_sign_rfc8032_witness : exists priv,
  orlp_ed25519_create_keypair (replicate 32 x07) = Some (Rfc8032.public_key Fips.sha512 (replicate 32 x07), priv) /\
  orlp_ed25519_sign (str "hello") (Rfc8032.public_key Fips.sha512 (replicate 32 x07)) priv =
    Some (Rfc8032.sign Fips.sha512 (replicate 32 x07) (str "hello")).
Proof. exact (ed25519_sign_rfc8032 (replicate 32 x07) (str "hello") eq_refl eq_refl). Defined.

(** C29: on a signature of 64 octets and a key of 32 [orlp_ed25519_verify] always answers, 1 exactly when the scalar is below 2^253, the key names a point A of the curve, and the encoding of S B - k A is the R of the signature. *)
Theorem ed25519_verify_rfc8032 sg m pub : length sg = 64%nat -> length pub = 32%nat -> blen m < 2 ^ 59 ->
  (orlp_ed25519_verify sg m pub = Some 1 /\ Rfc8032.accepts Fips.sha512 sg m pub) \/
  (orlp_ed25519_verify sg m pub = Some 0 /\ ~ Rfc8032.accepts Fips.sha512 sg m pub).
Proof.
  intros Hsg Hpub Hm. pose proof (verify_ok sg m pub Hsg Hpub) as H. unfold Rfc8032.accepts, Rfc8032.challenge in *.
  unfold blen in Hm. assert (length (take 32 sg) = 32%nat) as Lt by (rewrite length_take; lia).
  rewrite (sha512_small (take 32 sg ++ pub ++ m) (32 + (32 + length m))) in H by (rewrite ?length_app; lia). exact H.
Qed.
Lemma ed25519_verify_rfc8032_witness :
  (orlp_ed25519_verify (replicate 64 x01) (str "hello") (replicate 32 x01) = Some 1 /\
    Rfc8032.accepts Fips.sha512 (replicate 64 x01) (str "hello") (replicate 32 x01)) \/
  (orlp_ed25519_verify (replicate 64 x01) (str "hello") (replicate 32 x01) = Some 0 /\
    ~ Rfc8032.accepts Fips.sha512 (replicate 64 x01) (str "hello") (replicate 32 x01)).
Proof. exact (ed25519_verify_rfc8032 (replicate 64 x01) (str "hello") (replicate 32 x01) eq_refl eq_refl eq_refl). Defined.
