(* ===== verification/OrlpInstance.v ===== *)
(** * OrlpInstance: the vendored Ed25519 is what the wrappers expect

    The interface [Ed25519] of [Crypto] takes lists of octets; the C functions take arrays
    of 32 and 64.  A list of another length is cut or filled with zeros here; the wrappers
    pass arrays of the right size.  The laws follow from the facts of the implementation, for
    every seed and every message. *)
From S2P Require Import Prelude Octets Sha512 Sha512Facts OrlpEd25519 OrlpFacts Crypto.

Definition array (n : nat) (p : bytes) : bytes := take n (p ++ replicate n x00).

Lemma array_length n p : length (array n p) = n.
Proof. unfold array. rewrite length_take, length_app, length_replicate. lia. Qed.
Lemma array_id n p : length p = n -> array n p = p.
Proof. intros H. unfold array. rewrite take_app_le by lia. apply take_ge. lia. Qed.

#[export] Instance orlp_ed25519 : Ed25519 := {
  orlp_ed25519_create_keypair seed :=
    default (replicate 32 x00, replicate 64 x00) (OrlpEd25519.orlp_ed25519_create_keypair (array 32 seed));
  orlp_ed25519_sign m pub priv :=
    default (replicate 64 x00) (OrlpEd25519.orlp_ed25519_sign m (array 32 pub) (array 64 priv));
  orlp_ed25519_verify sg m pub :=
    default 0 (OrlpEd25519.orlp_ed25519_verify (array 64 sg) m (array 32 pub))
}.

Lemma from_seed seed : exists pub priv,
  OrlpEd25519.orlp_ed25519_create_keypair (array 32 seed) = Some (pub, priv) /\
  orlp_ed25519_create_keypair seed = (pub, priv) /\ length pub = 32%nat.
Proof.
  destruct (created_accepts (array 32 seed) [] (array_length 32 seed)) as (pub & priv & sg & E & Hp & _).
  exists pub, priv. split; [exact E|]. split; [exact (f_equal (default _) E)|exact Hp].
Qed.

Lemma sign_array m pub priv : exists sg,
  OrlpEd25519.orlp_ed25519_sign m (array 32 pub) (array 64 priv) = Some sg /\
  orlp_ed25519_sign m pub priv = sg /\ length sg = 64%nat.
Proof.
  pose proof (sign_ok m (array 32 pub) (array 64 priv) (array_length 32 pub) (array_length 64 priv)) as E.
  eexists. split; [exact E|]. split; [exact (f_equal (default _) E)|apply signature_length].
Qed.

#[export] Instance orlp_ed25519_laws : Ed25519Laws.
Proof.
  split.
  - intros seed. destruct (from_seed seed) as (pub & priv & _ & -> & Hp). exact Hp.
  - intros m pub priv. destruct (sign_array m pub priv) as (sg & _ & -> & Hs). exact Hs.
  - intros seed m. destruct (created_accepts (array 32 seed) m (array_length 32 seed)) as (pub & priv & sg & E & Hp & Hk & Es & Hs & Ev).
    destruct (from_seed seed) as (pub' & priv' & E' & -> & _). rewrite E in E'. injection E' as <- <-.
    pose proof (f_equal (default (replicate 64 x00)) Es) as Es'. rewrite <- (array_id 32 pub Hp), <- (array_id 64 priv Hk) in Es' at 1.
    change (orlp_ed25519_verify (orlp_ed25519_sign m pub priv) m pub = 1).
    replace (orlp_ed25519_sign m pub priv) with sg by (symmetry; exact Es').
    pose proof (f_equal (default 0) Ev) as Ev'. rewrite <- (array_id 64 sg Hs), <- (array_id 32 pub Hp) in Ev' at 1. exact Ev'.
Qed.

(** The three wrappers of [ssh_crypto.cpp], over the vendored code. *)
Lemma wrappers_sign_verify seed m pub sg :
  ed25519_pub_from_seed seed = Some pub -> ed25519_sign seed m = Some sg -> ed25519_verify pub m sg = true.
Proof. apply ed25519_verify_sign_ok. Qed.
