(* ===== verification/Keccak.v ===== *)
(** * Keccak: the permutation and the hash functions of [fips202/] of mlkem-native

    A state is the list of its 25 lanes; [uint64_t] is [Z] with its wrap-around.  The octets
    of a state are those of its lanes, lowest first, which is also what the code does with
    the octets of the array on a little-endian machine.  The functions on four states at once
    work on the list of the four.  The clearing of buffers is not modelled. *)
From S2P Require Import Prelude Octets.

Definition MLK_KECCAK_LANES : nat := 25.

(** [(a << offset) ^ (a >> (64 - offset))] *)
Definition ROL (a offset : Z) : Z := Z.lxor (u64 (Z.shiftl a offset)) (Z.shiftr a (64 - offset)).

(** ** The permutation *)

Local Abbreviation xor := Z.lxor.
(** [~a] *)
Definition not64 (a : Z) : Z := Z.lxor a 0xFFFFFFFFFFFFFFFF.

Definition mlk_KeccakF_RoundConstants : list Z :=
  [0x0000000000000001; 0x0000000000008082; 0x800000000000808a; 0x8000000080008000;
   0x000000000000808b; 0x0000000080000001; 0x8000000080008081; 0x8000000000008009;
   0x000000000000008a; 0x0000000000000088; 0x0000000080008009; 0x000000008000000a;
   0x000000008000808b; 0x800000000000008b; 0x8000000000008089; 0x8000000000008003;
   0x8000000000008002; 0x8000000000000080; 0x000000000000800a; 0x800000008000000a;
   0x8000000080008081; 0x8000000000008080; 0x0000000080000001; 0x8000000080008008].

(** One round, from the lanes [A] to the lanes [E]; the second half of the loop body is the same with [A] and [E] exchanged. *)
Definition keccak_round (rc : Z) (A : list Z) : list Z :=
  match A with
  | [Aba; Abe; Abi; Abo; Abu; Aga; Age; Agi; Ago; Agu; Aka; Ake; Aki; Ako; Aku; Ama; Ame; Ami; Amo; Amu; Asa; Ase; Asi; Aso; Asu] =>
    (* prepareTheta *)
    let BCa := xor (xor (xor (xor Aba Aga) Aka) Ama) Asa in
    let BCe := xor (xor (xor (xor Abe Age) Ake) Ame) Ase in
    let BCi := xor (xor (xor (xor Abi Agi) Aki) Ami) Asi in
    let BCo := xor (xor (xor (xor Abo Ago) Ako) Amo) Aso in
    let BCu := xor (xor (xor (xor Abu Agu) Aku) Amu) Asu in
    (* thetaRhoPiChiIotaPrepareTheta(round, A, E) *)
    let Da := xor BCu (ROL BCe 1) in let De := xor BCa (ROL BCi 1) in let Di := xor BCe (ROL BCo 1) in
    let Do := xor BCi (ROL BCu 1) in let Du := xor BCo (ROL BCa 1) in let Aba := xor Aba Da in
    let BCa := Aba in let Age := xor Age De in let BCe := ROL Age 44 in let Aki := xor Aki Di in
    let BCi := ROL Aki 43 in let Amo := xor Amo Do in let BCo := ROL Amo 21 in let Asu := xor Asu Du in
    let BCu := ROL Asu 14 in let Eba := xor BCa (Z.land (not64 BCe) BCi) in let Eba := xor Eba rc in
    let Ebe := xor BCe (Z.land (not64 BCi) BCo) in let Ebi := xor BCi (Z.land (not64 BCo) BCu) in
    let Ebo := xor BCo (Z.land (not64 BCu) BCa) in let Ebu := xor BCu (Z.land (not64 BCa) BCe) in
    let Abo := xor Abo Do in let BCa := ROL Abo 28 in let Agu := xor Agu Du in let BCe := ROL Agu 20 in
    let Aka := xor Aka Da in let BCi := ROL Aka 3 in let Ame := xor Ame De in let BCo := ROL Ame 45 in
    let Asi := xor Asi Di in let BCu := ROL Asi 61 in let Ega := xor BCa (Z.land (not64 BCe) BCi) in
    let Ege := xor BCe (Z.land (not64 BCi) BCo) in let Egi := xor BCi (Z.land (not64 BCo) BCu) in
    let Ego := xor BCo (Z.land (not64 BCu) BCa) in let Egu := xor BCu (Z.land (not64 BCa) BCe) in
    let Abe := xor Abe De in let BCa := ROL Abe 1 in let Agi := xor Agi Di in let BCe := ROL Agi 6 in
    let Ako := xor Ako Do in let BCi := ROL Ako 25 in let Amu := xor Amu Du in let BCo := ROL Amu 8 in
    let Asa := xor Asa Da in let BCu := ROL Asa 18 in let Eka := xor BCa (Z.land (not64 BCe) BCi) in
    let Eke := xor BCe (Z.land (not64 BCi) BCo) in let Eki := xor BCi (Z.land (not64 BCo) BCu) in
    let Eko := xor BCo (Z.land (not64 BCu) BCa) in let Eku := xor BCu (Z.land (not64 BCa) BCe) in
    let Abu := xor Abu Du in let BCa := ROL Abu 27 in let Aga := xor Aga Da in let BCe := ROL Aga 36 in
    let Ake := xor Ake De in let BCi := ROL Ake 10 in let Ami := xor Ami Di in let BCo := ROL Ami 15 in
    let Aso := xor Aso Do in let BCu := ROL Aso 56 in let Ema := xor BCa (Z.land (not64 BCe) BCi) in
    let Eme := xor BCe (Z.land (not64 BCi) BCo) in let Emi := xor BCi (Z.land (not64 BCo) BCu) in
    let Emo := xor BCo (Z.land (not64 BCu) BCa) in let Emu := xor BCu (Z.land (not64 BCa) BCe) in
    let Abi := xor Abi Di in let BCa := ROL Abi 62 in let Ago := xor Ago Do in let BCe := ROL Ago 55 in
    let Aku := xor Aku Du in let BCi := ROL Aku 39 in let Ama := xor Ama Da in let BCo := ROL Ama 41 in
    let Ase := xor Ase De in let BCu := ROL Ase 2 in let Esa := xor BCa (Z.land (not64 BCe) BCi) in
    let Ese := xor BCe (Z.land (not64 BCi) BCo) in let Esi := xor BCi (Z.land (not64 BCo) BCu) in
    let Eso := xor BCo (Z.land (not64 BCu) BCa) in let Esu := xor BCu (Z.land (not64 BCa) BCe) in
    [Eba; Ebe; Ebi; Ebo; Ebu; Ega; Ege; Egi; Ego; Egu; Eka; Eke; Eki; Eko; Eku; Ema; Eme; Emi; Emo; Emu; Esa; Ese; Esi; Eso; Esu]
  | _ => A
  end.

(** [for (round = 0; round < 24; round += 2)] *)
Definition mlk_keccakf1600_permute (state : list Z) : list Z :=
  fold_left (fun A round =>
      let E := keccak_round (nth round mlk_KeccakF_RoundConstants 0) A in
      keccak_round (nth (round + 1) mlk_KeccakF_RoundConstants 0) E)
    [0; 2; 4; 6; 8; 10; 12; 14; 16; 18; 20; 22]%nat state.

(** ** Octets of a state *)

Definition mlk_keccakf1600_extract_bytes (state : list Z) (offset length : nat) : bytes :=
  (fun i => byte_of_Z (Z.land (Z.shiftr (nth ((offset + i) / 8) state 0) (8 * Z.land (Z.of_nat (offset + i)) 7)) 0xFF))
    <$> seq 0 length.

Definition xor_byte (state : list Z) (k : nat) (b : Z) : list Z :=
  <[(k / 8)%nat := xor (nth (k / 8) state 0) (Z.shiftl b (8 * Z.land (Z.of_nat k) 7))]> state.

Definition mlk_keccakf1600_xor_bytes (state : list Z) (data : bytes) (offset length : nat) : list Z :=
  fold_left (fun s i => xor_byte s (offset + i) (octet_at data i)) (seq 0 length) state.

(** ** The sponge *)

(** [while (mlen >= r)]; [None] is a loop that does not end. *)
Fixpoint absorb_blocks (fuel : nat) (s : list Z) (r : nat) (m : bytes) : option (list Z * bytes) :=
  if (r <=? length m)%nat then
    match fuel with
    | O => None
    | S fuel =>
        let s := mlk_keccakf1600_xor_bytes s m 0 r in
        let s := mlk_keccakf1600_permute s in
        absorb_blocks fuel s r (drop r m)
    end
  else Some (s, m).

(** What comes after the last whole block. *)
Definition absorb_rest (s : list Z) (r : nat) (m : bytes) (p : Z) : list Z :=
  let mlen := length m in
  let s := if (0 <? mlen)%nat then mlk_keccakf1600_xor_bytes s m 0 mlen else s in
  if (mlen =? r - 1)%nat then
    let p := Z.lor p 128 in
    mlk_keccakf1600_xor_bytes s [byte_of_Z p] mlen 1
  else
    let s := mlk_keccakf1600_xor_bytes s [byte_of_Z p] mlen 1 in
    let p := 128 in
    mlk_keccakf1600_xor_bytes s [byte_of_Z p] (r - 1) 1.

Definition mlk_keccak_absorb_once (r : nat) (m : bytes) (p : Z) : option (list Z) :=
  let s := replicate MLK_KECCAK_LANES 0 in
  '(s, m) ← absorb_blocks (length m) s r m;
  Some (absorb_rest s r m p).

(** The output and the state. *)
Fixpoint mlk_keccak_squeezeblocks (nblocks : nat) (s : list Z) (r : nat) : bytes * list Z :=
  match nblocks with
  | O => ([], s)
  | S nblocks =>
      let s := mlk_keccakf1600_permute s in
      let h := mlk_keccakf1600_extract_bytes s 0 r in
      let '(rest, s) := mlk_keccak_squeezeblocks nblocks s r in
      (h ++ rest, s)
  end.

(** [while (outlen > 0)] *)
Fixpoint squeeze_loop (fuel outlen : nat) (s : list Z) (r : nat) : option bytes :=
  if (outlen =? 0)%nat then Some []
  else
    match fuel with
    | O => None
    | S fuel =>
        let s := mlk_keccakf1600_permute s in
        let len := if (outlen <? r)%nat then outlen else r in
        let h := mlk_keccakf1600_extract_bytes s 0 len in
        app h <$> squeeze_loop fuel (outlen - len) s r
    end.
Definition mlk_keccak_squeeze_once (outlen : nat) (s : list Z) (r : nat) : option bytes := squeeze_loop outlen outlen s r.

(** ** The hash functions *)

Definition SHAKE128_RATE : nat := 168.
Definition SHAKE256_RATE : nat := 136.
Definition SHA3_256_RATE : nat := 136.
Definition SHA3_512_RATE : nat := 72.

Definition mlk_shake128_absorb_once (input : bytes) : option (list Z) := mlk_keccak_absorb_once SHAKE128_RATE input 0x1F.
Definition mlk_shake128_squeezeblocks (nblocks : nat) (state : list Z) : bytes * list Z :=
  mlk_keccak_squeezeblocks nblocks state SHAKE128_RATE.

Definition mlk_shake256 (outlen : nat) (input : bytes) : option bytes :=
  s ← mlk_keccak_absorb_once SHAKE256_RATE input 0x1F;
  mlk_keccak_squeeze_once outlen s SHAKE256_RATE.
Definition mlk_sha3_256 (input : bytes) : option bytes :=
  ctx ← mlk_keccak_absorb_once SHA3_256_RATE input 0x06;
  mlk_keccak_squeeze_once 32 ctx SHA3_256_RATE.
Definition mlk_sha3_512 (input : bytes) : option bytes :=
  ctx ← mlk_keccak_absorb_once SHA3_512_RATE input 0x06;
  mlk_keccak_squeeze_once 64 ctx SHA3_512_RATE.

(** ** Four states at once *)

Definition mlk_keccakf1600x4_permute (state : list (list Z)) : list (list Z) := mlk_keccakf1600_permute <$> state.
Definition mlk_keccakf1600x4_extract_bytes (state : list (list Z)) (offset length : nat) : list bytes :=
  (fun s => mlk_keccakf1600_extract_bytes s offset length) <$> state.
Definition mlk_keccakf1600x4_xor_bytes (state : list (list Z)) (data : list bytes) (offset length : nat) : list (list Z) :=
  zip_with (fun s d => mlk_keccakf1600_xor_bytes s d offset length) state data.

Fixpoint absorb_blocks_x4 (fuel : nat) (s : list (list Z)) (r : nat) (ins : list bytes) (inlen : nat) :
    option (list (list Z) * list bytes * nat) :=
  if (r <=? inlen)%nat then
    match fuel with
    | O => None
    | S fuel =>
        let s := mlk_keccakf1600x4_xor_bytes s ins 0 r in
        let s := mlk_keccakf1600x4_permute s in
        absorb_blocks_x4 fuel s r (drop r <$> ins) (inlen - r)
    end
  else Some (s, ins, inlen).

Definition absorb_rest_x4 (s : list (list Z)) (r : nat) (ins : list bytes) (inlen : nat) (p : Z) : list (list Z) :=
  let ps p := replicate 4 [byte_of_Z p] in
  let s := if (0 <? inlen)%nat then mlk_keccakf1600x4_xor_bytes s ins 0 inlen else s in
  if (inlen =? r - 1)%nat then
    let p := Z.lor p 128 in
    mlk_keccakf1600x4_xor_bytes s (ps p) inlen 1
  else
    let s := mlk_keccakf1600x4_xor_bytes s (ps p) inlen 1 in
    let p := 128 in
    mlk_keccakf1600x4_xor_bytes s (ps p) (r - 1) 1.

Definition mlk_keccak_absorb_once_x4 (s : list (list Z)) (r : nat) (ins : list bytes) (inlen : nat) (p : Z) : option (list (list Z)) :=
  '(s, ins, inlen) ← absorb_blocks_x4 inlen s r ins inlen;
  Some (absorb_rest_x4 s r ins inlen p).

Fixpoint mlk_keccak_squeezeblocks_x4 (nblocks : nat) (s : list (list Z)) (r : nat) : list bytes * list (list Z) :=
  match nblocks with
  | O => (replicate 4 [], s)
  | S nblocks =>
      let s := mlk_keccakf1600x4_permute s in
      let h := mlk_keccakf1600x4_extract_bytes s 0 r in
      let '(rest, s) := mlk_keccak_squeezeblocks_x4 nblocks s r in
      (zip_with app h rest, s)
  end.

Definition mlk_shake128x4_absorb_once (ins : list bytes) (inlen : nat) : option (list (list Z)) :=
  let state := replicate 4 (replicate MLK_KECCAK_LANES 0) in
  mlk_keccak_absorb_once_x4 state SHAKE128_RATE ins inlen 0x1F.
Definition mlk_shake128x4_squeezeblocks (nblocks : nat) (state : list (list Z)) : list bytes * list (list Z) :=
  mlk_keccak_squeezeblocks_x4 nblocks state SHAKE128_RATE.

Definition mlk_shake256x4_absorb_once (ins : list bytes) (inlen : nat) : option (list (list Z)) :=
  let state := replicate 4 (replicate MLK_KECCAK_LANES 0) in
  mlk_keccak_absorb_once_x4 state SHAKE256_RATE ins inlen 0x1F.
Definition mlk_shake256x4_squeezeblocks (nblocks : nat) (state : list (list Z)) : list bytes * list (list Z) :=
  mlk_keccak_squeezeblocks_x4 nblocks state SHAKE256_RATE.
Definition mlk_shake256x4 (outlen : nat) (ins : list bytes) (inlen : nat) : option (list bytes) :=
  let nblocks := (outlen / SHAKE256_RATE)%nat in
  statex ← mlk_shake256x4_absorb_once ins inlen;
  let '(out, statex) := mlk_shake256x4_squeezeblocks nblocks statex in
  let outlen := (outlen - nblocks * SHAKE256_RATE)%nat in
  if negb (outlen =? 0)%nat then
    let '(tmp, statex) := mlk_shake256x4_squeezeblocks 1 statex in
    Some (zip_with (fun out tmp => out ++ take outlen tmp) out tmp)
  else Some out.
