(* ===== verification/KeccakRounds.v ===== *)
(** * KeccakRounds: FIPS 202, and the permutation

    The standard's functions, the permutation on single bits and the sponge on octets.
    Each round of the code computes the standard's on the bits of the lanes. *)
From S2P Require Import Prelude Octets Keccak.

(** ** FIPS 202 *)

Module Fips202.
(** 3.1: a state array, [A x y z]. *)
Definition state_array : Type := nat -> nat -> Z -> bool.

(** 3.2.1 *)
Definition theta (A : state_array) : state_array :=
  let C x z := xorb (xorb (xorb (xorb (A x 0%nat z) (A x 1%nat z)) (A x 2%nat z)) (A x 3%nat z)) (A x 4%nat z) in
  let D x z := xorb (C ((x + 4) mod 5)%nat z) (C ((x + 1) mod 5)%nat ((z - 1) mod 64)) in
  fun x y z => xorb (A x y z) (D x z).

(** 3.2.2: the walk over the lanes from (1, 0), with the offset at each. *)
Fixpoint rho_walk (n : nat) (t : Z) (x y : nat) : list (nat * nat * Z) :=
  match n with
  | O => []
  | S n => (x, y, (t + 1) * (t + 2) / 2) :: rho_walk n (t + 1) y ((2 * x + 3 * y) mod 5)
  end.
Definition rho_offset (x y : nat) : Z :=
  match list_find (fun e => (e.1.1 = x) /\ (e.1.2 = y)) (rho_walk 24 0 1 0) with
  | Some (_, (_, _, o)) => o
  | None => 0
  end.
Definition rho (A : state_array) : state_array := fun x y z => A x y ((z - rho_offset x y) mod 64).

(** 3.2.3 *)
Definition pi (A : state_array) : state_array := fun x y z => A ((x + 3 * y) mod 5)%nat x z.

(** 3.2.4 *)
Definition chi (A : state_array) : state_array :=
  fun x y z => xorb (A x y z) (xorb (A ((x + 1) mod 5)%nat y z) true && A ((x + 2) mod 5)%nat y z).

(** 3.2.5: the shift register of Algorithm 5, [R[0]] first. *)
Definition lfsr_step (R : list bool) : list bool :=
  let R := false :: R in
  let r i := nth i R false in
  take 8 (<[6 := xorb (r 6) (r 8)]> (<[5 := xorb (r 5) (r 8)]> (<[4 := xorb (r 4) (r 8)]> (<[0 := xorb (r 0) (r 8)]> R))))%nat.
Definition rc (t : nat) : bool := nth 0 (Nat.iter (t mod 255) lfsr_step [true; false; false; false; false; false; false; false]) false.
Definition RC (ir : nat) (z : Z) : bool :=
  match list_find (fun j => z = 2 ^ Z.of_nat j - 1) (seq 0 7) with
  | Some (_, j) => rc (j + 7 * ir)
  | None => false
  end.
Definition iota (ir : nat) (A : state_array) : state_array :=
  fun x y z => if (x =? 0)%nat && (y =? 0)%nat then xorb (A x y z) (RC ir z) else A x y z.

Definition Rnd (ir : nat) (A : state_array) : state_array := iota ir (chi (pi (rho (theta A)))).

(** A state as its lanes: the bit z of lane 5 y + x is [A x y z] (3.1.2). *)
Definition array_of (s : list Z) : state_array := fun x y z => Z.testbit (nth (5 * y + x) s 0) z.
Fixpoint number_from (k : Z) (n : nat) (f : Z -> bool) : Z :=
  match n with O => 0 | S n => 2 * number_from (k + 1) n f + Z.b2z (f k) end.
Definition number_of (f : Z -> bool) : Z := number_from 0 64 f.
Definition lanes_of (A : state_array) : list Z :=
  (fun i => number_of (A (i mod 5)%nat (i / 5)%nat)) <$> seq 0 25.

(** 3.3: KECCAK-p[1600, 24]. *)
Definition keccak_p (s : list Z) : list Z := fold_left (fun s ir => lanes_of (Rnd ir (array_of s))) (seq 0 24) s.

(** On strings of 200 octets; bit 8 i + j of the string is bit j of octet i (B.1). *)
Definition lanes_in (S : bytes) : list Z := (fun i => le_val (take 8 (drop (8 * i) S))) <$> seq 0 25.
Definition octets_in (s : list Z) : bytes := flat_map (le_octets 8) s.
Definition f (S : bytes) : bytes := octets_in (keccak_p (lanes_in S)).

(** 4: the sponge, with the rate and the padding in octets (B.2). *)
Definition xor_octets (S P : bytes) : bytes := zip_with (fun a b => byte_of_Z (Z.lxor (byte_to_Z a) (byte_to_Z b))) S P.
Fixpoint absorb (n r : nat) (S P : bytes) : bytes :=
  match n with
  | O => S
  | Datatypes.S n => absorb n r (f (xor_octets S (take r P ++ replicate (200 - r) x00))) (drop r P)
  end.
Fixpoint squeeze (n r : nat) (S : bytes) : bytes :=
  match n with
  | O => []
  | Datatypes.S n => take r S ++ squeeze n r (f S)
  end.
(** [p]: the domain bits and the first bit of the padding. *)
Definition pad (p : Z) (r : nat) (m : bytes) : bytes :=
  let q := (r - length m mod r)%nat in
  if (q =? 1)%nat then m ++ [byte_of_Z (Z.lor p 128)]
  else m ++ [byte_of_Z p] ++ replicate (q - 2) x00 ++ [x80].
Definition sponge (r : nat) (p : Z) (m : bytes) (d : nat) : bytes :=
  let P := pad p r m in
  let S := absorb (length P / r) r (replicate 200 x00) P in
  take d (squeeze (d / r + 1) r S).

Definition sha3_256 (m : bytes) : bytes := sponge 136 0x06 m 32.
Definition sha3_512 (m : bytes) : bytes := sponge 72 0x06 m 64.
Definition shake128 (m : bytes) (d : nat) : bytes := sponge 168 0x1F m d.
Definition shake256 (m : bytes) (d : nat) : bytes := sponge 136 0x1F m d.
End Fips202.

(** ** Bits of a lane *)

Definition lane (x : Z) : Prop := 0 <= x < 2 ^ 64.

Lemma lane_bits x : lane x <-> 0 <= x /\ forall z, 64 <= z -> Z.testbit x z = false.
Proof.
  unfold lane. split.
  - intros [H0 H]. split; [done|]. intros z Hz. destruct (decide (x = 0)) as [->|Hx]; [apply Z.bits_0|].
    apply Z.bits_above_log2; [done|]. apply Z.log2_lt_pow2; [lia|]. eapply Z.lt_le_trans; [exact H|]. apply Z.pow_le_mono_r; lia.
  - intros [H0 H]. split; [done|]. destruct (decide (x = 0)) as [->|Hx]; [lia|].
    apply Z.log2_lt_pow2; [lia|]. destruct (decide (Z.log2 x < 64)) as [|Hl]; [done|].
    pose proof (Z.bit_log2 x ltac:(lia)) as Hb. rewrite H in Hb by lia. discriminate Hb.
Qed.

Lemma lane_xor x y : lane x -> lane y -> lane (Z.lxor x y).
Proof.
  rewrite !lane_bits. intros [Hx Bx] [Hy By]. split; [by apply Z.lxor_nonneg|].
  intros z Hz. by rewrite Z.lxor_spec, Bx, By.
Qed.
Lemma lane_land x y : lane x -> lane y -> lane (Z.land x y).
Proof.
  rewrite !lane_bits. intros [Hx Bx] [Hy By]. split; [apply Z.land_nonneg; by left|].
  intros z Hz. by rewrite Z.land_spec, Bx.
Qed.
Lemma lane_not x : lane x -> lane (not64 x).
Proof. intros H. apply lane_xor; [done|]. unfold lane. lia. Qed.

Lemma u64_shiftl_bit a n z : 0 <= n -> 0 <= z < 64 -> Z.testbit (u64 (Z.shiftl a n)) z = (n <=? z) && Z.testbit a (z - n).
Proof.
  intros Hn Hz. unfold u64. rewrite Z.mod_pow2_bits_low by lia. destruct (Z.leb_spec n z); cbn [andb].
  - apply Z.shiftl_spec. lia.
  - rewrite Z.shiftl_spec by lia. apply Z.testbit_neg_r. lia.
Qed.

Lemma ROL_bit a n z : lane a -> 0 < n < 64 -> 0 <= z < 64 -> Z.testbit (ROL a n) z = Z.testbit a ((z - n) mod 64).
Proof.
  intros Ha Hn Hz. apply lane_bits in Ha as [_ Ha]. unfold ROL. rewrite Z.lxor_spec, u64_shiftl_bit, Z.shiftr_spec by lia.
  destruct (Z.leb_spec n z); cbn [andb].
  - rewrite (Ha (z + (64 - n))) by lia. rewrite Z.mod_small by lia. by rewrite xorb_false_r.
  - rewrite xorb_false_l. f_equal. apply (Z.mod_unique_pos _ _ (-1)); lia.
Qed.
Lemma lane_ROL a n : lane a -> 0 < n < 64 -> lane (ROL a n).
Proof.
  intros Ha Hn. apply lane_xor; [unfold lane; apply u64_range|]. unfold lane in *. rewrite Z.shiftr_div_pow2 by lia.
  pose proof (Z.div_lt_upper_bound a (2 ^ (64 - n)) (2 ^ 64)) as H. split; [apply Z.div_pos; lia|].
  apply (Z.le_lt_trans _ a); [|lia]. apply Z.div_le_upper_bound; [lia|]. nia.
Qed.
Lemma not64_bit a z : 0 <= z < 64 -> Z.testbit (not64 a) z = xorb (Z.testbit a z) true.
Proof.
  intros Hz. unfold not64. rewrite Z.lxor_spec. f_equal. change 0xFFFFFFFFFFFFFFFF with (Z.ones 64).
  rewrite Z.testbit_ones by lia. lia.
Qed.

Ltac lanes := first [assumption | apply lane_xor; lanes | apply lane_land; lanes | apply lane_not; lanes | apply lane_ROL; [lanes|lia]].

(** A lane is the number of its bits. *)
Lemma number_from_bit k n f z : 0 <= z -> Z.testbit (Fips202.number_from k n f) z = (z <? Z.of_nat n) && f (k + z).
Proof.
  revert k z. induction n as [|n IH]; intros k z Hz; cbn [Fips202.number_from].
  { rewrite Z.bits_0. by destruct (Z.ltb_spec z (Z.of_nat 0)); [lia|]. }
  destruct (decide (z = 0)) as [->|Hne].
  - rewrite Z.testbit_0_r. by rewrite Z.add_0_r.
  - replace z with (Z.succ (z - 1)) at 1 by lia. rewrite Z.testbit_succ_r, IH by lia.
    replace (k + 1 + (z - 1)) with (k + z) by lia. f_equal. apply eq_true_iff_eq. rewrite !Z.ltb_lt. lia.
Qed.
Lemma number_from_nonneg k n f : 0 <= Fips202.number_from k n f.
Proof. revert k. induction n as [|n IH]; intros k; cbn [Fips202.number_from]; [lia|]. specialize (IH (k + 1)). destruct (f k); cbn; lia. Qed.

Lemma number_of_lane f x : lane x -> (forall z, 0 <= z < 64 -> Z.testbit x z = f z) -> Fips202.number_of f = x.
Proof.
  intros Hx H. apply lane_bits in Hx as [Hx0 Hx]. apply Z.bits_inj'. intros z Hz. unfold Fips202.number_of.
  rewrite number_from_bit by lia. cbn [Z.add]. destruct (Z.ltb_spec z (Z.of_nat 64)); cbn [andb].
  - symmetry. apply H. lia.
  - symmetry. apply Hx. lia.
Qed.
Lemma number_of_is_lane f : lane (Fips202.number_of f).
Proof.
  apply lane_bits. split; [apply number_from_nonneg|]. intros z Hz. unfold Fips202.number_of.
  rewrite number_from_bit by lia. by rewrite (proj2 (Z.ltb_ge z (Z.of_nat 64))) by lia.
Qed.

(** ** One round *)

Lemma rho_offsets : (fun i => Fips202.rho_offset (i mod 5)%nat (i / 5)%nat mod 64) <$> seq 0 25 =
  [0; 1; 62; 28; 27; 36; 44; 6; 55; 20; 3; 10; 43; 25; 39; 41; 45; 15; 21; 8; 18; 2; 61; 56; 14].
Proof. vm_compute. reflexivity. Qed.

Lemma forallb_below (g : nat -> nat -> bool) n m i j : forallb (fun i => forallb (g i) (seq 0 m)) (seq 0 n) = true ->
  (i < n)%nat -> (j < m)%nat -> g i j = true.
Proof.
  intros H Hi Hj. rewrite forallb_forall in H. specialize (H i ltac:(apply in_seq; lia)).
  rewrite forallb_forall in H. apply H, in_seq. lia.
Qed.
Definition RC_agrees (ir z : nat) : bool :=
  Bool.eqb (Z.testbit (nth ir mlk_KeccakF_RoundConstants 0) (Z.of_nat z)) (Fips202.RC ir (Z.of_nat z)).
Lemma RC_all : forallb (fun ir => forallb (RC_agrees ir) (seq 0 64)) (seq 0 24) = true.
Proof. vm_compute. reflexivity. Qed.
Lemma RC_bit_nat ir z : (ir < 24)%nat -> (z < 64)%nat ->
  Z.testbit (nth ir mlk_KeccakF_RoundConstants 0) (Z.of_nat z) = Fips202.RC ir (Z.of_nat z).
Proof. intros Hi Hz. exact (eqb_prop _ _ (forallb_below RC_agrees 24 64 ir z RC_all Hi Hz)). Qed.
Lemma RC_bit ir z : (ir < 24)%nat -> 0 <= z < 64 -> Z.testbit (nth ir mlk_KeccakF_RoundConstants 0) z = Fips202.RC ir z.
Proof. intros Hir Hz. rewrite <- (Z2Nat.id z) by lia. apply RC_bit_nat; lia. Qed.
Lemma RC_lane ir : lane (nth ir mlk_KeccakF_RoundConstants 0).
Proof.
  assert (Forall lane mlk_KeccakF_RoundConstants) as H by (repeat (constructor; [unfold lane; lia|]); constructor).
  destruct (nth_in_or_default ir mlk_KeccakF_RoundConstants 0) as [Hi|E]; [|rewrite E; unfold lane; lia].
  rewrite Forall_forall in H. exact (H _ Hi).
Qed.

(** Rotating by an offset and by the offset modulo 64 is the same. *)
Lemma rotate_mod z o : (z - o) mod 64 = (z - o mod 64) mod 64.
Proof. by rewrite Zminus_mod_idemp_r. Qed.

Definition rho_table : list Z := [0; 1; 62; 28; 27; 36; 44; 6; 55; 20; 3; 10; 43; 25; 39; 41; 45; 15; 21; 8; 18; 2; 61; 56; 14].
Definition rho_by_table (A : Fips202.state_array) : Fips202.state_array :=
  fun x y z => A x y ((z - nth (5 * y + x) rho_table 0) mod 64).
Lemma rho_table_ok A x y z : (x < 5)%nat -> (y < 5)%nat -> Fips202.rho A x y z = rho_by_table A x y z.
Proof.
  intros Hx Hy. unfold Fips202.rho, rho_by_table. rewrite rotate_mod. do 3 f_equal.
  pose proof (f_equal (fun l => nth (5 * y + x) l 0) rho_offsets) as E. fold rho_table in E. rewrite <- E.
  do 5 (destruct x as [|x]; [do 5 (destruct y as [|y]; [reflexivity|]); lia|]). lia.
Qed.

Lemma mod5_lt n : (n mod 5 < 5)%nat.
Proof. apply Nat.mod_upper_bound. lia. Qed.
Lemma Rnd_by_table ir A x y z : (x < 5)%nat -> (y < 5)%nat ->
  Fips202.Rnd ir A x y z = Fips202.iota ir (Fips202.chi (Fips202.pi (rho_by_table (Fips202.theta A)))) x y z.
Proof.
  intros Hx Hy. unfold Fips202.Rnd, Fips202.iota, Fips202.chi, Fips202.pi. by rewrite !rho_table_ok by (done || apply mod5_lt).
Qed.

Ltac in_lane := first [assumption | apply Z.mod_pos_bound; lia].
Ltac bits := repeat first [rewrite Z.lxor_spec | rewrite Z.land_spec | rewrite not64_bit by in_lane | rewrite ROL_bit by (solve [lanes] || lia || in_lane)].

Lemma round_ok ir s : (ir < 24)%nat -> length s = 25%nat -> Forall lane s ->
  keccak_round (nth ir mlk_KeccakF_RoundConstants 0) s = Fips202.lanes_of (Fips202.Rnd ir (Fips202.array_of s)).
Proof.
  intros Hir Hl HF. pose proof (RC_lane ir) as Hrc. pose proof (RC_bit ir) as Brc.
  set (rc := nth ir mlk_KeccakF_RoundConstants 0) in *. clearbody rc.
  do 25 (destruct s as [|? s]; [discriminate Hl|]). destruct s; [|discriminate Hl]. clear Hl.
  repeat match goal with H : Forall lane (_ :: _) |- _ => apply list.Forall_cons in H as [? H] end. clear HF.
  unfold keccak_round. cbv zeta. unfold Fips202.lanes_of. cbn [seq fmap list_fmap].
  repeat (apply f_equal2; [symmetry; apply number_of_lane; [lanes|]|]); [..|reflexivity].
  all: intros k Hk; rewrite Rnd_by_table by (apply Nat.ltb_lt; reflexivity).
  all: bits; rewrite ?Brc by done.
  all: cbv -[Z.testbit Z.modulo Z.sub xorb andb Fips202.RC].
  all: rewrite ?Z.sub_0_r, ?(Z.mod_small k 64) by done; reflexivity.
Qed.

(** ** The permutation *)

Definition state_ok (s : list Z) : Prop := length s = 25%nat /\ Forall lane s.

Lemma lanes_of_ok A : state_ok (Fips202.lanes_of A).
Proof.
  unfold Fips202.lanes_of. split; [by rewrite length_fmap, length_seq|].
  apply Forall_fmap, Forall_forall. intros i _. apply number_of_is_lane.
Qed.

Lemma rounds_ok l s : Forall (fun r => r + 1 < 24)%nat l -> state_ok s ->
  fold_left (fun A round =>
    let E := keccak_round (nth round mlk_KeccakF_RoundConstants 0) A in
    keccak_round (nth (round + 1) mlk_KeccakF_RoundConstants 0) E) l s =
  fold_left (fun s ir => Fips202.lanes_of (Fips202.Rnd ir (Fips202.array_of s))) (flat_map (fun r => [r; r + 1]%nat) l) s.
Proof.
  intros Hl. revert s. induction Hl as [|r l Hr _ IH]; intros s [Hs HF]; [done|].
  cbn [fold_left flat_map app]. cbv zeta.
  pose proof (lanes_of_ok (Fips202.Rnd r (Fips202.array_of s))) as [Hs1 HF1].
  rewrite (round_ok r s) by (done || lia). rewrite (round_ok (r + 1)) by (done || lia). apply IH, lanes_of_ok.
Qed.

Lemma permute_keccak_p s : state_ok s -> mlk_keccakf1600_permute s = Fips202.keccak_p s.
Proof.
  intros H. unfold mlk_keccakf1600_permute. rewrite rounds_ok; [|repeat constructor; lia|done]. reflexivity.
Qed.
Lemma keccak_p_ok s : state_ok (Fips202.keccak_p s).
Proof.
  unfold Fips202.keccak_p. change (seq 0 24) with (seq 0 23 ++ [23%nat]). rewrite fold_left_app. apply lanes_of_ok.
Qed.
