(* ===== verification/KeccakFacts.v ===== *)
(** * KeccakFacts: the hash functions are those of FIPS 202

    The octets of a state and the sponge: absorbing and squeezing in the code's order give
    the standard's output, for one state and for four. *)
From S2P Require Import Prelude Octets Keccak KeccakRounds.

(** ** The octets of a state *)

Lemma octets_in_length s : length (Fips202.octets_in s) = (8 * length s)%nat.
Proof. induction s as [|x s IH]; [done|]. unfold Fips202.octets_in in *. cbn [flat_map length]. rewrite length_app, IH, le_octets_length. lia. Qed.

Lemma octet_land x : x mod 256 = Z.land x 255.
Proof. change 255 with (Z.ones 8). by rewrite Z.land_ones by lia. Qed.

(** Octet k of the state, as the code addresses it. *)
Lemma octet_at_octets_in s k :
  octet_at (Fips202.octets_in s) k = Z.land (Z.shiftr (nth (k / 8) s 0) (8 * Z.of_nat (k mod 8))) 255.
Proof.
  revert k. induction s as [|x s IH]; intros k.
  - replace (nth (k / 8) [] 0) with 0 by (by destruct (k / 8)%nat). by rewrite Z.shiftr_0_l.
  - destruct (decide (k < 8)%nat) as [Hk|Hk].
    + rewrite Nat.div_small, Nat.mod_small by lia. unfold Fips202.octets_in. cbn [flat_map nth].
      rewrite octet_at_app_l by (rewrite le_octets_length; lia). unfold le_octets.
      rewrite octet_at_fmap_seq, octet_land, Z.shiftr_div_pow2 by lia. done.
    + replace k with (k - 8 + 1 * 8)%nat at 2 3 by lia. rewrite Nat.div_add, Nat.Div0.mod_add by lia.
      rewrite Nat.add_1_r. cbn [nth]. rewrite <- IH. unfold Fips202.octets_in. cbn [flat_map].
      rewrite octet_at_app_r by (rewrite le_octets_length; lia). by rewrite le_octets_length.
Qed.

Lemma land7 n : Z.land (Z.of_nat n) 7 = Z.of_nat (n mod 8).
Proof. change 7 with (Z.ones 3). rewrite Z.land_ones by lia. change (2 ^ 3) with 8. by rewrite Nat2Z.inj_mod. Qed.

Lemma extract_bytes_ok s o n : length s = 25%nat -> (o + n <= 200)%nat ->
  mlk_keccakf1600_extract_bytes s o n = take n (drop o (Fips202.octets_in s)).
Proof.
  intros Hs Ho. pose proof (octets_in_length s) as Hl. rewrite Hs in Hl.
  assert (length (mlk_keccakf1600_extract_bytes s o n) = n) as Hn
    by (unfold mlk_keccakf1600_extract_bytes; by rewrite length_fmap, length_seq).
  apply octets_ext; [rewrite Hn, length_take, length_drop; lia|]. rewrite Hn. intros k Hk.
  rewrite octet_at_take, octet_at_drop, octet_at_octets_in by done. unfold mlk_keccakf1600_extract_bytes.
  rewrite octet_at_fmap_seq by done. rewrite land7, octet_land, <- Z.land_assoc. done.
Qed.

Lemma lane_shiftl b j : 0 <= b < 256 -> (j < 8)%nat -> lane (Z.shiftl b (8 * Z.of_nat j)).
Proof.
  intros Hb Hj. unfold lane. rewrite Z.shiftl_mul_pow2 by lia. split; [nia|].
  apply (Z.lt_le_trans _ (2 ^ 8 * 2 ^ (8 * Z.of_nat j))); [nia|]. rewrite <- Z.pow_add_r by lia. apply Z.pow_le_mono_r; lia.
Qed.
Lemma mod8_lt k : (k mod 8 < 8)%nat.
Proof. apply Nat.mod_upper_bound. lia. Qed.

Lemma nth_lane s i : Forall lane s -> lane (nth i s 0).
Proof.
  intros H. destruct (nth_in_or_default i s 0) as [Hi|E]; [|rewrite E; unfold lane; lia].
  rewrite Forall_forall in H. exact (H _ Hi).
Qed.
Lemma state_insert s i x : state_ok s -> lane x -> state_ok (<[i := x]> s).
Proof. intros [Hl HF] Hx. split; [by rewrite length_insert|by apply Forall_insert]. Qed.

Lemma xor_byte_ok s k b : state_ok s -> 0 <= b < 256 -> state_ok (xor_byte s k b).
Proof.
  intros Hs Hb. apply state_insert; [done|]. apply lane_xor; [apply nth_lane, Hs|].
  rewrite land7. apply lane_shiftl; [done|apply mod8_lt].
Qed.

(** Octet [j'] of a lane, when octet [j] is changed. *)
Lemma octet_of_xor x b j j' : 0 <= b < 256 ->
  Z.land (Z.shiftr (Z.lxor x (Z.shiftl b (8 * Z.of_nat j))) (8 * Z.of_nat j')) 255 =
  Z.lxor (Z.land (Z.shiftr x (8 * Z.of_nat j')) 255) (if (j' =? j)%nat then b else 0).
Proof.
  intros Hb. assert (forall n, 8 <= n -> Z.testbit b n = false) as Bb.
  { intros n Hn. rewrite <- (Z.mod_small b (2 ^ 8)) by lia. apply Z.mod_pow2_bits_high. lia. }
  apply Z.bits_inj'. intros i Hi. change 255 with (Z.ones 8).
  rewrite Z.lxor_spec, !Z.land_spec, !Z.shiftr_spec, Z.lxor_spec, Z.shiftl_spec, Z.testbit_ones by lia.
  destruct (Nat.eqb_spec j' j) as [->|Hne].
  - replace (i + 8 * Z.of_nat j - 8 * Z.of_nat j) with i by lia. destruct (Z.ltb_spec i 8) as [Hi8|Hi8].
    + rewrite (proj2 (Z.leb_le 0 i)) by lia. cbn [andb]. by rewrite !andb_true_r.
    + rewrite andb_false_r, !andb_false_r, Bb by lia. done.
  - rewrite Z.bits_0, xorb_false_r. destruct (Z.ltb_spec i 8) as [Hi8|Hi8]; [|by rewrite andb_false_r, !andb_false_r].
    rewrite (proj2 (Z.leb_le 0 i)) by lia. cbn [andb]. rewrite !andb_true_r.
    destruct (decide (i + 8 * Z.of_nat j' - 8 * Z.of_nat j < 0)).
    + rewrite (Z.testbit_neg_r b) by lia. by rewrite xorb_false_r.
    + rewrite Bb by lia. by rewrite xorb_false_r.
Qed.

Lemma octet_at_xor_byte s k b j : (k < 8 * length s)%nat -> 0 <= b < 256 ->
  octet_at (Fips202.octets_in (xor_byte s k b)) j =
  Z.lxor (octet_at (Fips202.octets_in s) j) (if (j =? k)%nat then b else 0).
Proof.
  intros Hk Hb. rewrite !octet_at_octets_in. unfold xor_byte. rewrite land7.
  assert (k / 8 < length s)%nat as Hk8 by (apply Nat.Div0.div_lt_upper_bound; lia).
  destruct (decide (j / 8 = k / 8)%nat) as [E|E].
  - rewrite E, nth_lookup, list_lookup_insert_eq by done. cbn [from_option id].
    rewrite octet_of_xor by done. f_equal. pose proof (Nat.div_mod_eq j 8). pose proof (Nat.div_mod_eq k 8).
    destruct (Nat.eqb_spec (j mod 8) (k mod 8)), (Nat.eqb_spec j k); try done; exfalso; subst; lia.
  - rewrite !nth_lookup, list_lookup_insert_ne by done. destruct (Nat.eqb_spec j k) as [->|]; [done|]. by rewrite Z.lxor_0_r.
Qed.

Lemma xor_bytes_ok s data o n : state_ok s -> (o + n <= 200)%nat ->
  state_ok (mlk_keccakf1600_xor_bytes s data o n) /\
  forall k, octet_at (Fips202.octets_in (mlk_keccakf1600_xor_bytes s data o n)) k =
    Z.lxor (octet_at (Fips202.octets_in s) k)
      (if (o <=? k)%nat && (k <? o + n)%nat then octet_at data (k - o) else 0).
Proof.
  intros Hs Hn. unfold mlk_keccakf1600_xor_bytes. induction n as [|n IH].
  { split; [done|]. intros k. cbn [seq fold_left].
    destruct (Nat.leb_spec o k), (Nat.ltb_spec k (o + 0)); cbn [andb]; try lia; by rewrite Z.lxor_0_r. }
  rewrite seq_S, fold_left_app. cbn [fold_left]. destruct (IH ltac:(lia)) as [Hok IHk]. clear IH. rewrite Nat.add_0_l.
  pose proof (octet_at_range data n) as Hb. split; [by apply xor_byte_ok|]. intros k.
  rewrite octet_at_xor_byte, IHk by (done || (rewrite (proj1 Hok); lia)). rewrite Z.lxor_assoc. f_equal.
  destruct (Nat.leb_spec o k), (Nat.ltb_spec k (o + n)), (Nat.ltb_spec k (o + S n)), (Nat.eqb_spec k (o + n));
    cbn [andb]; try lia; rewrite ?Z.lxor_0_r, ?Z.lxor_0_l; try done.
  f_equal. lia.
Qed.

Lemma xor_one_byte s b o : state_ok s -> (o < 200)%nat -> 0 <= b < 256 ->
  state_ok (mlk_keccakf1600_xor_bytes s [byte_of_Z b] o 1) /\
  forall k, octet_at (Fips202.octets_in (mlk_keccakf1600_xor_bytes s [byte_of_Z b] o 1)) k =
    Z.lxor (octet_at (Fips202.octets_in s) k) (if (k =? o)%nat then b else 0).
Proof.
  intros Hs Ho Hb. destruct (xor_bytes_ok s [byte_of_Z b] o 1 Hs ltac:(lia)) as [Hok Hk]. split; [done|].
  intros k. rewrite Hk. f_equal. destruct (Nat.eqb_spec k o) as [->|].
  - rewrite Nat.leb_refl, (proj2 (Nat.ltb_lt _ _)), Nat.sub_diag by lia. cbn [andb].
    unfold octet_at. cbn [lookup list_lookup from_option id]. rewrite byte_to_of_Z. by apply Z.mod_small.
  - destruct (Nat.leb_spec o k), (Nat.ltb_spec k (o + 1)); cbn [andb]; try done. lia.
Qed.

(** ** Padding *)

Lemma lor_128_range p : 0 <= p < 128 -> 0 <= Z.lor p 128 < 256.
Proof.
  intros Hp. split; [apply Z.lor_nonneg; lia|]. change 256 with (2 ^ 8). apply Z.log2_lt_cancel. rewrite Z.log2_lor by lia.
  change (Z.log2 128) with 7. rewrite Z.log2_pow2 by lia. destruct (decide (p = 0)) as [->|]; [cbn; lia|].
  pose proof (Z.log2_lt_pow2 p 7 ltac:(lia)). lia.
Qed.

Section pad.
Variables (r : nat) (p : Z).
Hypotheses (Hr : (2 <= r <= 200)%nat) (Hp : 0 <= p < 128).

Lemma pad_length m : length (Fips202.pad p r m) = ((length m / r + 1) * r)%nat.
Proof.
  pose proof (Nat.div_mod_eq (length m) r). pose proof (Nat.mod_upper_bound (length m) r ltac:(lia)).
  unfold Fips202.pad. destruct (Nat.eqb_spec (r - length m mod r) 1).
  - rewrite length_app. cbn [length]. lia.
  - rewrite !length_app, length_replicate. cbn [length]. lia.
Qed.

Lemma pad_drop m : (r <= length m)%nat -> Fips202.pad p r m = take r m ++ Fips202.pad p r (drop r m).
Proof.
  intros H. unfold Fips202.pad. rewrite length_drop.
  replace (length m mod r)%nat with ((length m - r) mod r)%nat.
  2: { rewrite <- (Nat.Div0.mod_add (length m - r) 1 r). f_equal. lia. }
  destruct (_ =? 1)%nat; by rewrite (app_assoc (take r m)), take_drop.
Qed.

(** The last block of the message with the padding. *)
Lemma octet_at_pad m k : (length m < r)%nat -> (k < r)%nat ->
  octet_at (Fips202.pad p r m) k =
  if (k <? length m)%nat then octet_at m k
  else Z.lor (if (k =? length m)%nat then p else 0) (if (k =? r - 1)%nat then 128 else 0).
Proof.
  intros Hm Hk. unfold Fips202.pad. rewrite Nat.mod_small by done.
  pose proof (lor_128_range p Hp) as Hp'.
  destruct (Nat.eqb_spec (r - length m) 1).
  - destruct (Nat.ltb_spec k (length m)); [by rewrite octet_at_app_l|].
    rewrite octet_at_app_r by done. replace (k - length m)%nat with 0%nat by lia.
    rewrite (proj2 (Nat.eqb_eq _ _)), (proj2 (Nat.eqb_eq k (r - 1))) by lia.
    unfold octet_at. cbn [lookup list_lookup from_option id]. rewrite byte_to_of_Z. by apply Z.mod_small.
  - destruct (Nat.ltb_spec k (length m)); [by rewrite octet_at_app_l|].
    rewrite octet_at_app_r by done. destruct (Nat.eqb_spec k (length m)) as [->|].
    + rewrite Nat.sub_diag, (proj2 (Nat.eqb_neq _ _)), Z.lor_0_r by lia.
      unfold octet_at. cbn [app lookup list_lookup from_option id]. rewrite byte_to_of_Z. apply Z.mod_small. lia.
    + rewrite (octet_at_app_r [byte_of_Z p]) by (cbn [length]; lia). cbn [length]. rewrite Z.lor_0_l.
      destruct (Nat.eqb_spec k (r - 1)) as [->|].
      * rewrite octet_at_app_r by (rewrite length_replicate; lia). rewrite length_replicate.
        by replace (r - 1 - length m - 1 - (r - length m - 2))%nat with 0%nat by lia.
      * rewrite octet_at_app_l by (rewrite length_replicate; lia). apply octet_at_replicate_0.
Qed.
End pad.

(** ** The sponge *)

Lemma lanes_of_octets s : Forall lane s ->
  (fun i => le_val (take 8 (drop (8 * i) (Fips202.octets_in s)))) <$> seq 0 (length s) = s.
Proof.
  induction 1 as [|x s Hx _ IH]; [done|]. cbn [length seq fmap list_fmap]. rewrite <- fmap_S_seq, <- list_fmap_compose.
  unfold Fips202.octets_in in *. cbn [flat_map]. f_equal.
  - rewrite drop_0, take_app_length' by (by rewrite le_octets_length). rewrite le_octets_val. apply Z.mod_small, Hx.
  - etransitivity; [|exact IH]. apply list_fmap_ext. intros i j _. unfold compose. do 2 f_equal.
    replace (8 * S j)%nat with (8 + 8 * j)%nat by lia. rewrite <- drop_drop.
    by rewrite drop_app_length' by (by rewrite le_octets_length).
Qed.
Lemma lanes_in_octets_in s : state_ok s -> Fips202.lanes_in (Fips202.octets_in s) = s.
Proof. intros [Hl HF]. unfold Fips202.lanes_in. rewrite <- Hl. by apply lanes_of_octets. Qed.

Lemma f_octets s : state_ok s -> Fips202.f (Fips202.octets_in s) = Fips202.octets_in (mlk_keccakf1600_permute s).
Proof. intros H. unfold Fips202.f. by rewrite lanes_in_octets_in, permute_keccak_p. Qed.
Lemma permute_ok s : state_ok s -> state_ok (mlk_keccakf1600_permute s).
Proof. intros H. rewrite permute_keccak_p by done. apply keccak_p_ok. Qed.
Lemma octets_in_200 s : state_ok s -> length (Fips202.octets_in s) = 200%nat.
Proof. intros [H _]. by rewrite octets_in_length, H. Qed.

Lemma octet_at_xor_octets S P k : length S = length P ->
  octet_at (Fips202.xor_octets S P) k = Z.lxor (octet_at S k) (octet_at P k).
Proof.
  intros Hl. unfold octet_at, Fips202.xor_octets. rewrite lookup_zip_with.
  destruct (S !! k) as [b|] eqn:ES.
  - destruct (lookup_lt_is_Some_2 P k) as [c EP]; [rewrite <- Hl; by apply (lookup_lt_Some _ _ _ ES)|]. rewrite EP.
    cbn -[byte_of_Z byte_to_Z]. rewrite byte_to_of_Z. apply Z.mod_small.
    pose proof (byte_to_Z_range b) as Hb. pose proof (byte_to_Z_range c) as Hc. split; [apply Z.lxor_nonneg; lia|].
    change 256 with (2 ^ 8). pose proof (fun x => Z.log2_lt_pow2 x 8) as L. apply (Z.log2_lt_cancel _ (2 ^ 8)).
    eapply Z.le_lt_trans; [apply Z.log2_lxor; lia|]. rewrite Z.log2_pow2 by lia.
    assert (forall x, 0 <= x < 256 -> Z.log2 x < 8) as Hlog.
    { intros x Hx. destruct (decide (x = 0)) as [->|]; [done|]. apply L; lia. }
    apply Z.max_lub_lt; by apply Hlog.
  - by rewrite (lookup_ge_None_2 P k) by (rewrite <- Hl; by apply lookup_ge_None).
Qed.
Lemma xor_octets_length S P : length S = length P -> length (Fips202.xor_octets S P) = length S.
Proof. intros H. unfold Fips202.xor_octets. rewrite length_zip_with. lia. Qed.

Section sponge.
Variables (r : nat) (p : Z).
Hypotheses (Hr : (2 <= r <= 200)%nat) (Hp : 0 <= p < 128).

Definition block (P : bytes) : bytes := take r P ++ replicate (200 - r) x00.
Lemma block_length P : (r <= length P)%nat -> length (block P) = 200%nat.
Proof using Hr. intros H. unfold block. rewrite length_app, length_take, length_replicate. lia. Qed.
Lemma octet_at_block P k : (r <= length P)%nat -> octet_at (block P) k = if (k <? r)%nat then octet_at P k else 0.
Proof.
  intros H. unfold block. destruct (Nat.ltb_spec k r).
  - rewrite octet_at_app_l by (rewrite length_take; lia). by apply octet_at_take.
  - rewrite octet_at_app_r by (rewrite length_take; lia). apply octet_at_replicate_0.
Qed.

Lemma xor_block s m : state_ok s -> (r <= length m)%nat ->
  Fips202.xor_octets (Fips202.octets_in s) (block m) = Fips202.octets_in (mlk_keccakf1600_xor_bytes s m 0 r).
Proof using Hr.
  intros Hs Hm. destruct (xor_bytes_ok s m 0 r Hs ltac:(lia)) as [Hs' Hk].
  assert (length (Fips202.octets_in s) = length (block m)) as Hl by by rewrite octets_in_200, block_length.
  apply octets_ext; [by rewrite xor_octets_length, !octets_in_200|]. intros k _.
  rewrite octet_at_xor_octets, Hk, octet_at_block by done. cbn [Nat.leb andb Nat.add]. by rewrite Nat.sub_0_r.
Qed.

Lemma absorb_rest_ok s m : state_ok s -> (length m < r)%nat -> state_ok (absorb_rest s r m p) /\
  Fips202.xor_octets (Fips202.octets_in s) (block (Fips202.pad p r m)) = Fips202.octets_in (absorb_rest s r m p).
Proof using Hr Hp.
  intros Hs Hm. assert (r <= length (Fips202.pad p r m))%nat as HP by (rewrite (pad_length r p Hr); lia).
  assert (length (Fips202.octets_in s) = length (block (Fips202.pad p r m))) as Hl by by rewrite octets_in_200, block_length.
  assert (state_ok (absorb_rest s r m p) /\
    forall k, octet_at (Fips202.octets_in (absorb_rest s r m p)) k =
      Z.lxor (octet_at (Fips202.octets_in s) k) (if (k <? r)%nat then octet_at (Fips202.pad p r m) k else 0)) as [Hok Hk].
  2: { split; [done|]. apply octets_ext; [by rewrite xor_octets_length, !octets_in_200|]. intros k _.
    by rewrite octet_at_xor_octets, Hk, octet_at_block. }
  unfold absorb_rest. cbv zeta.
  set (s1 := if (0 <? length m)%nat then _ else s).
  assert (state_ok s1 /\ forall k, octet_at (Fips202.octets_in s1) k =
    Z.lxor (octet_at (Fips202.octets_in s) k) (if (k <? length m)%nat then octet_at m k else 0)) as [Hs1 Hk1].
  { destruct (xor_bytes_ok s m 0 (length m) Hs ltac:(lia)) as [Hs' Hk]. subst s1. destruct (Nat.ltb_spec 0 (length m)).
    - split; [done|]. intros k. rewrite Hk, Nat.sub_0_r. done.
    - split; [done|]. intros k. by rewrite (proj2 (Nat.ltb_ge k (length m))), Z.lxor_0_r by lia. }
  clearbody s1.
  destruct (Nat.eqb_spec (length m) (r - 1)) as [E|E].
  - destruct (xor_one_byte s1 (Z.lor p 128) (length m) Hs1 ltac:(lia) (lor_128_range p Hp)) as [Hok Hk].
    split; [done|]. intros k. rewrite Hk, Hk1, Z.lxor_assoc. f_equal.
    destruct (Nat.ltb_spec k r) as [Hkr|Hkr]; [rewrite (octet_at_pad r p Hr Hp) by done|].
    + rewrite <- E. destruct (Nat.ltb_spec k (length m)); [|by rewrite Z.lxor_0_l; destruct (k =? length m)%nat].
      rewrite (proj2 (Nat.eqb_neq _ _)) by lia. apply Z.lxor_0_r.
    + by rewrite (proj2 (Nat.ltb_ge _ _)), (proj2 (Nat.eqb_neq _ _)) by lia.
  - destruct (xor_one_byte s1 p (length m) Hs1 ltac:(lia) ltac:(lia)) as [Hs2 Hk2].
    destruct (xor_one_byte _ 128 (r - 1) Hs2 ltac:(lia) ltac:(lia)) as [Hok Hk].
    split; [done|]. intros k. rewrite Hk, Hk2, Hk1, !Z.lxor_assoc. f_equal.
    destruct (Nat.ltb_spec k r) as [Hkr|Hkr]; [rewrite (octet_at_pad r p Hr Hp) by done|].
    + destruct (Nat.ltb_spec k (length m)), (Nat.eqb_spec k (length m)), (Nat.eqb_spec k (r - 1)); try lia;
        by rewrite ?Z.lxor_0_l, ?Z.lxor_0_r, ?Z.lor_0_l, ?Z.lor_0_r.
    + by rewrite (proj2 (Nat.ltb_ge _ _)), !(proj2 (Nat.eqb_neq k _)) by lia.
Qed.

(** Absorbing. *)
Lemma absorb_blocks_ok fuel s m : state_ok s -> (length m <= fuel)%nat ->
  exists s' m', absorb_blocks fuel s r m = Some (s', m') /\ state_ok (absorb_rest s' r m' p) /\
    Fips202.absorb (length (Fips202.pad p r m) / r) r (Fips202.octets_in s) (Fips202.pad p r m) =
    Fips202.f (Fips202.octets_in (absorb_rest s' r m' p)).
Proof using Hr Hp.
  revert s m. induction fuel as [|fuel IH]; intros s m Hs Hm; cbn [absorb_blocks]; destruct (Nat.leb_spec r (length m)) as [Hlt|Hlt]; try lia.
  1, 3: exists s, m; destruct (absorb_rest_ok s m Hs Hlt) as [Hok E]; split_and!; [done..|];
    rewrite (pad_length r p Hr), Nat.div_mul, Nat.div_small by lia; cbn [Nat.add Fips202.absorb]; by rewrite <- E.
  cbv zeta. set (s1 := mlk_keccakf1600_permute _).
  pose proof (xor_bytes_ok s m 0 r Hs ltac:(lia)) as [Hx _].
  destruct (IH s1 (drop r m)) as (s' & m' & E1 & Hok & E2); [by apply permute_ok|rewrite length_drop; lia|].
  exists s', m'. split_and!; [done..|]. rewrite <- E2.
  pose proof (pad_drop r p Hr m Hlt) as Epad.
  rewrite !(pad_length r p Hr), !Nat.div_mul by lia. rewrite length_drop.
  replace (length m / r + 1)%nat with (S ((length m - r) / r + 1)).
  2: { replace (length m) with (length m - r + 1 * r)%nat at 2 by lia. rewrite Nat.div_add by lia. lia. }
  cbn [Fips202.absorb]. refine (f_equal2 (Fips202.absorb _ r) _ _).
  - subst s1. rewrite <- f_octets by done. apply (f_equal Fips202.f). rewrite <- xor_block by done. apply (f_equal (Fips202.xor_octets _)).
    unfold block. apply (f_equal (fun t => t ++ _)). rewrite Epad. apply take_app_length'. rewrite length_take. lia.
  - rewrite Epad. apply drop_app_length'. rewrite length_take. lia.
Qed.

Lemma absorb_ok m : exists s, mlk_keccak_absorb_once r m p = Some s /\ state_ok s /\
  Fips202.absorb (length (Fips202.pad p r m) / r) r (replicate 200 x00) (Fips202.pad p r m) = Fips202.f (Fips202.octets_in s).
Proof using Hr Hp.
  assert (state_ok (replicate MLK_KECCAK_LANES 0)) as H0.
  { split; [done|]. apply list.Forall_replicate. unfold lane. lia. }
  destruct (absorb_blocks_ok (length m) (replicate MLK_KECCAK_LANES 0) m H0 ltac:(lia)) as (s' & m' & E1 & Hok & E2).
  exists (absorb_rest s' r m' p). split_and!; [|done|exact E2]. unfold mlk_keccak_absorb_once. by rewrite E1.
Qed.

(** Squeezing. *)
Lemma squeezeblocks_ok n s : state_ok s ->
  fst (mlk_keccak_squeezeblocks n s r) = Fips202.squeeze n r (Fips202.f (Fips202.octets_in s)) /\
  state_ok (snd (mlk_keccak_squeezeblocks n s r)).
Proof using Hr.
  revert s. induction n as [|n IH]; intros s Hs; cbn [mlk_keccak_squeezeblocks Fips202.squeeze]; [done|].
  pose proof (permute_ok s Hs) as Hs1. destruct (IH _ Hs1) as [E Hok].
  destruct (mlk_keccak_squeezeblocks n _ r) as [rest s']. cbn [fst snd] in *.
  split; [|done]. rewrite (f_octets s Hs), <- E, extract_bytes_ok by (apply Hs1 || lia). by rewrite drop_0.
Qed.

Lemma squeeze_length n S : length S = 200%nat -> length (Fips202.squeeze n r S) = (n * r)%nat.
Proof using Hr.
  revert S. induction n as [|n IH]; intros S HS; cbn [Fips202.squeeze]; [done|].
  rewrite length_app, length_take, IH; [lia|]. unfold Fips202.f. rewrite octets_in_200; [done|apply keccak_p_ok].
Qed.

Lemma squeeze_loop_ok fuel outlen s n : state_ok s -> (outlen <= fuel)%nat -> (outlen <= n * r)%nat ->
  squeeze_loop fuel outlen s r = Some (take outlen (Fips202.squeeze n r (Fips202.f (Fips202.octets_in s)))).
Proof using Hr.
  revert outlen s n. induction fuel as [|fuel IH]; intros outlen s n Hs Hf Hn; cbn [squeeze_loop].
  { by replace outlen with 0%nat by lia. }
  destruct (Nat.eqb_spec outlen 0) as [->|H0]; [done|]. destruct n as [|n]; [lia|]. cbv zeta.
  pose proof (permute_ok s Hs) as Hs1. pose proof (octets_in_200 _ Hs1) as Hl.
  cbn [Fips202.squeeze]. rewrite (f_octets s Hs).
  rewrite (IH _ _ n) by (done || (destruct (Nat.ltb_spec outlen r); lia)). cbn [fmap option_fmap option_map]. f_equal.
  rewrite extract_bytes_ok by (apply Hs1 || (destruct (Nat.ltb_spec outlen r); lia)). rewrite drop_0.
  destruct (Nat.ltb_spec outlen r).
  - rewrite take_app_le by (rewrite length_take; lia). rewrite take_take, Nat.sub_diag, app_nil_r. f_equal. lia.
  - rewrite take_app_ge by (rewrite length_take; lia). f_equal. rewrite length_take. f_equal. lia.
Qed.

Lemma sponge_ok m d : (s ← mlk_keccak_absorb_once r m p; mlk_keccak_squeeze_once d s r) = Some (Fips202.sponge r p m d).
Proof using Hr Hp.
  destruct (absorb_ok m) as (s & -> & Hs & E). cbn [mbind option_bind]. unfold mlk_keccak_squeeze_once, Fips202.sponge.
  rewrite E. apply squeeze_loop_ok; [done..|]. pose proof (Nat.div_mod_eq d r). pose proof (Nat.mod_upper_bound d r ltac:(lia)). lia.
Qed.

Lemma sponge_length m d : length (Fips202.sponge r p m d) = d.
Proof using Hr Hp.
  destruct (absorb_ok m) as (s & _ & Hs & E). unfold Fips202.sponge. rewrite E, length_take, squeeze_length;
    [|rewrite (f_octets s Hs); by apply octets_in_200, permute_ok].
  pose proof (Nat.div_mod_eq d r). pose proof (Nat.mod_upper_bound d r ltac:(lia)). lia.
Qed.
Lemma squeeze_prefix n k S : length S = 200%nat -> take (n * r) (Fips202.squeeze (n + k) r S) = Fips202.squeeze n r S.
Proof using Hr.
  revert S. induction n as [|n IH]; intros S HS; [done|]. cbn [Nat.add Nat.mul Fips202.squeeze].
  rewrite take_app_ge by (rewrite length_take; lia). f_equal. rewrite length_take.
  replace (r + n * r - r `min` length S)%nat with (n * r)%nat by lia. apply IH.
  unfold Fips202.f. apply octets_in_200, keccak_p_ok.
Qed.

Lemma sponge_prefix m d : take d (Fips202.sponge r p m ((d / r + 1) * r)) = Fips202.sponge r p m d.
Proof using Hr Hp.
  destruct (absorb_ok m) as (s & _ & Hs & E). unfold Fips202.sponge. rewrite E, Nat.div_mul by lia. f_equal.
  apply squeeze_prefix. rewrite (f_octets s Hs). by apply octets_in_200, permute_ok.
Qed.

(** The stream of blocks after absorbing is the output of the sponge. *)
Lemma stream_ok m s n : mlk_keccak_absorb_once r m p = Some s ->
  fst (mlk_keccak_squeezeblocks n s r) = Fips202.sponge r p m (n * r).
Proof using Hr Hp.
  intros E. destruct (absorb_ok m) as (s' & E' & Hs & EA). assert (s' = s) as -> by congruence.
  destruct (squeezeblocks_ok n s Hs) as [-> _]. unfold Fips202.sponge. rewrite EA, Nat.div_mul by lia.
  symmetry. apply squeeze_prefix. rewrite (f_octets s Hs). by apply octets_in_200, permute_ok.
Qed.
End sponge.

(** Squeezing goes on where it stopped. *)
Lemma squeezeblocks_app a b s r :
  mlk_keccak_squeezeblocks (a + b) s r =
  let '(h, s) := mlk_keccak_squeezeblocks a s r in
  let '(h', s) := mlk_keccak_squeezeblocks b s r in (h ++ h', s).
Proof.
  revert s. induction a as [|a IH]; intros s; cbn [Nat.add mlk_keccak_squeezeblocks].
  - by destruct (mlk_keccak_squeezeblocks b s r).
  - cbv zeta. rewrite IH. destruct (mlk_keccak_squeezeblocks a _ r) as [h s1], (mlk_keccak_squeezeblocks b s1 r). by rewrite app_assoc.
Qed.

(** ** Four states at once *)

Lemma absorb_blocks_x4_ok fuel r inlen s1 s2 s3 s4 a b c d :
  (1 <= r)%nat -> length a = inlen -> length b = inlen -> length c = inlen -> length d = inlen -> (inlen <= fuel)%nat ->
  exists s1' s2' s3' s4' a' b' c' d' n,
    absorb_blocks_x4 fuel [s1; s2; s3; s4] r [a; b; c; d] inlen = Some ([s1'; s2'; s3'; s4'], [a'; b'; c'; d'], n) /\
    absorb_blocks fuel s1 r a = Some (s1', a') /\ absorb_blocks fuel s2 r b = Some (s2', b') /\
    absorb_blocks fuel s3 r c = Some (s3', c') /\ absorb_blocks fuel s4 r d = Some (s4', d') /\
    length a' = n /\ length b' = n /\ length c' = n /\ length d' = n.
Proof.
  intros Hr. revert inlen s1 s2 s3 s4 a b c d.
  induction fuel as [|fuel IH]; intros inlen s1 s2 s3 s4 a b c d Ha Hb Hc Hd Hf;
    cbn [absorb_blocks_x4 absorb_blocks]; rewrite Ha, Hb, Hc, Hd; destruct (Nat.leb_spec r inlen); [lia|naive_solver| |naive_solver].
  apply (IH (inlen - r)%nat); rewrite ?length_drop; lia.
Qed.

Lemma absorb_once_x4_ok r p ins inlen : (1 <= r)%nat -> length ins = 4%nat -> Forall (fun m => length m = inlen) ins ->
  mlk_keccak_absorb_once_x4 (replicate 4 (replicate MLK_KECCAK_LANES 0)) r ins inlen p =
  mapM (fun m => mlk_keccak_absorb_once r m p) ins.
Proof.
  intros Hr Hl HF. destruct ins as [|a [|b [|c [|d [|]]]]]; try discriminate Hl. clear Hl.
  apply list.Forall_cons in HF as [Ha HF]. apply list.Forall_cons in HF as [Hb HF].
  apply list.Forall_cons in HF as [Hc HF]. apply list.Forall_cons in HF as [Hd _].
  unfold mlk_keccak_absorb_once_x4, mlk_keccak_absorb_once. cbn [mapM].
  set (z := replicate MLK_KECCAK_LANES 0). change (replicate 4 z) with [z; z; z; z].
  destruct (absorb_blocks_x4_ok inlen r inlen z z z z a b c d) as (s1 & s2 & s3 & s4 & a' & b' & c' & d' & n & E & E1 & E2 & E3 & E4 & Ha' & Hb' & Hc' & Hd'); [done..|].
  rewrite E, Ha, Hb, Hc, Hd, E1, E2, E3, E4. cbn [mbind option_bind mret option_ret]. f_equal.
  unfold absorb_rest_x4, absorb_rest. cbv zeta. rewrite Ha', Hb', Hc', Hd'.
  by destruct (0 <? n)%nat, (n =? r - 1)%nat.
Qed.

Lemma squeezeblocks_x4_ok n r ss : length ss = 4%nat ->
  mlk_keccak_squeezeblocks_x4 n ss r =
  ((fun s => fst (mlk_keccak_squeezeblocks n s r)) <$> ss, (fun s => snd (mlk_keccak_squeezeblocks n s r)) <$> ss).
Proof.
  revert ss. induction n as [|n IH]; intros ss Hl; cbn [mlk_keccak_squeezeblocks_x4 mlk_keccak_squeezeblocks].
  - destruct ss as [|a [|b [|c [|d [|]]]]]; try discriminate Hl. done.
  - unfold mlk_keccakf1600x4_permute. cbv zeta. rewrite IH by by rewrite length_fmap.
    destruct ss as [|a [|b [|c [|d [|]]]]]; try discriminate Hl.
    unfold mlk_keccakf1600x4_extract_bytes. cbn [fmap list_fmap zip_with].
    do 4 (destruct (mlk_keccak_squeezeblocks n _ r)). done.
Qed.

(** The whole blocks, and what is left of the output from one more. *)
Lemma blocks_and_rest r p m s d : (2 <= r <= 200)%nat -> 0 <= p < 128 -> mlk_keccak_absorb_once r m p = Some s ->
  let n := (d / r)%nat in
  fst (mlk_keccak_squeezeblocks n s r) ++ take (d - n * r) (fst (mlk_keccak_squeezeblocks 1 (snd (mlk_keccak_squeezeblocks n s r)) r)) =
  Fips202.sponge r p m d.
Proof.
  intros Hr Hp E. cbv zeta. set (n := (d / r)%nat). pose proof (squeezeblocks_app n 1 s r) as EA.
  pose proof (stream_ok r p Hr Hp m s (n + 1) E) as ES. rewrite EA in ES. pose proof (stream_ok r p Hr Hp m s n E) as EN.
  destruct (mlk_keccak_squeezeblocks n s r) as [out s']. cbn [snd]. destruct (mlk_keccak_squeezeblocks 1 s' r) as [tmp s'']. cbn [fst] in *.
  rewrite <- (sponge_prefix r p Hr Hp m d). fold n. rewrite <- ES, take_app, EN, sponge_length by done. f_equal. symmetry. apply take_ge.
  rewrite sponge_length by done. subst n. rewrite Nat.mul_comm. by apply Nat.Div0.mul_div_le.
Qed.
Lemma shake256x4_ok ins inlen d : length ins = 4%nat -> Forall (fun m => length m = inlen) ins ->
  mlk_shake256x4 d ins inlen = Some ((fun m => Fips202.shake256 m d) <$> ins).
Proof.
  intros Hl HF. unfold mlk_shake256x4, mlk_shake256x4_absorb_once. rewrite absorb_once_x4_ok; [|unfold SHAKE256_RATE; lia|done|done].
  destruct ins as [|a [|b [|c [|e [|]]]]]; try discriminate Hl. unfold Fips202.shake256.
  assert (forall m, exists s, mlk_keccak_absorb_once SHAKE256_RATE m 0x1F = Some s) as HA.
  { intros m. destruct (absorb_ok SHAKE256_RATE 0x1F ltac:(unfold SHAKE256_RATE; lia) ltac:(lia) m) as (s & E & _). by exists s. }
  destruct (HA a) as [s1 E1], (HA b) as [s2 E2], (HA c) as [s3 E3], (HA e) as [s4 E4]. cbn [mapM]. rewrite E1, E2, E3, E4. cbn [mbind option_bind mret option_ret].
  apply (blocks_and_rest _ _ _ _ d) in E1, E2, E3, E4; try (unfold SHAKE256_RATE; lia). cbv zeta in E1, E2, E3, E4.
  unfold mlk_shake256x4_squeezeblocks. change (Fips202.sponge 136) with (Fips202.sponge SHAKE256_RATE). cbn [fmap list_fmap].
  rewrite <- E1, <- E2, <- E3, <- E4. clear. generalize (d / SHAKE256_RATE)%nat. intros n. rewrite squeezeblocks_x4_ok by done. cbn [fmap list_fmap].
  destruct (Nat.eqb_spec (d - n * SHAKE256_RATE) 0) as [E0|E0]; cbn [negb].
  - rewrite E0. cbn [take]. by rewrite !app_nil_r.
  - by rewrite squeezeblocks_x4_ok.
Qed.

(** ** The functions *)

(** C26: The hash functions that ML-KEM calls end and return what FIPS 202 defines, on every input: SHA3-256, SHA3-512, SHAKE256 of any length, SHAKE128 as any number of blocks, and SHAKE256 of four messages at once. *)
Theorem hashes_are_fips202 m :
  mlk_sha3_256 m = Some (Fips202.sha3_256 m) /\
  mlk_sha3_512 m = Some (Fips202.sha3_512 m) /\
  (forall d, mlk_shake256 d m = Some (Fips202.shake256 m d)) /\
  (exists s, mlk_shake128_absorb_once m = Some s /\
    forall n, fst (mlk_shake128_squeezeblocks n s) = Fips202.shake128 m (n * SHAKE128_RATE)) /\
  forall a b c d, length a = length m -> length b = length m -> length c = length m ->
    mlk_shake256x4 d [a; b; c; m] (length m) = Some [Fips202.shake256 a d; Fips202.shake256 b d; Fips202.shake256 c d; Fips202.shake256 m d].
Proof.
  unfold mlk_sha3_256, mlk_sha3_512, mlk_shake256, SHA3_256_RATE, SHA3_512_RATE, SHAKE256_RATE.
  split_and!; [apply sponge_ok; lia..|intros d; apply sponge_ok; lia| |intros a b c d Ha Hb Hc; apply shake256x4_ok; [done|by repeat constructor]].
  destruct (absorb_ok SHAKE128_RATE 0x1F ltac:(unfold SHAKE128_RATE; lia) ltac:(lia) m) as (s & E & _). exists s. split; [exact E|].
  intros n. apply (stream_ok SHAKE128_RATE 0x1F); [unfold SHAKE128_RATE; lia|lia|exact E].
Qed.

(** The empty message, against the value NIST publishes. *)
Example sha3_256_empty : (byte_to_Z <$> default [] (mlk_sha3_256 [])) =
  [0xa7; 0xff; 0xc6; 0xf8; 0xbf; 0x1e; 0xd7; 0x66; 0x51; 0xc1; 0x47; 0x56; 0xa0; 0x61; 0xd6; 0x62;
   0xf5; 0x80; 0xff; 0x4d; 0xe4; 0x3b; 0x49; 0xfa; 0x82; 0xd8; 0x0a; 0x4b; 0x80; 0xf8; 0x43; 0x4a].
Proof. vm_compute. reflexivity. Qed.
