(* ===== verification/MlkPoly.v ===== *)
(** * MlkPoly: polynomials of ML-KEM ([verify.h], [poly.h], [poly.c], [poly_k.c])

    The build is ML-KEM-768 ([MLKEM_K = 3]) in portable C.  A polynomial is the list of its
    256 coefficients, each an [int16_t] as [Z]; a cast to [int16_t] wraps ([s16]), and an
    [int32_t] result outside of its type is [None].  [mlk_assert] does nothing. *)
From S2P Require Import Prelude Octets CInt.

(** ** [params.h] *)

Definition MLKEM_K : nat := 3.
Definition MLKEM_N : nat := 256.
Definition MLKEM_Q : Z := 3329.
Definition MLKEM_Q_HALF : Z := (MLKEM_Q + 1) / 2.
Definition MLKEM_UINT12_LIMIT : Z := 4096.
Definition MLKEM_SYMBYTES : nat := 32.

(** ** [verify.h] *)

(** [(int16_t) z] *)
Definition s16 (z : Z) : Z := (z + 2 ^ 15) mod 2 ^ 16 - 2 ^ 15.

(** The assembly changes nothing. *)
Definition mlk_value_barrier_i32 (b : Z) : Z := b.
Definition mlk_value_barrier_u8 (b : Z) : Z := b.

Definition mlk_cast_uint16_to_int16 (x : Z) : Z := s16 x.
Definition mlk_cast_int32_to_uint16 (x : Z) : Z := u16 (Z.land x 0xFFFF).
Definition mlk_cast_int16_to_uint16 (x : Z) : Z := mlk_cast_int32_to_uint16 x.

Definition mlk_ct_cmask_neg_i16 (x : Z) : Z :=
  let tmp := mlk_value_barrier_i32 x in
  let tmp := Z.shiftr tmp 16 in
  mlk_cast_int32_to_uint16 tmp.
Definition mlk_ct_cmask_nonzero_u16 (x : Z) : Z :=
  let tmp := mlk_value_barrier_i32 (- x) in
  let tmp := Z.shiftr tmp 16 in
  mlk_cast_int32_to_uint16 tmp.
Definition mlk_ct_cmask_nonzero_u8 (x : Z) : Z :=
  let mask := mlk_ct_cmask_nonzero_u16 x in
  u8 (Z.land mask 0xFF).

Definition mlk_ct_sel_int16 (a b cond : Z) : Z :=
  let au := mlk_cast_int16_to_uint16 a in
  let bu := mlk_cast_int16_to_uint16 b in
  let res := Z.lxor bu (Z.land (mlk_ct_cmask_nonzero_u16 cond) (Z.lxor au bu)) in
  mlk_cast_uint16_to_int16 res.
Definition mlk_ct_sel_uint8 (a b cond : Z) : Z := Z.lxor b (Z.land (mlk_ct_cmask_nonzero_u8 cond) (Z.lxor a b)).

Definition mlk_ct_memcmp (a b : bytes) (len : nat) : Z :=
  let '(r, s) := fold_left (fun '(r, s) i =>
      (Z.lor r (Z.lxor (octet_at a i) (octet_at b i)), Z.lxor s (Z.lxor (octet_at a i) (octet_at b i))))
    (seq 0 len) (0, 0) in
  Z.lxor (mlk_value_barrier_u8 (Z.lxor (mlk_ct_cmask_nonzero_u8 r) s)) s.

Definition mlk_ct_cmov_zero (r x : bytes) (len : nat) (b : Z) : bytes :=
  fold_left (fun r i => <[i := byte_of_Z (mlk_ct_sel_uint8 (octet_at r i) (octet_at x i) b)]> r) (seq 0 len) r.

(** ** [poly.h] *)

Definition mlk_poly : Type := list Z.
Definition mlk_poly_mulcache : Type := list Z.
(** [r[i]] *)
Definition coef (r : list Z) (i : nat) : Z := nth i r 0.

Definition mlk_montgomery_reduce (a : Z) : option Z :=
  let QINV := 62209 in
  let a_reduced := mlk_cast_int32_to_uint16 a in
  let a_inverted := Z.land (u32 (a_reduced * QINV)) 0xFFFF in
  let t := mlk_cast_uint16_to_int16 a_inverted in
  t_q ← signed 32 (t * MLKEM_Q);
  r ← signed 32 (a - t_q);
  let r := Z.shiftr r 16 in
  Some (s16 r).

(** ** [poly.c] *)

Definition mlk_fqmul (a b : Z) : option Z :=
  ab ← signed 32 (a * b);
  mlk_montgomery_reduce ab.

Definition mlk_barrett_reduce (a : Z) : option Z :=
  let magic := 20159 in
  p ← signed 32 (magic * a);
  p ← signed 32 (p + Z.shiftl 1 25);
  let t := Z.shiftr p 26 in
  t_q ← signed 32 (t * MLKEM_Q);
  r ← signed 32 (a - t_q);
  Some (s16 r).

Definition mlk_poly_tomont (r : mlk_poly) : option mlk_poly :=
  let f := 1353 in
  mapM (fun c => mlk_fqmul c f) r.

Definition mlk_scalar_signed_to_unsigned_q (c : Z) : Z :=
  mlk_ct_sel_int16 (s16 (c + MLKEM_Q)) c (mlk_ct_cmask_neg_i16 c).

Definition mlk_poly_reduce (r : mlk_poly) : option mlk_poly :=
  mapM (fun c =>
    t ← mlk_barrett_reduce c;
    Some (mlk_scalar_signed_to_unsigned_q t)) r.

Definition mlk_poly_add (r b : mlk_poly) : mlk_poly := zip_with (fun r b => s16 (r + b)) r b.
Definition mlk_poly_sub (r b : mlk_poly) : mlk_poly := zip_with (fun r b => s16 (r - b)) r b.

(** [zetas.inc] *)
Definition mlk_zetas : list Z :=
  [(-1044); (-758); (-359); (-1517); 1493; 1422; 287; 202; (-171); 622; 1577;
   182; 962; (-1202); (-1474); 1468; 573; (-1325); 264; 383; (-829); 1458;
   (-1602); (-130); (-681); 1017; 732; 608; (-1542); 411; (-205); (-1571); 1223;
   652; (-552); 1015; (-1293); 1491; (-282); (-1544); 516; (-8); (-320); (-666);
   (-1618); (-1162); 126; 1469; (-853); (-90); (-271); 830; 107; (-1421); (-247);
   (-951); (-398); 961; (-1508); (-725); 448; (-1065); 677; (-1275); (-1103); 430;
   555; 843; (-1251); 871; 1550; 105; 422; 587; 177; (-235); (-291);
   (-460); 1574; 1653; (-246); 778; 1159; (-147); (-777); 1483; (-602); 1119;
   (-1590); 644; (-872); 349; 418; 329; (-156); (-75); 817; 1097; 603;
   610; 1322; (-1285); (-1465); 384; (-1215); (-136); 1218; (-1335); (-874); 220;
   (-1187); (-1659); (-1185); (-1530); (-1278); 794; (-1510); (-854); (-870); 478; (-108);
   (-308); 996; 991; 958; (-1460); 1522; 1628].
Definition zeta (k : nat) : Z := nth k mlk_zetas 0.

Definition mlk_poly_mulcache_compute (a : mlk_poly) : option mlk_poly_mulcache :=
  @concat Z <$> mapM (fun i =>
    x0 ← mlk_fqmul (coef a (4 * i + 1)) (zeta (64 + i));
    x1 ← mlk_fqmul (coef a (4 * i + 3)) (s16 (- zeta (64 + i)));
    Some [x0; x1]) (seq 0 (MLKEM_N / 4)).

(** A loop whose body may fail. *)
Fixpoint foldM {A B} (f : A -> B -> option A) (l : list B) (a : A) : option A :=
  match l with
  | [] => Some a
  | b :: l => a ← f a b; foldM f l a
  end.

Definition butterfly (zeta : Z) (len : nat) (r : list Z) (j : nat) : option (list Z) :=
  t ← mlk_fqmul (coef r (j + len)) zeta;
  let r := <[(j + len)%nat := s16 (coef r j - t)]> r in
  let r := <[j := s16 (coef r j + t)]> r in
  Some r.
Definition mlk_ntt_butterfly_block (r : list Z) (zeta : Z) (start len : nat) : option (list Z) :=
  foldM (butterfly zeta len) (seq start len) r.

(** The values of [start] in [for (start = 0; start < MLKEM_N; start += 2 * len)]. *)
Definition starts (len : nat) : list nat := (fun i => 2 * len * i)%nat <$> seq 0 (MLKEM_N / (2 * len)).

Definition mlk_ntt_layer (r : list Z) (layer : nat) : option (list Z) :=
  let k := (2 ^ (layer - 1))%nat in
  let len := (MLKEM_N / 2 ^ layer)%nat in
  fst <$> foldM (fun '(r, k) start =>
      r ← mlk_ntt_butterfly_block r (zeta k) start len;
      Some (r, (k + 1)%nat))
    (starts len) (r, k).

Definition mlk_poly_ntt (p : mlk_poly) : option mlk_poly := foldM mlk_ntt_layer [1; 2; 3; 4; 5; 6; 7]%nat p.

Definition inv_butterfly (zeta : Z) (len : nat) (r : list Z) (j : nat) : option (list Z) :=
  let t := coef r j in
  u ← mlk_barrett_reduce (s16 (t + coef r (j + len)));
  let r := <[j := u]> r in
  let r := <[(j + len)%nat := s16 (coef r (j + len) - t)]> r in
  u ← mlk_fqmul (coef r (j + len)) zeta;
  Some (<[(j + len)%nat := u]> r).
Definition mlk_invntt_layer (r : list Z) (layer : nat) : option (list Z) :=
  let len := (MLKEM_N / 2 ^ layer)%nat in
  let k := (2 ^ layer - 1)%nat in
  fst <$> foldM (fun '(r, k) start =>
      r ← foldM (inv_butterfly (zeta k) len) (seq start len) r;
      Some (r, (k - 1)%nat))
    (starts len) (r, k).

Definition mlk_poly_invntt_tomont (p : mlk_poly) : option mlk_poly :=
  let f := 1441 in
  r ← mapM (fun c => mlk_fqmul c f) p;
  foldM mlk_invntt_layer [7; 6; 5; 4; 3; 2; 1]%nat r.

(** ** [poly_k.c] *)

Definition mlk_polyvec : Type := list mlk_poly.
Definition mlk_polyvec_mulcache : Type := list mlk_poly_mulcache.
(** [a->vec[k]] *)
Definition pvec (a : list (list Z)) (k : nat) : list Z := nth k a [].

Definition mlk_polyvec_ntt (r : mlk_polyvec) : option mlk_polyvec := mapM mlk_poly_ntt r.
Definition mlk_polyvec_invntt_tomont (r : mlk_polyvec) : option mlk_polyvec := mapM mlk_poly_invntt_tomont r.

(** [t += x * y] *)
Definition mul_acc (t x y : Z) : option Z :=
  xy ← signed 32 (x * y);
  signed 32 (t + xy).

Definition basemul_step (a b : mlk_polyvec) (b_cache : mlk_polyvec_mulcache) (i : nat) (t : Z * Z) (k : nat) : option (Z * Z) :=
  let '(t0, t1) := t in
  t0 ← mul_acc t0 (coef (pvec a k) (2 * i + 1)) (coef (pvec b_cache k) i);
  t0 ← mul_acc t0 (coef (pvec a k) (2 * i)) (coef (pvec b k) (2 * i));
  t1 ← mul_acc t1 (coef (pvec a k) (2 * i)) (coef (pvec b k) (2 * i + 1));
  t1 ← mul_acc t1 (coef (pvec a k) (2 * i + 1)) (coef (pvec b k) (2 * i));
  Some (t0, t1).
Definition mlk_polyvec_basemul_acc_montgomery_cached (a b : mlk_polyvec) (b_cache : mlk_polyvec_mulcache) : option mlk_poly :=
  @concat Z <$> mapM (fun i =>
    '(t0, t1) ← foldM (basemul_step a b b_cache i) (seq 0 MLKEM_K) (0, 0);
    r0 ← mlk_montgomery_reduce t0;
    r1 ← mlk_montgomery_reduce t1;
    Some [r0; r1]) (seq 0 (MLKEM_N / 2)).

Definition mlk_polyvec_mulcache_compute (a : mlk_polyvec) : option mlk_polyvec_mulcache := mapM mlk_poly_mulcache_compute a.
Definition mlk_polyvec_reduce (r : mlk_polyvec) : option mlk_polyvec := mapM mlk_poly_reduce r.
Definition mlk_polyvec_add (r b : mlk_polyvec) : mlk_polyvec := zip_with mlk_poly_add r b.
Definition mlk_polyvec_tomont (r : mlk_polyvec) : option mlk_polyvec := mapM mlk_poly_tomont r.
