(* ===== verification/MlkArith.v ===== *)
(** * MlkArith: the arithmetic of ML-KEM on [int16_t]

    The field of 3329 elements, what the reductions compute in it and the ranges they
    return, and the branch-free selections. *)
From Stdlib Require Import Zmod Field.
From S2P Require Import Prelude Octets CInt MlkPoly.

(** ** The field *)

Abbreviation Zq := (Zmod 3329).

Definition Zq_ring := Zmod.ring_theory 3329.
Add Ring Zq_ring_inst : Zq_ring.

Declare Scope q_scope.
Delimit Scope q_scope with q.
Notation "0" := (@Zmod.zero 3329) : q_scope.
Notation "1" := (@Zmod.one 3329) : q_scope.
Notation "x + y" := (@Zmod.add 3329 x y) : q_scope.
Notation "x - y" := (@Zmod.sub 3329 x y) : q_scope.
Notation "x * y" := (@Zmod.mul 3329 x y) : q_scope.
Notation "- x" := (@Zmod.opp 3329 x) : q_scope.

(** The class of an integer, and the representative from 0 to 3328. *)
Definition toq (z : Z) : Zq := Zmod.of_Z 3329 z.
Definition rep (x : Zq) : Z := Zmod.unsigned x.

Lemma toq_add a b : toq (a + b) = (toq a + toq b)%q.
Proof. apply Zmod.of_Z_add. Qed.
Lemma toq_sub a b : toq (a - b) = (toq a - toq b)%q.
Proof. apply Zmod.of_Z_sub. Qed.
Lemma toq_mul a b : toq (a * b) = (toq a * toq b)%q.
Proof. apply Zmod.of_Z_mul. Qed.
Lemma toq_opp a : toq (- a) = (- toq a)%q.
Proof. apply Zmod.of_Z_opp. Qed.
Lemma toq_0 : toq 0 = 0%q.
Proof. apply Zmod.of_Z_0. Qed.
Lemma toq_1 : toq 1 = 1%q.
Proof. apply Zmod.of_Z_1. Qed.
Create Rewrite HintDb toq.
#[export] Hint Rewrite toq_add toq_sub toq_mul toq_opp toq_0 toq_1 : toq.

Lemma toq_eq a b : toq a = toq b <-> a mod 3329 = b mod 3329.
Proof. apply Zmod.of_Z_inj. Qed.
Lemma rep_toq z : rep (toq z) = z mod 3329.
Proof. apply Zmod.unsigned_of_Z. Qed.
Lemma toq_rep x : toq (rep x) = x.
Proof. apply Zmod.of_Z_to_Z. Qed.
Lemma rep_q_range x : 0 <= rep x < 3329.
Proof. apply Zmod.unsigned_pos_bound. lia. Qed.

Opaque Zmod.add Zmod.sub Zmod.mul Zmod.opp Zmod.of_Z Zmod.unsigned.

(** The inverse of 2^16. *)
Definition Rinv : Zq := toq 169.
Lemma R_Rinv : (toq (2 ^ 16) * Rinv)%q = 1%q.
Proof. unfold Rinv. rewrite <- toq_mul, <- toq_1. apply toq_eq. reflexivity. Qed.

(** ** Ranges *)

Definition int16 (z : Z) : Prop := - 2 ^ 15 <= z < 2 ^ 15.
(** Within [b], the bound excluded: [abs_bound] of the code's contracts. *)
Definition within (b z : Z) : Prop := - b < z < b.

Lemma s16_small z : int16 z -> s16 z = z.
Proof. unfold int16, s16. intros H. rewrite Z.mod_small; lia. Qed.
Lemma s16_int16 z : int16 (s16 z).
Proof. unfold int16, s16. pose proof (Z.mod_pos_bound (z + 2 ^ 15) (2 ^ 16)). lia. Qed.
Lemma s16_mod z : s16 z mod 2 ^ 16 = z mod 2 ^ 16.
Proof. unfold s16. rewrite <- (Zminus_mod_idemp_l (_ mod _)), Z.mod_mod, Zminus_mod_idemp_l by lia. f_equal. lia. Qed.
Lemma signed32_small z : - 2 ^ 31 <= z < 2 ^ 31 -> signed 32 z = Some z.
Proof. apply (signed_small 32 31). lia. Qed.
Lemma land_ffff z : Z.land z 0xFFFF = z mod 2 ^ 16.
Proof. change 0xFFFF with (Z.ones 16). by apply Z.land_ones. Qed.

(** ** Montgomery reduction *)

Lemma montgomery_reduce_ok a : - (2 ^ 31 - 2 ^ 15 * MLKEM_Q) < a < 2 ^ 31 - 2 ^ 15 * MLKEM_Q ->
  exists r, mlk_montgomery_reduce a = Some r /\ toq r = (toq a * Rinv)%q /\ int16 r /\
    Z.abs (r * 2 ^ 16 - a) <= 2 ^ 15 * MLKEM_Q.
Proof.
  unfold MLKEM_Q. intros Ha. unfold mlk_montgomery_reduce, mlk_cast_uint16_to_int16, mlk_cast_int32_to_uint16. cbv zeta.
  rewrite !land_ffff. set (t := s16 _).
  assert (int16 t) as Ht by apply s16_int16.
  assert (t mod 2 ^ 16 = (a * 62209) mod 2 ^ 16) as Et.
  { subst t. rewrite s16_mod. unfold u32, u16. rewrite !Z.mod_mod by lia.
    rewrite (Z.mod_mod_divide _ (2 ^ 32) (2 ^ 16)) by (by exists (2 ^ 16)). apply Zmult_mod_idemp_l. }
  clearbody t. assert ((a - t * 3329) mod 2 ^ 16 = 0) as Hm.
  { rewrite <- Zminus_mod_idemp_r, <- Zmult_mod_idemp_l, Et, Zmult_mod_idemp_l, Zminus_mod_idemp_r.
    replace (a - a * 62209 * 3329) with (- (a * 3160) * 2 ^ 16) by lia. apply Z.mod_mul. lia. }
  unfold MLKEM_Q. unfold int16 in Ht. rewrite (signed32_small (t * 3329)) by lia. cbn [mbind option_bind].
  rewrite (signed32_small (a - t * 3329)) by lia. cbn [mbind option_bind].
  rewrite Z.shiftr_div_pow2 by lia. pose proof (Z.div_exact (a - t * 3329) (2 ^ 16) ltac:(lia)) as [_ Hd].
  specialize (Hd Hm). set (r := (a - t * 3329) / 2 ^ 16) in *.
  assert (int16 r) as Hr by (unfold int16; lia). rewrite s16_small by done.
  exists r. split_and!; [done| |done|lia].
  replace a with (2 ^ 16 * r + t * 3329) by lia. autorewrite with toq.
  replace (toq 3329) with 0%q by (rewrite <- toq_0; apply toq_eq; reflexivity).
  transitivity (toq r * (toq (2 ^ 16) * Rinv))%q; [rewrite R_Rinv; ring|ring].
Qed.

Lemma fqmul_ok a b : int16 a -> within MLKEM_Q_HALF b ->
  exists r, mlk_fqmul a b = Some r /\ toq r = (toq a * toq b * Rinv)%q /\ within MLKEM_Q r.
Proof.
  unfold int16, within. change MLKEM_Q_HALF with 1665. intros Ha Hb. unfold mlk_fqmul.
  assert (- (2 ^ 15 * 1664) <= a * b <= 2 ^ 15 * 1664) as Hab by nia.
  rewrite signed32_small by lia. cbn [mbind option_bind].
  destruct (montgomery_reduce_ok (a * b)) as (r & -> & E & _ & Hr); [change MLKEM_Q with 3329; lia|].
  exists r. rewrite E, toq_mul. change MLKEM_Q with 3329 in *. split_and!; [done|done|lia..].
Qed.

(** ** Barrett reduction *)

Lemma barrett_reduce_ok a : int16 a ->
  exists r, mlk_barrett_reduce a = Some r /\ toq r = toq a /\ within MLKEM_Q_HALF r.
Proof.
  unfold int16, within. change MLKEM_Q_HALF with 1665. intros Ha. unfold mlk_barrett_reduce. cbv zeta.
  rewrite signed32_small by lia. cbn [mbind option_bind]. change (Z.shiftl 1 25) with (2 ^ 25).
  rewrite signed32_small by lia. cbn [mbind option_bind]. rewrite Z.shiftr_div_pow2 by lia.
  pose proof (Z.div_mod (20159 * a + 2 ^ 25) (2 ^ 26) ltac:(lia)) as E.
  pose proof (Z.mod_pos_bound (20159 * a + 2 ^ 25) (2 ^ 26) ltac:(lia)) as B.
  set (t := (20159 * a + 2 ^ 25) / 2 ^ 26) in *. clearbody t. unfold MLKEM_Q.
  rewrite signed32_small by lia. cbn [mbind option_bind]. rewrite signed32_small by lia. cbn [mbind option_bind].
  rewrite s16_small by (unfold int16; lia). exists (a - t * 3329). split_and!; [done| |lia..].
  apply toq_eq. replace (a - t * 3329) with (a + (- t) * 3329) by lia. apply Z_mod_plus_full.
Qed.

(** ** Selections *)

Lemma cmask_neg_i16_ok x : int16 x -> mlk_ct_cmask_neg_i16 x = if x <? 0 then 0xFFFF else 0.
Proof.
  unfold int16, mlk_ct_cmask_neg_i16, mlk_value_barrier_i32, mlk_cast_int32_to_uint16. intros H. cbv zeta.
  rewrite Z.shiftr_div_pow2 by lia. destruct (Z.ltb_spec x 0).
  - by replace (x / 2 ^ 16) with (-1) by (apply (Z.div_unique _ _ _ (x + 2 ^ 16)); lia).
  - by rewrite Z.div_small by lia.
Qed.
Lemma cmask_nonzero_u16_ok x : 0 <= x < 2 ^ 16 -> mlk_ct_cmask_nonzero_u16 x = if x =? 0 then 0 else 0xFFFF.
Proof.
  unfold mlk_ct_cmask_nonzero_u16, mlk_value_barrier_i32, mlk_cast_int32_to_uint16. intros H. cbv zeta.
  rewrite Z.shiftr_div_pow2 by lia. destruct (Z.eqb_spec x 0) as [->|].
  - reflexivity.
  - by replace (- x / 2 ^ 16) with (-1) by (apply (Z.div_unique _ _ _ (2 ^ 16 - x)); lia).
Qed.
Lemma cmask_nonzero_u8_ok x : 0 <= x < 2 ^ 8 -> mlk_ct_cmask_nonzero_u8 x = if x =? 0 then 0 else 0xFF.
Proof.
  intros H. unfold mlk_ct_cmask_nonzero_u8. rewrite cmask_nonzero_u16_ok by lia. by destruct (x =? 0).
Qed.

Lemma ct_sel_int16_ok a b c : int16 a -> int16 b -> 0 <= c < 2 ^ 16 -> mlk_ct_sel_int16 a b c = if c =? 0 then b else a.
Proof.
  intros Ha Hb Hc. unfold mlk_ct_sel_int16, mlk_cast_int16_to_uint16, mlk_cast_int32_to_uint16, mlk_cast_uint16_to_int16. cbv zeta.
  rewrite cmask_nonzero_u16_ok, !land_ffff by done. unfold u16. rewrite !Z.mod_mod by lia.
  assert (forall z, int16 z -> s16 (z mod 2 ^ 16) = z) as Hs.
  { intros z Hz. rewrite <- (s16_small z Hz) at 2. unfold s16. f_equal. by rewrite Zplus_mod_idemp_l. }
  destruct (Z.eqb_spec c 0).
  - rewrite Z.land_0_l, Z.lxor_0_r. by apply Hs.
  - rewrite Z.land_comm, land_ffff. rewrite (Z.mod_small (Z.lxor _ _)).
    + by rewrite Z.lxor_comm, Z.lxor_assoc, Z.lxor_nilpotent, Z.lxor_0_r, Hs.
    + pose proof (Z.mod_pos_bound a (2 ^ 16)). pose proof (Z.mod_pos_bound b (2 ^ 16)).
      split; [apply Z.lxor_nonneg; lia|]. apply Z.log2_lt_cancel. eapply Z.le_lt_trans; [apply Z.log2_lxor; lia|].
      rewrite Z.log2_pow2 by lia.
      assert (forall x, 0 <= x < 2 ^ 16 -> Z.log2 x < 16) as L.
      { intros x Hx. destruct (decide (x = 0)) as [->|]; [done|]. apply Z.log2_lt_pow2; lia. }
      apply Z.max_lub_lt; apply L; lia.
Qed.

Lemma signed_to_unsigned_ok c : within MLKEM_Q c -> mlk_scalar_signed_to_unsigned_q c = c mod MLKEM_Q.
Proof.
  unfold within, mlk_scalar_signed_to_unsigned_q, MLKEM_Q. intros H.
  rewrite cmask_neg_i16_ok, (s16_small (c + 3329)) by (unfold int16; lia).
  rewrite ct_sel_int16_ok by (unfold int16; destruct (c <? 0); lia).
  destruct (Z.ltb_spec c 0); cbn [Z.eqb].
  - rewrite <- (Z.mod_add c 1) by lia. rewrite Z.mod_small; lia.
  - by rewrite Z.mod_small by lia.
Qed.
