(* ===== verification/MlkNtt.v ===== *)
(** * MlkNtt: the number-theoretic transform of FIPS 203

    Polynomials of degree below 256 over [Zq] as their coefficients.  The transform takes one
    to its remainders modulo X^2 - gamma_b for the 128 primitive roots gamma_b; seven layers
    of butterflies compute it, seven inverse layers undo it up to a factor of 128. *)
From Stdlib Require Import Zmod.
From S2P Require Import Prelude Octets CInt MlkPoly MlkArith.
Local Open Scope q_scope.

(** ** Coefficients *)

Definition coeffs : Type := nat -> Zq.
(** Equal up to degree 255. *)
#[export] Instance coeffs_equiv : Equiv coeffs := fun f g => forall x, (x < 256)%nat -> f x = g x.
#[export] Instance coeffs_equivalence : Equivalence (≡@{coeffs}).
Proof.
  split; [done|by intros f g H x Hx; rewrite H|]. intros f g h H1 H2 x Hx. by rewrite H1, H2.
Qed.

(** ** Sums and powers *)

Fixpoint sum (n : nat) (g : nat -> Zq) : Zq :=
  match n with O => 0 | S n => sum n g + g n end.
Fixpoint pw (z : Zq) (n : nat) : Zq :=
  match n with O => 1 | S n => z * pw z n end.

Lemma sum_ext n g h : (forall j, (j < n)%nat -> g j = h j) -> sum n g = sum n h.
Proof. induction n as [|n IH]; intros H; cbn [sum]; [done|]. rewrite IH, H by (intros; auto with arith). done. Qed.
Lemma sum_add n g h : sum n (fun j => g j + h j) = sum n g + sum n h.
Proof. induction n as [|n IH]; cbn [sum]; [ring|]. rewrite IH. ring. Qed.
Lemma sum_scale n c g : sum n (fun j => c * g j) = c * sum n g.
Proof. induction n as [|n IH]; cbn [sum]; [ring|]. rewrite IH. ring. Qed.
Lemma sum_sub n g h : sum n (fun j => g j - h j) = sum n g - sum n h.
Proof. induction n as [|n IH]; cbn [sum]; [ring|]. rewrite IH. ring. Qed.
Lemma sum_double m g : sum (2 * m) g = sum m (fun j => g (2 * j)%nat + g (2 * j + 1)%nat).
Proof.
  induction m as [|m IH]; [done|]. replace (2 * S m)%nat with (S (S (2 * m))) by lia. cbn [sum]. rewrite IH.
  replace (S (2 * m)) with (2 * m + 1)%nat by lia. ring.
Qed.

Lemma pw_add z m n : pw z (m + n) = pw z m * pw z n.
Proof. induction m as [|m IH]; cbn [pw Nat.add]; [ring|]. rewrite IH. ring. Qed.
Lemma pw_square z n : pw z (2 * n) = pw (z * z) n.
Proof. induction n as [|n IH]; [done|]. replace (2 * S n)%nat with (S (S (2 * n))) by lia. cbn [pw]. rewrite IH. ring. Qed.

(** ** Roots *)

(** What entry [k] of the table stands for. *)
Definition root (k : nat) : Zq := toq (zeta k) * Rinv.
(** Block [b] after [l] layers holds the remainder modulo X^(256 / 2^l) - [rho l b]. *)
Definition rho (l b : nat) : Zq :=
  match l with
  | O => - (1)
  | S l => let r := root (2 ^ l + b / 2) in if Nat.even b then r else - r
  end.
Definition gamma (b : nat) : Zq := rho 7 b.

Definition root_square (l b : nat) : bool := Zmod.eqb (root (2 ^ l + b) * root (2 ^ l + b)) (rho l b).
Lemma root_square_all : forallb (fun l => forallb (root_square l) (seq 0 (2 ^ l))) (seq 0 7) = true.
Proof. vm_compute. reflexivity. Qed.
Lemma root_square_ok l b : (l < 7)%nat -> (b < 2 ^ l)%nat -> root (2 ^ l + b) * root (2 ^ l + b) = rho l b.
Proof.
  intros Hl Hb. apply Zmod.eqb_eq. pose proof root_square_all as H. rewrite forallb_forall in H.
  specialize (H l ltac:(apply in_seq; lia)). rewrite forallb_forall in H. apply H, in_seq. lia.
Qed.
Definition root_pair (l b : nat) : bool := Zmod.eqb (root (2 ^ l + b) * root (2 ^ S l - 1 - b)) (- (1)).
Lemma root_pair_all : forallb (fun l => forallb (root_pair l) (seq 0 (2 ^ l))) (seq 0 7) = true.
Proof. vm_compute. reflexivity. Qed.
(** The factor an inverse layer uses. *)
Lemma root_pair_ok l b : (l < 7)%nat -> (b < 2 ^ l)%nat -> root (2 ^ l + b) * root (2 ^ S l - 1 - b) = - (1).
Proof.
  intros Hl Hb. apply Zmod.eqb_eq. pose proof root_pair_all as H. rewrite forallb_forall in H.
  specialize (H l ltac:(apply in_seq; lia)). rewrite forallb_forall in H. apply H, in_seq. lia.
Qed.

Lemma rho_square l b : (l < 7)%nat -> (b < 2 ^ S l)%nat -> rho (S l) b * rho (S l) b = rho l (b / 2).
Proof.
  intros Hl Hb. assert (b / 2 < 2 ^ l)%nat as Hb2 by (apply Nat.Div0.div_lt_upper_bound; cbn [Nat.pow] in Hb; lia).
  rewrite <- (root_square_ok l (b / 2)) by done. cbn [rho]. destruct (Nat.even b); ring.
Qed.
Lemma rho_order l b : (l <= 7)%nat -> (b < 2 ^ l)%nat -> pw (rho l b) (2 ^ l) = - (1).
Proof.
  revert b. induction l as [|l IH]; intros b Hl Hb; [cbn; ring|]. cbn [Nat.pow]. rewrite pw_square, rho_square by (done || lia).
  apply IH; [lia|]. apply Nat.Div0.div_lt_upper_bound. cbn [Nat.pow] in Hb. lia.
Qed.
Lemma gamma_order b : (b < 128)%nat -> pw (gamma b) 128 = - (1).
Proof. intros H. exact (rho_order 7 b (le_n 7) H). Qed.

(** BitRev7 of the standard; the moduli are those of its section 4.3, with zeta = 17. *)
Definition bitrev7 (k : nat) : nat := fold_left (fun r i => 2 * r + (k / 2 ^ i) mod 2)%nat (seq 0 7) 0%nat.
Lemma gamma_all : forallb (fun b => Zmod.eqb (gamma b) (pw (toq 17) (2 * bitrev7 b + 1))) (seq 0 128) = true.
Proof. vm_compute. reflexivity. Qed.
Lemma gamma_17 b : (b < 128)%nat -> gamma b = pw (toq 17) (2 * bitrev7 b + 1).
Proof.
  intros Hb. apply Zmod.eqb_eq. pose proof gamma_all as H. rewrite forallb_forall in H. apply H, in_seq. lia.
Qed.

(** ** Layers *)

Definition fwd (l : nat) (f : coeffs) : coeffs := fun x =>
  let n := (256 / 2 ^ l)%nat in
  let z := root (2 ^ (l - 1) + x / (2 * n)) in
  if (x mod (2 * n) <? n)%nat then f x + z * f (x + n)%nat else f (x - n)%nat - z * f x.
Definition bwd (l : nat) (f : coeffs) : coeffs := fun x =>
  let n := (256 / 2 ^ l)%nat in
  let z := root (2 ^ l - 1 - x / (2 * n)) in
  if (x mod (2 * n) <? n)%nat then f x + f (x + n)%nat else (f x - f (x - n)%nat) * z.

Definition layers : list nat := [1; 2; 3; 4; 5; 6; 7]%nat.
Definition ntt (f : coeffs) : coeffs := fold_left (fun f l => fwd l f) layers f.
Definition unntt (f : coeffs) : coeffs := fold_left (fun f l => bwd l f) (rev layers) f.

(** An index in a pair of blocks of [n]. *)
Lemma index_low n b o : (o < n)%nat -> ((b * (2 * n) + o) / (2 * n) = b /\ (b * (2 * n) + o) mod (2 * n) = o)%nat.
Proof.
  intros H. rewrite Nat.add_comm, Nat.div_add, Nat.Div0.mod_add, Nat.div_small, Nat.mod_small by lia. done.
Qed.
Lemma index_high n b o : (o < n)%nat -> ((b * (2 * n) + o + n) / (2 * n) = b /\ (b * (2 * n) + o + n) mod (2 * n) = o + n)%nat.
Proof.
  intros H. replace (b * (2 * n) + o + n)%nat with (o + n + b * (2 * n))%nat by lia.
  rewrite Nat.div_add, Nat.Div0.mod_add, Nat.div_small, Nat.mod_small by lia. done.
Qed.

Section layer.
Variables (l n : nat).
Hypotheses (Hl : (1 <= l <= 7)%nat) (Hn : n = (256 / 2 ^ l)%nat).

Lemma fwd_low f b o : (o < n)%nat ->
  fwd l f (b * (2 * n) + o)%nat = f (b * (2 * n) + o)%nat + root (2 ^ (l - 1) + b) * f (b * (2 * n) + o + n)%nat.
Proof using Hl Hn.
  intros H. unfold fwd. rewrite <- Hn. destruct (index_low n b o H) as [-> ->]. by rewrite (proj2 (Nat.ltb_lt o n)).
Qed.
Lemma fwd_high f b o : (o < n)%nat ->
  fwd l f (b * (2 * n) + o + n)%nat = f (b * (2 * n) + o)%nat - root (2 ^ (l - 1) + b) * f (b * (2 * n) + o + n)%nat.
Proof using Hl Hn.
  intros H. unfold fwd. rewrite <- Hn. destruct (index_high n b o H) as [-> ->].
  rewrite (proj2 (Nat.ltb_ge (o + n) n)) by lia. by rewrite Nat.add_sub.
Qed.
Lemma bwd_low f b o : (o < n)%nat ->
  bwd l f (b * (2 * n) + o)%nat = f (b * (2 * n) + o)%nat + f (b * (2 * n) + o + n)%nat.
Proof using Hl Hn.
  intros H. unfold bwd. rewrite <- Hn. destruct (index_low n b o H) as [-> ->]. by rewrite (proj2 (Nat.ltb_lt o n)).
Qed.
Lemma bwd_high f b o : (o < n)%nat ->
  bwd l f (b * (2 * n) + o + n)%nat = (f (b * (2 * n) + o + n)%nat - f (b * (2 * n) + o)%nat) * root (2 ^ l - 1 - b).
Proof using Hl Hn.
  intros H. unfold bwd. rewrite <- Hn. destruct (index_high n b o H) as [-> ->].
  rewrite (proj2 (Nat.ltb_ge (o + n) n)) by lia. by rewrite Nat.add_sub.
Qed.

Lemma layer_size : (2 ^ l * n = 256 /\ 0 < n /\ 2 ^ l = 2 * 2 ^ (l - 1))%nat.
Proof using Hl Hn.
  assert (l = 1 \/ l = 2 \/ l = 3 \/ l = 4 \/ l = 5 \/ l = 6 \/ l = 7)%nat as Hc by lia.
  rewrite Hn. destruct_or! Hc; rewrite Hc; repeat split; apply Nat.ltb_lt; reflexivity.
Qed.

(** Every index is in the low or the high half of a pair of blocks. *)
Lemma index_cases x : (x < 256)%nat -> exists b o, (o < n)%nat /\ (b < 2 ^ (l - 1))%nat /\
  (x = b * (2 * n) + o \/ x = b * (2 * n) + o + n)%nat.
Proof using Hl Hn.
  intros Hx. destruct layer_size as (Hs & H0 & H2).
  exists (x / (2 * n))%nat. pose proof (Nat.div_mod_eq x (2 * n)) as E. pose proof (Nat.mod_upper_bound x (2 * n) ltac:(lia)).
  assert (x / (2 * n) < 2 ^ (l - 1))%nat by (apply Nat.Div0.div_lt_upper_bound; lia).
  destruct (decide (x mod (2 * n) < n)%nat).
  - exists (x mod (2 * n))%nat. split_and!; [done|done|left; lia].
  - exists (x mod (2 * n) - n)%nat. split_and!; [lia|done|right; lia].
Qed.

Lemma fwd_bwd f : fwd l (bwd l f) ≡ (fun x => f x + f x).
Proof using Hl Hn.
  intros x Hx. destruct (index_cases x Hx) as (b & o & Ho & Hb & Ex).
  pose proof (root_pair_ok (l - 1) b ltac:(lia) Hb) as P. replace (S (l - 1)) with l in P by lia.
  set (z := root (2 ^ (l - 1) + b)) in *. set (z' := root (2 ^ l - 1 - b)) in *.
  destruct Ex as [-> | ->]; rewrite ?fwd_low, ?fwd_high, ?bwd_low, ?bwd_high by done; fold z z'.
  - transitivity (f (b * (2 * n) + o)%nat + f (b * (2 * n) + o + n)%nat +
      (z * z') * (f (b * (2 * n) + o + n)%nat - f (b * (2 * n) + o)%nat)); [ring|]. rewrite P. ring.
  - transitivity (f (b * (2 * n) + o)%nat + f (b * (2 * n) + o + n)%nat -
      (z * z') * (f (b * (2 * n) + o + n)%nat - f (b * (2 * n) + o)%nat)); [ring|]. rewrite P. ring.
Qed.
Lemma bwd_fwd f : bwd l (fwd l f) ≡ (fun x => f x + f x).
Proof using Hl Hn.
  intros x Hx. destruct (index_cases x Hx) as (b & o & Ho & Hb & Ex).
  pose proof (root_pair_ok (l - 1) b ltac:(lia) Hb) as P. replace (S (l - 1)) with l in P by lia.
  set (z := root (2 ^ (l - 1) + b)) in *. set (z' := root (2 ^ l - 1 - b)) in *.
  destruct Ex as [-> | ->]; rewrite ?bwd_low, ?bwd_high, ?fwd_low, ?fwd_high by done; fold z z'; [ring|].
  transitivity ((- ((z * z') + (z * z'))) * f (b * (2 * n) + o + n)%nat); [ring|]. rewrite P. ring.
Qed.

Lemma fwd_proper f g : f ≡ g -> fwd l f ≡ fwd l g.
Proof using Hl Hn.
  intros H x Hx. destruct (index_cases x Hx) as (b & o & Ho & Hb & Ex). destruct layer_size as (Hs & H0 & H2).
  assert (b * (2 * n) + o + n < 256)%nat as Hi by nia.
  destruct Ex as [-> | ->]; rewrite ?fwd_low, ?fwd_high, !H by (done || lia); done.
Qed.
Lemma bwd_proper f g : f ≡ g -> bwd l f ≡ bwd l g.
Proof using Hl Hn.
  intros H x Hx. destruct (index_cases x Hx) as (b & o & Ho & Hb & Ex). destruct layer_size as (Hs & H0 & H2).
  assert (b * (2 * n) + o + n < 256)%nat as Hi by nia.
  destruct Ex as [-> | ->]; rewrite ?bwd_low, ?bwd_high, !H by (done || lia); done.
Qed.

Lemma fwd_double f : fwd l (fun x => f x + f x) ≡ (fun x => fwd l f x + fwd l f x).
Proof using Hl Hn.
  intros x Hx. destruct (index_cases x Hx) as (b & o & Ho & Hb & Ex).
  destruct Ex as [-> | ->]; rewrite ?fwd_low, ?fwd_high by done; ring.
Qed.
Lemma bwd_double f : bwd l (fun x => f x + f x) ≡ (fun x => bwd l f x + bwd l f x).
Proof using Hl Hn.
  intros x Hx. destruct (index_cases x Hx) as (b & o & Ho & Hb & Ex).
  destruct Ex as [-> | ->]; rewrite ?bwd_low, ?bwd_high by done; ring.
Qed.
End layer.

(** ** The layers evaluate *)

(** After [l] layers: the coefficients of the remainders. *)
Definition level (l : nat) (f : coeffs) : coeffs := fun x =>
  let n := (256 / 2 ^ l)%nat in
  sum (2 ^ l) (fun j => f (x mod n + j * n)%nat * pw (rho l (x / n)) j).

Lemma level_0 f : level 0 f ≡ f.
Proof.
  intros x Hx. unfold level. change (256 / 2 ^ 0)%nat with 256%nat. change (2 ^ 0)%nat with 1%nat. cbn [sum pw].
  rewrite Nat.mod_small by done. replace (x + 0 * 256)%nat with x by lia. ring.
Qed.

(** The two halves of a remainder, evaluated at a square root. *)
Lemma sum_halves m (f : nat -> Zq) n w r o : w * w = r ->
  sum (2 * m) (fun j => f (o + j * n)%nat * pw w j) =
  sum m (fun j => f (o + j * (2 * n))%nat * pw r j) + w * sum m (fun j => f (o + n + j * (2 * n))%nat * pw r j).
Proof.
  intros <-. rewrite sum_double, <- sum_scale, <- sum_add. apply sum_ext. intros j _.
  rewrite pw_add, pw_square. cbn [pw]. replace (o + 2 * j * n)%nat with (o + j * (2 * n))%nat by lia.
  replace (o + (2 * j + 1) * n)%nat with (o + n + j * (2 * n))%nat by lia. ring.
Qed.

Lemma level_step l f : (l < 7)%nat -> fwd (S l) (level l f) ≡ level (S l) f.
Proof.
  intros Hl x Hx. set (n := (256 / 2 ^ S l)%nat).
  destruct (layer_size (S l) n ltac:(lia) eq_refl) as (Hs & H0 & H2).
  destruct (index_cases (S l) n ltac:(lia) eq_refl x Hx) as (b & o & Ho & Hb & Ex). replace (S l - 1)%nat with l in Hb by lia.
  assert (256 / 2 ^ l = 2 * n)%nat as E2. { replace 256%nat with (2 * n * 2 ^ l)%nat by (rewrite <- Hs; cbn [Nat.pow]; lia). apply Nat.div_mul. lia. }
  assert (forall c, (c * n + o) / n = c /\ (c * n + o) mod n = o)%nat as Hi.
  { intros c. rewrite Nat.add_comm, Nat.div_add, Nat.Div0.mod_add, Nat.div_small, Nat.mod_small by lia. done. }
  pose proof (index_low n b o Ho) as [L1 L2]. pose proof (index_high n b o Ho) as [L3 L4].
  pose proof (root_square_ok l b Hl Hb) as Hr.
  assert (rho (S l) (2 * b) = root (2 ^ l + b)) as R1.
  { cbn [rho]. rewrite Nat.even_mul. cbn [Nat.even orb]. do 2 f_equal. symmetry. apply Nat.div_unique_exact; lia. }
  assert (rho (S l) (2 * b + 1) = - root (2 ^ l + b)) as R2.
  { cbn [rho]. rewrite Nat.even_add, Nat.even_mul. cbn [Nat.even orb Bool.eqb]. do 3 f_equal. symmetry. apply (Nat.div_unique _ _ _ 1); lia. }
  destruct Ex as [-> | ->].
  - rewrite (fwd_low (S l) n) by (done || lia). unfold level. rewrite E2, L1, L2, L3, L4. fold n. cbn [Nat.sub]. rewrite Nat.sub_0_r.
    replace (b * (2 * n) + o)%nat with (2 * b * n + o)%nat by lia. destruct (Hi (2 * b)%nat) as [-> ->].
    cbn [Nat.pow]. rewrite R1. symmetry. by apply sum_halves.
  - rewrite (fwd_high (S l) n) by (done || lia). unfold level. rewrite E2, L1, L2, L3, L4. fold n. cbn [Nat.sub]. rewrite Nat.sub_0_r.
    replace (b * (2 * n) + o + n)%nat with ((2 * b + 1) * n + o)%nat by lia. destruct (Hi (2 * b + 1)%nat) as [-> ->].
    cbn [Nat.pow]. rewrite R2. rewrite (sum_halves _ f n (- root (2 ^ l + b)) (rho l b)) by (rewrite <- Hr; ring). ring.
Qed.

(** The transform: the coefficients of the remainder modulo X^2 - gamma b, at 2 b and 2 b + 1. *)
Definition eval (f : coeffs) (b c : nat) : Zq := sum 128 (fun j => f (c + j * 2)%nat * pw (gamma b) j).

Lemma ntt_level f : ntt f ≡ level 7 f.
Proof.
  unfold ntt, layers. cbn [fold_left].
  repeat lazymatch goal with
  | |- fwd ?l _ ≡ level ?l f =>
      transitivity (fwd l (level (l - 1) f)); [apply (fwd_proper l (256 / 2 ^ l)); [lia|done|]|exact (level_step (l - 1) f ltac:(lia))];
      cbn [Nat.sub]
  end.
  by rewrite level_0.
Qed.

Lemma ntt_eval f b c : (b < 128)%nat -> (c < 2)%nat -> ntt f (2 * b + c)%nat = eval f b c.
Proof.
  intros Hb Hc. rewrite ntt_level by lia. unfold level, eval. change (256 / 2 ^ 7)%nat with 2%nat. change (2 ^ 7)%nat with 128%nat.
  rewrite (Nat.mul_comm 2 b), (Nat.add_comm (b * 2)), Nat.div_add, Nat.Div0.mod_add, Nat.div_small, Nat.mod_small by lia. done.
Qed.

#[export] Instance ntt_proper : Proper ((≡) ==> (≡)) ntt.
Proof.
  intros f g H. rewrite !ntt_level. intros x Hx. unfold level. change (256 / 2 ^ 7)%nat with 2%nat. change (2 ^ 7)%nat with 128%nat.
  apply sum_ext. intros j Hj. rewrite H; [done|]. pose proof (Nat.mod_upper_bound x 2). lia.
Qed.

(** ** The inverse *)

Lemma dbl_proper f g : f ≡ g -> (fun x => f x + f x) ≡@{coeffs} (fun x => g x + g x).
Proof. intros H x Hx. by rewrite H. Qed.

Definition times (k : nat) (f : coeffs) : coeffs := fun x => Nat.iter k (fun y => y + y) (f x).

Lemma fwd_times l k f : (1 <= l <= 7)%nat -> fwd l (times k f) ≡ times k (fwd l f).
Proof.
  intros Hl. induction k as [|k IH]; [done|].
  transitivity (fun x => fwd l (times k f) x + fwd l (times k f) x).
  - exact (fwd_double l _ Hl eq_refl (times k f)).
  - by apply dbl_proper.
Qed.

(** The layers over the inverse layers, in the order they meet. *)
Lemma fwd_over l k f g : (1 <= l <= 7)%nat -> f ≡ times k (bwd l g) -> fwd l f ≡ times (S k) g.
Proof.
  intros Hl H. transitivity (fwd l (times k (bwd l g))); [exact (fwd_proper l _ Hl eq_refl _ _ H)|].
  transitivity (times k (fwd l (bwd l g))); [by apply fwd_times|]. pose proof (fwd_bwd l _ Hl eq_refl g) as E. clear H.
  induction k as [|k IH]; [exact E|]. by apply dbl_proper.
Qed.

Lemma ntt_unntt f : ntt (unntt f) ≡ times 7 f.
Proof. unfold ntt, unntt, layers. cbn [fold_left rev app]. do 7 (apply fwd_over; [lia|]). done. Qed.
Lemma bwd_times l k f : (1 <= l <= 7)%nat -> bwd l (times k f) ≡ times k (bwd l f).
Proof.
  intros Hl. induction k as [|k IH]; [done|].
  transitivity (fun x => bwd l (times k f) x + bwd l (times k f) x).
  - exact (bwd_double l _ Hl eq_refl (times k f)).
  - by apply dbl_proper.
Qed.
Lemma bwd_over l k f g : (1 <= l <= 7)%nat -> f ≡ times k (fwd l g) -> bwd l f ≡ times (S k) g.
Proof.
  intros Hl H. transitivity (bwd l (times k (fwd l g))); [exact (bwd_proper l _ Hl eq_refl _ _ H)|].
  transitivity (times k (bwd l (fwd l g))); [by apply bwd_times|]. pose proof (bwd_fwd l _ Hl eq_refl g) as E. clear H.
  induction k as [|k IH]; [exact E|]. by apply dbl_proper.
Qed.
Lemma unntt_ntt f : unntt (ntt f) ≡ times 7 f.
Proof. unfold ntt, unntt, layers. cbn [fold_left rev app]. do 7 (apply bwd_over; [lia|]). done. Qed.

Lemma times_7 f x : times 7 f x = toq 128 * f x.
Proof.
  unfold times. cbn [Nat.iter nat_rect]. change 128%Z with ((1 + 1) * ((1 + 1) * ((1 + 1) * ((1 + 1) * ((1 + 1) * ((1 + 1) * (1 + 1)))))))%Z.
  autorewrite with toq. ring.
Qed.

(** ** The ring

    [Zq[X] / (X^256 + 1)]: [X * f], and the product by the powers of X in the first factor. *)
Definition shift (f : coeffs) : coeffs := fun x => match x with O => - f 255%nat | S x => f x end.
Definition cmul (f g : coeffs) : coeffs := fun x => sum 256 (fun i => f i * Nat.iter i shift g x).
Definition cadd (f g : coeffs) : coeffs := fun x => f x + g x.
Definition csub (f g : coeffs) : coeffs := fun x => f x - g x.

(** The product modulo X^2 - gamma b of two remainders (BaseCaseMultiply), on all of them. *)
Definition base_mul (f g : coeffs) : coeffs := fun x =>
  let b := (x / 2)%nat in
  if Nat.even x then f (2 * b)%nat * g (2 * b)%nat + f (2 * b + 1)%nat * g (2 * b + 1)%nat * gamma b
  else f (2 * b)%nat * g (2 * b + 1)%nat + f (2 * b + 1)%nat * g (2 * b)%nat.

Lemma sum_shift f z n : (1 + n * 2 = 255)%nat -> pw z (S n) = - (1) ->
  sum (S n) (fun j => shift f (0 + j * 2)%nat * pw z j) = z * sum (S n) (fun j => f (1 + j * 2)%nat * pw z j).
Proof.
  intros Hn Hz.
  assert (forall m, sum (S m) (fun j => shift f (0 + j * 2)%nat * pw z j) =
    - f 255%nat + z * sum m (fun j => f (1 + j * 2)%nat * pw z j)) as H.
  { induction m as [|m IH]; [cbn; ring|]. cbn [sum] in *. rewrite IH. clear IH.
    replace (0 + S m * 2)%nat with (S (1 + m * 2)) by lia. cbn [shift pw]. ring. }
  rewrite H. clear H. cbn [sum]. rewrite Hn. generalize (sum n (fun j => f (1 + j * 2)%nat * pw z j)). intros s.
  transitivity (pw z (S n) * f 255%nat + z * s); [rewrite Hz|cbn [pw]]; ring.
Qed.
Lemma eval_shift_0 f b : (b < 128)%nat -> eval (shift f) b 0 = gamma b * eval f b 1.
Proof. intros Hb. unfold eval. apply (sum_shift f (gamma b) 127); [done|by apply gamma_order]. Qed.
Lemma eval_shift_1 f b : eval (shift f) b 1 = eval f b 0.
Proof. unfold eval. apply sum_ext. intros j _. by replace (1 + j * 2)%nat with (S (0 + j * 2)) by lia. Qed.

Lemma eval_add f g b c : eval (fun x => f x + g x) b c = eval f b c + eval g b c.
Proof. unfold eval. rewrite <- sum_add. apply sum_ext. intros. ring. Qed.
Lemma eval_scale a f b c : eval (fun x => a * f x) b c = a * eval f b c.
Proof. unfold eval. rewrite <- sum_scale. apply sum_ext. intros. ring. Qed.
Lemma eval_sub f g b c : eval (fun x => f x - g x) b c = eval f b c - eval g b c.
Proof. unfold eval. rewrite <- sum_sub. apply sum_ext. intros. ring. Qed.

Lemma eval_shifts i f b : (b < 128)%nat ->
  eval (Nat.iter (2 * i) shift f) b 0 = pw (gamma b) i * eval f b 0 /\
  eval (Nat.iter (2 * i) shift f) b 1 = pw (gamma b) i * eval f b 1.
Proof.
  intros Hb. induction i as [|i [IH0 IH1]].
  { change (2 * 0)%nat with 0%nat. cbn [Nat.iter nat_rect pw]. split; ring. }
  replace (2 * S i)%nat with (S (S (2 * i))) by lia. rewrite !Nat.iter_succ. cbn [pw].
  rewrite eval_shift_0, !eval_shift_1, eval_shift_0, IH0, IH1 by done. split; ring.
Qed.

Lemma eval_sum n (h : nat -> coeffs) b c : eval (fun x => sum n (fun i => h i x)) b c = sum n (fun i => eval (h i) b c).
Proof.
  induction n as [|n IH]; cbn [sum].
  - unfold eval. rewrite (sum_ext 128 _ (fun _ => 0 * 0)) by (intros; ring). rewrite sum_scale. ring.
  - rewrite <- IH. apply eval_add.
Qed.

Lemma eval_mul f g b : (b < 128)%nat ->
  eval (cmul f g) b 0 = eval f b 0 * eval g b 0 + eval f b 1 * eval g b 1 * gamma b /\
  eval (cmul f g) b 1 = eval f b 0 * eval g b 1 + eval f b 1 * eval g b 0.
Proof.
  intros Hb. unfold cmul.
  assert (forall c, eval (fun x => sum 256 (fun i => f i * Nat.iter i shift g x)) b c =
    sum 128 (fun j => f (0 + j * 2)%nat * eval (Nat.iter (2 * j) shift g) b c + f (1 + j * 2)%nat * eval (Nat.iter (2 * j + 1) shift g) b c)) as E.
  { intros c. rewrite (eval_sum 256 (fun i x => f i * Nat.iter i shift g x)). rewrite (sum_double 128).
    apply sum_ext. intros j _. rewrite !eval_scale. do 2 f_equal; f_equal; lia. }
  assert (forall j, Nat.iter (2 * j + 1) shift g = shift (Nat.iter (2 * j) shift g)) as Es by (intros j; by rewrite Nat.add_1_r).
  assert (forall a d, sum 128 (fun j => f (0 + j * 2)%nat * (pw (gamma b) j * a) + f (1 + j * 2)%nat * (pw (gamma b) j * d)) =
    eval f b 0 * a + eval f b 1 * d) as Es2.
  { intros a d. unfold eval. rewrite !(Zmod.mul_comm (sum _ _)), <- !sum_scale, <- sum_add. apply sum_ext. intros j _. ring. }
  rewrite !E. split.
  - transitivity (eval f b 0 * eval g b 0 + eval f b 1 * (gamma b * eval g b 1)); [|ring]. rewrite <- Es2. apply sum_ext. intros j _.
    rewrite Es, eval_shift_0 by done. destruct (eval_shifts j g b Hb) as [-> ->]. ring.
  - rewrite <- Es2. apply sum_ext. intros j _. rewrite Es, eval_shift_1. by destruct (eval_shifts j g b Hb) as [-> ->].
Qed.

(** Every index is one of a pair. *)
Lemma index_pair (P : nat -> Prop) : (forall b, (b < 128)%nat -> P (2 * b)%nat /\ P (2 * b + 1)%nat) -> forall x, (x < 256)%nat -> P x.
Proof.
  intros H x Hx. destruct (H (x / 2)%nat) as [H0 H1]; [apply Nat.Div0.div_lt_upper_bound; lia|].
  pose proof (Nat.div_mod_eq x 2). pose proof (Nat.mod_upper_bound x 2).
  destruct (decide (x mod 2 = 0)%nat); [replace x with (2 * (x / 2))%nat by lia|replace x with (2 * (x / 2) + 1)%nat by lia]; done.
Qed.
Lemma even_pair b : Nat.even (2 * b) = true /\ Nat.even (2 * b + 1) = false /\ (2 * b / 2 = b /\ (2 * b + 1) / 2 = b)%nat.
Proof.
  rewrite Nat.even_add, Nat.even_mul. split_and!; [done..|symmetry; by apply Nat.div_unique_exact|symmetry; apply (Nat.div_unique _ _ _ 1); lia].
Qed.
Lemma ntt_eval_0 f b : (b < 128)%nat -> ntt f (2 * b)%nat = eval f b 0.
Proof. intros H. rewrite <- ntt_eval by lia. f_equal. lia. Qed.
Lemma ntt_eval_1 f b : (b < 128)%nat -> ntt f (2 * b + 1)%nat = eval f b 1.
Proof. intros H. by rewrite <- ntt_eval by lia. Qed.

(** The transform is a homomorphism, and injective. *)
Lemma ntt_mul f g : ntt (cmul f g) ≡ base_mul (ntt f) (ntt g).
Proof.
  unfold equiv, coeffs_equiv. apply index_pair. intros b Hb. unfold base_mul.
  destruct (even_pair b) as (-> & -> & -> & ->). rewrite !ntt_eval_0, !ntt_eval_1 by done. by apply eval_mul.
Qed.
Lemma ntt_add f g : ntt (cadd f g) ≡ cadd (ntt f) (ntt g).
Proof.
  unfold equiv, coeffs_equiv. apply index_pair. intros b Hb. unfold cadd.
  rewrite !ntt_eval_0, !ntt_eval_1 by done. split; apply eval_add.
Qed.
Lemma ntt_sub f g : ntt (csub f g) ≡ csub (ntt f) (ntt g).
Proof.
  unfold equiv, coeffs_equiv. apply index_pair. intros b Hb. unfold csub.
  rewrite !ntt_eval_0, !ntt_eval_1 by done. split; apply eval_sub.
Qed.
Lemma ntt_scale a f : ntt (fun x => a * f x) ≡ (fun x => a * ntt f x).
Proof.
  unfold equiv, coeffs_equiv. apply index_pair. intros b Hb. rewrite !ntt_eval_0, !ntt_eval_1 by done. split; apply eval_scale.
Qed.

Lemma inv_128 : toq 3303 * toq 128 = 1.
Proof. rewrite <- toq_mul, <- toq_1. apply toq_eq. reflexivity. Qed.
(** The inverse transform: 3303 is the inverse of 128 (Algorithm 10). *)
Definition intt (f : coeffs) : coeffs := fun x => toq 3303 * unntt f x.
Lemma ntt_intt f : ntt (intt f) ≡ f.
Proof.
  unfold intt. rewrite ntt_scale. intros x Hx. rewrite (ntt_unntt f x Hx), times_7.
  transitivity ((toq 3303 * toq 128) * f x); [ring|]. rewrite inv_128. ring.
Qed.
Lemma intt_ntt f : intt (ntt f) ≡ f.
Proof.
  unfold intt. intros x Hx. rewrite (unntt_ntt f x Hx), times_7.
  transitivity ((toq 3303 * toq 128) * f x); [ring|]. rewrite inv_128. ring.
Qed.
Lemma unntt_proper f g : f ≡ g -> unntt f ≡ unntt g.
Proof.
  intros H. unfold unntt, layers. cbn [fold_left rev app].
  do 7 (match goal with |- bwd ?l _ ≡ _ => apply (bwd_proper l _ ltac:(lia) eq_refl) end). done.
Qed.
#[export] Instance intt_proper : Proper ((≡) ==> (≡)) intt.
Proof. intros f g H x Hx. unfold intt. by rewrite (unntt_proper f g H). Qed.
Lemma ntt_inj f g : ntt f ≡ ntt g -> f ≡ g.
Proof. intros H. by rewrite <- (intt_ntt f), H, intt_ntt. Qed.
Lemma unntt_scale a f : unntt (fun x => a * f x) ≡ (fun x => a * unntt f x).
Proof.
  apply ntt_inj. rewrite ntt_scale. intros x Hx. rewrite !(ntt_unntt _ x Hx), !times_7. ring.
Qed.
