(* ===== verification/MlkNttFacts.v ===== *)
(** * MlkNttFacts: the loops of [poly.c] compute the transform

    Each loop of [poly.c] is taken to what it does to every coefficient: the layers of both
    transforms are passes over pairs of coefficients in place, the others are pointwise. *)
From Stdlib Require Import Zmod.
From S2P Require Import Prelude Octets CInt MlkPoly MlkArith MlkNtt.

(** ** Loops *)

Lemma foldM_app {A B} (f : A -> B -> option A) l l' a : foldM f (l ++ l') a = a ← foldM f l a; foldM f l' a.
Proof. revert a. induction l as [|b l IH]; intros a; cbn; [done|]. destruct (f a b); cbn; [apply IH|done]. Qed.

Lemma coef_insert r i v : (i < length r)%nat -> coef (<[i := v]> r) i = v.
Proof. intros H. unfold coef. by rewrite nth_lookup, list_lookup_insert_eq. Qed.
Lemma coef_insert_ne r i j v : i <> j -> coef (<[i := v]> r) j = coef r j.
Proof. intros H. unfold coef. by rewrite !nth_lookup, list_lookup_insert_ne. Qed.

(** *** A pass over the pairs [(j, j + len)], block by block

    [step z r j] replaces the two entries at [j] and [j + len]; [P] is what it needs of
    them, [Q z u v u' v'] what it makes of them. *)
Section pass.
Variables (step : Z -> nat -> list Z -> nat -> option (list Z)).
Variables (P : Z -> Prop) (Q : Z -> Z -> Z -> Z -> Z -> Prop).
Variables (len : nat) (next : nat -> nat).
Hypothesis (Hlen : (0 < len)%nat).
Hypothesis (Hstep : forall k r j, (j + len < length r)%nat -> P (coef r j) -> P (coef r (j + len)) ->
  exists u v, step (zeta k) len r j = Some (<[j := u]> (<[(j + len)%nat := v]> r)) /\
    Q (zeta k) (coef r j) (coef r (j + len)) u v).

Definition pass_block (r : list Z) (k start : nat) : option (list Z) := foldM (step (zeta k) len) (seq start len) r.

Lemma pass_block_prefix k start r n : (start + 2 * len <= length r)%nat -> (n <= len)%nat ->
  (forall x, (start <= x < start + 2 * len)%nat -> P (coef r x)) ->
  exists r', foldM (step (zeta k) len) (seq start n) r = Some r' /\ length r' = length r /\
    (forall x, (start <= x < start + n)%nat -> Q (zeta k) (coef r x) (coef r (x + len)) (coef r' x) (coef r' (x + len))) /\
    (forall x, ~ (start <= x < start + n)%nat -> ~ (start + len <= x < start + len + n)%nat -> coef r' x = coef r x).
Proof using Hlen Hstep.
  intros Hr Hn HP. induction n as [|n IH].
  { exists r. split_and!; [done|done|intros; lia|done]. }
  destruct IH as (r1 & E & Hl & HQ & HR); [lia|]. rewrite seq_S, foldM_app, E. cbn [mbind option_bind foldM].
  destruct (Hstep k r1 (start + n)) as (u & v & Es & HQn).
  { lia. }
  { rewrite HR by lia. apply HP. lia. }
  { rewrite HR by lia. apply HP. lia. }
  rewrite Es. cbn [mbind option_bind]. eexists. split; [done|]. rewrite !length_insert. split; [done|].
  rewrite !HR in HQn by lia. split.
  - intros x Hx. destruct (decide (x = start + n)%nat) as [->|Hne].
    + rewrite coef_insert by (rewrite length_insert; lia). rewrite coef_insert_ne, coef_insert by lia. done.
    + rewrite !coef_insert_ne by lia. apply HQ. lia.
  - intros x H1 H2. rewrite !coef_insert_ne by lia. apply HR; lia.
Qed.

Lemma pass_block_ok k start r : (start + 2 * len <= length r)%nat ->
  (forall x, (start <= x < start + 2 * len)%nat -> P (coef r x)) ->
  exists r', pass_block r k start = Some r' /\ length r' = length r /\
    (forall x, (start <= x < start + len)%nat -> Q (zeta k) (coef r x) (coef r (x + len)) (coef r' x) (coef r' (x + len))) /\
    (forall x, ~ (start <= x < start + 2 * len)%nat -> coef r' x = coef r x).
Proof using Hlen Hstep.
  intros Hr HP. destruct (pass_block_prefix k start r len Hr (le_n _) HP) as (r' & E & Hl & HQ & HR).
  exists r'. split_and!; [done..|]. intros x Hx. apply HR; lia.
Qed.

Definition pass (r : list Z) (k0 m : nat) : option (list Z * nat) :=
  foldM (fun '(r, k) start => r ← pass_block r k start; Some (r, next k)) ((fun i => 2 * len * i)%nat <$> seq 0 m) (r, k0).

Lemma pass_ok r k0 m : (2 * len * m <= length r)%nat -> (forall x, (x < 2 * len * m)%nat -> P (coef r x)) ->
  exists r', pass r k0 m = Some (r', Nat.iter m next k0) /\ length r' = length r /\
    (forall b o, (b < m)%nat -> (o < len)%nat -> let j := (b * (2 * len) + o)%nat in
      Q (zeta (Nat.iter b next k0)) (coef r j) (coef r (j + len)) (coef r' j) (coef r' (j + len))) /\
    (forall x, (2 * len * m <= x)%nat -> coef r' x = coef r x).
Proof using Hlen Hstep.
  unfold pass. induction m as [|m IH]; intros Hm HP.
  { exists r. split_and!; [done|done|intros; lia|done]. }
  destruct IH as (r1 & E & Hl & HQ & HR); [lia|intros; apply HP; lia|]. rewrite seq_S, fmap_app, foldM_app, E. cbn [mbind option_bind foldM fmap list_fmap].
  rewrite Nat.add_0_l. destruct (pass_block_ok (Nat.iter m next k0) (2 * len * m) r1) as (r2 & E2 & Hl2 & HQ2 & HR2).
  { lia. }
  { intros x Hx. rewrite HR by lia. apply HP. lia. }
  rewrite E2. cbn [mbind option_bind]. exists r2. split_and!; [done|lia| |].
  - intros b o Hb Ho. cbv zeta. destruct (decide (b = m)) as [->|Hne].
    + specialize (HQ2 (m * (2 * len) + o)%nat ltac:(lia)). rewrite !HR in HQ2 by lia. exact HQ2.
    + rewrite !HR2 by nia. apply HQ; lia.
  - intros x Hx. rewrite HR2 by lia. apply HR. lia.
Qed.
End pass.

(** ** The table *)

Lemma zetas_within : Forall (within MLKEM_Q_HALF) mlk_zetas.
Proof. repeat (constructor; [unfold within; change MLKEM_Q_HALF with 1665; lia|]). constructor. Qed.
Lemma zeta_within k : within MLKEM_Q_HALF (zeta k).
Proof.
  unfold zeta. destruct (nth_in_or_default k mlk_zetas 0) as [Hi|E]; [|rewrite E; unfold within; change MLKEM_Q_HALF with 1665; lia].
  pose proof zetas_within as H. rewrite Forall_forall in H. exact (H _ Hi).
Qed.

(** ** What an array holds *)

Definition coeffs_of (r : list Z) : coeffs := fun x => toq (coef r x).
(** A polynomial with coefficients below a bound in absolute value. *)
Definition bounded (b : Z) (r : list Z) : Prop := length r = 256%nat /\ forall x, (x < 256)%nat -> within b (coef r x).

Lemma bounded_int16 b r x : b <= 2 ^ 15 -> bounded b r -> (x < 256)%nat -> int16 (coef r x).
Proof. intros Hb [_ H] Hx. specialize (H x Hx). unfold within, int16 in *. lia. Qed.

(** ** The forward transform *)

Definition butterfly_post (z u v u' v' : Z) : Prop :=
  toq u' = (toq u + toq z * Rinv * toq v)%q /\ toq v' = (toq u - toq z * Rinv * toq v)%q /\
  Z.abs (u' - u) < MLKEM_Q /\ Z.abs (v' - u) < MLKEM_Q.

Lemma butterfly_ok B k len r j : (0 < len)%nat -> B + MLKEM_Q <= 2 ^ 15 -> (j + len < length r)%nat ->
  within B (coef r j) -> within B (coef r (j + len)) ->
  exists u v, butterfly (zeta k) len r j = Some (<[j := u]> (<[(j + len)%nat := v]> r)) /\
    butterfly_post (zeta k) (coef r j) (coef r (j + len)) u v.
Proof.
  intros Hlen HB Hj Hu Hv. change MLKEM_Q with 3329 in HB. unfold butterfly.
  destruct (fqmul_ok (coef r (j + len)) (zeta k)) as (t & -> & Et & Ht); [unfold within, int16 in *; lia|apply zeta_within|].
  cbn [mbind option_bind]. cbv zeta. rewrite coef_insert_ne by lia. unfold within in *. change MLKEM_Q with 3329 in Ht.
  rewrite !s16_small by (unfold int16; lia). do 2 eexists. split; [done|]. unfold butterfly_post. change MLKEM_Q with 3329.
  autorewrite with toq. rewrite Et. split_and!; [ring|ring|lia|lia].
Qed.

Lemma iter_S k n : Nat.iter n (fun k => (k + 1)%nat) k = (k + n)%nat.
Proof. induction n as [|n IH]; cbn [Nat.iter nat_rect]; [lia|]. unfold Nat.iter in IH. rewrite IH. lia. Qed.
Lemma iter_pred k n : Nat.iter n (fun k => (k - 1)%nat) k = (k - n)%nat.
Proof. induction n as [|n IH]; cbn [Nat.iter nat_rect]; [lia|]. unfold Nat.iter in IH. rewrite IH. lia. Qed.

Lemma toq_root k : (toq (zeta k) * Rinv)%q = root k.
Proof. done. Qed.

(** A layer over any pair of blocks. *)
Lemma layer_blocks l n : (1 <= l <= 7)%nat -> n = (MLKEM_N / 2 ^ l)%nat -> (MLKEM_N / (2 * n) = 2 ^ (l - 1) /\ 2 * n * 2 ^ (l - 1) = 256 /\ 0 < n)%nat.
Proof.
  intros Hl Hn. destruct (layer_size l n Hl Hn) as (Hs & H0 & H2). split; [|lia].
  unfold MLKEM_N. symmetry. apply Nat.div_unique_exact; lia.
Qed.

Lemma ntt_layer_ok l B r : (1 <= l <= 7)%nat -> B + MLKEM_Q <= 2 ^ 15 -> bounded B r ->
  exists r', mlk_ntt_layer r l = Some r' /\ bounded (B + MLKEM_Q) r' /\ coeffs_of r' ≡ fwd l (coeffs_of r).
Proof.
  intros Hl HB [Hr HP]. unfold mlk_ntt_layer. cbv zeta. remember (MLKEM_N / 2 ^ l)%nat as n eqn:Hn.
  destruct (layer_blocks l n Hl Hn) as (Hm & H256 & H0). unfold starts. rewrite Hm.
  destruct (pass_ok butterfly (within B) butterfly_post n (fun k => (k + 1)%nat) H0
    (fun k r j => butterfly_ok B k n r j H0 HB) r (2 ^ (l - 1)) (2 ^ (l - 1))) as (r' & E & Hl' & HQ & _).
  { lia. }
  { intros x Hx. apply HP. lia. }
  unfold pass, pass_block in E. unfold mlk_ntt_butterfly_block. rewrite E. exists r'. split; [done|]. cbv zeta in HQ.
  change (bounded (B + MLKEM_Q) r') with (length r' = 256%nat /\ forall x, (x < 256)%nat -> within (B + MLKEM_Q) (coef r' x)).
  split; [split; [by rewrite Hl'|]|].
  - intros x Hx. destruct (index_cases l n Hl Hn x Hx) as (b & o & Ho & Hb & Ex).
    destruct (HQ b o Hb Ho) as (_ & _ & B1 & B2). pose proof (HP (b * (2 * n) + o)%nat ltac:(nia)) as Hw. unfold within in *.
    destruct Ex as [-> | ->]; lia.
  - intros x Hx. destruct (index_cases l n Hl Hn x Hx) as (b & o & Ho & Hb & Ex).
    destruct (HQ b o Hb Ho) as (E1 & E2 & _). rewrite iter_S in E1, E2. unfold coeffs_of.
    destruct Ex as [-> | ->]; [rewrite (fwd_low l n Hl Hn) by done|rewrite (fwd_high l n Hl Hn) by done]; done.
Qed.

Definition MLK_NTT_BOUND : Z := 8 * MLKEM_Q.

Lemma fwd_of l f g : (1 <= l <= 7)%nat -> f ≡ g -> fwd l f ≡ fwd l g.
Proof. intros Hl. exact (fwd_proper l _ Hl eq_refl f g). Qed.
Lemma bwd_of l f g : (1 <= l <= 7)%nat -> f ≡ g -> bwd l f ≡ bwd l g.
Proof. intros Hl. exact (bwd_proper l _ Hl eq_refl f g). Qed.

Lemma ntt_layers_ok ls B r : Forall (fun l => 1 <= l <= 7)%nat ls -> B + Z.of_nat (length ls) * MLKEM_Q <= 2 ^ 15 -> bounded B r ->
  exists r', foldM mlk_ntt_layer ls r = Some r' /\ bounded (B + Z.of_nat (length ls) * MLKEM_Q) r' /\
    forall f, coeffs_of r ≡ f -> coeffs_of r' ≡ fold_left (fun f l => fwd l f) ls f.
Proof.
  intros Hls. revert B r. induction Hls as [|l ls Hl _ IH]; intros B r HB Hr; cbn [foldM fold_left length].
  - exists r. replace (B + Z.of_nat 0 * MLKEM_Q) with B by lia. done.
  - cbn [length] in HB. assert (0 < MLKEM_Q) by done.
    destruct (ntt_layer_ok l B r Hl ltac:(nia) Hr) as (r1 & -> & Hr1 & E1). cbn [mbind option_bind].
    destruct (IH (B + MLKEM_Q) r1 ltac:(lia) Hr1) as (r2 & -> & Hr2 & E2). exists r2. split; [done|].
    split; [by replace (B + Z.of_nat (S (length ls)) * MLKEM_Q) with (B + MLKEM_Q + Z.of_nat (length ls) * MLKEM_Q) by lia|].
    intros f Hf. apply E2. rewrite E1. by apply fwd_of.
Qed.

Lemma poly_ntt_ok r : bounded MLKEM_Q r ->
  exists r', mlk_poly_ntt r = Some r' /\ bounded MLK_NTT_BOUND r' /\ coeffs_of r' ≡ ntt (coeffs_of r).
Proof.
  intros Hr. destruct (ntt_layers_ok layers MLKEM_Q r) as (r' & E & Hb & Hc); [repeat constructor|by vm_compute|done|].
  exists r'. split; [exact E|]. split; [exact Hb|by apply Hc].
Qed.

(** ** Pointwise loops *)

Lemma mapM_app {A B} (f : A -> option B) l l' : mapM f (l ++ l') = x ← mapM f l; y ← mapM f l'; Some (x ++ y).
Proof.
  induction l as [|a l IH]; cbn [app mapM mbind option_bind mret option_ret]; [by destruct (mapM f l')|].
  destruct (f a) as [b|]; cbn [mbind option_bind]; [|done]. rewrite IH. destruct (mapM f l), (mapM f l'); done.
Qed.

Lemma mapM_ok {A B} (f : A -> option B) (R : A -> B -> Prop) l : Forall (fun x => exists y, f x = Some y /\ R x y) l ->
  exists l', mapM f l = Some l' /\ Forall2 R l l'.
Proof.
  induction 1 as [|x l (y & E & HR) _ (l' & El & H2)]; [by exists []|]. exists (y :: l'). cbn [mapM]. by rewrite E, El; split; [|constructor].
Qed.

Lemma Forall_coef (P : Z -> Prop) r : Forall P r <-> forall x, (x < length r)%nat -> P (coef r x).
Proof.
  rewrite list.Forall_lookup. unfold coef. setoid_rewrite nth_lookup. split.
  - intros H x Hx. destruct (lookup_lt_is_Some_2 r x Hx) as [v E]. rewrite E. exact (H x v E).
  - intros H x v E. specialize (H x (lookup_lt_Some _ _ _ E)). by rewrite E in H.
Qed.
Lemma Forall2_coef (R : Z -> Z -> Prop) r s : Forall2 R r s -> length r = length s /\ forall x, (x < length r)%nat -> R (coef r x) (coef s x).
Proof.
  intros H. split; [by eapply list.Forall2_length|]. intros x Hx. unfold coef. rewrite !nth_lookup.
  destruct (lookup_lt_is_Some_2 r x Hx) as [v E]. destruct (list.Forall2_lookup_l _ _ _ _ _ H E) as (w & E2 & HR). by rewrite E, E2.
Qed.

(** A loop over all coefficients. *)
Lemma pointwise_ok (f : Z -> option Z) (P : Z -> Prop) (R : Z -> Z -> Prop) r : length r = 256%nat ->
  (forall x, (x < 256)%nat -> P (coef r x)) -> (forall c, P c -> exists y, f c = Some y /\ R c y) ->
  exists r', mapM f r = Some r' /\ length r' = 256%nat /\ forall x, (x < 256)%nat -> R (coef r x) (coef r' x).
Proof.
  intros Hr HP Hf. destruct (mapM_ok f R r) as (r' & E & H2).
  - apply Forall_coef. intros x Hx. apply Hf, HP. lia.
  - apply Forall2_coef in H2 as [Hl HR]. exists r'. rewrite <- Hl, Hr. split_and!; [done..|]. intros x Hx. apply HR. lia.
Qed.

Lemma poly_tomont_ok r : bounded (2 ^ 15) r ->
  exists r', mlk_poly_tomont r = Some r' /\ bounded MLKEM_Q r' /\ coeffs_of r' ≡ (fun x => (toq (2 ^ 16) * coeffs_of r x)%q).
Proof.
  intros [Hl Hr]. destruct (pointwise_ok (fun c => mlk_fqmul c 1353) int16
    (fun c y => toq y = (toq (2 ^ 16) * toq c)%q /\ within MLKEM_Q y) r Hl) as (r' & E & Hl' & HR).
  - intros x Hx. specialize (Hr x Hx). unfold within, int16 in *. lia.
  - intros c Hc. destruct (fqmul_ok c 1353 Hc) as (y & E & Ey & Hy); [unfold within; change MLKEM_Q_HALF with 1665; lia|].
    exists y. split_and!; [done| |done]. rewrite Ey. replace (toq 1353) with (toq (2 ^ 16) * toq (2 ^ 16))%q.
    + transitivity (toq (2 ^ 16) * toq c * (toq (2 ^ 16) * Rinv))%q; [ring|]. rewrite R_Rinv. ring.
    + rewrite <- toq_mul. apply toq_eq. reflexivity.
  - exists r'. split; [exact E|]. split; [split; [done|intros x Hx; apply HR, Hx]|]. intros x Hx. unfold coeffs_of. apply HR, Hx.
Qed.

(** The canonical representatives. *)
Definition canonical (r : list Z) : Prop := length r = 256%nat /\ forall x, (x < 256)%nat -> 0 <= coef r x < MLKEM_Q.

Lemma poly_reduce_ok r : bounded (2 ^ 15) r ->
  exists r', mlk_poly_reduce r = Some r' /\ canonical r' /\ coeffs_of r' ≡ coeffs_of r.
Proof.
  intros [Hl Hr]. destruct (pointwise_ok (fun c => t ← mlk_barrett_reduce c; Some (mlk_scalar_signed_to_unsigned_q t)) int16
    (fun c y => toq y = toq c /\ 0 <= y < MLKEM_Q) r Hl) as (r' & E & Hl' & HR).
  - intros x Hx. specialize (Hr x Hx). unfold within, int16 in *. lia.
  - intros c Hc. destruct (barrett_reduce_ok c Hc) as (t & -> & Et & Ht). cbn [mbind option_bind].
    rewrite signed_to_unsigned_ok by (unfold within in *; change MLKEM_Q_HALF with 1665 in Ht; change MLKEM_Q with 3329; lia).
    eexists. split; [done|]. rewrite <- Et. split; [apply toq_eq; by rewrite Z.mod_mod|apply Z.mod_pos_bound; done].
  - exists r'. split; [exact E|]. split; [split; [done|intros x Hx; apply HR, Hx]|]. intros x Hx. unfold coeffs_of. apply HR, Hx.
Qed.

Lemma coef_zip_with f r s x : (x < length r)%nat -> (x < length s)%nat -> coef (zip_with f r s) x = f (coef r x) (coef s x).
Proof.
  intros Hr Hs. unfold coef. rewrite !nth_lookup, lookup_zip_with.
  destruct (lookup_lt_is_Some_2 r x Hr) as [a ->], (lookup_lt_is_Some_2 s x Hs) as [b ->]. done.
Qed.

Lemma poly_add_ok B C r s : B + C <= 2 ^ 15 -> bounded B r -> bounded C s ->
  bounded (B + C) (mlk_poly_add r s) /\ coeffs_of (mlk_poly_add r s) ≡ cadd (coeffs_of r) (coeffs_of s).
Proof.
  intros HBC [Hr Br] [Hs Bs]. unfold mlk_poly_add.
  assert (forall x, (x < 256)%nat -> coef (zip_with (fun r b => s16 (r + b)) r s) x = coef r x + coef s x) as Hc.
  { intros x Hx. rewrite coef_zip_with by lia. specialize (Br x Hx). specialize (Bs x Hx). unfold within in *. apply s16_small. unfold int16. lia. }
  split; [split; [rewrite length_zip_with; lia|]|].
  - intros x Hx. rewrite Hc by done. specialize (Br x Hx). specialize (Bs x Hx). unfold within in *. lia.
  - intros x Hx. unfold coeffs_of, cadd. by rewrite Hc, toq_add.
Qed.
Lemma poly_sub_ok B C r s : B + C <= 2 ^ 15 -> bounded B r -> bounded C s ->
  bounded (B + C) (mlk_poly_sub r s) /\ coeffs_of (mlk_poly_sub r s) ≡ csub (coeffs_of r) (coeffs_of s).
Proof.
  intros HBC [Hr Br] [Hs Bs]. unfold mlk_poly_sub.
  assert (forall x, (x < 256)%nat -> coef (zip_with (fun r b => s16 (r - b)) r s) x = coef r x - coef s x) as Hc.
  { intros x Hx. rewrite coef_zip_with by lia. specialize (Br x Hx). specialize (Bs x Hx). unfold within in *. apply s16_small. unfold int16. lia. }
  split; [split; [rewrite length_zip_with; lia|]|].
  - intros x Hx. rewrite Hc by done. specialize (Br x Hx). specialize (Bs x Hx). unfold within in *. lia.
  - intros x Hx. unfold coeffs_of, csub. by rewrite Hc, toq_sub.
Qed.

(** ** The inverse transform *)

Definition inv_butterfly_post (z u v u' v' : Z) : Prop :=
  toq u' = (toq u + toq v)%q /\ toq v' = ((toq v - toq u) * (toq z * Rinv))%q /\ within MLKEM_Q u' /\ within MLKEM_Q v'.

Lemma inv_butterfly_ok k len r j : (0 < len)%nat -> (j + len < length r)%nat ->
  within MLKEM_Q (coef r j) -> within MLKEM_Q (coef r (j + len)) ->
  exists u v, inv_butterfly (zeta k) len r j = Some (<[j := u]> (<[(j + len)%nat := v]> r)) /\
    inv_butterfly_post (zeta k) (coef r j) (coef r (j + len)) u v.
Proof.
  intros Hlen Hj. unfold within. change MLKEM_Q with 3329. intros Hu Hv. unfold inv_butterfly. cbv zeta.
  rewrite s16_small by (unfold int16; lia).
  destruct (barrett_reduce_ok (coef r j + coef r (j + len))) as (u & -> & Eu & Bu); [unfold int16; lia|]. cbn [mbind option_bind].
  rewrite coef_insert by (rewrite length_insert; lia). rewrite coef_insert_ne, s16_small by (unfold int16; lia).
  destruct (fqmul_ok (coef r (j + len) - coef r j) (zeta k)) as (v & -> & Ev & Bv); [unfold int16; lia|apply zeta_within|].
  cbn [mbind option_bind]. exists u, v. rewrite list_insert_insert_eq, list_insert_insert_ne by lia. split; [done|].
  unfold inv_butterfly_post. rewrite Eu, Ev. autorewrite with toq. unfold within in *. change MLKEM_Q_HALF with 1665 in Bu.
  change MLKEM_Q with 3329 in *. split_and!; try lia; ring.
Qed.

Lemma invntt_layer_ok l r : (1 <= l <= 7)%nat -> bounded MLKEM_Q r ->
  exists r', mlk_invntt_layer r l = Some r' /\ bounded MLKEM_Q r' /\ coeffs_of r' ≡ bwd l (coeffs_of r).
Proof.
  intros Hl [Hr HP]. unfold mlk_invntt_layer. cbv zeta. remember (MLKEM_N / 2 ^ l)%nat as n eqn:Hn.
  destruct (layer_blocks l n Hl Hn) as (Hm & H256 & H0). unfold starts. rewrite Hm.
  destruct (pass_ok inv_butterfly (within MLKEM_Q) inv_butterfly_post n (fun k => (k - 1)%nat) H0
    (fun k r j => inv_butterfly_ok k n r j H0) r (2 ^ l - 1) (2 ^ (l - 1))) as (r' & E & Hl' & HQ & _).
  { lia. }
  { intros x Hx. apply HP. lia. }
  unfold pass, pass_block in E. rewrite E. exists r'. split; [done|]. cbv zeta in HQ.
  split; [split; [by rewrite Hl'|]|].
  - intros x Hx. destruct (index_cases l n Hl Hn x Hx) as (b & o & Ho & Hb & Ex).
    destruct (HQ b o Hb Ho) as (_ & _ & B1 & B2). destruct Ex as [-> | ->]; done.
  - intros x Hx. destruct (index_cases l n Hl Hn x Hx) as (b & o & Ho & Hb & Ex).
    destruct (HQ b o Hb Ho) as (E1 & E2 & _). rewrite iter_pred in E2. unfold coeffs_of.
    destruct Ex as [-> | ->]; [rewrite (bwd_low l n Hl Hn) by done|rewrite (bwd_high l n Hl Hn) by done]; done.
Qed.

Lemma invntt_layers_ok ls r : Forall (fun l => 1 <= l <= 7)%nat ls -> bounded MLKEM_Q r ->
  exists r', foldM mlk_invntt_layer ls r = Some r' /\ bounded MLKEM_Q r' /\
    forall f, coeffs_of r ≡ f -> coeffs_of r' ≡ fold_left (fun f l => bwd l f) ls f.
Proof.
  intros Hls. revert r. induction Hls as [|l ls Hl _ IH]; intros r Hr; cbn [foldM fold_left].
  - by exists r.
  - destruct (invntt_layer_ok l r Hl Hr) as (r1 & -> & Hr1 & E1). cbn [mbind option_bind].
    destruct (IH r1 Hr1) as (r2 & -> & Hr2 & E2). exists r2. split_and!; [done..|].
    intros f Hf. apply E2. rewrite E1. by apply bwd_of.
Qed.

(** The inverse transform, times 2^16: it undoes a Montgomery factor. *)
Lemma poly_invntt_tomont_ok r : bounded (2 ^ 15) r ->
  exists r', mlk_poly_invntt_tomont r = Some r' /\ bounded MLKEM_Q r' /\ coeffs_of r' ≡ intt (fun x => (toq (2 ^ 16) * coeffs_of r x)%q).
Proof.
  intros [Hl Hr]. unfold mlk_poly_invntt_tomont. cbv zeta.
  destruct (pointwise_ok (fun c => mlk_fqmul c 1441) int16
    (fun c y => toq y = (toq 3303 * (toq (2 ^ 16) * toq c))%q /\ within MLKEM_Q y) r Hl) as (r1 & E1 & Hl1 & HR).
  - intros x Hx. specialize (Hr x Hx). unfold within, int16 in *. lia.
  - intros c Hc. destruct (fqmul_ok c 1441 Hc) as (y & E & Ey & Hy); [unfold within; change MLKEM_Q_HALF with 1665; lia|].
    exists y. split_and!; [done| |done]. rewrite Ey. replace (toq 1441) with (toq 3303 * toq (2 ^ 16) * toq (2 ^ 16))%q.
    + transitivity (toq 3303 * (toq (2 ^ 16) * toq c) * (toq (2 ^ 16) * Rinv))%q; [ring|]. rewrite R_Rinv. ring.
    + rewrite <- !toq_mul. apply toq_eq. reflexivity.
  - rewrite E1. cbn [mbind option_bind].
    destruct (invntt_layers_ok (rev layers) r1) as (r' & E & Hb & Hc); [repeat constructor|split; [done|intros x Hx; apply HR, Hx]|].
    exists r'. split; [exact E|]. split; [exact Hb|].
    rewrite (Hc (fun x => (toq 3303 * (toq (2 ^ 16) * coeffs_of r x))%q)) by (intros x Hx; apply HR, Hx).
    apply unntt_scale.
Qed.

(** ** Multiplication *)

(** A loop that writes a pair of coefficients each time. *)
Lemma pairs_ok (f : nat -> option (list Z)) (R : nat -> Z -> Z -> Prop) m :
  (forall i, (i < m)%nat -> exists a b, f i = Some [a; b] /\ R i a b) ->
  exists r, @concat Z <$> mapM f (seq 0 m) = Some r /\ length r = (2 * m)%nat /\
    forall i, (i < m)%nat -> R i (coef r (2 * i)) (coef r (2 * i + 1)).
Proof.
  intros H. assert (exists l, mapM f (seq 0 m) = Some l /\ length (concat l) = (2 * m)%nat /\
    forall i, (i < m)%nat -> R i (coef (concat l) (2 * i)) (coef (concat l) (2 * i + 1))) as (l & E & Hl & HR).
  2: { exists (concat l). by rewrite E. }
  induction m as [|m IH]; [exists []; split_and!; [done|done|lia]|]. destruct IH as (l & E & Hl & HR); [intros; apply H; lia|].
  destruct (H m ltac:(lia)) as (a & b & Ef & Hab). exists (l ++ [[a; b]]). rewrite seq_S, concat_app.
  split.
  - rewrite mapM_app, E. cbn [mbind option_bind mapM Nat.add]. by rewrite Ef.
  - rewrite length_app, Hl. cbn [concat app length]. split; [lia|]. intros i Hi.
    assert (forall x, (x < 2 * m)%nat -> coef (concat l ++ [a; b]) x = coef (concat l) x) as Hc.
    { intros x Hx. unfold coef. apply app_nth1. lia. }
    destruct (decide (i = m)) as [->|].
    + unfold coef. rewrite !app_nth2 by lia. rewrite Hl, Nat.sub_diag. by replace (2 * m + 1 - 2 * m)%nat with 1%nat by lia.
    + rewrite !Hc by lia. apply HR. lia.
Qed.

(** The cache: what the second coefficient is multiplied with. *)
Definition cache_of (c a : list Z) : Prop := length c = 128%nat /\ forall b, (b < 128)%nat ->
  toq (coef c b) = (toq (coef a (2 * b + 1)) * gamma b)%q /\ within MLKEM_Q (coef c b).

Lemma gamma_even i : gamma (2 * i) = root (64 + i).
Proof.
  unfold gamma. cbn [rho]. destruct (even_pair i) as (-> & _ & -> & _). done.
Qed.
Lemma gamma_odd i : gamma (2 * i + 1) = (- root (64 + i))%q.
Proof.
  unfold gamma. cbn [rho]. destruct (even_pair i) as (_ & -> & _ & ->). done.
Qed.

Lemma poly_mulcache_ok a : bounded (2 ^ 15) a -> exists c, mlk_poly_mulcache_compute a = Some c /\ cache_of c a.
Proof.
  intros Ha. pose proof (fun x => bounded_int16 _ a x (Z.le_refl _) Ha) as Hi. unfold mlk_poly_mulcache_compute.
  destruct (pairs_ok (fun i =>
    x0 ← mlk_fqmul (coef a (4 * i + 1)) (zeta (64 + i));
    x1 ← mlk_fqmul (coef a (4 * i + 3)) (s16 (- zeta (64 + i))); Some [x0; x1])
    (fun i x y => (toq x = toq (coef a (4 * i + 1)) * root (64 + i) /\ toq y = - (toq (coef a (4 * i + 3)) * root (64 + i)))%q /\
      within MLKEM_Q x /\ within MLKEM_Q y) (MLKEM_N / 4)) as (c & E & Hl & HR).
  - change (MLKEM_N / 4)%nat with 64%nat. intros i Hib. pose proof (zeta_within (64 + i)) as Hz.
    destruct (fqmul_ok (coef a (4 * i + 1)) (zeta (64 + i))) as (x & -> & Ex & Bx); [apply Hi; lia|done|].
    rewrite s16_small by (unfold within, int16 in *; change MLKEM_Q_HALF with 1665 in Hz; lia).
    destruct (fqmul_ok (coef a (4 * i + 3)) (- zeta (64 + i))) as (y & -> & Ey & By); [apply Hi; lia|unfold within in *; lia|].
    cbn [mbind option_bind]. exists x, y. rewrite Ex, Ey, <- toq_root, toq_opp. split_and!; [done|ring|ring|done|done].
  - exists c. split; [exact E|]. split; [exact Hl|].
    assert (forall i, (i < 64)%nat -> (fun b => toq (coef c b) = (toq (coef a (2 * b + 1)) * gamma b)%q /\ within MLKEM_Q (coef c b)) (2 * i)%nat /\
      (fun b => toq (coef c b) = (toq (coef a (2 * b + 1)) * gamma b)%q /\ within MLKEM_Q (coef c b)) (2 * i + 1)%nat) as H.
    { intros i Hib. destruct (HR i Hib) as [[E0 E1] [B0 B1]]. rewrite gamma_even, gamma_odd, E0, E1.
      replace (2 * (2 * i) + 1)%nat with (4 * i + 1)%nat by lia. replace (2 * (2 * i + 1) + 1)%nat with (4 * i + 3)%nat by lia.
      split_and!; [done|done|ring|done]. }
    intros b Hb. destruct (H (b / 2)%nat) as [H0 H1]; [apply Nat.Div0.div_lt_upper_bound; lia|].
    pose proof (Nat.div_mod_eq b 2) as Eb. pose proof (Nat.mod_upper_bound b 2).
    destruct (decide (b mod 2 = 0)%nat); [replace (2 * (b / 2))%nat with b in H0 by lia; exact H0|
      replace (2 * (b / 2) + 1)%nat with b in H1 by lia; exact H1].
Qed.

(** The scalar product of two vectors of transforms. *)
Definition cdot (f g : nat -> coeffs) : coeffs := fun x => sum MLKEM_K (fun k => base_mul (f k) (g k) x).
Definition vec_of (a : list (list Z)) : nat -> coeffs := fun k => coeffs_of (pvec a k).

(** A value below [UINT12_LIMIT], as [mlk_poly_frombytes] makes them. *)
Definition uint12 (r : list Z) : Prop := length r = 256%nat /\ forall x, (x < 256)%nat -> 0 <= coef r x < MLKEM_UINT12_LIMIT.

Lemma mul_acc_ok B t x y : 0 <= x < MLKEM_UINT12_LIMIT -> int16 y -> Z.abs t <= B -> B + 4095 * 2 ^ 15 < 2 ^ 31 ->
  mul_acc t x y = Some (t + x * y) /\ Z.abs (t + x * y) <= B + 4095 * 2 ^ 15.
Proof.
  unfold int16, MLKEM_UINT12_LIMIT, mul_acc. intros Hx Hy Ht HB. assert (Z.abs (x * y) <= 4095 * 2 ^ 15) by nia.
  rewrite (signed32_small (x * y)) by lia. cbn [mbind option_bind]. rewrite signed32_small by lia. split; [done|lia].
Qed.

Lemma basemul_step_ok a b c i k t0 t1 B : (i < 128)%nat -> uint12 (pvec a k) -> bounded (2 ^ 15) (pvec b k) -> cache_of (pvec c k) (pvec b k) ->
  Z.abs t0 <= B -> Z.abs t1 <= B -> B + 2 * 4095 * 2 ^ 15 < 2 ^ 31 ->
  exists t0' t1', basemul_step a b c i (t0, t1) k = Some (t0', t1') /\
    toq t0' = (toq t0 + base_mul (vec_of a k) (vec_of b k) (2 * i)%nat)%q /\
    toq t1' = (toq t1 + base_mul (vec_of a k) (vec_of b k) (2 * i + 1)%nat)%q /\
    Z.abs t0' <= B + 2 * 4095 * 2 ^ 15 /\ Z.abs t1' <= B + 2 * 4095 * 2 ^ 15.
Proof.
  intros Hi [_ Ha] Hb [_ Hc] H0 H1 HB. pose proof (fun x => bounded_int16 _ _ x (Z.le_refl _) Hb) as Hbi.
  destruct (Hc i Hi) as [Ec Bc]. assert (int16 (coef (pvec c k) i)) as Hci by (unfold within, int16 in *; change MLKEM_Q with 3329 in Bc; lia).
  pose proof (Ha (2 * i)%nat ltac:(lia)) as A0. pose proof (Ha (2 * i + 1)%nat ltac:(lia)) as A1.
  pose proof (Hbi (2 * i)%nat ltac:(lia)) as B0. pose proof (Hbi (2 * i + 1)%nat ltac:(lia)) as B1.
  unfold basemul_step.
  destruct (mul_acc_ok B t0 _ _ A1 Hci H0 ltac:(lia)) as [-> H2]. cbn [mbind option_bind].
  destruct (mul_acc_ok _ _ _ _ A0 B0 H2 ltac:(lia)) as [-> H3]. cbn [mbind option_bind].
  destruct (mul_acc_ok B t1 _ _ A0 B1 H1 ltac:(lia)) as [-> H4]. cbn [mbind option_bind].
  destruct (mul_acc_ok _ _ _ _ A1 B0 H4 ltac:(lia)) as [-> H5]. cbn [mbind option_bind].
  do 2 eexists. split; [done|]. unfold base_mul, vec_of, coeffs_of. destruct (even_pair i) as (-> & -> & -> & ->).
  autorewrite with toq. rewrite Ec. split_and!; [ring|ring|lia|lia].
Qed.

(** A vector of [MLKEM_K] polynomials. *)
Definition polyvec (P : list Z -> Prop) (a : list (list Z)) : Prop := length a = MLKEM_K /\ forall k, (k < MLKEM_K)%nat -> P (pvec a k).
Definition caches_of (c b : list (list Z)) : Prop := forall k, (k < MLKEM_K)%nat -> cache_of (pvec c k) (pvec b k).

Lemma basemul_loop_ok a b c i n : (i < 128)%nat -> (n <= MLKEM_K)%nat -> polyvec uint12 a -> polyvec (bounded (2 ^ 15)) b -> caches_of c b ->
  exists t0 t1, foldM (basemul_step a b c i) (seq 0 n) (0, 0) = Some (t0, t1) /\
    toq t0 = sum n (fun k => base_mul (vec_of a k) (vec_of b k) (2 * i)%nat) /\
    toq t1 = sum n (fun k => base_mul (vec_of a k) (vec_of b k) (2 * i + 1)%nat) /\
    Z.abs t0 <= Z.of_nat n * (2 * 4095 * 2 ^ 15) /\ Z.abs t1 <= Z.of_nat n * (2 * 4095 * 2 ^ 15).
Proof.
  intros Hi Hn [_ Ha] [_ Hb] Hc. induction n as [|n IH].
  { exists 0, 0. split_and!; [done|apply toq_0|apply toq_0|lia|lia]. }
  destruct IH as (t0 & t1 & E & E0 & E1 & B0 & B1); [lia|]. rewrite seq_S, foldM_app, E. cbn [mbind option_bind Nat.add foldM sum].
  unfold MLKEM_K in *.
  destruct (basemul_step_ok a b c i n t0 t1 _ Hi (Ha n ltac:(lia)) (Hb n ltac:(lia)) (Hc n ltac:(unfold MLKEM_K; lia)) B0 B1 ltac:(lia))
    as (t0' & t1' & -> & E0' & E1' & B0' & B1').
  cbn [mbind option_bind]. exists t0', t1'. rewrite E0', E1', E0, E1. split_and!; [done..|lia|lia].
Qed.

Lemma basemul_ok a b c : polyvec uint12 a -> polyvec (bounded (2 ^ 15)) b -> caches_of c b ->
  exists r, mlk_polyvec_basemul_acc_montgomery_cached a b c = Some r /\ bounded (2 ^ 15) r /\
    (fun x => toq (2 ^ 16) * coeffs_of r x)%q ≡ cdot (vec_of a) (vec_of b).
Proof.
  intros Ha Hb Hc. unfold mlk_polyvec_basemul_acc_montgomery_cached.
  destruct (pairs_ok (fun i =>
    '(t0, t1) ← foldM (basemul_step a b c i) (seq 0 MLKEM_K) (0, 0);
    r0 ← mlk_montgomery_reduce t0; r1 ← mlk_montgomery_reduce t1; Some [r0; r1])
    (fun i x y => (toq (2 ^ 16) * toq x = cdot (vec_of a) (vec_of b) (2 * i)%nat /\
      toq (2 ^ 16) * toq y = cdot (vec_of a) (vec_of b) (2 * i + 1)%nat)%q /\ within (2 ^ 15) x /\ within (2 ^ 15) y)
    (MLKEM_N / 2)) as (r & E & Hl & HR).
  - change (MLKEM_N / 2)%nat with 128%nat. intros i Hi.
    destruct (basemul_loop_ok a b c i MLKEM_K Hi (le_n _) Ha Hb Hc) as (t0 & t1 & -> & E0 & E1 & B0 & B1). cbn [mbind option_bind].
    change (Z.of_nat MLKEM_K) with 3 in *.
    destruct (montgomery_reduce_ok t0) as (x & -> & Ex & _ & Bx); [change MLKEM_Q with 3329; lia|]. cbn [mbind option_bind].
    destruct (montgomery_reduce_ok t1) as (y & -> & Ey & _ & By); [change MLKEM_Q with 3329; lia|]. cbn [mbind option_bind].
    exists x, y. split; [done|]. change MLKEM_Q with 3329 in *. unfold cdot. rewrite Ex, Ey, E0, E1.
    split; [|unfold within; lia].
    assert (forall s, toq (2 ^ 16) * (s * Rinv) = s)%q as HRi.
    { intros s. transitivity (s * (toq (2 ^ 16) * Rinv))%q; [ring|]. rewrite R_Rinv. ring. }
    by rewrite !HRi.
  - exists r. split; [exact E|]. split; [split; [exact Hl|]|].
    + apply index_pair. intros i Hi. by destruct (HR i Hi) as [_ H].
    + unfold equiv, coeffs_equiv. apply index_pair. intros i Hi. by destruct (HR i Hi) as [H _].
Qed.
