(* ===== verification/MlkCodec.v ===== *)
(** * MlkCodec: polynomials as octets ([compress.h], [compress.c], [poly_k.c])

    Each loop of the code writes or reads a few octets for a few coefficients; a fresh array
    is the list of what the iterations write, in order.  [d5] and [d11] are for ML-KEM-1024:
    of them the build has the scalar functions only, the others are modelled as well. *)
From S2P Require Import Prelude Octets CInt MlkPoly.

Local Notation "a <<< n" := (Z.shiftl a n) (at level 54, left associativity).
Local Notation "a >>> n" := (Z.shiftr a n) (at level 54, left associativity).

(** ** [compress.h] *)

Definition mlk_scalar_compress_d1 (u : Z) : Z :=
  let d0 := u32 (u * 1290168) in
  u8 (u32 (d0 + Z.shiftl 1 30) >>> 31).
Definition mlk_scalar_compress_d4 (u : Z) : Z :=
  let d0 := u32 (u * 1290160) in
  u8 (u32 (d0 + Z.shiftl 1 27) >>> 28).
Definition mlk_scalar_decompress_d4 (u : Z) : Z := s16 (u32 (u32 (u * MLKEM_Q) + 8) >>> 4).
Definition mlk_scalar_compress_d5 (u : Z) : Z :=
  let d0 := u32 (u * 1290176) in
  u8 (u32 (d0 + Z.shiftl 1 26) >>> 27).
Definition mlk_scalar_decompress_d5 (u : Z) : Z := s16 (u32 (u32 (u * MLKEM_Q) + 16) >>> 5).
Definition mlk_scalar_compress_d10 (u : Z) : Z :=
  let d0 := u64 (u * 2642263040) in
  let d0 := u64 (d0 + Z.shiftl 1 32) >>> 33 in
  u16 (Z.land d0 0x3FF).
Definition mlk_scalar_decompress_d10 (u : Z) : Z := s16 (u32 (u32 (u * MLKEM_Q) + 512) >>> 10).
Definition mlk_scalar_compress_d11 (u : Z) : Z :=
  let d0 := u64 (u * 5284526080) in
  let d0 := u64 (d0 + Z.shiftl 1 32) >>> 33 in
  u16 (Z.land d0 0x7FF).
Definition mlk_scalar_decompress_d11 (u : Z) : Z := s16 (u32 (u32 (u * MLKEM_Q) + 1024) >>> 11).

(** ** [compress.c] *)

(** [for (k = 0; k < n; k++) t[k] = f(a->coeffs[n * j + k]);] *)
Definition gather (f : Z -> Z) (a : list Z) (n j : nat) : list Z := (fun k => f (coef a (n * j + k))) <$> seq 0 n.

Definition mlk_poly_compress_d4 (a : mlk_poly) : bytes :=
  flat_map (fun i =>
    let t := coef (gather mlk_scalar_compress_d4 a 8 i) in
    [byte_of_Z (Z.lor (t 0%nat) (t 1%nat <<< 4)); byte_of_Z (Z.lor (t 2%nat) (t 3%nat <<< 4));
     byte_of_Z (Z.lor (t 4%nat) (t 5%nat <<< 4)); byte_of_Z (Z.lor (t 6%nat) (t 7%nat <<< 4))]) (seq 0 (MLKEM_N / 8)).

Definition mlk_poly_compress_d10 (a : mlk_poly) : bytes :=
  flat_map (fun j =>
    let t := coef (gather mlk_scalar_compress_d10 a 4 j) in
    [byte_of_Z (Z.land (t 0%nat >>> 0) 0xFF);
     byte_of_Z (Z.lor (t 0%nat >>> 8) (Z.land (t 1%nat <<< 2) 0xFF));
     byte_of_Z (Z.lor (t 1%nat >>> 6) (Z.land (t 2%nat <<< 4) 0xFF));
     byte_of_Z (Z.lor (t 2%nat >>> 4) (Z.land (t 3%nat <<< 6) 0xFF));
     byte_of_Z (t 3%nat >>> 2)]) (seq 0 (MLKEM_N / 4)).

Definition mlk_poly_decompress_d4 (a : bytes) : mlk_poly :=
  flat_map (fun i =>
    [mlk_scalar_decompress_d4 (Z.land (octet_at a i >>> 0) 0xF); mlk_scalar_decompress_d4 (Z.land (octet_at a i >>> 4) 0xF)])
    (seq 0 (MLKEM_N / 2)).

Definition mlk_poly_decompress_d10 (a : bytes) : mlk_poly :=
  flat_map (fun j =>
    let base k := octet_at a (5 * j + k) in
    mlk_scalar_decompress_d10 <$>
      [Z.land 0x3FF (Z.lor (base 0%nat >>> 0) (base 1%nat <<< 8));
       Z.land 0x3FF (Z.lor (base 1%nat >>> 2) (base 2%nat <<< 6));
       Z.land 0x3FF (Z.lor (base 2%nat >>> 4) (base 3%nat <<< 4));
       Z.land 0x3FF (Z.lor (base 3%nat >>> 6) (base 4%nat <<< 2))]) (seq 0 (MLKEM_N / 4)).

Definition mlk_poly_compress_d5 (a : mlk_poly) : bytes :=
  flat_map (fun i =>
    let t := coef (gather mlk_scalar_compress_d5 a 8 i) in
    [byte_of_Z (Z.land 0xFF (Z.lor (t 0%nat >>> 0) (t 1%nat <<< 5)));
     byte_of_Z (Z.land 0xFF (Z.lor (Z.lor (t 1%nat >>> 3) (t 2%nat <<< 2)) (t 3%nat <<< 7)));
     byte_of_Z (Z.land 0xFF (Z.lor (t 3%nat >>> 1) (t 4%nat <<< 4)));
     byte_of_Z (Z.land 0xFF (Z.lor (Z.lor (t 4%nat >>> 4) (t 5%nat <<< 1)) (t 6%nat <<< 6)));
     byte_of_Z (Z.land 0xFF (Z.lor (t 6%nat >>> 2) (t 7%nat <<< 3)))]) (seq 0 (MLKEM_N / 8)).

Definition mlk_poly_compress_d11 (a : mlk_poly) : bytes :=
  flat_map (fun j =>
    let t := coef (gather mlk_scalar_compress_d11 a 8 j) in
    [byte_of_Z (Z.land (t 0%nat >>> 0) 0xFF);
     byte_of_Z (Z.lor (t 0%nat >>> 8) (Z.land (t 1%nat <<< 3) 0xFF));
     byte_of_Z (Z.lor (t 1%nat >>> 5) (Z.land (t 2%nat <<< 6) 0xFF));
     byte_of_Z (Z.land (t 2%nat >>> 2) 0xFF);
     byte_of_Z (Z.lor (t 2%nat >>> 10) (Z.land (t 3%nat <<< 1) 0xFF));
     byte_of_Z (Z.lor (t 3%nat >>> 7) (Z.land (t 4%nat <<< 4) 0xFF));
     byte_of_Z (Z.lor (t 4%nat >>> 4) (Z.land (t 5%nat <<< 7) 0xFF));
     byte_of_Z (Z.land (t 5%nat >>> 1) 0xFF);
     byte_of_Z (Z.lor (t 5%nat >>> 9) (Z.land (t 6%nat <<< 2) 0xFF));
     byte_of_Z (Z.lor (t 6%nat >>> 6) (Z.land (t 7%nat <<< 5) 0xFF));
     byte_of_Z (t 7%nat >>> 3)]) (seq 0 (MLKEM_N / 8)).

Definition mlk_poly_decompress_d5 (a : bytes) : mlk_poly :=
  flat_map (fun i =>
    let a k := octet_at a (i * 5 + k) in
    mlk_scalar_decompress_d5 <$>
      [Z.land 0x1F (a 0%nat >>> 0);
       Z.land 0x1F (Z.lor (a 0%nat >>> 5) (a 1%nat <<< 3));
       Z.land 0x1F (a 1%nat >>> 2);
       Z.land 0x1F (Z.lor (a 1%nat >>> 7) (a 2%nat <<< 1));
       Z.land 0x1F (Z.lor (a 2%nat >>> 4) (a 3%nat <<< 4));
       Z.land 0x1F (a 3%nat >>> 1);
       Z.land 0x1F (Z.lor (a 3%nat >>> 6) (a 4%nat <<< 2));
       Z.land 0x1F (a 4%nat >>> 3)]) (seq 0 (MLKEM_N / 8)).

Definition mlk_poly_decompress_d11 (a : bytes) : mlk_poly :=
  flat_map (fun j =>
    let base k := octet_at a (11 * j + k) in
    mlk_scalar_decompress_d11 <$>
      [Z.land 0x7FF (Z.lor (base 0%nat >>> 0) (base 1%nat <<< 8));
       Z.land 0x7FF (Z.lor (base 1%nat >>> 3) (base 2%nat <<< 5));
       Z.land 0x7FF (Z.lor (Z.lor (base 2%nat >>> 6) (base 3%nat <<< 2)) (base 4%nat <<< 10));
       Z.land 0x7FF (Z.lor (base 4%nat >>> 1) (base 5%nat <<< 7));
       Z.land 0x7FF (Z.lor (base 5%nat >>> 4) (base 6%nat <<< 4));
       Z.land 0x7FF (Z.lor (Z.lor (base 6%nat >>> 7) (base 7%nat <<< 1)) (base 8%nat <<< 9));
       Z.land 0x7FF (Z.lor (base 8%nat >>> 2) (base 9%nat <<< 6));
       Z.land 0x7FF (Z.lor (base 9%nat >>> 5) (base 10%nat <<< 3))]) (seq 0 (MLKEM_N / 8)).

Definition mlk_poly_tobytes (a : mlk_poly) : bytes :=
  flat_map (fun i =>
    let t0 := u16 (coef a (2 * i)) in
    let t1 := u16 (coef a (2 * i + 1)) in
    [byte_of_Z (Z.land t0 0xFF); byte_of_Z (Z.lor (t0 >>> 8) (Z.land (t1 <<< 4) 0xF0)); byte_of_Z (t1 >>> 4)])
    (seq 0 (MLKEM_N / 2)).

Definition mlk_poly_frombytes (a : bytes) : mlk_poly :=
  flat_map (fun i =>
    let t0 := octet_at a (3 * i + 0) in
    let t1 := octet_at a (3 * i + 1) in
    let t2 := octet_at a (3 * i + 2) in
    [s16 (Z.lor t0 (Z.land (t1 <<< 8) 0xFFF)); s16 (Z.lor (t1 >>> 4) (t2 <<< 4))]) (seq 0 (MLKEM_N / 2)).

Definition mlk_poly_frommsg (msg : bytes) : mlk_poly :=
  flat_map (fun i =>
    (fun j =>
      let mask := mlk_value_barrier_u8 (u8 (Z.shiftl 1 (Z.of_nat j))) in
      mlk_ct_sel_int16 MLKEM_Q_HALF 0 (Z.land (octet_at msg i) mask)) <$> seq 0 8) (seq 0 (MLKEM_N / 8)).

Definition mlk_poly_tomsg (a : mlk_poly) : bytes :=
  (fun i =>
    byte_of_Z (fold_left (fun m j =>
      let t := mlk_scalar_compress_d1 (coef a (8 * i + j)) in
      Z.lor m (u8 (t <<< Z.of_nat j))) (seq 0 8) 0)) <$> seq 0 (MLKEM_N / 8).

(** ** [poly_k.c]: with [MLKEM_DU = 10] and [MLKEM_DV = 4] *)

Definition MLKEM_POLYBYTES : nat := 384.
Definition MLKEM_POLYVECBYTES : nat := MLKEM_K * MLKEM_POLYBYTES.
Definition MLKEM_POLYCOMPRESSEDBYTES_DU : nat := 320.
Definition MLKEM_POLYCOMPRESSEDBYTES_DV : nat := 128.
Definition MLKEM_POLYVECCOMPRESSEDBYTES_DU : nat := MLKEM_K * MLKEM_POLYCOMPRESSEDBYTES_DU.

(** [poly_k.h] *)
Definition mlk_poly_compress_du (a : mlk_poly) : bytes := mlk_poly_compress_d10 a.
Definition mlk_poly_decompress_du (a : bytes) : mlk_poly := mlk_poly_decompress_d10 a.
Definition mlk_poly_compress_dv (a : mlk_poly) : bytes := mlk_poly_compress_d4 a.
Definition mlk_poly_decompress_dv (a : bytes) : mlk_poly := mlk_poly_decompress_d4 a.

Definition mlk_polyvec_compress_du (a : mlk_polyvec) : bytes :=
  flat_map (fun i => mlk_poly_compress_du (pvec a i)) (seq 0 MLKEM_K).
Definition mlk_polyvec_decompress_du (a : bytes) : mlk_polyvec :=
  (fun i => mlk_poly_decompress_du (drop (i * MLKEM_POLYCOMPRESSEDBYTES_DU) a)) <$> seq 0 MLKEM_K.
Definition mlk_polyvec_tobytes (a : mlk_polyvec) : bytes :=
  flat_map (fun i => mlk_poly_tobytes (pvec a i)) (seq 0 MLKEM_K).
Definition mlk_polyvec_frombytes (a : bytes) : mlk_polyvec :=
  (fun i => mlk_poly_frombytes (drop (i * MLKEM_POLYBYTES) a)) <$> seq 0 MLKEM_K.
