(* ===== verification/Fips203.v ===== *)
(** * Fips203: the algorithms of FIPS 203 for ML-KEM-768

    Written from the standard, with polynomials as coefficient lists of representatives from
    0 to q - 1.  Algorithm numbers are those of the standard. *)
From Stdlib Require Import Zmod.
From S2P Require Import Prelude Octets KeccakRounds MlkPoly MlkArith MlkNtt.

Module Fips203.
Definition q : Z := 3329.
Definition n : nat := 256.

(** ** 4.2.1: bits, octets and rounding *)

(** The number of [l] bits, the first the lowest. *)
Fixpoint bits_val (l : nat) (b : nat -> bool) : Z :=
  match l with O => 0 | S l => Z.b2z (b O) + 2 * bits_val l (fun k => b (S k)) end.

(** Algorithms 3 and 5: bit [m] of the string is bit [m mod d] of coefficient [m / d]. *)
Definition byte_encode (d : nat) (F : list Z) : bytes :=
  let b m := Z.testbit (coef F (m / d)) (Z.of_nat (m mod d)) in
  (fun i => byte_of_Z (bits_val 8 (fun k => b (8 * i + k)%nat))) <$> seq 0 (32 * d).
(** Algorithms 4 and 6 *)
Definition byte_decode (d : nat) (B : bytes) : list Z :=
  let m := if (d =? 12)%nat then q else 2 ^ Z.of_nat d in
  let b m := Z.testbit (octet_at B (m / 8)) (Z.of_nat (m mod 8)) in
  (fun i => bits_val d (fun k => b (d * i + k)%nat) mod m) <$> seq 0 n.

(** (4.7) and (4.8): the nearest integer, halves upwards. *)
Definition round (num den : Z) : Z := (2 * num + den) / (2 * den).
Definition compress (d : nat) (x : Z) : Z := round (2 ^ Z.of_nat d * x) q mod 2 ^ Z.of_nat d.
Definition decompress (d : nat) (y : Z) : Z := round (q * y) (2 ^ Z.of_nat d).

(** ** 4.1 and 4.2.2: hash functions and sampling *)

Definition H (s : bytes) : bytes := Fips202.sha3_256 s.
Definition J (s : bytes) : bytes := Fips202.shake256 s 32.
Definition G (c : bytes) : bytes * bytes := (take 32 (Fips202.sha3_512 c), drop 32 (Fips202.sha3_512 c)).
Definition PRF (eta : nat) (s : bytes) (b : Z) : bytes := Fips202.shake256 (s ++ [byte_of_Z b]) (64 * eta).

(** Algorithm 7.  [d1] and [d2] of each three octets of the stream, in order. *)
Fixpoint candidates (C : bytes) : list Z :=
  match C with
  | c0 :: c1 :: c2 :: C =>
      (byte_to_Z c0 + 256 * (byte_to_Z c1 mod 16)) :: (byte_to_Z c1 / 16 + 16 * byte_to_Z c2) :: candidates C
  | _ => []
  end.
Definition accepted (C : bytes) : list Z := filter (fun d => d < q) (candidates C).
(** The first 256 accepted ones, if [k] blocks of the stream hold as many. *)
Definition sample_ntt (k : nat) (B : bytes) : option (list Z) :=
  let a := take n (accepted (Fips202.shake128 B (k * 168))) in
  if (length a =? n)%nat then Some a else None.

(** Algorithm 8 *)
Definition sample_poly_cbd (eta : nat) (B : bytes) : list Z :=
  let b m := Z.b2z (Z.testbit (octet_at B (m / 8)) (Z.of_nat (m mod 8))) in
  let total o := fold_right Z.add 0 ((fun j => b (o + j)%nat) <$> seq 0 eta) in
  (fun i => (total (2 * i * eta)%nat - total (2 * i * eta + eta)%nat) mod q) <$> seq 0 n.
(** ** 2.4 and 4.3: polynomials, their transforms, vectors and matrices

    [ntt] is Algorithm 9 and [intt] Algorithm 10, layer by layer; [base_mul] is Algorithm 12
    for all pairs. *)

Definition poly (F : list Z) : coeffs := fun x => toq (coef F x).
Definition reps (f : coeffs) : list Z := (fun x => rep (f x)) <$> seq 0 n.

Definition NTT (F : list Z) : list Z := reps (ntt (poly F)).
Definition inv_NTT (F : list Z) : list Z := reps (intt (poly F)).
Definition add (F G : list Z) : list Z := reps (cadd (poly F) (poly G)).
Definition sub (F G : list Z) : list Z := reps (csub (poly F) (poly G)).
(** Algorithm 11 *)
Definition multiply_NTTs (F G : list Z) : list Z := reps (base_mul (poly F) (poly G)).
Definition dot (a b : list (list Z)) : list Z := fold_right add (replicate n 0) (zip_with multiply_NTTs a b).
Definition matrix_mul (A : list (list (list Z))) (v : list (list Z)) : list (list Z) := (fun row => dot row v) <$> A.
Definition transpose (A : list (list (list Z))) : list (list (list Z)) :=
  (fun i => (fun row => nth i row []) <$> A) <$> seq 0 3.

(** ** 5: K-PKE, with k = 3, eta1 = eta2 = 2, du = 10 and dv = 4

    [b] bounds the blocks that each SampleNTT reads. *)

Definition sample_matrix (b : nat) (rho : bytes) : option (list (list (list Z))) :=
  mapM (fun i => mapM (fun j => sample_ntt b (rho ++ [byte_of_Z (Z.of_nat j); byte_of_Z (Z.of_nat i)])) (seq 0 3)) (seq 0 3).
(** The next three polynomials, from counter [N]. *)
Definition sample_noise (sigma : bytes) (N : Z) : list (list Z) :=
  (fun i => sample_poly_cbd 2 (PRF 2 sigma (N + Z.of_nat i))) <$> seq 0 3.

(** Algorithm 13 *)
Definition kpke_keygen (b : nat) (d : bytes) : option (bytes * bytes) :=
  let '(rho, sigma) := G (d ++ [byte_of_Z 3]) in
  A ← sample_matrix b rho;
  let s := NTT <$> sample_noise sigma 0 in
  let e := NTT <$> sample_noise sigma 3 in
  let t := zip_with add (matrix_mul A s) e in
  Some (flat_map (byte_encode 12) t ++ rho, flat_map (byte_encode 12) s).

(** Part [i] of a string of [l]-octet parts. *)
Definition part (l i : nat) (B : bytes) : bytes := take l (drop (i * l) B).

(** Algorithm 14 *)
Definition kpke_encrypt (b : nat) (ek m r : bytes) : option bytes :=
  let t := (fun i => byte_decode 12 (part 384 i ek)) <$> seq 0 3 in
  let rho := take 32 (drop (384 * 3) ek) in
  A ← sample_matrix b rho;
  let y := NTT <$> sample_noise r 0 in
  let e1 := sample_noise r 3 in
  let e2 := sample_poly_cbd 2 (PRF 2 r 6) in
  let u := zip_with add (inv_NTT <$> matrix_mul (transpose A) y) e1 in
  let mu := decompress 1 <$> byte_decode 1 m in
  let v := add (add (inv_NTT (dot t y)) e2) mu in
  Some (flat_map (fun u => byte_encode 10 (compress 10 <$> u)) u ++ byte_encode 4 (compress 4 <$> v)).

(** Algorithm 15 *)
Definition kpke_decrypt (dk c : bytes) : bytes :=
  let u := (fun i => decompress 10 <$> byte_decode 10 (part 320 i c)) <$> seq 0 3 in
  let v := decompress 4 <$> byte_decode 4 (drop (320 * 3) c) in
  let s := (fun i => byte_decode 12 (part 384 i dk)) <$> seq 0 3 in
  let w := sub v (inv_NTT (dot s (NTT <$> u))) in
  byte_encode 1 (compress 1 <$> w).

(** ** 6 and 7: ML-KEM *)

(** Algorithm 16 *)
Definition kem_keygen (b : nat) (d z : bytes) : option (bytes * bytes) :=
  '(ek, dk) ← kpke_keygen b d;
  Some (ek, dk ++ ek ++ H ek ++ z).

(** Algorithm 17 *)
Definition kem_encaps (b : nat) (ek m : bytes) : option (bytes * bytes) :=
  let '(K, r) := G (m ++ H ek) in
  c ← kpke_encrypt b ek m r;
  Some (K, c).

(** Algorithm 18 *)
Definition kem_decaps (b : nat) (dk c : bytes) : option bytes :=
  let dk_pke := take (384 * 3) dk in
  let ek := take (384 * 3 + 32) (drop (384 * 3) dk) in
  let h := take 32 (drop (768 * 3 + 32) dk) in
  let z := take 32 (drop (768 * 3 + 64) dk) in
  let m := kpke_decrypt dk_pke c in
  let '(K, r) := G (m ++ h) in
  let K_bar := J (z ++ c) in
  c' ← kpke_encrypt b ek m r;
  Some (if decide (c = c') then K else K_bar).

(** 7.2 and 7.3: the checks before encapsulation and decapsulation. *)
Definition modulus_check (ek : bytes) : Prop :=
  flat_map (fun i => byte_encode 12 (byte_decode 12 (part 384 i ek))) (seq 0 3) = take (384 * 3) ek.
Definition hash_check (dk : bytes) : Prop :=
  H (take (384 * 3 + 32) (drop (384 * 3) dk)) = take 32 (drop (768 * 3 + 32) dk).
#[global] Typeclasses Opaque modulus_check hash_check.
#[export] Instance modulus_check_dec ek : Decision (modulus_check ek) := ltac:(unfold modulus_check; apply _).
#[export] Instance hash_check_dec dk : Decision (hash_check dk) := ltac:(unfold hash_check; apply _).
End Fips203.
Export (hints) Fips203.
