(* ===== verification/MlkCodecFacts.v ===== *)
(** * MlkCodecFacts: the octets are those of FIPS 203

    The loops of [compress.c] write the bit string of ByteEncode and read that of ByteDecode,
    for every width; the scalar functions are Compress and Decompress; round trips. *)
From Stdlib Require Import Zmod.
From S2P Require Import Prelude Octets CInt MlkPoly MlkArith MlkNtt MlkNttFacts MlkCodec Fips203.

(** ** Bits *)

Lemma bits_val_bit l b k : 0 <= k -> Z.testbit (Fips203.bits_val l b) k = (k <? Z.of_nat l) && b (Z.to_nat k).
Proof.
  revert b k. induction l as [|l IH]; intros b k Hk; cbn [Fips203.bits_val].
  { rewrite Z.bits_0. by rewrite (proj2 (Z.ltb_ge k (Z.of_nat 0))) by lia. }
  rewrite Z.add_comm. destruct (decide (k = 0)) as [->|Hne].
  - rewrite Z.testbit_0_r. by rewrite (proj2 (Z.ltb_lt 0 (Z.of_nat (S l)))) by lia.
  - replace k with (Z.succ (k - 1)) at 1 by lia. rewrite Z.testbit_succ_r, IH by lia.
    replace (S (Z.to_nat (k - 1))) with (Z.to_nat k) by lia. f_equal. apply eq_true_iff_eq. rewrite !Z.ltb_lt. lia.
Qed.
Lemma bits_val_range l b : 0 <= Fips203.bits_val l b < 2 ^ Z.of_nat l.
Proof.
  revert b. induction l as [|l IH]; intros b; cbn [Fips203.bits_val]; [cbn; lia|]. specialize (IH (fun k => b (S k))).
  rewrite Nat2Z.inj_succ, Z.pow_succ_r by lia. destruct (b O); cbn [Z.b2z]; lia.
Qed.
(** A number is the number of its bits. *)
Lemma bits_val_eq l b x : 0 <= x < 2 ^ Z.of_nat l -> (forall k, (k < l)%nat -> Z.testbit x (Z.of_nat k) = b k) -> Fips203.bits_val l b = x.
Proof.
  intros Hx H. apply Z.bits_inj'. intros k Hk. rewrite bits_val_bit by done. destruct (Z.ltb_spec k (Z.of_nat l)); cbn [andb].
  - rewrite <- H by lia. f_equal. lia.
  - symmetry. rewrite <- (Z.mod_small x (2 ^ Z.of_nat l)) by done. apply Z.mod_pow2_bits_high. lia.
Qed.
Lemma bit_out d x k : 0 <= x < 2 ^ d -> k < 0 \/ d <= k -> Z.testbit x k = false.
Proof.
  intros Hx [Hk|Hk]; [by apply Z.testbit_neg_r|]. destruct (decide (d < 0)).
  - rewrite Z.pow_neg_r in Hx by lia. lia.
  - rewrite <- (Z.mod_small x (2 ^ d)) by done. apply Z.mod_pow2_bits_high. lia.
Qed.
Lemma octet_bit e k : (k < 8)%nat -> Z.testbit (byte_to_Z (byte_of_Z e)) (Z.of_nat k) = Z.testbit e (Z.of_nat k).
Proof. intros Hk. rewrite byte_to_of_Z. change 256 with (2 ^ 8). apply Z.mod_pow2_bits_low. lia. Qed.

(** ** Arrays written in pieces *)

Lemma flat_map_seq_S {A} (g : nat -> list A) m : flat_map g (seq 0 (S m)) = flat_map g (seq 0 m) ++ g m.
Proof. rewrite seq_S, flat_map_app. cbn [flat_map Nat.add]. by rewrite app_nil_r. Qed.
Lemma flat_map_pieces {A} (g : nat -> list A) p m : (forall j, (j < m)%nat -> length (g j) = p) ->
  length (flat_map g (seq 0 m)) = (p * m)%nat /\
  forall j r d, (j < m)%nat -> (r < p)%nat -> nth (p * j + r) (flat_map g (seq 0 m)) d = nth r (g j) d.
Proof.
  intros Hg. induction m as [|m IH]; [split; [cbn; lia|intros; lia]|]. destruct IH as [Hl HR]; [intros; apply Hg; lia|].
  rewrite flat_map_seq_S. split; [rewrite length_app, Hl, Hg by lia; lia|]. intros j r d Hj Hr.
  destruct (decide (j = m)) as [->|Hne].
  - rewrite app_nth2 by lia. f_equal. lia.
  - rewrite app_nth1 by nia. apply HR; lia.
Qed.
Lemma octet_at_nth s i : octet_at s i = byte_to_Z (nth i s x00).
Proof. unfold octet_at. by rewrite nth_lookup. Qed.

(** An index in units of [p]. *)
Lemma split_index p m i : (0 < p)%nat -> (i < p * m)%nat -> exists j r, (j < m)%nat /\ (r < p)%nat /\ (i = p * j + r)%nat.
Proof.
  intros Hp Hi. exists (i / p)%nat, (i mod p)%nat. pose proof (Nat.div_mod_eq i p). pose proof (Nat.mod_upper_bound i p ltac:(lia)).
  split_and!; [apply Nat.Div0.div_lt_upper_bound|..]; lia.
Qed.
Lemma bit_index d m p j r k : (0 < d)%nat -> (d * m = 8 * p)%nat ->
  ((8 * (p * j + r) + k) / d = m * j + (8 * r + k) / d /\ (8 * (p * j + r) + k) mod d = (8 * r + k) mod d)%nat.
Proof.
  intros Hd H. replace (8 * (p * j + r) + k)%nat with (8 * r + k + m * j * d)%nat by nia.
  rewrite Nat.div_add, Nat.Div0.mod_add by lia. lia.
Qed.

Lemma coef_gather f a m j k : (k < m)%nat -> coef (gather f a m j) k = f (coef a (m * j + k)).
Proof. intros Hk. unfold gather, coef. rewrite nth_lookup, list_lookup_fmap, lookup_seq_lt by done. done. Qed.
Lemma coef_fmap (f : Z -> Z) a x : (x < length a)%nat -> coef (f <$> a) x = f (coef a x).
Proof. intros Hx. unfold coef. rewrite !nth_lookup, list_lookup_fmap. destruct (lookup_lt_is_Some_2 a x Hx) as [v ->]. done. Qed.

(** [p] octets that hold [m] numbers of [d] bits. *)
Definition encodes (d m p : nat) (chunk : (nat -> Z) -> bytes) : Prop :=
  forall t, (forall k, (k < m)%nat -> 0 <= t k < 2 ^ Z.of_nat d) -> length (chunk t) = p /\
    forall r k, (r < p)%nat -> (k < 8)%nat ->
      Z.testbit (octet_at (chunk t) r) (Z.of_nat k) = Z.testbit (t ((8 * r + k) / d)%nat) (Z.of_nat ((8 * r + k) mod d)).

Lemma encode_ok d m p N chunk (f : Z -> Z) a : (0 < d)%nat -> (d * m = 8 * p)%nat -> (m * N = 256)%nat -> encodes d m p chunk ->
  length a = 256%nat -> (forall x, (x < 256)%nat -> 0 <= f (coef a x) < 2 ^ Z.of_nat d) ->
  flat_map (fun j => chunk (coef (gather f a m j))) (seq 0 N) = Fips203.byte_encode d (f <$> a).
Proof.
  intros Hd Hdm HN Hc Ha Hf.
  assert (forall j, (j < N)%nat -> forall k, (k < m)%nat -> coef (gather f a m j) k = coef (f <$> a) (m * j + k)) as Hg.
  { intros j Hj k Hk. rewrite coef_gather, coef_fmap by (rewrite ?Ha; nia). done. }
  assert (forall j, (j < N)%nat -> forall k, (k < m)%nat -> 0 <= coef (gather f a m j) k < 2 ^ Z.of_nat d) as Hr.
  { intros j Hj k Hk. rewrite coef_gather by done. apply Hf. nia. }
  destruct (flat_map_pieces (fun j => chunk (coef (gather f a m j))) p N) as [Hl HR]; [intros j Hj; apply (Hc _ (Hr j Hj))|].
  assert (p * N = 32 * d)%nat as HpN by nia.
  apply octets_ext; rewrite Hl; [unfold Fips203.byte_encode; rewrite length_fmap, length_seq; done|].
  intros i Hi. destruct (split_index p N i ltac:(nia) Hi) as (j & r & Hj & Hrp & ->).
  rewrite octet_at_nth, (HR j r x00 Hj Hrp), <- octet_at_nth. unfold Fips203.byte_encode. rewrite octet_at_fmap_seq by lia.
  rewrite Z.mod_small by apply (bits_val_range 8). symmetry. apply bits_val_eq; [apply octet_at_range|]. intros k Hk.
  destruct (Hc _ (Hr j Hj)) as [_ ->]; [|done..]. destruct (bit_index d m p j r k Hd Hdm) as [-> ->]. rewrite Hg; [done..|].
  apply Nat.Div0.div_lt_upper_bound. lia.
Qed.

(** [m] numbers of [d] bits from [p] octets. *)
Definition decodes (d m p : nat) (chunk : (nat -> Z) -> list Z) : Prop :=
  forall b, (forall i, 0 <= b i < 256) -> length (chunk b) = m /\
    forall c, (c < m)%nat -> 0 <= coef (chunk b) c < 2 ^ Z.of_nat d /\ forall k, (k < d)%nat ->
      Z.testbit (coef (chunk b) c) (Z.of_nat k) = Z.testbit (b ((d * c + k) / 8)%nat) (Z.of_nat ((d * c + k) mod 8)).

(** The numbers of [d] bits in a string of octets. *)
Definition raw_decode (d : nat) (B : bytes) : list Z :=
  (fun i => Fips203.bits_val d (fun k => Z.testbit (octet_at B ((d * i + k) / 8)) (Z.of_nat ((d * i + k) mod 8)))) <$> seq 0 256.
Lemma coef_fmap_seq (f : nat -> Z) n x : (x < n)%nat -> coef (f <$> seq 0 n) x = f x.
Proof. intros Hx. unfold coef. by rewrite nth_lookup, list_lookup_fmap, lookup_seq_lt. Qed.

Lemma coef_ext r s : length r = length s -> (forall x, (x < length r)%nat -> coef r x = coef s x) -> r = s.
Proof. intros Hl H. apply (nth_ext r s 0 0 Hl H). Qed.

Lemma decode_ok d m p N chunk (f : Z -> Z) B : (0 < d)%nat -> (d * m = 8 * p)%nat -> (m * N = 256)%nat -> decodes d m p chunk ->
  flat_map (fun j => f <$> chunk (fun k => octet_at B (p * j + k))) (seq 0 N) = f <$> raw_decode d B.
Proof.
  intros Hd Hdm HN Hc. pose proof (fun j => Hc (fun k => octet_at B (p * j + k)) (fun i => octet_at_range _ _)) as Hj.
  destruct (flat_map_pieces (fun j => f <$> chunk (fun k => octet_at B (p * j + k))) m N) as [Hl HR].
  { intros j _. rewrite length_fmap. apply Hj. }
  apply coef_ext; rewrite Hl; [unfold raw_decode; rewrite !length_fmap, length_seq; lia|].
  intros x Hx. destruct (split_index m N x ltac:(nia) Hx) as (j & c & HjN & Hcm & ->).
  unfold coef at 1. rewrite (HR j c 0 HjN Hcm). fold (coef (f <$> chunk (fun k => octet_at B (p * j + k))) c).
  destruct (Hj j) as [Hlj Hb]. rewrite coef_fmap by lia. unfold raw_decode.
  rewrite coef_fmap by (rewrite length_fmap, length_seq; lia). rewrite coef_fmap_seq by lia. f_equal. symmetry.
  destruct (Hb c Hcm) as [Hrange Hbits]. apply bits_val_eq; [done|]. intros k Hk. rewrite Hbits by done.
  replace (d * (m * j + c) + k)%nat with (d * c + k + p * j * 8)%nat by nia.
  rewrite Nat.div_add, Nat.Div0.mod_add by lia. do 2 f_equal. lia.
Qed.

(** ** The chunks of the code *)

(** The bits of an expression with shifts and masks, at a concrete position. *)
Ltac bit_const := repeat match goal with
  | |- context [Z.testbit (Zpos ?p) ?n] => let b := eval vm_compute in (Z.testbit (Zpos p) n) in change (Z.testbit (Zpos p) n) with b
  end.
Ltac bit_expr := repeat first [rewrite Z.lor_spec | rewrite Z.land_spec | rewrite Z.shiftr_spec by lia | rewrite Z.shiftl_spec by lia];
  repeat match goal with
  | |- context [Z.testbit ?x (?a + ?b)] => let c := eval vm_compute in (a + b) in change (a + b) with c
  | |- context [Z.testbit ?x (?a - ?b)] => let c := eval vm_compute in (a - b) in change (a - b) with c
  end.
(** All numbers below a concrete bound. *)
Ltac each k H := repeat (destruct k as [|k]; [|try (exfalso; lia)]); try (exfalso; lia); clear H.
Ltac concrete_index := repeat match goal with
  | |- context [(?a / ?b)%nat] => let c := eval vm_compute in (a / b)%nat in change (a / b)%nat with c
  | |- context [Z.of_nat ?a] => let c := eval vm_compute in (Z.of_nat a) in change (Z.of_nat a) with c
  end.
Ltac encodes_bits Ht :=
  match goal with
  | |- Z.testbit (octet_at _ _) _ = _ =>
      unfold octet_at; cbn [lookup list_lookup from_option id]; rewrite octet_bit by (apply Nat.ltb_lt; reflexivity);
      concrete_index; bit_expr; bit_const;
      rewrite ?andb_true_r, ?andb_false_r, ?andb_true_l, ?andb_false_l;
      repeat match goal with
      | |- context [Z.testbit (?t ?j) ?n] =>
          rewrite (bit_out _ (t j) n (Ht j ltac:(apply Nat.ltb_lt; reflexivity))) by (vm_compute; intuition congruence)
      end; rewrite ?orb_false_r, ?orb_false_l; reflexivity
  end.

Tactic Notation "encodes_chunk" integer(p) :=
  let t := fresh "t" in let Ht := fresh "Ht" in let r := fresh "r" in let k := fresh "k" in
  intros t Ht; split; [done|]; intros r k ? ?;
  do p (destruct r as [|r]; [do 8 (destruct k as [|k]; [encodes_bits Ht|]); lia|]); lia.

Lemma encodes_d4 : encodes 4 8 4 (fun t =>
  [byte_of_Z (Z.lor (t 0%nat) (Z.shiftl (t 1%nat) 4)); byte_of_Z (Z.lor (t 2%nat) (Z.shiftl (t 3%nat) 4));
   byte_of_Z (Z.lor (t 4%nat) (Z.shiftl (t 5%nat) 4)); byte_of_Z (Z.lor (t 6%nat) (Z.shiftl (t 7%nat) 4))]).
Proof. encodes_chunk 4. Qed.

Lemma encodes_d10 : encodes 10 4 5 (fun t =>
  [byte_of_Z (Z.land (Z.shiftr (t 0%nat) 0) 0xFF);
   byte_of_Z (Z.lor (Z.shiftr (t 0%nat) 8) (Z.land (Z.shiftl (t 1%nat) 2) 0xFF));
   byte_of_Z (Z.lor (Z.shiftr (t 1%nat) 6) (Z.land (Z.shiftl (t 2%nat) 4) 0xFF));
   byte_of_Z (Z.lor (Z.shiftr (t 2%nat) 4) (Z.land (Z.shiftl (t 3%nat) 6) 0xFF));
   byte_of_Z (Z.shiftr (t 3%nat) 2)]).
Proof. encodes_chunk 5. Qed.

Lemma encodes_d5 : encodes 5 8 5 (fun t =>
  [byte_of_Z (Z.land 0xFF (Z.lor (Z.shiftr (t 0%nat) 0) (Z.shiftl (t 1%nat) 5)));
   byte_of_Z (Z.land 0xFF (Z.lor (Z.lor (Z.shiftr (t 1%nat) 3) (Z.shiftl (t 2%nat) 2)) (Z.shiftl (t 3%nat) 7)));
   byte_of_Z (Z.land 0xFF (Z.lor (Z.shiftr (t 3%nat) 1) (Z.shiftl (t 4%nat) 4)));
   byte_of_Z (Z.land 0xFF (Z.lor (Z.lor (Z.shiftr (t 4%nat) 4) (Z.shiftl (t 5%nat) 1)) (Z.shiftl (t 6%nat) 6)));
   byte_of_Z (Z.land 0xFF (Z.lor (Z.shiftr (t 6%nat) 2) (Z.shiftl (t 7%nat) 3)))]).
Proof. encodes_chunk 5. Qed.

Lemma encodes_d11 : encodes 11 8 11 (fun t =>
  [byte_of_Z (Z.land (Z.shiftr (t 0%nat) 0) 0xFF);
   byte_of_Z (Z.lor (Z.shiftr (t 0%nat) 8) (Z.land (Z.shiftl (t 1%nat) 3) 0xFF));
   byte_of_Z (Z.lor (Z.shiftr (t 1%nat) 5) (Z.land (Z.shiftl (t 2%nat) 6) 0xFF));
   byte_of_Z (Z.land (Z.shiftr (t 2%nat) 2) 0xFF);
   byte_of_Z (Z.lor (Z.shiftr (t 2%nat) 10) (Z.land (Z.shiftl (t 3%nat) 1) 0xFF));
   byte_of_Z (Z.lor (Z.shiftr (t 3%nat) 7) (Z.land (Z.shiftl (t 4%nat) 4) 0xFF));
   byte_of_Z (Z.lor (Z.shiftr (t 4%nat) 4) (Z.land (Z.shiftl (t 5%nat) 7) 0xFF));
   byte_of_Z (Z.land (Z.shiftr (t 5%nat) 1) 0xFF);
   byte_of_Z (Z.lor (Z.shiftr (t 5%nat) 9) (Z.land (Z.shiftl (t 6%nat) 2) 0xFF));
   byte_of_Z (Z.lor (Z.shiftr (t 6%nat) 6) (Z.land (Z.shiftl (t 7%nat) 5) 0xFF));
   byte_of_Z (Z.shiftr (t 7%nat) 3)]).
Proof. encodes_chunk 11. Qed.

Lemma encodes_d12 : encodes 12 2 3 (fun t =>
  [byte_of_Z (Z.land (t 0%nat) 0xFF); byte_of_Z (Z.lor (Z.shiftr (t 0%nat) 8) (Z.land (Z.shiftl (t 1%nat) 4) 0xF0));
   byte_of_Z (Z.shiftr (t 1%nat) 4)]).
Proof. encodes_chunk 3. Qed.

(** Reading: each number is masked to its width. *)
Lemma masked_range x m b : 0 <= m < b -> 0 <= Z.land m x < b.
Proof.
  intros H. split; [apply Z.land_nonneg; lia|]. assert (0 <= m - Z.land m x); [|lia].
  rewrite Z.sub_nocarry_ldiff; [apply Z.ldiff_nonneg; lia|]. apply Z.bits_inj'. intros n Hn.
  rewrite Z.ldiff_spec, Z.land_spec, Z.bits_0. by destruct (Z.testbit m n), (Z.testbit x n).
Qed.
Lemma masked_range_r x m b : 0 <= m < b -> 0 <= Z.land x m < b.
Proof. intros H. rewrite Z.land_comm. by apply masked_range. Qed.
Lemma lor_range d x y : 0 <= x < 2 ^ d -> 0 <= y < 2 ^ d -> 0 <= Z.lor x y < 2 ^ d.
Proof.
  intros Hx Hy. destruct (decide (d < 0)); [rewrite Z.pow_neg_r in * by lia; lia|]. split; [apply Z.lor_nonneg; lia|].
  rewrite <- (Z.mod_small x (2 ^ d)), <- (Z.mod_small y (2 ^ d)), <- !Z.land_ones, <- Z.land_lor_distr_l, Z.land_ones by (done || lia).
  apply Z.mod_pos_bound. lia.
Qed.
Ltac decodes_bits Hb :=
  concrete_index; bit_expr; bit_const;
  rewrite ?andb_true_r, ?andb_false_r, ?andb_true_l, ?andb_false_l;
  repeat match goal with
  | |- context [Z.testbit (?b ?j) ?n] =>
      rewrite (bit_out 8 (b j) n (Hb j)) by (vm_compute; intuition congruence)
  end; rewrite ?orb_false_r, ?orb_false_l; reflexivity.
Ltac range_tac b Hb :=
  first [apply masked_range; lia | apply masked_range_r; lia
    | pose proof (Hb 0%nat); pose proof (Hb 1%nat); pose proof (Hb 2%nat); apply lor_range; first [apply masked_range_r; lia | rewrite ?Z.shiftr_div_pow2, ?Z.shiftl_mul_pow2 by lia; dlia]].
Tactic Notation "decodes_chunk" integer(m) integer(d) :=
  let b := fresh "b" in let Hb := fresh "Hb" in let c := fresh "c" in let k := fresh "k" in
  intros b Hb; split; [done|]; intros c ?;
  do m (destruct c as [|c]; [unfold coef; cbn [nth]; split;
    [range_tac b Hb
    |intros k ?; do d (destruct k as [|k]; [decodes_bits Hb|]); lia]|]); try lia.

Lemma decodes_d4 : decodes 4 2 1 (fun b => [Z.land (Z.shiftr (b 0%nat) 0) 0xF; Z.land (Z.shiftr (b 0%nat) 4) 0xF]).
Proof. decodes_chunk 2 4. Qed.

Lemma decodes_d10 : decodes 10 4 5 (fun base =>
  [Z.land 0x3FF (Z.lor (Z.shiftr (base 0%nat) 0) (Z.shiftl (base 1%nat) 8));
   Z.land 0x3FF (Z.lor (Z.shiftr (base 1%nat) 2) (Z.shiftl (base 2%nat) 6));
   Z.land 0x3FF (Z.lor (Z.shiftr (base 2%nat) 4) (Z.shiftl (base 3%nat) 4));
   Z.land 0x3FF (Z.lor (Z.shiftr (base 3%nat) 6) (Z.shiftl (base 4%nat) 2))]).
Proof. decodes_chunk 4 10. Qed.

Lemma decodes_d5 : decodes 5 8 5 (fun a =>
  [Z.land 0x1F (Z.shiftr (a 0%nat) 0);
   Z.land 0x1F (Z.lor (Z.shiftr (a 0%nat) 5) (Z.shiftl (a 1%nat) 3));
   Z.land 0x1F (Z.shiftr (a 1%nat) 2);
   Z.land 0x1F (Z.lor (Z.shiftr (a 1%nat) 7) (Z.shiftl (a 2%nat) 1));
   Z.land 0x1F (Z.lor (Z.shiftr (a 2%nat) 4) (Z.shiftl (a 3%nat) 4));
   Z.land 0x1F (Z.shiftr (a 3%nat) 1);
   Z.land 0x1F (Z.lor (Z.shiftr (a 3%nat) 6) (Z.shiftl (a 4%nat) 2));
   Z.land 0x1F (Z.shiftr (a 4%nat) 3)]).
Proof. decodes_chunk 8 5. Qed.

Lemma decodes_d11 : decodes 11 8 11 (fun base =>
  [Z.land 0x7FF (Z.lor (Z.shiftr (base 0%nat) 0) (Z.shiftl (base 1%nat) 8));
   Z.land 0x7FF (Z.lor (Z.shiftr (base 1%nat) 3) (Z.shiftl (base 2%nat) 5));
   Z.land 0x7FF (Z.lor (Z.lor (Z.shiftr (base 2%nat) 6) (Z.shiftl (base 3%nat) 2)) (Z.shiftl (base 4%nat) 10));
   Z.land 0x7FF (Z.lor (Z.shiftr (base 4%nat) 1) (Z.shiftl (base 5%nat) 7));
   Z.land 0x7FF (Z.lor (Z.shiftr (base 5%nat) 4) (Z.shiftl (base 6%nat) 4));
   Z.land 0x7FF (Z.lor (Z.lor (Z.shiftr (base 6%nat) 7) (Z.shiftl (base 7%nat) 1)) (Z.shiftl (base 8%nat) 9));
   Z.land 0x7FF (Z.lor (Z.shiftr (base 8%nat) 2) (Z.shiftl (base 9%nat) 6));
   Z.land 0x7FF (Z.lor (Z.shiftr (base 9%nat) 5) (Z.shiftl (base 10%nat) 3))]).
Proof. decodes_chunk 8 11. Qed.

Lemma decodes_d12 : decodes 12 2 3 (fun t =>
  [Z.lor (t 0%nat) (Z.land (Z.shiftl (t 1%nat) 8) 0xFFF); Z.lor (Z.shiftr (t 1%nat) 4) (Z.shiftl (t 2%nat) 4)]).
Proof.
  decodes_chunk 2 12.
Qed.

(** ** Compress and Decompress *)

(** Dividing by q is multiplying by [m / 2^s], if the error of that stays within the remainder. *)
Lemma reciprocal_step s D m u : 1 <= s -> 0 <= u < 3329 ->
  (let R := (2 * (D * u) + 3329) mod (2 * 3329) in 0 <= 2 ^ s * R + 2 * ((m * 3329 - 2 ^ s * D) * u) < 2 * 3329 * 2 ^ s) ->
  (u * m + 2 ^ (s - 1)) / 2 ^ s = (2 * (D * u) + 3329) / (2 * 3329).
Proof.
  intros Hs Hu Hm. cbv zeta in Hm. assert (2 ^ s = 2 * 2 ^ (s - 1)) as E by (rewrite <- Z.pow_succ_r by lia; f_equal; lia).
  assert (0 < 2 ^ (s - 1)) as Hp by lia. set (h := 2 ^ (s - 1)) in *. rewrite E in *. clearbody h.
  pose proof (Z.div_mod (2 * (D * u) + 3329) (2 * 3329) ltac:(lia)) as Ey.
  set (y := (2 * (D * u) + 3329) / (2 * 3329)) in *. set (R := (2 * (D * u) + 3329) mod (2 * 3329)) in *. clearbody y R.
  set (e := m * 3329 - 2 * h * D) in *.
  assert (2 * 3329 * (u * m + h - 2 * h * y) = 2 * h * R + 2 * (e * u)) as Er by (subst e; nia).
  clearbody e. symmetry. apply (Z.div_unique_pos _ _ _ (u * m + h - 2 * h * y)); [|lia]. lia.
Qed.
Lemma reciprocal s D m u : 1 <= s -> 0 <= u < 3329 -> Z.abs (m * 3329 - 2 ^ s * D) * 6656 < 2 ^ s ->
  (u * m + 2 ^ (s - 1)) / 2 ^ s = (2 * (D * u) + 3329) / (2 * 3329).
Proof.
  intros Hs Hu He. apply reciprocal_step; [done..|]. cbv zeta.
  pose proof (Z.div_mod (2 * (D * u) + 3329) (2 * 3329) ltac:(lia)) as Ey. pose proof (Z.mod_pos_bound (2 * (D * u) + 3329) (2 * 3329) ltac:(lia)) as By.
  set (R := (2 * (D * u) + 3329) mod (2 * 3329)) in *. assert (1 <= R <= 6657) as HR by lia. clearbody R.
  set (e := m * 3329 - 2 ^ s * D) in *. clearbody e. assert (Z.abs (2 * (e * u)) < 2 ^ s) by nia. nia.
Qed.
(** The wrap-around of the sum is the reduction modulo 2^d. *)
Lemma wrapped_div x w s : 0 <= s <= w -> (x mod 2 ^ w) / 2 ^ s = (x / 2 ^ s) mod 2 ^ (w - s).
Proof.
  intros H. replace w with (s + (w - s)) at 1 by lia. rewrite Z.pow_add_r, Z.rem_mul_r by lia.
  rewrite Z.add_comm, Z.mul_comm, Z.div_add_l by lia. rewrite (Z.div_small (x mod 2 ^ s)) by (apply Z.mod_pos_bound; lia). lia.
Qed.

Lemma d5_remainder u : 0 <= u < 3329 -> let R := (2 * (2 ^ Z.of_nat 5 * u) + 3329) mod (2 * 3329) in
  0 <= 2 ^ 27 * R + 2 * ((1290176 * 3329 - 2 ^ 27 * 2 ^ Z.of_nat 5) * u) < 2 * 3329 * 2 ^ 27.
Proof.
  intros Hu. cbv zeta. change (2 ^ Z.of_nat 5) with 32. change (1290176 * 3329 - 2 ^ 27 * 32) with 28608.
  pose proof (Z.div_mod (2 * (32 * u) + 3329) (2 * 3329) ltac:(lia)) as Ey. pose proof (Z.mod_pos_bound (2 * (32 * u) + 3329) (2 * 3329) ltac:(lia)) as By.
  set (R := (2 * (32 * u) + 3329) mod (2 * 3329)) in *. set (y := (2 * (32 * u) + 3329) / (2 * 3329)) in *. clearbody R y.
  assert (R <= 6655 \/ u = 52) as [HR|HR] by lia; lia.
Qed.

(** [d] and the code's function for it. *)
Inductive compressor : nat -> (Z -> Z) -> Prop :=
  | compressor_d1 : compressor 1 mlk_scalar_compress_d1
  | compressor_d4 : compressor 4 mlk_scalar_compress_d4
  | compressor_d5 : compressor 5 mlk_scalar_compress_d5
  | compressor_d10 : compressor 10 mlk_scalar_compress_d10
  | compressor_d11 : compressor 11 mlk_scalar_compress_d11.
Lemma compressor_ok d f u : compressor d f -> 0 <= u < MLKEM_Q -> f u = Fips203.compress d u.
Proof.
  unfold MLKEM_Q. intros H Hu.
  assert (forall s D m, 1 <= s -> Z.abs (m * 3329 - 2 ^ s * D) * 6656 < 2 ^ s ->
    (u * m + 2 ^ (s - 1)) / 2 ^ s = (2 * (D * u) + 3329) / (2 * 3329)) as R by (intros; by apply reciprocal).
  unfold Fips203.compress, Fips203.round, Fips203.q.
  destruct H; unfold mlk_scalar_compress_d1, mlk_scalar_compress_d4, mlk_scalar_compress_d5, mlk_scalar_compress_d10, mlk_scalar_compress_d11;
    cbv zeta; rewrite Z.shiftr_div_pow2, Z.shiftl_1_l by lia.
  1-3: rewrite (u32_small (u * _)) by lia; unfold u32, u8; rewrite wrapped_div by lia.
  - rewrite <- (R 31 (2 ^ Z.of_nat 1) 1290168) by (done || lia). rewrite Z.mod_small; [done|]. pose proof (Z.mod_pos_bound ((u * 1290168 + 2 ^ 30) / 2 ^ 31) (2 ^ (32 - 31))). lia.
  - rewrite <- (R 28 (2 ^ Z.of_nat 4) 1290160) by (done || lia). rewrite Z.mod_small; [done|]. pose proof (Z.mod_pos_bound ((u * 1290160 + 2 ^ 27) / 2 ^ 28) (2 ^ (32 - 28))). lia.
  - rewrite <- (reciprocal_step 27 (2 ^ Z.of_nat 5) 1290176 u) by (done || exact (d5_remainder u Hu)). rewrite Z.mod_small; [done|]. pose proof (Z.mod_pos_bound ((u * 1290176 + 2 ^ 26) / 2 ^ 27) (2 ^ (32 - 27))). lia.
  - rewrite (u64_small (u * _)), u64_small by lia. rewrite <- (R 33 (2 ^ Z.of_nat 10) 2642263040) by (done || lia).
    change 0x3FF with (Z.ones 10). rewrite Z.land_ones by lia. unfold u16. apply Z.mod_small. pose proof (Z.mod_pos_bound ((u * 2642263040 + 2 ^ (33 - 1)) / 2 ^ 33) (2 ^ Z.of_nat 10)). lia.
  - rewrite (u64_small (u * _)), u64_small by lia. rewrite <- (R 33 (2 ^ Z.of_nat 11) 5284526080) by (done || lia).
    change 0x7FF with (Z.ones 11). rewrite Z.land_ones by lia. unfold u16. apply Z.mod_small. pose proof (Z.mod_pos_bound ((u * 5284526080 + 2 ^ (33 - 1)) / 2 ^ 33) (2 ^ Z.of_nat 11)). lia.
Qed.
Lemma compress_range d u : 0 <= Fips203.compress d u < 2 ^ Z.of_nat d.
Proof. apply Z.mod_pos_bound. lia. Qed.

Inductive decompressor : nat -> (Z -> Z) -> Prop :=
  | decompressor_d4 : decompressor 4 mlk_scalar_decompress_d4
  | decompressor_d5 : decompressor 5 mlk_scalar_decompress_d5
  | decompressor_d10 : decompressor 10 mlk_scalar_decompress_d10
  | decompressor_d11 : decompressor 11 mlk_scalar_decompress_d11.
Lemma decompressor_ok d f u : decompressor d f -> 0 <= u < 2 ^ Z.of_nat d -> f u = Fips203.decompress d u.
Proof.
  intros [] Hu; unfold mlk_scalar_decompress_d4, mlk_scalar_decompress_d5, mlk_scalar_decompress_d10, mlk_scalar_decompress_d11,
    Fips203.decompress, Fips203.round, Fips203.q, MLKEM_Q; cbn in Hu;
    rewrite (u32_small (u * 3329)), u32_small, Z.shiftr_div_pow2 by lia.
  all: match goal with |- s16 (?a / ?b) = _ => rewrite (s16_small (a / b)) by (unfold int16; split; [pose proof (Z.div_pos a b); lia|apply Z.div_lt_upper_bound; lia]) end.
  all: match goal with |- ?a / ?b = ?c / ?d => replace c with (a * 2) by lia; change d with (b * 2) end; symmetry; apply Z.div_mul_cancel_r; lia.
Qed.

Lemma decompress_range d u : 0 <= u < 2 ^ Z.of_nat d -> (1 <= d <= 11)%nat -> 0 <= Fips203.decompress d u < MLKEM_Q.
Proof.
  intros Hu Hd. unfold Fips203.decompress, Fips203.round, Fips203.q, MLKEM_Q.
  assert (2 ^ Z.of_nat d <= 2 ^ 11) by (apply Z.pow_le_mono_r; lia). assert (0 < 2 ^ Z.of_nat d) by lia.
  split; [apply Z.div_pos; lia|]. apply Z.div_lt_upper_bound; [lia|]. change (2 ^ 11) with 2048 in *. nia.
Qed.

(** What is lost: at most half a step of the coarser grid. *)
Lemma decompress_compress d x : (1 <= d <= 11)%nat -> 0 <= x < MLKEM_Q ->
  exists e, toq (Fips203.decompress d (Fips203.compress d x)) = toq (x + e) /\ Z.abs e <= (MLKEM_Q + 2 ^ Z.of_nat d) / 2 ^ (Z.of_nat d + 1).
Proof.
  unfold MLKEM_Q. intros Hd Hx. set (D := 2 ^ Z.of_nat d). rewrite Z.pow_add_r by lia. fold D. change (2 ^ 1) with 2.
  assert (2 <= D <= 2 ^ 11) as HD. { split; [change 2 with (2 ^ 1) at 1|]; apply Z.pow_le_mono_r; lia. }
  unfold Fips203.compress, Fips203.decompress, Fips203.round, Fips203.q. fold D.
  set (y := (2 * (D * x) + 3329) / (2 * 3329)).
  pose proof (Z.div_mod (2 * (D * x) + 3329) (2 * 3329) ltac:(lia)) as Ey. pose proof (Z.mod_pos_bound (2 * (D * x) + 3329) (2 * 3329) ltac:(lia)) as By. fold y in Ey.
  assert (0 <= y <= D) as Hy by nia.
  (* the value before the reduction modulo 2^d *)
  set (z := (2 * (3329 * y) + D) / (2 * D)).
  pose proof (Z.div_mod (2 * (3329 * y) + D) (2 * D) ltac:(lia)) as Ez. pose proof (Z.mod_pos_bound (2 * (3329 * y) + D) (2 * D) ltac:(lia)) as Bz. fold z in Ez.
  exists (z - x). split.
  - replace (x + (z - x)) with z by lia. apply toq_eq. destruct (decide (y = D)) as [E|].
    + rewrite E, Z.mod_same by lia. subst z. rewrite E.
      replace (2 * (3329 * 0) + D) with (D + 0 * (2 * D)) by lia. replace (2 * (3329 * D) + D) with (D + 3329 * (2 * D)) by lia.
      rewrite !Z.div_add, (Z.div_small D) by lia. reflexivity.
    + by rewrite (Z.mod_small y D) by lia.
  - apply Z.div_le_lower_bound; [lia|]. revert Ey By Ez Bz.
    generalize ((2 * (D * x) + 3329) mod (2 * 3329)), ((2 * (3329 * y) + D) mod (2 * D)). intros r s. 
    clearbody y z. intros. assert (2 * D * (z - x) = 3329 + D - s - r) by nia. 
    assert (- (2 * 3329) < - r) by lia.
    destruct (Z.abs_spec (z - x)) as [[_ ->]|[_ ->]]; nia.
Qed.

(** ** Polynomials *)

Section poly.
Context (a : list Z) (Ha : canonical a).

Lemma compress_within d f : compressor d f -> forall x, (x < 256)%nat -> 0 <= f (coef a x) < 2 ^ Z.of_nat d.
Proof using Ha. intros Hf x Hx. rewrite (compressor_ok d f) by (done || apply Ha, Hx). apply compress_range. Qed.
Lemma compress_map d f : compressor d f -> f <$> a = Fips203.compress d <$> a.
Proof using Ha.
  intros Hf. destruct Ha as [Hl H]. apply list_fmap_ext. intros x c E. apply (compressor_ok d f _ Hf).
  specialize (H x ltac:(rewrite <- Hl; by apply (lookup_lt_Some _ _ _ E))). unfold coef in H. by rewrite nth_lookup, E in H.
Qed.

Lemma poly_compress_d4_ok : mlk_poly_compress_d4 a = Fips203.byte_encode 4 (Fips203.compress 4 <$> a).
Proof using Ha.
  rewrite <- (compress_map 4 _ compressor_d4). refine (encode_ok 4 8 4 32 _ mlk_scalar_compress_d4 a _ _ _ encodes_d4 _ _); [lia|done|done|apply Ha|by apply compress_within; constructor].
Qed.
Lemma poly_compress_d5_ok : mlk_poly_compress_d5 a = Fips203.byte_encode 5 (Fips203.compress 5 <$> a).
Proof using Ha.
  rewrite <- (compress_map 5 _ compressor_d5). refine (encode_ok 5 8 5 32 _ mlk_scalar_compress_d5 a _ _ _ encodes_d5 _ _); [lia|done|done|apply Ha|by apply compress_within; constructor].
Qed.
Lemma poly_compress_d10_ok : mlk_poly_compress_d10 a = Fips203.byte_encode 10 (Fips203.compress 10 <$> a).
Proof using Ha.
  rewrite <- (compress_map 10 _ compressor_d10). refine (encode_ok 10 4 5 64 _ mlk_scalar_compress_d10 a _ _ _ encodes_d10 _ _); [lia|done|done|apply Ha|by apply compress_within; constructor].
Qed.
Lemma poly_compress_d11_ok : mlk_poly_compress_d11 a = Fips203.byte_encode 11 (Fips203.compress 11 <$> a).
Proof using Ha.
  rewrite <- (compress_map 11 _ compressor_d11). refine (encode_ok 11 8 11 32 _ mlk_scalar_compress_d11 a _ _ _ encodes_d11 _ _); [lia|done|done|apply Ha|by apply compress_within; constructor].
Qed.

Lemma u16_canonical x : (x < 256)%nat -> u16 (coef a x) = coef a x.
Proof using Ha. intros Hx. apply Z.mod_small. pose proof (proj2 Ha x Hx). unfold MLKEM_Q in *. lia. Qed.
Lemma poly_tobytes_ok : mlk_poly_tobytes a = Fips203.byte_encode 12 a.
Proof using Ha.
  assert (u16 <$> a = a) as E.
  { apply coef_ext; [by rewrite length_fmap|]. rewrite length_fmap. intros x Hx. rewrite coef_fmap by done. apply u16_canonical. by rewrite <- (proj1 Ha). }
  rewrite <- E at 2. rewrite <- (encode_ok 12 2 3 128 _ u16 a ltac:(lia) eq_refl eq_refl encodes_d12 (proj1 Ha)).
  - unfold mlk_poly_tobytes. apply flat_map_ext. intros i. cbv zeta. rewrite !coef_gather by lia. by rewrite Nat.add_0_r.
  - intros x Hx. rewrite u16_canonical by done. pose proof (proj2 Ha x Hx). unfold MLKEM_Q in *. cbn. lia.
Qed.
End poly.

Lemma raw_decode_length d B : length (raw_decode d B) = 256%nat.
Proof. unfold raw_decode. by rewrite length_fmap, length_seq. Qed.
Lemma raw_decode_range d B x : 0 <= coef (raw_decode d B) x < 2 ^ Z.of_nat d.
Proof.
  destruct (decide (x < 256)%nat) as [Hx|Hx].
  - unfold raw_decode. rewrite coef_fmap_seq by done. apply bits_val_range.
  - unfold coef. rewrite nth_overflow by (rewrite raw_decode_length; lia). lia.
Qed.
Lemma byte_decode_raw d B : Fips203.byte_decode d B = (fun c => c mod (if (d =? 12)%nat then Fips203.q else 2 ^ Z.of_nat d)) <$> raw_decode d B.
Proof. unfold Fips203.byte_decode, raw_decode. by rewrite <- list_fmap_compose. Qed.
Lemma byte_decode_small d B : d <> 12%nat -> Fips203.byte_decode d B = raw_decode d B.
Proof.
  intros Hd. rewrite byte_decode_raw, (proj2 (Nat.eqb_neq d 12)) by done. apply coef_ext; [by rewrite length_fmap|].
  rewrite length_fmap. intros x Hx. rewrite coef_fmap by done. apply Z.mod_small, raw_decode_range.
Qed.

(** Only the octets of the encoding are read. *)
Lemma raw_decode_take d B : raw_decode d (take (32 * d) B) = raw_decode d B.
Proof.
  apply coef_ext; rewrite !raw_decode_length; [done|]. intros x Hx. unfold raw_decode. rewrite !coef_fmap_seq by done.
  apply bits_val_eq; [apply bits_val_range|]. intros k Hk. rewrite bits_val_bit, Nat2Z.id, (proj2 (Z.ltb_lt _ _)) by lia. cbn [andb].
  f_equal. rewrite octet_at_take; [done|]. apply Nat.Div0.div_lt_upper_bound. nia.
Qed.
Lemma byte_decode_take d B : Fips203.byte_decode d (take (32 * d) B) = Fips203.byte_decode d B.
Proof. by rewrite !byte_decode_raw, raw_decode_take. Qed.

Section decode.
Context (B : bytes).

Lemma decompress_map d f : decompressor d f -> d <> 12%nat -> f <$> raw_decode d B = Fips203.decompress d <$> Fips203.byte_decode d B.
Proof.
  intros Hf Hd. rewrite byte_decode_small by done. apply coef_ext; [by rewrite !length_fmap|]. rewrite length_fmap. intros x Hx.
  rewrite !coef_fmap by done. apply (decompressor_ok d f _ Hf), raw_decode_range.
Qed.

Lemma poly_decompress_d4_ok : mlk_poly_decompress_d4 B = Fips203.decompress 4 <$> Fips203.byte_decode 4 B.
Proof.
  rewrite <- (decompress_map 4 _ decompressor_d4) by done. rewrite <- (decode_ok 4 2 1 128 _ mlk_scalar_decompress_d4 B ltac:(lia) eq_refl eq_refl decodes_d4).
  unfold mlk_poly_decompress_d4. apply flat_map_ext. intros i. cbn [fmap list_fmap]. by replace (1 * i + 0)%nat with i by lia.
Qed.
Lemma poly_decompress_d5_ok : mlk_poly_decompress_d5 B = Fips203.decompress 5 <$> Fips203.byte_decode 5 B.
Proof.
  rewrite <- (decompress_map 5 _ decompressor_d5) by done. rewrite <- (decode_ok 5 8 5 32 _ mlk_scalar_decompress_d5 B ltac:(lia) eq_refl eq_refl decodes_d5).
  unfold mlk_poly_decompress_d5. apply flat_map_ext. intros i. by rewrite (Nat.mul_comm 5 i).
Qed.
Lemma poly_decompress_d10_ok : mlk_poly_decompress_d10 B = Fips203.decompress 10 <$> Fips203.byte_decode 10 B.
Proof.
  rewrite <- (decompress_map 10 _ decompressor_d10) by done. by rewrite <- (decode_ok 10 4 5 64 _ mlk_scalar_decompress_d10 B ltac:(lia) eq_refl eq_refl decodes_d10).
Qed.
Lemma poly_decompress_d11_ok : mlk_poly_decompress_d11 B = Fips203.decompress 11 <$> Fips203.byte_decode 11 B.
Proof.
  rewrite <- (decompress_map 11 _ decompressor_d11) by done. by rewrite <- (decode_ok 11 8 11 32 _ mlk_scalar_decompress_d11 B ltac:(lia) eq_refl eq_refl decodes_d11).
Qed.

Lemma decompressed_canonical d : (1 <= d <= 11)%nat -> canonical (Fips203.decompress d <$> Fips203.byte_decode d B).
Proof.
  intros Hd. rewrite byte_decode_small by lia. split; [by rewrite length_fmap, raw_decode_length|]. intros x Hx.
  rewrite coef_fmap by by rewrite raw_decode_length. apply decompress_range; [apply raw_decode_range|done].
Qed.

Lemma poly_frombytes_raw : mlk_poly_frombytes B = raw_decode 12 B.
Proof.
  transitivity (s16 <$> raw_decode 12 B).
  - rewrite <- (decode_ok 12 2 3 128 _ s16 B ltac:(lia) eq_refl eq_refl decodes_d12).
    unfold mlk_poly_frombytes. apply flat_map_ext. intros i. done.
  - apply coef_ext; [by rewrite length_fmap|]. rewrite length_fmap. intros x Hx. rewrite coef_fmap by done.
    apply s16_small. pose proof (raw_decode_range 12 B x). unfold int16. change (2 ^ Z.of_nat 12) with 4096 in *. lia.
Qed.
Lemma poly_frombytes_ok : uint12 (mlk_poly_frombytes B) /\ (fun c => c mod MLKEM_Q) <$> mlk_poly_frombytes B = Fips203.byte_decode 12 B.
Proof.
  rewrite poly_frombytes_raw, byte_decode_raw. split; [|done]. split; [apply raw_decode_length|]. intros x Hx. apply (raw_decode_range 12).
Qed.
End decode.

(** ** Messages: one bit for each coefficient *)

Lemma bit_mask v j : 0 <= v < 256 -> (j < 8)%nat -> Z.land v (u8 (Z.shiftl 1 (Z.of_nat j))) = if Z.testbit v (Z.of_nat j) then 2 ^ Z.of_nat j else 0.
Proof.
  intros Hv Hj. rewrite Z.shiftl_1_l. unfold u8. rewrite Z.mod_small by (split; [lia|apply Z.pow_lt_mono_r; lia]).
  apply Z.bits_inj'. intros n Hn. rewrite Z.land_spec. destruct (decide (n = Z.of_nat j)) as [->|Hne].
  - rewrite Z.pow2_bits_true by lia. rewrite andb_true_r. destruct (Z.testbit v (Z.of_nat j)); [by rewrite Z.pow2_bits_true by lia|by rewrite Z.bits_0].
  - rewrite Z.pow2_bits_false, andb_false_r by lia. destruct (Z.testbit v (Z.of_nat j)); [by rewrite Z.pow2_bits_false by lia|by rewrite Z.bits_0].
Qed.

Lemma decompress_1 b : Fips203.decompress 1 (Z.b2z b) = if b then MLKEM_Q_HALF else 0.
Proof. by destruct b. Qed.
Lemma raw_decode_bit B x : (x < 256)%nat -> coef (raw_decode 1 B) x = Z.b2z (Z.testbit (octet_at B (x / 8)) (Z.of_nat (x mod 8))).
Proof.
  intros Hx. unfold raw_decode. rewrite coef_fmap_seq by done. cbn [Fips203.bits_val]. rewrite Nat.mul_1_l, Nat.add_0_r. lia.
Qed.

Lemma frommsg_ok msg : mlk_poly_frommsg msg = Fips203.decompress 1 <$> Fips203.byte_decode 1 msg.
Proof.
  rewrite byte_decode_small by done. unfold mlk_poly_frommsg, mlk_value_barrier_u8. cbv zeta.
  destruct (flat_map_pieces (fun i => (fun j => mlk_ct_sel_int16 MLKEM_Q_HALF 0 (Z.land (octet_at msg i) (u8 (Z.shiftl 1 (Z.of_nat j))))) <$> seq 0 8)
    8 (MLKEM_N / 8)) as [Hl HR]; [intros; by rewrite length_fmap, length_seq|].
  apply coef_ext; [by rewrite length_fmap, raw_decode_length, Hl|]. rewrite Hl. change (8 * (MLKEM_N / 8))%nat with 256%nat. intros x Hx.
  rewrite coef_fmap, raw_decode_bit, decompress_1 by (rewrite ?raw_decode_length; done).
  destruct (split_index 8 32 x ltac:(lia) Hx) as (i & j & Hi & Hj & ->).
  unfold coef. rewrite HR by done. fold (coef ((fun j => mlk_ct_sel_int16 MLKEM_Q_HALF 0 (Z.land (octet_at msg i) (u8 (Z.shiftl 1 (Z.of_nat j))))) <$> seq 0 8) j).
  rewrite coef_fmap_seq, bit_mask by (done || apply octet_at_range).
  rewrite (Nat.mul_comm 8 i), Nat.div_add_l, (Nat.add_comm (i * 8)), Nat.Div0.mod_add, Nat.div_small, Nat.mod_small, Nat.add_0_r by lia.
  destruct (Z.testbit (octet_at msg i) (Z.of_nat j)).
  - rewrite ct_sel_int16_ok; [|done|done|split; [lia|apply Z.pow_lt_mono_r; lia]]. by rewrite (proj2 (Z.eqb_neq _ _)) by lia.
  - by rewrite ct_sel_int16_ok by done.
Qed.

Lemma tomsg_fold f n : (n <= 8)%nat -> (forall j, (j < n)%nat -> 0 <= f j < 2) ->
  fold_left (fun m j => Z.lor m (u8 (Z.shiftl (f j) (Z.of_nat j)))) (seq 0 n) 0 = Fips203.bits_val n (fun k => Z.testbit (f k) 0).
Proof.
  intros Hn Hf. induction n as [|n IH]; [done|]. rewrite seq_S, fold_left_app, IH by (lia || (intros; apply Hf; lia)). cbn [fold_left Nat.add].
  symmetry. specialize (Hf n ltac:(lia)).
  assert (0 <= Z.shiftl (f n) (Z.of_nat n) < 2 ^ Z.of_nat (S n)) as Hs.
  { rewrite Z.shiftl_mul_pow2, Nat2Z.inj_succ, Z.pow_succ_r by lia. assert (0 < 2 ^ Z.of_nat n) by lia. nia. }
  assert (u8 (Z.shiftl (f n) (Z.of_nat n)) = Z.shiftl (f n) (Z.of_nat n)) as ->.
  { apply Z.mod_small. split; [lia|]. eapply Z.lt_le_trans; [apply Hs|]. apply Z.pow_le_mono_r; lia. }
  apply bits_val_eq.
  - apply lor_range; [|done]. pose proof (bits_val_range n (fun k => Z.testbit (f k) 0)). rewrite Nat2Z.inj_succ, Z.pow_succ_r by lia. lia.
  - intros k Hk. rewrite Z.lor_spec, bits_val_bit, Z.shiftl_spec, Nat2Z.id by lia. destruct (decide (k = n)) as [->|].
    + by rewrite (proj2 (Z.ltb_ge _ _)), Z.sub_diag by lia.
    + rewrite (proj2 (Z.ltb_lt _ _)), (Z.testbit_neg_r (f n)), orb_false_r by lia. done.
Qed.

Lemma tomsg_ok a : canonical a -> mlk_poly_tomsg a = Fips203.byte_encode 1 (Fips203.compress 1 <$> a).
Proof.
  intros [Hl Ha]. unfold mlk_poly_tomsg, Fips203.byte_encode. change (MLKEM_N / 8)%nat with (32 * 1)%nat.
  apply list_fmap_ext. intros i j E. apply lookup_seq in E as [-> Hi]. f_equal. cbn [Nat.add].
  rewrite (tomsg_fold (fun j => mlk_scalar_compress_d1 (coef a (8 * i + j)))).
  - apply bits_val_eq; [apply bits_val_range|]. intros k Hk. rewrite bits_val_bit, Nat2Z.id, (proj2 (Z.ltb_lt _ _)) by lia. cbn [andb].
    rewrite Nat.div_1_r, Nat.mod_1_r, coef_fmap by lia. by rewrite (compressor_ok 1 _ _ compressor_d1) by (apply Ha; lia).
  - done.
  - intros k Hk. rewrite (compressor_ok 1 _ _ compressor_d1) by (apply Ha; lia). apply (compress_range 1).
Qed.

(** ** Round trips of the codec *)

Lemma byte_encode_length d F : length (Fips203.byte_encode d F) = (32 * d)%nat.
Proof. unfold Fips203.byte_encode. by rewrite length_fmap, length_seq. Qed.

Lemma byte_encode_bit d F i k : (i < 32 * d)%nat -> (k < 8)%nat ->
  Z.testbit (octet_at (Fips203.byte_encode d F) i) (Z.of_nat k) = Z.testbit (coef F ((8 * i + k) / d)) (Z.of_nat ((8 * i + k) mod d)).
Proof.
  intros Hi Hk. unfold Fips203.byte_encode. rewrite octet_at_fmap_seq by done. rewrite Z.mod_small by apply (bits_val_range 8).
  by rewrite bits_val_bit, Nat2Z.id, (proj2 (Z.ltb_lt _ _)) by lia.
Qed.

Lemma raw_decode_encode d F : (0 < d)%nat -> length F = 256%nat -> (forall x, (x < 256)%nat -> 0 <= coef F x < 2 ^ Z.of_nat d) ->
  raw_decode d (Fips203.byte_encode d F) = F.
Proof.
  intros Hd Hl HF. apply coef_ext; rewrite raw_decode_length; [done|]. intros x Hx. unfold raw_decode. rewrite coef_fmap_seq by done.
  apply bits_val_eq; [by apply HF|]. intros k Hk.
  rewrite byte_encode_bit; [|apply Nat.Div0.div_lt_upper_bound; nia|apply Nat.mod_upper_bound; lia].
  rewrite <- Nat.div_mod_eq. rewrite (Nat.mul_comm d x), (Nat.add_comm (x * d)), Nat.div_add, Nat.Div0.mod_add, Nat.div_small, Nat.mod_small by lia. done.
Qed.
Lemma byte_encode_decode d B : (0 < d)%nat -> length B = (32 * d)%nat -> Fips203.byte_encode d (raw_decode d B) = B.
Proof.
  intros Hd Hl. apply octets_ext; [by rewrite byte_encode_length|]. rewrite byte_encode_length. intros i Hi.
  apply Z.bits_inj'. intros n Hn. destruct (decide (n < 8)) as [Hn8|].
  - rewrite <- (Z2Nat.id n) by lia. generalize (Z.to_nat n) (proj1 (Z2Nat.inj_lt n 8 Hn ltac:(lia)) Hn8). intros k Hk. change (Z.to_nat 8) with 8%nat in Hk.
    rewrite byte_encode_bit by done. unfold raw_decode. pose proof (Nat.mod_upper_bound (8 * i + k) d ltac:(lia)).
    rewrite coef_fmap_seq by (apply Nat.Div0.div_lt_upper_bound; nia).
    rewrite bits_val_bit, Nat2Z.id, (proj2 (Z.ltb_lt _ _)) by lia. cbn [andb]. rewrite <- Nat.div_mod_eq.
    rewrite (Nat.mul_comm 8 i), (Nat.add_comm (i * 8)), Nat.div_add, Nat.Div0.mod_add, Nat.div_small, Nat.mod_small by lia. done.
  - rewrite !(bit_out 8) by (apply octet_at_range || lia). done.
Qed.
Lemma byte_decode_encode_12 F : canonical F -> Fips203.byte_decode 12 (Fips203.byte_encode 12 F) = F.
Proof.
  intros [Hl HF]. rewrite byte_decode_raw. rewrite raw_decode_encode; [|lia|done|].
  - apply coef_ext; [by rewrite length_fmap|]. rewrite length_fmap, Hl. intros x Hx. rewrite coef_fmap by lia. apply Z.mod_small, HF, Hx.
  - intros x Hx. specialize (HF x Hx). unfold MLKEM_Q in HF. change (2 ^ Z.of_nat 12) with 4096. lia.
Qed.
