(* ===== verification/MlkSampling.v ===== *)
(** * MlkSampling: polynomials from hash output ([sampling.c], [symmetric.h], [poly_k.c], [indcpa.c])

    The array that rejection sampling fills is the list of what has been written so far, its
    length the counter [ctr].  The loops that squeeze until a polynomial is full have no bound
    in the code: [fuel] is the number of blocks they may squeeze, [None] is that it was not
    enough.  The clearing of buffers is not modelled. *)
From S2P Require Import Prelude Octets CInt Keccak MlkPoly.

(** ** [symmetric.h] *)

Definition mlk_hash_h (input : bytes) : option bytes := mlk_sha3_256 input.
Definition mlk_hash_g (input : bytes) : option bytes := mlk_sha3_512 input.
Definition mlk_hash_j (input : bytes) : option bytes := mlk_shake256 MLKEM_SYMBYTES input.
Definition MLKEM_ETA1 : nat := 2.
Definition mlk_prf_eta1 (input : bytes) : option bytes := mlk_shake256 (MLKEM_ETA1 * MLKEM_N / 4) input.
Definition MLK_XOF_RATE : nat := SHAKE128_RATE.

(** ** [sampling.c] *)

Fixpoint rej_uniform_loop (fuel : nat) (r : list Z) (target : nat) (buf : bytes) (pos : nat) : option (list Z) :=
  if (length r <? target)%nat && (pos + 3 <=? length buf)%nat then
    match fuel with
    | O => None
    | S fuel =>
        let val0 := Z.land (Z.lor (Z.shiftr (octet_at buf (pos + 0)) 0) (Z.shiftl (octet_at buf (pos + 1)) 8)) 0xFFF in
        let val1 := Z.land (Z.lor (Z.shiftr (octet_at buf (pos + 1)) 4) (Z.shiftl (octet_at buf (pos + 2)) 4)) 0xFFF in
        let r := if val0 <? MLKEM_Q then r ++ [val0] else r in
        let r := if (length r <? target)%nat && (val1 <? MLKEM_Q) then r ++ [val1] else r in
        rej_uniform_loop fuel r target buf (pos + 3)
    end
  else Some r.
Definition mlk_rej_uniform (r : list Z) (target : nat) (buf : bytes) : option (list Z) :=
  rej_uniform_loop (length buf) r target buf 0.

Definition MLKEM_GEN_MATRIX_NBLOCKS : nat :=
  Z.to_nat ((12 * Z.of_nat MLKEM_N / 8 * 2 ^ 12 / MLKEM_Q + Z.of_nat MLK_XOF_RATE) / Z.of_nat MLK_XOF_RATE).

Fixpoint rej_uniform_blocks (fuel : nat) (r : list Z) (state : list Z) : option (list Z) :=
  if (length r <? MLKEM_N)%nat then
    match fuel with
    | O => None
    | S fuel =>
        let '(buf, state) := mlk_shake128_squeezeblocks 1 state in
        r ← mlk_rej_uniform r MLKEM_N buf;
        rej_uniform_blocks fuel r state
    end
  else Some r.
Definition mlk_poly_rej_uniform (fuel : nat) (seed : bytes) : option mlk_poly :=
  state ← mlk_shake128_absorb_once seed;
  let '(buf, state) := mlk_shake128_squeezeblocks MLKEM_GEN_MATRIX_NBLOCKS state in
  r ← mlk_rej_uniform [] MLKEM_N buf;
  rej_uniform_blocks fuel r state.

(** Four polynomials at once; every one gets every block. *)
Definition rej_uniform_x4 (r : list (list Z)) (buf : list bytes) : option (list (list Z)) :=
  mapM (fun '(r, buf) => mlk_rej_uniform r MLKEM_N buf) (zip r buf).
Fixpoint rej_uniform_blocks_x4 (fuel : nat) (r : list (list Z)) (statex : list (list Z)) : option (list (list Z)) :=
  if existsb (fun r => (length r <? MLKEM_N)%nat) r then
    match fuel with
    | O => None
    | S fuel =>
        let '(buf, statex) := mlk_shake128x4_squeezeblocks 1 statex in
        r ← rej_uniform_x4 r buf;
        rej_uniform_blocks_x4 fuel r statex
    end
  else Some r.
Definition mlk_poly_rej_uniform_x4 (fuel : nat) (seed : list bytes) : option (list mlk_poly) :=
  statex ← mlk_shake128x4_absorb_once seed (MLKEM_SYMBYTES + 2);
  let '(buf, statex) := mlk_shake128x4_squeezeblocks MLKEM_GEN_MATRIX_NBLOCKS statex in
  r ← rej_uniform_x4 (replicate 4 []) buf;
  rej_uniform_blocks_x4 fuel r statex.

Definition mlk_load32_littleendian (x : bytes) (o : nat) : Z :=
  let r := octet_at x (o + 0) in
  let r := Z.lor r (Z.shiftl (octet_at x (o + 1)) 8) in
  let r := Z.lor r (Z.shiftl (octet_at x (o + 2)) 16) in
  Z.lor r (Z.shiftl (octet_at x (o + 3)) 24).

Definition mlk_poly_cbd2 (buf : bytes) : mlk_poly :=
  flat_map (fun i =>
    let t := mlk_load32_littleendian buf (4 * i) in
    let d := Z.land t 0x55555555 in
    let d := u32 (d + Z.land (Z.shiftr t 1) 0x55555555) in
    (fun j =>
      let a := Z.land (Z.shiftr d (Z.of_nat (4 * j + 0))) 0x3 in
      let b := Z.land (Z.shiftr d (Z.of_nat (4 * j + 2))) 0x3 in
      s16 (a - b)) <$> seq 0 8) (seq 0 (MLKEM_N / 8)).

(** ** [poly_k.c]: noise *)

Definition mlk_poly_cbd_eta1 (buf : bytes) : mlk_poly := mlk_poly_cbd2 buf.

(** Three polynomials, and a fourth if its pointer [r3] is not null; the hash functions are called one by one. *)
Definition mlk_poly_getnoise_eta1_4x (r3 : bool) (seed : bytes) (nonce0 nonce1 nonce2 nonce3 : Z) : option (list mlk_poly) :=
  let extkey nonce := take MLKEM_SYMBYTES seed ++ [byte_of_Z nonce] in
  buf0 ← mlk_prf_eta1 (extkey nonce0);
  buf1 ← mlk_prf_eta1 (extkey nonce1);
  buf2 ← mlk_prf_eta1 (extkey nonce2);
  let p0 := mlk_poly_cbd_eta1 buf0 in
  let p1 := mlk_poly_cbd_eta1 buf1 in
  let p2 := mlk_poly_cbd_eta1 buf2 in
  if r3 then
    buf3 ← mlk_prf_eta1 (extkey nonce3);
    Some [p0; p1; p2; mlk_poly_cbd_eta1 buf3]
  else Some [p0; p1; p2].
Definition mlk_poly_getnoise_eta2_4x : bool -> bytes -> Z -> Z -> Z -> Z -> option (list mlk_poly) := mlk_poly_getnoise_eta1_4x.

(** ** [indcpa.c]: the matrix *)

Definition mlk_polymat : Type := list mlk_polyvec.

Definition seed_ext (seed : bytes) (transposed : bool) (i : nat) : bytes :=
  let x := byte_of_Z (Z.of_nat (i / MLKEM_K)) in
  let y := byte_of_Z (Z.of_nat (i mod MLKEM_K)) in
  take MLKEM_SYMBYTES seed ++ (if transposed then [x; y] else [y; x]).

(** The native backends permute coefficients here; this build does nothing. *)
Definition mlk_polymat_permute_bitrev_to_custom (a : mlk_polymat) : mlk_polymat := a.

(** Entry [i] of the matrix is [a->vec[i / MLKEM_K].vec[i % MLKEM_K]]. *)
Definition mlk_gen_matrix (fuel : nat) (seed : bytes) (transposed : bool) : option mlk_polymat :=
  entries ← foldM (fun entries i =>
    new ← mlk_poly_rej_uniform_x4 fuel ((fun j => seed_ext seed transposed (i + j)) <$> [0; 1; 2; 3]%nat);
    Some (entries ++ new)) [0; 4]%nat [];
  entries ← foldM (fun entries i =>
    new ← mlk_poly_rej_uniform fuel (seed_ext seed transposed i);
    Some (entries ++ [new])) [8]%nat entries;
  Some (mlk_polymat_permute_bitrev_to_custom ((fun x => take MLKEM_K (drop (x * MLKEM_K) entries)) <$> seq 0 MLKEM_K)).
