(* ===== verification/MlkSamplingFacts.v ===== *)
(** * MlkSamplingFacts: sampling is that of FIPS 203

    Rejection sampling returns the first accepted candidates of the stream as soon as the
    blocks it squeezed hold enough; the noise is SamplePolyCBD of the PRF. *)
From Stdlib Require Import Zmod.
From S2P Require Import Prelude Octets CInt Keccak KeccakRounds KeccakFacts MlkPoly MlkArith MlkNtt MlkNttFacts MlkCodec Fips203 MlkCodecFacts MlkSampling.

(** ** Rejection *)

(** What sampling from [C] makes of [r]. *)
Definition fill (r : list Z) (C : bytes) : list Z := take 256 (r ++ Fips203.accepted C).

Lemma fill_full r C : length r = 256%nat -> fill r C = r.
Proof. intros H. unfold fill. rewrite take_app_le by lia. by apply take_ge; lia. Qed.
Lemma fill_length r C : (length (fill r C) <= 256)%nat.
Proof. unfold fill. rewrite length_take. lia. Qed.
Lemma candidates_short C : (length C < 3)%nat -> Fips203.candidates C = [].
Proof. intros H. destruct C as [|a [|b [|c C]]]; [done..|]. cbn [length] in H. lia. Qed.

Lemma candidates_app C D m : length C = (3 * m)%nat -> Fips203.candidates (C ++ D) = Fips203.candidates C ++ Fips203.candidates D.
Proof.
  revert C. induction m as [|m IH]; intros C HC; [by apply nil_length_inv in HC as ->|].
  destruct C as [|a [|b [|c C]]]; cbn [length] in HC; try lia. cbn [Fips203.candidates app]. by rewrite IH by lia.
Qed.
Lemma accepted_app C D m : length C = (3 * m)%nat -> Fips203.accepted (C ++ D) = Fips203.accepted C ++ Fips203.accepted D.
Proof. intros H. unfold Fips203.accepted. by rewrite (candidates_app _ _ m), list.filter_app by done. Qed.
Lemma fill_app r C D m : length C = (3 * m)%nat -> fill (fill r C) D = fill r (C ++ D).
Proof.
  intros H. unfold fill. rewrite (accepted_app _ _ m), app_assoc by done. set (s := r ++ Fips203.accepted C). clearbody s.
  destruct (decide (length s <= 256)%nat); [by rewrite (take_ge s) by lia|].
  rewrite !take_app_le by (rewrite ?length_take; lia). by rewrite take_take.
Qed.

Lemma candidate_values a b c : 0 <= a < 256 -> 0 <= b < 256 -> 0 <= c < 256 ->
  Z.land (Z.lor (Z.shiftr a 0) (Z.shiftl b 8)) 0xFFF = a + 256 * (b mod 16) /\
  Z.land (Z.lor (Z.shiftr b 4) (Z.shiftl c 4)) 0xFFF = b / 16 + 16 * c.
Proof.
  intros Ha Hb Hc. change 0xFFF with (Z.ones 12). rewrite !Z.land_ones, Z.shiftr_0_r by lia.
  rewrite !(Z.lor_comm _ (Z.shiftl _ _)), !lor_shiftl_add by (rewrite ?Z.shiftr_div_pow2 by lia; dlia).
  rewrite Z.shiftr_div_pow2 by lia. split; dlia.
Qed.

Lemma accepted_cons c0 c1 c2 C :
  Fips203.accepted (c0 :: c1 :: c2 :: C) =
  (let d1 := byte_to_Z c0 + 256 * (byte_to_Z c1 mod 16) in if d1 <? MLKEM_Q then [d1] else []) ++
  (let d2 := byte_to_Z c1 / 16 + 16 * byte_to_Z c2 in if d2 <? MLKEM_Q then [d2] else []) ++ Fips203.accepted C.
Proof.
  unfold Fips203.accepted. cbn [Fips203.candidates]. rewrite !filter_cons. change Fips203.q with MLKEM_Q. cbv zeta.
  destruct (Z.ltb_spec (byte_to_Z c0 + 256 * (byte_to_Z c1 mod 16)) MLKEM_Q) as [H1|H1], (Z.ltb_spec (byte_to_Z c1 / 16 + 16 * byte_to_Z c2) MLKEM_Q) as [H2|H2];
    repeat first [rewrite decide_True by lia | rewrite decide_False by lia]; done.
Qed.

Lemma push_length r (b b' : bool) (v v' : Z) : (length r < 256)%nat ->
  let r' := if b then r ++ [v] else r in (length (if (length r' <? 256)%nat && b' then r' ++ [v'] else r') <= 256)%nat.
Proof.
  intros H. cbv zeta. set (r' := if b then r ++ [v] else r).
  assert (length r' <= 256)%nat by (subst r'; destruct b; rewrite ?length_app; cbn [length]; lia).
  destruct (Nat.ltb_spec (length r') 256), b'; cbn [andb]; rewrite ?length_app; cbn [length]; lia.
Qed.
Lemma rej_loop_ok fuel r buf pos : (length r <= 256)%nat -> (length buf <= pos + fuel)%nat ->
  rej_uniform_loop fuel r MLKEM_N buf pos = Some (fill r (drop pos buf)).
Proof.
  unfold MLKEM_N. revert r pos. induction fuel as [|fuel IH]; intros r pos Hr Hf; cbn [rej_uniform_loop];
    destruct (Nat.ltb_spec (length r) 256) as [Hlt|Hge]; cbn [andb]; try by rewrite fill_full by lia.
  - destruct (Nat.leb_spec (pos + 3) (length buf)); [lia|]. unfold fill, Fips203.accepted.
    rewrite candidates_short by (rewrite length_drop; lia). by rewrite app_nil_r, take_ge by lia.
  - destruct (Nat.leb_spec (pos + 3) (length buf)) as [Hp|Hp].
    2: { unfold fill, Fips203.accepted. rewrite candidates_short by (rewrite length_drop; lia). by rewrite app_nil_r, take_ge by lia. }
    cbv zeta. pose proof (octet_at_range buf (pos + 0)). pose proof (octet_at_range buf (pos + 1)). pose proof (octet_at_range buf (pos + 2)).
    destruct (candidate_values (octet_at buf (pos + 0)) (octet_at buf (pos + 1)) (octet_at buf (pos + 2))) as [-> ->]; [done..|].
    rewrite <- !octet_at_drop. pose proof (length_drop buf pos) as Hld. rewrite (Nat.add_comm pos 3) in *.
    rewrite IH; [|by apply push_length|lia]. f_equal.
    rewrite (Nat.add_comm 3 pos), <- drop_drop. destruct (drop pos buf) as [|c0 [|c1 [|c2 C]]]; cbn [length] in Hld; try lia.
    unfold octet_at. cbn [lookup list_lookup from_option id drop]. unfold fill. rewrite accepted_cons. cbv zeta.
    destruct (byte_to_Z c0 + 256 * (byte_to_Z c1 mod 16) <? MLKEM_Q); cbn [app].
    + destruct (Nat.ltb_spec (length (r ++ [byte_to_Z c0 + 256 * (byte_to_Z c1 mod 16)])) 256) as [Hl|Hl]; cbn [andb].
      * destruct (_ <? MLKEM_Q); by rewrite <- !app_assoc.
      * rewrite length_app in Hl. cbn [length] in Hl. generalize (byte_to_Z c0 + 256 * (byte_to_Z c1 mod 16)) as v. intros v.
        rewrite take_app_le by (rewrite length_app; cbn [length]; lia). symmetry.
        match goal with |- take _ (r ++ v :: ?l) = _ => change (r ++ v :: l) with (r ++ [v] ++ l) end.
        rewrite app_assoc. apply take_app_le. rewrite length_app. cbn [length]. lia.
    + rewrite (proj2 (Nat.ltb_lt _ _)) by lia. cbn [andb]. destruct (_ <? MLKEM_Q); by rewrite <- ?app_assoc.
Qed.
Lemma rej_uniform_ok r buf : (length r <= 256)%nat -> mlk_rej_uniform r MLKEM_N buf = Some (fill r buf).
Proof. intros H. unfold mlk_rej_uniform. rewrite rej_loop_ok by lia. by rewrite drop_0. Qed.

(** ** Streams *)

Lemma squeezeblocks_length n s r : length (fst (mlk_keccak_squeezeblocks n s r)) = (n * r)%nat.
Proof.
  revert s. induction n as [|n IH]; intros s; [done|]. cbn [mlk_keccak_squeezeblocks]. cbv zeta.
  specialize (IH (mlk_keccakf1600_permute s)). destruct (mlk_keccak_squeezeblocks n _ r). cbn [fst] in *.
  rewrite length_app, IH. unfold mlk_keccakf1600_extract_bytes. rewrite length_fmap, length_seq. lia.
Qed.

(** The outcome of sampling into [r] from [n] more blocks. *)
Definition sampled (r : list Z) (C : bytes) : option (list Z) :=
  let a := fill r C in if (length a =? 256)%nat then Some a else None.
Definition stream (n : nat) (s : list Z) : bytes := fst (mlk_shake128_squeezeblocks n s).

Lemma stream_S n s : stream (S n) s = stream 1 s ++ stream n (snd (mlk_shake128_squeezeblocks 1 s)).
Proof.
  unfold stream, mlk_shake128_squeezeblocks. change (S n) with (1 + n)%nat. rewrite squeezeblocks_app.
  destruct (mlk_keccak_squeezeblocks 1 s SHAKE128_RATE) as [h s1]. cbn [fst snd]. by destruct (mlk_keccak_squeezeblocks n s1 SHAKE128_RATE).
Qed.
Lemma stream_triples n s : length (stream n s) = (3 * (56 * n))%nat.
Proof. unfold stream, mlk_shake128_squeezeblocks. rewrite squeezeblocks_length. unfold SHAKE128_RATE. lia. Qed.

Lemma sampled_step r n s : sampled r (stream (S n) s) = sampled (fill r (stream 1 s)) (stream n (snd (mlk_shake128_squeezeblocks 1 s))).
Proof. unfold sampled. by rewrite stream_S, (fill_app _ _ _ _ (stream_triples 1 s)). Qed.
Lemma sampled_full r C : length r = 256%nat -> sampled r C = Some r.
Proof. intros H. unfold sampled. by rewrite fill_full, H. Qed.
Lemma sampled_nil r : (length r < 256)%nat -> sampled r [] = None.
Proof.
  intros H. unfold sampled, fill, Fips203.accepted. cbn [Fips203.candidates]. rewrite filter_nil, app_nil_r, take_ge by lia.
  by rewrite (proj2 (Nat.eqb_neq _ _)) by lia.
Qed.

Lemma rej_uniform_blocks_ok fuel r s : (length r <= 256)%nat -> rej_uniform_blocks fuel r s = sampled r (stream fuel s).
Proof.
  revert r s. induction fuel as [|fuel IH]; intros r s Hr; cbn [rej_uniform_blocks]; unfold MLKEM_N at 1;
    destruct (Nat.ltb_spec (length r) 256) as [Hlt|Hge].
  - by rewrite sampled_nil.
  - by rewrite sampled_full by lia.
  - rewrite sampled_step. unfold stream at 1. destruct (mlk_shake128_squeezeblocks 1 s) as [buf s1]. cbn [fst snd].
    rewrite rej_uniform_ok by done. cbn [mbind option_bind]. apply IH, fill_length.
  - by rewrite sampled_full by lia.
Qed.

(** The state after the first blocks. *)
Lemma stream_skip a b s : stream (a + b) s = stream a s ++ stream b (snd (mlk_shake128_squeezeblocks a s)).
Proof.
  unfold stream, mlk_shake128_squeezeblocks. rewrite squeezeblocks_app.
  destruct (mlk_keccak_squeezeblocks a s SHAKE128_RATE) as [h s1]. cbn [fst snd]. by destruct (mlk_keccak_squeezeblocks b s1 SHAKE128_RATE).
Qed.

Lemma sample_ntt_stream n seed s : mlk_shake128_absorb_once seed = Some s -> Fips203.sample_ntt n seed = sampled [] (stream n s).
Proof.
  intros E. unfold Fips203.sample_ntt, sampled, fill, stream. 
  assert (fst (mlk_shake128_squeezeblocks n s) = Fips202.shake128 seed (n * 168)) as ->; [|done].
  exact (stream_ok 168 0x1F ltac:(lia) ltac:(lia) seed s n E).
Qed.
Lemma absorb_some seed : exists s, mlk_shake128_absorb_once seed = Some s.
Proof. destruct (absorb_ok SHAKE128_RATE 0x1F ltac:(unfold SHAKE128_RATE; lia) ltac:(lia) seed) as (s & E & _). by exists s. Qed.

Lemma poly_rej_uniform_ok fuel seed : mlk_poly_rej_uniform fuel seed = Fips203.sample_ntt (3 + fuel) seed.
Proof.
  destruct (absorb_some seed) as [s E]. rewrite (sample_ntt_stream _ _ s E). unfold mlk_poly_rej_uniform. rewrite E. cbn [mbind option_bind].
  change MLKEM_GEN_MATRIX_NBLOCKS with 3%nat. rewrite stream_skip. unfold stream at 1.
  destruct (mlk_shake128_squeezeblocks 3 s) as [buf s1] eqn:Es. cbn [fst snd].
  rewrite rej_uniform_ok by (cbn; lia). cbn [mbind option_bind]. rewrite rej_uniform_blocks_ok by apply fill_length.
  unfold sampled. rewrite (fill_app [] buf _ (56 * 3)); [done|]. rewrite <- (stream_triples 3 s). unfold stream. by rewrite Es.
Qed.

(** ** Four at once *)

Lemma full_exists rs : Forall (fun r => length r <= 256)%nat rs ->
  existsb (fun r : list Z => (length r <? MLKEM_N)%nat) rs = false -> Forall (fun r => length r = 256%nat) rs.
Proof.
  intros HF. unfold MLKEM_N. induction HF as [|r rs Hr _ IH]; [constructor|]. cbn [existsb]. intros [H1%Nat.ltb_ge H2]%orb_false_iff.
  constructor; [lia|by apply IH].
Qed.
Lemma mapM_None_exists {A B} (f : A -> option B) l : (exists x, In x l /\ f x = None) -> mapM f l = None.
Proof.
  intros (x & Hin & Hx). induction l as [|y l IH]; [done|]. destruct Hin as [->|Hin]; cbn [mapM].
  - by rewrite Hx.
  - destruct (f y); [|done]. by rewrite (IH Hin).
Qed.

Lemma rej_uniform_blocks_x4_ok fuel a b c d s1 s2 s3 s4 :
  (length a <= 256)%nat -> (length b <= 256)%nat -> (length c <= 256)%nat -> (length d <= 256)%nat ->
  rej_uniform_blocks_x4 fuel [a; b; c; d] [s1; s2; s3; s4] =
  mapM (fun '(r, s) => sampled r (stream fuel s)) [(a, s1); (b, s2); (c, s3); (d, s4)].
Proof.
  revert a b c d s1 s2 s3 s4. induction fuel as [|fuel IH]; intros a b c d s1 s2 s3 s4 Ha Hb Hc Hd; cbn [rej_uniform_blocks_x4];
    destruct (existsb _ _) eqn:Ex.
  - symmetry. apply mapM_None_exists. unfold MLKEM_N in Ex. cbn [existsb] in Ex.
    rewrite !orb_true_iff, !Nat.ltb_lt in Ex. cbn [In].
    destruct Ex as [Hx|[Hx|[Hx|[Hx|Hx]]]]; [exists (a, s1)|exists (b, s2)|exists (c, s3)|exists (d, s4)|done]; (split; [tauto|by apply sampled_nil]).
  - apply full_exists in Ex; [|by rewrite !list.Forall_cons].
    rewrite !list.Forall_cons in Ex. destruct Ex as (? & ? & ? & ? & _). cbn [mapM]. by rewrite !sampled_full.
  - unfold mlk_shake128x4_squeezeblocks. rewrite squeezeblocks_x4_ok by done.
    unfold rej_uniform_x4. cbn [fmap list_fmap zip_with mapM]. rewrite !rej_uniform_ok by done. cbn [mbind option_bind mret option_ret].
    rewrite IH by apply fill_length. cbn [mapM]. by rewrite !sampled_step.
  - apply full_exists in Ex; [|by rewrite !list.Forall_cons].
    rewrite !list.Forall_cons in Ex. destruct Ex as (? & ? & ? & ? & _). cbn [mapM]. by rewrite !sampled_full.
Qed.

Lemma poly_rej_uniform_x4_ok fuel seeds : length seeds = 4%nat -> Forall (fun s => length s = 34%nat) seeds ->
  mlk_poly_rej_uniform_x4 fuel seeds = mapM (Fips203.sample_ntt (3 + fuel)) seeds.
Proof.
  intros Hl HF. unfold mlk_poly_rej_uniform_x4, mlk_shake128x4_absorb_once. rewrite absorb_once_x4_ok; [|unfold SHAKE128_RATE; lia|done|done].
  destruct seeds as [|a [|b [|c [|d [|]]]]]; try discriminate Hl.
  destruct (absorb_some a) as [s1 E1], (absorb_some b) as [s2 E2], (absorb_some c) as [s3 E3], (absorb_some d) as [s4 E4].
  unfold mlk_shake128_absorb_once in *. cbn [mapM]. rewrite E1, E2, E3, E4. cbn [mbind option_bind mret option_ret].
  rewrite (sample_ntt_stream _ _ s1 E1), (sample_ntt_stream _ _ s2 E2), (sample_ntt_stream _ _ s3 E3), (sample_ntt_stream _ _ s4 E4).
  unfold mlk_shake128x4_squeezeblocks. rewrite squeezeblocks_x4_ok by done. change MLKEM_GEN_MATRIX_NBLOCKS with 3%nat.
  unfold rej_uniform_x4. cbn [fmap list_fmap zip_with replicate mapM]. rewrite !rej_uniform_ok by (cbn; lia). cbn [mbind option_bind mret option_ret].
  rewrite rej_uniform_blocks_x4_ok by apply fill_length. cbn [mapM].
  assert (forall s, sampled [] (stream (3 + fuel) s) =
    sampled (fill [] (fst (mlk_keccak_squeezeblocks 3 s SHAKE128_RATE))) (stream fuel (snd (mlk_keccak_squeezeblocks 3 s SHAKE128_RATE)))) as E.
  { intros s. rewrite stream_skip. unfold sampled. by rewrite <- (fill_app [] _ _ _ (stream_triples 3 s)). }
  by rewrite !E.
Qed.

Lemma candidates_nonneg C : Forall (fun d => 0 <= d) (Fips203.candidates C).
Proof.
  assert (forall n C, (length C <= n)%nat -> Forall (fun d => 0 <= d) (Fips203.candidates C)) as H; [|exact (H _ C (le_n _))].
  clear C. intros n. induction n as [|n IH]; intros C HC.
  - by rewrite candidates_short by lia.
  - destruct C as [|c0 [|c1 [|c2 C]]]; [constructor..|]. cbn [Fips203.candidates length] in *.
    pose proof (byte_to_Z_range c0). pose proof (byte_to_Z_range c1). pose proof (byte_to_Z_range c2).
    constructor; [dlia|]. constructor; [dlia|]. apply IH. lia.
Qed.
Lemma sample_ntt_canonical k B a : Fips203.sample_ntt k B = Some a -> canonical a.
Proof.
  unfold Fips203.sample_ntt. destruct (Nat.eqb_spec (length (take Fips203.n (Fips203.accepted (Fips202.shake128 B (k * 168))))) Fips203.n) as [E|]; [|done].
  intros [= <-]. split; [exact E|]. intros x Hx. change 256%nat with Fips203.n in Hx.
  apply (proj1 (Forall_coef (fun c => 0 <= c < MLKEM_Q) _)); [|by rewrite E]. apply list.Forall_take. unfold Fips203.accepted.
  rewrite list.Forall_forall. intros c [Hc Hin]%list_elem_of_filter.
  pose proof (candidates_nonneg (Fips202.shake128 B (k * 168))) as H. rewrite list.Forall_forall in H. specialize (H c Hin).
  split; [done|exact Hc].
Qed.

(** ** Noise *)

(** Adjacent bits, added pairwise within the number. *)
Fixpoint mask (n : nat) : Z := match n with O => 0 | S n => 4 * mask n + 1 end.
Lemma mask_nonneg n : 0 <= mask n.
Proof. induction n as [|n IH]; cbn [mask]; lia. Qed.
Lemma land_quarter a m r : 0 <= a -> 0 <= m -> 0 <= r < 4 -> Z.land (4 * a + r) (4 * m + 1) = 4 * Z.land a m + r mod 2.
Proof.
  intros Ha Hm Hr. set (y := Z.land _ _).
  assert (y / 4 = Z.land a m) as E1.
  { subst y. change 4 with (2 ^ 2). rewrite <- !Z.shiftr_div_pow2, Z.shiftr_land, !Z.shiftr_div_pow2 by lia.
    rewrite !(Z.mul_comm (2 ^ 2)), !Z.div_add_l, (Z.div_small r), (Z.div_small 1) by (cbn; lia). by rewrite !Z.add_0_r. }
  assert (y mod 4 = r mod 2) as E2.
  { subst y. change 4 with (2 ^ 2) at 3. rewrite <- Z.land_ones by lia. change (Z.ones 2) with 3. rewrite <- Z.land_assoc.
    replace (Z.land (4 * m + 1) 3) with 1.
    - change 1 with (Z.ones 1). rewrite Z.land_ones by lia. change (2 ^ 1) with 2. dlia.
    - change 3 with (Z.ones 2). rewrite Z.land_ones by lia. change (2 ^ 2) with 4. dlia. }
  rewrite <- E1, <- E2. apply Z.div_mod. lia.
Qed.

Definition pair_sum (n : nat) (t : Z) : Z := Z.land t (mask n) + Z.land (Z.shiftr t 1) (mask n).
Lemma pair_sum_S n t : 0 <= t -> pair_sum (S n) t = 4 * pair_sum n (t / 4) + (t mod 2 + (t / 2) mod 2).
Proof.
  intros Ht. unfold pair_sum. cbn [mask]. pose proof (mask_nonneg n). rewrite !Z.shiftr_div_pow2 by lia. change (2 ^ 1) with 2.
  replace t with (4 * (t / 4) + t mod 4) at 1 by dlia. rewrite land_quarter by dlia.
  replace (t / 2) with (4 * (t / 4 / 2) + (t / 2) mod 4) at 1 by dlia. rewrite land_quarter by dlia.
  replace ((t mod 4) mod 2) with (t mod 2) by dlia. replace (((t / 2) mod 4) mod 2) with ((t / 2) mod 2) by dlia. lia.
Qed.
Lemma pair_sum_digit n t k : 0 <= t -> (k < n)%nat ->
  (pair_sum n t / 4 ^ Z.of_nat k) mod 4 = Z.b2z (Z.testbit t (2 * Z.of_nat k)) + Z.b2z (Z.testbit t (2 * Z.of_nat k + 1)).
Proof.
  revert t k. induction n as [|n IH]; intros t k Ht Hk; [lia|]. rewrite pair_sum_S by done.
  set (r := t mod 2 + (t / 2) mod 2). assert (0 <= r < 4) as Hr by (subst r; dlia). destruct k as [|k].
  - change (4 ^ Z.of_nat 0) with 1. rewrite Z.div_1_r, Z.mul_comm, Z.add_comm, Z_mod_plus_full, Z.mod_small by done.
    subst r. change (2 * Z.of_nat 0) with 0. change (0 + 1) with 1. rewrite Z.bit0_odd, (Z.testbit_odd t 1), Z.shiftr_div_pow2 by lia.
    change (2 ^ 1) with 2. by rewrite !Zmod_odd; destruct (Z.odd t), (Z.odd (t / 2)).
  - rewrite Nat2Z.inj_succ, Z.pow_succ_r, <- Z.div_div by lia. rewrite (Z.mul_comm 4), Z.div_add_l, (Z.div_small r), Z.add_0_r by lia.
    rewrite IH by (dlia || lia). replace (t / 4) with (Z.shiftr t 2) by (by rewrite Z.shiftr_div_pow2 by lia).
    rewrite !Z.shiftr_spec by lia. do 2 f_equal; f_equal; lia.
Qed.
Lemma pair_sum_range n t : 0 <= t -> 0 <= pair_sum n t <= 2 * mask n.
Proof.
  revert t. induction n as [|n IH]; intros t Ht; [unfold pair_sum; cbn; by rewrite !Z.land_0_r|].
  rewrite pair_sum_S by done. specialize (IH (t / 4) ltac:(dlia)). cbn [mask]. dlia.
Qed.

Ltac load_bits b :=
  concrete_index; bit_expr; repeat match goal with
  | |- context [Z.testbit (octet_at ?s ?j) ?n] =>
      rewrite (bit_out 8 (octet_at s j) n (octet_at_range _ _)) by (vm_compute; intuition congruence)
  end; rewrite ?orb_false_r, ?orb_false_l; reflexivity.
Lemma load32_bit s o k : (k < 32)%nat ->
  Z.testbit (mlk_load32_littleendian s o) (Z.of_nat k) = Z.testbit (octet_at s (o + k / 8)) (Z.of_nat (k mod 8)).
Proof. intros Hk. unfold mlk_load32_littleendian. cbv zeta. do 32 (destruct k as [|k]; [load_bits s|]). lia. Qed.
Lemma load32_range s o : 0 <= mlk_load32_littleendian s o < 2 ^ 32.
Proof.
  unfold mlk_load32_littleendian. cbv zeta.
  pose proof (octet_at_range s (o + 0)). pose proof (octet_at_range s (o + 1)). pose proof (octet_at_range s (o + 2)). pose proof (octet_at_range s (o + 3)).
  repeat apply lor_range; rewrite ?Z.shiftl_mul_pow2 by lia; lia.
Qed.

(** The four bits of a coefficient. *)
Lemma cbd2_coef d t j : (j < 8)%nat -> 0 <= t < 2 ^ 32 -> d = pair_sum 16 t ->
  s16 (Z.land (Z.shiftr d (Z.of_nat (4 * j + 0))) 0x3 - Z.land (Z.shiftr d (Z.of_nat (4 * j + 2))) 0x3) =
  Z.b2z (Z.testbit t (Z.of_nat (4 * j))) + Z.b2z (Z.testbit t (Z.of_nat (4 * j + 1))) -
  (Z.b2z (Z.testbit t (Z.of_nat (4 * j + 2))) + Z.b2z (Z.testbit t (Z.of_nat (4 * j + 3)))).
Proof.
  intros Hj Ht ->. change 3 with (Z.ones 2). rewrite !Z.land_ones, !Z.shiftr_div_pow2 by lia. change (2 ^ 2) with 4.
  replace (2 ^ Z.of_nat (4 * j + 0)) with (4 ^ Z.of_nat (2 * j)) by (change 4 with (2 ^ 2); rewrite <- Z.pow_mul_r by lia; f_equal; lia).
  replace (2 ^ Z.of_nat (4 * j + 2)) with (4 ^ Z.of_nat (2 * j + 1)) by (change 4 with (2 ^ 2); rewrite <- Z.pow_mul_r by lia; f_equal; lia).
  rewrite !pair_sum_digit by lia.
  replace (2 * Z.of_nat (2 * j)) with (Z.of_nat (4 * j)) by lia. replace (2 * Z.of_nat (2 * j + 1)) with (Z.of_nat (4 * j + 2)) by lia.
  replace (Z.of_nat (4 * j) + 1) with (Z.of_nat (4 * j + 1)) by lia. replace (Z.of_nat (4 * j + 2) + 1) with (Z.of_nat (4 * j + 3)) by lia.
  repeat match goal with |- context [Z.testbit t ?k] => destruct (Z.testbit t k) end; reflexivity.
Qed.

(** The difference that SamplePolyCBD takes, before its reduction. *)
Definition cbd_value (B : bytes) (i : nat) : Z :=
  let b m := Z.b2z (Z.testbit (octet_at B (m / 8)) (Z.of_nat (m mod 8))) in
  b (4 * i)%nat + b (4 * i + 1)%nat - (b (4 * i + 2)%nat + b (4 * i + 3)%nat).

Lemma cbd2_length buf : length (mlk_poly_cbd2 buf) = 256%nat.
Proof.
  unfold mlk_poly_cbd2. cbv zeta.
  match goal with |- length (flat_map ?g _) = _ => destruct (flat_map_pieces g 8 (MLKEM_N / 8)) as [Hl _] end; [intros; by rewrite length_fmap, length_seq|].
  rewrite Hl. reflexivity.
Qed.
Lemma cbd2_value buf x : (x < 256)%nat -> coef (mlk_poly_cbd2 buf) x = cbd_value buf x.
Proof.
  intros Hx. unfold mlk_poly_cbd2. cbv zeta. unfold coef.
  match goal with |- nth x (flat_map ?g _) 0 = _ => destruct (flat_map_pieces g 8 (MLKEM_N / 8)) as [_ HR] end; [intros; by rewrite length_fmap, length_seq|].
  destruct (split_index 8 32 x ltac:(lia) Hx) as (i & j & Hi & Hj & ->). rewrite HR by done. clear HR.
  rewrite nth_lookup, list_lookup_fmap, lookup_seq_lt by done. cbn [fmap option_fmap option_map from_option id Nat.add].
  pose proof (load32_range buf (4 * i)) as Ht. set (t := mlk_load32_littleendian buf (4 * i)) in *.
  pose proof (pair_sum_range 16 t ltac:(lia)) as Hp. change (2 * mask 16) with 2863311530 in Hp.
  change 0x55555555 with (mask 16). fold (pair_sum 16 t). rewrite u32_small by lia.
  rewrite (cbd2_coef (pair_sum 16 t) t j Hj Ht eq_refl). unfold cbd_value. cbv zeta. subst t. rewrite !load32_bit by lia.
  assert (forall c, (c < 4)%nat -> ((4 * (8 * i + j) + c) / 8 = 4 * i + (4 * j + c) / 8 /\ (4 * (8 * i + j) + c) mod 8 = (4 * j + c) mod 8)%nat) as Hc.
  { intros c Hc. replace (4 * (8 * i + j) + c)%nat with (4 * j + c + 4 * i * 8)%nat by lia. rewrite Nat.div_add, Nat.Div0.mod_add by lia. lia. }
  destruct (Hc 0%nat ltac:(lia)) as [D0 M0]. rewrite !Nat.add_0_r in D0, M0.
  destruct (Hc 1%nat ltac:(lia)) as [D1 M1], (Hc 2%nat ltac:(lia)) as [D2 M2], (Hc 3%nat ltac:(lia)) as [D3 M3].
  by rewrite D0, M0, D1, M1, D2, M2, D3, M3.
Qed.
Lemma cbd2_ok buf : bounded 3 (mlk_poly_cbd2 buf) /\ (fun c => c mod MLKEM_Q) <$> mlk_poly_cbd2 buf = Fips203.sample_poly_cbd 2 buf.
Proof.
  split; [split; [apply cbd2_length|]|].
  - intros x Hx. rewrite cbd2_value by done. unfold cbd_value, within. cbv zeta.
    repeat match goal with |- context [Z.testbit ?t ?k] => destruct (Z.testbit t k) end; cbn [Z.b2z]; lia.
  - apply coef_ext; [rewrite length_fmap, cbd2_length; unfold Fips203.sample_poly_cbd; by rewrite length_fmap, length_seq|].
    rewrite length_fmap, cbd2_length. intros x Hx. rewrite coef_fmap, cbd2_value by (rewrite ?cbd2_length; done).
    unfold Fips203.sample_poly_cbd. rewrite coef_fmap_seq by done. cbn [seq fmap list_fmap fold_right]. unfold cbd_value. cbv zeta.
    f_equal. replace (2 * x * 2)%nat with (4 * x)%nat by lia. replace (4 * x + 2 + 1)%nat with (4 * x + 3)%nat by lia. rewrite !Nat.add_0_r. lia.
Qed.

Lemma hash_h_ok m : mlk_hash_h m = Some (Fips203.H m).
Proof. apply (sponge_ok 136 0x06); lia. Qed.
Lemma hash_g_ok m : mlk_hash_g m = Some (Fips202.sha3_512 m).
Proof. apply (sponge_ok 72 0x06); lia. Qed.
Lemma hash_j_ok m : mlk_hash_j m = Some (Fips203.J m).
Proof. apply (sponge_ok 136 0x1F); lia. Qed.
Lemma H_length m : length (Fips203.H m) = 32%nat.
Proof. apply sponge_length; lia. Qed.
Lemma J_length m : length (Fips203.J m) = 32%nat.
Proof. apply sponge_length; lia. Qed.
Lemma sha3_512_length m : length (Fips202.sha3_512 m) = 64%nat.
Proof. apply sponge_length; lia. Qed.

Lemma prf_ok seed b : length seed = 32%nat -> mlk_prf_eta1 (take MLKEM_SYMBYTES seed ++ [byte_of_Z b]) = Some (Fips203.PRF 2 seed b).
Proof.
  intros H. unfold MLKEM_SYMBYTES. rewrite take_ge by lia. unfold mlk_prf_eta1, Fips203.PRF. change (MLKEM_ETA1 * MLKEM_N / 4)%nat with 128%nat.
  unfold mlk_shake256, SHAKE256_RATE. apply (sponge_ok 136 0x1F); lia.
Qed.

Lemma getnoise_ok r3 seed n0 n1 n2 n3 : length seed = 32%nat ->
  mlk_poly_getnoise_eta1_4x r3 seed n0 n1 n2 n3 =
  Some ((fun b => mlk_poly_cbd2 (Fips203.PRF 2 seed b)) <$> (if r3 then [n0; n1; n2; n3] else [n0; n1; n2])).
Proof.
  intros H. unfold mlk_poly_getnoise_eta1_4x. cbv zeta. rewrite !prf_ok by done. by destruct r3.
Qed.

(** ** The matrix *)

Lemma mapM_default {A B} (d : B) (f : A -> option B) l : (forall x, In x l -> is_Some (f x)) -> mapM f l = Some ((fun x => default d (f x)) <$> l).
Proof.
  induction l as [|x l IH]; intros H; [done|]. cbn [mapM fmap list_fmap].
  destruct (H x (or_introl eq_refl)) as [y E]. rewrite E. cbn [mbind option_bind mret option_ret default from_option id].
  rewrite IH by (intros z Hz; apply H; by right). done.
Qed.

(** All succeed, or one fails. *)
Lemma all_or_none {A B} (f : A -> option B) l : (forall x, In x l -> is_Some (f x)) \/ exists x, In x l /\ f x = None.
Proof.
  induction l as [|x l IH]; [by left|]. destruct (f x) as [y|] eqn:E; [|right; exists x; by split; [left|]].
  destruct IH as [IH|(z & Hz & Ez)]; [left|right; exists z; by split; [right|]].
  intros z [<-|Hz]; [by rewrite E|by apply IH].
Qed.

Definition entry (b : nat) (rho : bytes) (transposed : bool) (i : nat) : option (list Z) := Fips203.sample_ntt b (seed_ext rho transposed i).

Lemma seed_ext_length seed t i : length seed = 32%nat -> length (seed_ext seed t i) = 34%nat.
Proof. intros H. unfold seed_ext. cbv zeta. rewrite length_app, length_take, H. by destruct t. Qed.

Lemma group_ok fuel seed t i : length seed = 32%nat ->
  mlk_poly_rej_uniform_x4 fuel ((fun j => seed_ext seed t (i + j)) <$> [0; 1; 2; 3]%nat) = mapM (entry (3 + fuel) seed t) [i + 0; i + 1; i + 2; i + 3]%nat.
Proof. intros H. rewrite poly_rej_uniform_x4_ok; [done|done|]. apply list.Forall_fmap, list.Forall_true. intros j. by apply seed_ext_length. Qed.

Lemma gen_matrix_entries fuel seed t : length seed = 32%nat ->
  mlk_gen_matrix fuel seed t =
  entries ← mapM (entry (3 + fuel) seed t) (seq 0 9); Some ((fun x => take 3 (drop (x * 3) entries)) <$> seq 0 3).
Proof.
  intros H. unfold mlk_gen_matrix. cbn [foldM]. rewrite !group_ok, poly_rej_uniform_ok by done.
  change (seq 0 9) with ([0 + 0; 0 + 1; 0 + 2; 0 + 3]%nat ++ [4 + 0; 4 + 1; 4 + 2; 4 + 3]%nat ++ [8]%nat). rewrite !mapM_app.
  destruct (mapM (entry (3 + fuel) seed t) [0 + 0; _; _; _]%nat) as [l1|]; [|done].
  destruct (mapM (entry (3 + fuel) seed t) [4 + 0; _; _; _]%nat) as [l2|]; [|done].
  cbn [mbind option_bind mapM]. change (Fips203.sample_ntt (3 + fuel) (seed_ext seed t 8)) with (entry (3 + fuel) seed t 8).
  destruct (entry (3 + fuel) seed t 8) as [e|]; [|done]. cbn [mbind option_bind mret option_ret app]. by rewrite <- app_assoc.
Qed.

(** Row [i], column [j] of the matrix, or of its transpose. *)
Lemma entry_spec b rho i j t : length rho = 32%nat -> (i < 3)%nat -> (j < 3)%nat ->
  entry b rho t (3 * i + j) =
  Fips203.sample_ntt b (rho ++ if t then [byte_of_Z (Z.of_nat i); byte_of_Z (Z.of_nat j)] else [byte_of_Z (Z.of_nat j); byte_of_Z (Z.of_nat i)]).
Proof.
  intros H Hi Hj. unfold entry, seed_ext. cbv zeta. unfold MLKEM_K, MLKEM_SYMBYTES. rewrite take_ge by lia.
  replace ((3 * i + j) / 3)%nat with i by (rewrite (Nat.mul_comm 3 i), Nat.div_add_l, Nat.div_small by lia; lia).
  replace ((3 * i + j) mod 3)%nat with j by (rewrite Nat.add_comm, (Nat.mul_comm 3 i), Nat.Div0.mod_add, Nat.mod_small by lia; lia). done.
Qed.

Lemma gen_matrix_ok fuel seed t : length seed = 32%nat ->
  mlk_gen_matrix fuel seed t = (if t then Fips203.transpose else id) <$> Fips203.sample_matrix (3 + fuel) seed.
Proof.
  intros H. rewrite gen_matrix_entries by done. set (b := (3 + fuel)%nat). clearbody b.
  set (g := fun i j => Fips203.sample_ntt b (seed ++ [byte_of_Z (Z.of_nat j); byte_of_Z (Z.of_nat i)])).
  assert (forall i j p, (i < 3)%nat -> (j < 3)%nat -> (3 * i + j)%nat = p -> entry b seed t p = if t then g j i else g i j) as E.
  { intros i j p Hi Hj <-. rewrite entry_spec by done. by destruct t. }
  assert (Fips203.sample_matrix b seed = mapM (fun i => mapM (g i) (seq 0 3)) (seq 0 3)) as -> by done. clearbody g.
  assert (mapM (entry b seed t) (seq 0 9) = mapM (fun p => if t then g (p mod 3)%nat (p / 3)%nat else g (p / 3)%nat (p mod 3)%nat) (seq 0 9)) as ->.
  { cbn [seq mapM].
    by rewrite (E 0 0 0)%nat, (E 0 1 1)%nat, (E 0 2 2)%nat, (E 1 0 3)%nat, (E 1 1 4)%nat, (E 1 2 5)%nat, (E 2 0 6)%nat, (E 2 1 7)%nat, (E 2 2 8)%nat by lia. }
  assert (forall p, (p < 9)%nat -> (p / 3 < 3 /\ p mod 3 < 3 /\ (3 * (p mod 3) + p / 3) / 3 = p mod 3 /\ (3 * (p mod 3) + p / 3) mod 3 = p / 3)%nat) as HP
    by (intros p Hp; do 9 (destruct p as [|p]; [cbn; lia|]); lia).
  clear E. destruct (all_or_none (fun p => g (p / 3)%nat (p mod 3)%nat) (seq 0 9)) as [HS|(p & Hp%in_seq & Ep)].
  - assert (forall i j, (i < 3)%nat -> (j < 3)%nat -> is_Some (g i j)) as HG.
    { intros i j Hi Hj. specialize (HS (3 * i + j)%nat ltac:(apply in_seq; lia)). cbv beta in HS.
      rewrite (Nat.mul_comm 3 i), Nat.div_add_l, Nat.div_small, Nat.add_0_r, Nat.add_comm, Nat.Div0.mod_add, Nat.mod_small in HS by lia. done. }
    clear HS. rewrite (mapM_default []) by (intros p Hp%in_seq; destruct (HP p ltac:(lia)) as (? & ? & _); by destruct t; apply HG).
    assert (forall i, (i < 3)%nat -> mapM (g i) (seq 0 3) = Some ((fun j => default [] (g i j)) <$> seq 0 3)) as HR
      by (intros i Hi; apply mapM_default; intros j Hj%in_seq; apply HG; lia).
    rewrite (mapM_default []) by (intros i Hi%in_seq; rewrite HR by lia; done). cbn [seq fmap list_fmap] in *. rewrite !HR by lia. by destruct t.
  - destruct (HP p ltac:(lia)) as (Hd & Hm & Ed & Em). rewrite !mapM_None_exists; [done| |].
    + exists (p / 3)%nat. split; [apply in_seq; lia|]. apply mapM_None_exists. exists (p mod 3)%nat. split; [apply in_seq; lia|done].
    + destruct t; [exists (3 * (p mod 3) + p / 3)%nat; rewrite Ed, Em|exists p]; (split; [apply in_seq; lia|done]).
Qed.
