(* ===== verification/MlkIndcpa.v ===== *)
(** * MlkIndcpa: the public-key encryption of ML-KEM-768 ([indcpa.c])

    [None] is an [int32_t] overflow, or a rejection loop that [fuel] blocks did not end.  The
    buffers are on the stack, so the out-of-memory exits are dead and every function returns
    0; the model gives what it wrote instead.  Their clearing is not modelled. *)
From S2P Require Import Prelude Octets CInt Keccak MlkPoly MlkCodec MlkSampling.

(** ** [params.h] *)

Definition MLKEM_INDCPA_SECRETKEYBYTES : nat := MLKEM_POLYVECBYTES.
Definition MLKEM_INDCPA_PUBLICKEYBYTES : nat := MLKEM_POLYVECBYTES + MLKEM_SYMBYTES.
Definition MLKEM_INDCPA_BYTES : nat := MLKEM_POLYVECCOMPRESSEDBYTES_DU + MLKEM_POLYCOMPRESSEDBYTES_DV.

(** ** Serialization *)

Definition mlk_pack_pk (pk : mlk_polyvec) (seed : bytes) : bytes := mlk_polyvec_tobytes pk ++ take MLKEM_SYMBYTES seed.
Definition mlk_unpack_pk (packedpk : bytes) : mlk_polyvec * bytes :=
  (mlk_polyvec_frombytes packedpk, take MLKEM_SYMBYTES (drop MLKEM_POLYVECBYTES packedpk)).
Definition mlk_pack_sk (sk : mlk_polyvec) : bytes := mlk_polyvec_tobytes sk.
Definition mlk_unpack_sk (packedsk : bytes) : mlk_polyvec := mlk_polyvec_frombytes packedsk.
Definition mlk_pack_ciphertext (b : mlk_polyvec) (v : mlk_poly) : bytes := mlk_polyvec_compress_du b ++ mlk_poly_compress_dv v.
Definition mlk_unpack_ciphertext (c : bytes) : mlk_polyvec * mlk_poly :=
  (mlk_polyvec_decompress_du c, mlk_poly_decompress_dv (drop MLKEM_POLYVECCOMPRESSEDBYTES_DU c)).

(** ** Arithmetic *)

Definition mlk_matvec_mul (a : mlk_polymat) (v : mlk_polyvec) (vc : mlk_polyvec_mulcache) : option mlk_polyvec :=
  mapM (fun row => mlk_polyvec_basemul_acc_montgomery_cached row v vc) a.

(** ** The three algorithms *)

Definition mlk_indcpa_keypair_derand (fuel : nat) (coins : bytes) : option (bytes * bytes) :=
  let coins_with_domain_separator := take MLKEM_SYMBYTES coins ++ [byte_of_Z (Z.of_nat MLKEM_K)] in
  buf ← mlk_hash_g coins_with_domain_separator;
  let publicseed := take MLKEM_SYMBYTES buf in
  let noiseseed := drop MLKEM_SYMBYTES buf in
  a ← mlk_gen_matrix fuel publicseed false;
  skpv ← mlk_poly_getnoise_eta1_4x false noiseseed 0 1 2 0xFF;
  e ← mlk_poly_getnoise_eta1_4x false noiseseed 3 4 5 0xFF;
  skpv ← mlk_polyvec_ntt skpv;
  e ← mlk_polyvec_ntt e;
  skpv_cache ← mlk_polyvec_mulcache_compute skpv;
  pkpv ← mlk_matvec_mul a skpv skpv_cache;
  pkpv ← mlk_polyvec_tomont pkpv;
  let pkpv := mlk_polyvec_add pkpv e in
  pkpv ← mlk_polyvec_reduce pkpv;
  skpv ← mlk_polyvec_reduce skpv;
  Some (mlk_pack_pk pkpv publicseed, mlk_pack_sk skpv).

Definition mlk_indcpa_enc (fuel : nat) (m pk coins : bytes) : option bytes :=
  let '(pkpv, seed) := mlk_unpack_pk pk in
  let k := mlk_poly_frommsg m in
  at_ ← mlk_gen_matrix fuel seed true;
  sp ← mlk_poly_getnoise_eta1_4x false coins 0 1 2 0xFF;
  ep_epp ← mlk_poly_getnoise_eta2_4x true coins 3 4 5 6;
  let ep := take MLKEM_K ep_epp in
  let epp := pvec ep_epp MLKEM_K in
  sp ← mlk_polyvec_ntt sp;
  sp_cache ← mlk_polyvec_mulcache_compute sp;
  b ← mlk_matvec_mul at_ sp sp_cache;
  v ← mlk_polyvec_basemul_acc_montgomery_cached pkpv sp sp_cache;
  b ← mlk_polyvec_invntt_tomont b;
  v ← mlk_poly_invntt_tomont v;
  let b := mlk_polyvec_add b ep in
  let v := mlk_poly_add v epp in
  let v := mlk_poly_add v k in
  b ← mlk_polyvec_reduce b;
  v ← mlk_poly_reduce v;
  Some (mlk_pack_ciphertext b v).

Definition mlk_indcpa_dec (c sk : bytes) : option bytes :=
  let '(b, v) := mlk_unpack_ciphertext c in
  let skpv := mlk_unpack_sk sk in
  b ← mlk_polyvec_ntt b;
  b_cache ← mlk_polyvec_mulcache_compute b;
  sb ← mlk_polyvec_basemul_acc_montgomery_cached skpv b b_cache;
  sb ← mlk_poly_invntt_tomont sb;
  let v := mlk_poly_sub v sb in
  v ← mlk_poly_reduce v;
  Some (mlk_poly_tomsg v).
