(* ===== verification/MlkIndcpaFacts.v ===== *)
(** * MlkIndcpaFacts: the encryption is K-PKE

    [repr] relates the code's coefficients, with their bound, to a polynomial of Fips203;
    each operation preserves it, so that the algorithms follow line by line. *)
From Stdlib Require Import Zmod.
From S2P Require Import Prelude Octets CInt Keccak KeccakRounds KeccakFacts MlkPoly MlkArith MlkNtt MlkNttFacts MlkCodec Fips203 MlkCodecFacts MlkSampling MlkSamplingFacts MlkIndcpa.

(** ** Polynomials *)

Lemma poly_reps f : Fips203.poly (Fips203.reps f) ≡ f.
Proof. intros x Hx. unfold Fips203.poly, Fips203.reps. rewrite (coef_fmap_seq (fun x => rep (f x))) by done. apply toq_rep. Qed.
Lemma reps_canonical f : canonical (Fips203.reps f).
Proof.
  split; [unfold Fips203.reps; by rewrite length_fmap, length_seq|]. intros x Hx. unfold Fips203.reps.
  rewrite (coef_fmap_seq (fun x => rep (f x))) by done. apply rep_q_range.
Qed.
Lemma canonical_eq r s : canonical r -> canonical s -> Fips203.poly r ≡ Fips203.poly s -> r = s.
Proof.
  intros [Hr Br] [Hs Bs] E. apply coef_ext; [lia|]. rewrite Hr. intros x Hx. specialize (E x Hx). unfold Fips203.poly in E.
  apply toq_eq in E. specialize (Br x Hx). specialize (Bs x Hx). unfold MLKEM_Q in *. by rewrite !Z.mod_small in E.
Qed.
Lemma canonical_bounded r : canonical r -> bounded MLKEM_Q r.
Proof. intros [Hl H]. split; [done|]. intros x Hx. specialize (H x Hx). unfold within. lia. Qed.
Lemma canonical_uint12 r : canonical r -> uint12 r.
Proof. intros [Hl H]. split; [done|]. intros x Hx. specialize (H x Hx). unfold MLKEM_Q, MLKEM_UINT12_LIMIT in *. lia. Qed.

Definition repr (B : Z) (r F : list Z) : Prop := bounded B r /\ coeffs_of r ≡ Fips203.poly F.
(** In Montgomery form. *)
Definition mrepr (r F : list Z) : Prop := bounded (2 ^ 15) r /\ (fun x => toq (2 ^ 16) * coeffs_of r x)%q ≡ Fips203.poly F.
Definition urepr (r F : list Z) : Prop := uint12 r /\ coeffs_of r ≡ Fips203.poly F.

Lemma repr_self F : canonical F -> repr MLKEM_Q F F.
Proof. intros H. split; [by apply canonical_bounded|reflexivity]. Qed.
Lemma urepr_self F : canonical F -> urepr F F.
Proof. intros H. split; [by apply canonical_uint12|reflexivity]. Qed.
Lemma repr_le B C r F : B <= C -> repr B r F -> repr C r F.
Proof. intros HB [[Hl H] E]. split; [|done]. split; [done|]. intros x Hx. specialize (H x Hx). unfold within in *. lia. Qed.
Lemma repr_mod B r : bounded B r -> repr B r ((fun c => c mod MLKEM_Q) <$> r).
Proof.
  intros H. split; [done|]. intros x Hx. unfold coeffs_of, Fips203.poly. rewrite coef_fmap by (rewrite (proj1 H); done).
  apply toq_eq. unfold MLKEM_Q. by rewrite Z.mod_mod.
Qed.

Lemma ntt_repr r F : repr MLKEM_Q r F -> exists r', mlk_poly_ntt r = Some r' /\ repr MLK_NTT_BOUND r' (Fips203.NTT F).
Proof.
  intros [HB E]. destruct (poly_ntt_ok r HB) as (r' & Er & Hr & Ec). exists r'. split; [done|]. split; [done|].
  unfold Fips203.NTT. rewrite poly_reps, Ec, E. reflexivity.
Qed.
Lemma tomont_repr r F : mrepr r F -> exists r', mlk_poly_tomont r = Some r' /\ repr MLKEM_Q r' F.
Proof.
  intros [HB E]. destruct (poly_tomont_ok r HB) as (r' & Er & Hr & Ec). exists r'. split; [done|]. split; [done|]. rewrite Ec. exact E.
Qed.
Lemma invntt_repr r F : mrepr r F -> exists r', mlk_poly_invntt_tomont r = Some r' /\ repr MLKEM_Q r' (Fips203.inv_NTT F).
Proof.
  intros [HB E]. destruct (poly_invntt_tomont_ok r HB) as (r' & Er & Hr & Ec). exists r'. split; [done|]. split; [done|].
  unfold Fips203.inv_NTT. rewrite poly_reps, Ec, E. reflexivity.
Qed.
Lemma reduce_repr r F : canonical F -> repr (2 ^ 15) r F -> mlk_poly_reduce r = Some F.
Proof.
  intros HF [HB E]. destruct (poly_reduce_ok r HB) as (r' & Er & Hr & Ec). rewrite Er. f_equal.
  apply canonical_eq; [done..|]. by rewrite <- E.
Qed.
#[export] Instance cadd_proper : Proper ((≡) ==> (≡) ==> (≡)) cadd.
Proof. intros f f' E g g' E' x Hx. unfold cadd. by rewrite (E x Hx), (E' x Hx). Qed.
#[export] Instance csub_proper : Proper ((≡) ==> (≡) ==> (≡)) csub.
Proof. intros f f' E g g' E' x Hx. unfold csub. by rewrite (E x Hx), (E' x Hx). Qed.
Lemma add_repr B C r s F G : B + C <= 2 ^ 15 -> repr B r F -> repr C s G -> repr (B + C) (mlk_poly_add r s) (Fips203.add F G).
Proof.
  intros HBC [HB E] [HC E']. destruct (poly_add_ok B C r s HBC HB HC) as [Hb Hc]. split; [done|].
  unfold Fips203.add. rewrite poly_reps, Hc, E, E'. reflexivity.
Qed.
Lemma sub_repr B C r s F G : B + C <= 2 ^ 15 -> repr B r F -> repr C s G -> repr (B + C) (mlk_poly_sub r s) (Fips203.sub F G).
Proof.
  intros HBC [HB E] [HC E']. destruct (poly_sub_ok B C r s HBC HB HC) as [Hb Hc]. split; [done|].
  unfold Fips203.sub. rewrite poly_reps, Hc, E, E'. reflexivity.
Qed.

(** ** Vectors *)

Lemma mapM_Forall2 {A B C} (f : A -> option B) (g : C -> C) (R : A -> C -> Prop) (S : B -> C -> Prop) a c :
  (forall x z, R x z -> exists y, f x = Some y /\ S y (g z)) -> Forall2 R a c ->
  exists b, mapM f a = Some b /\ Forall2 S b (g <$> c).
Proof.
  intros Hf. induction 1 as [|x z a c Hx _ (b & Eb & IH)]; [by exists []|].
  destruct (Hf x z Hx) as (y & Ey & Hy). exists (y :: b). cbn [mapM]. rewrite Ey. cbn [mbind option_bind].
  rewrite Eb. split; [done|]. by constructor.
Qed.
Lemma reduce_vec r F : Forall canonical F -> Forall2 (repr (2 ^ 15)) r F -> mlk_polyvec_reduce r = Some F.
Proof.
  intros HF. unfold mlk_polyvec_reduce. induction 1 as [|x z a c Hx _ IH]; [done|]. apply list.Forall_cons in HF as [H1 H2].
  cbn [mapM]. rewrite (reduce_repr x z) by done. cbn [mbind option_bind]. by rewrite IH.
Qed.
Lemma add_vec B C r s F G : B + C <= 2 ^ 15 -> Forall2 (repr B) r F -> Forall2 (repr C) s G ->
  Forall2 (repr (B + C)) (mlk_polyvec_add r s) (zip_with Fips203.add F G).
Proof.
  intros HBC H. revert s G. unfold mlk_polyvec_add. induction H as [|x z a c Hx _ IH]; intros s G Hs; [done|].
  destruct Hs as [|y w b d Hy Hs]; [done|]. cbn [zip_with]. constructor; [by apply add_repr|by apply IH].
Qed.
Lemma weaken {B} C {r F} : repr B r F -> (B <=? C) = true -> repr C r F.
Proof. intros H HB%Z.leb_le. by apply (repr_le B). Qed.
Lemma weaken_vec {B} C {r F} : Forall2 (repr B) r F -> (B <=? C) = true -> Forall2 (repr C) r F.
Proof. intros H HB. eapply Forall2_impl; [|exact H]. intros x y Hx. by apply (weaken C Hx). Qed.

(** ** Products *)

#[export] Instance base_mul_proper : Proper ((≡) ==> (≡) ==> (≡)) base_mul.
Proof.
  intros f f' E g g' E' x Hx. unfold base_mul. cbv zeta. assert (2 * (x / 2) + 1 < 256)%nat as Hb.
  { pose proof (Nat.Div0.div_lt_upper_bound x 2 128 ltac:(lia)). lia. }
  rewrite !(E (2 * (x / 2))%nat), !(E (2 * (x / 2) + 1)%nat), !(E' (2 * (x / 2))%nat), !(E' (2 * (x / 2) + 1)%nat) by lia. done.
Qed.

Lemma poly_add F G : Fips203.poly (Fips203.add F G) ≡ cadd (Fips203.poly F) (Fips203.poly G).
Proof. apply poly_reps. Qed.
Lemma dot_canonical a b : canonical (Fips203.dot a b).
Proof.
  unfold Fips203.dot. destruct (zip_with _ a b); [|apply reps_canonical]. cbn [fold_right].
  split; [apply length_replicate|]. intros x Hx. unfold coef. rewrite nth_lookup, lookup_replicate_2 by done. done.
Qed.
Lemma poly_zero : Fips203.poly (replicate Fips203.n 0) ≡ (fun _ => 0%q).
Proof. intros x Hx. unfold Fips203.poly, coef. rewrite nth_lookup, lookup_replicate_2 by done. apply toq_0. Qed.

Lemma dot_cdot a A b B : length A = 3%nat -> length B = 3%nat ->
  Forall2 (fun r F => coeffs_of r ≡ Fips203.poly F) a A -> Forall2 (fun r F => coeffs_of r ≡ Fips203.poly F) b B ->
  cdot (vec_of a) (vec_of b) ≡ Fips203.poly (Fips203.dot A B).
Proof.
  intros HA HB Ha Hb. pose proof (Forall2_length Ha) as La. pose proof (Forall2_length Hb) as Lb.
  destruct A as [|A0 [|A1 [|A2 [|]]]]; try discriminate HA. destruct B as [|B0 [|B1 [|B2 [|]]]]; try discriminate HB.
  destruct a as [|a0 [|a1 [|a2 [|]]]]; try discriminate La. destruct b as [|b0 [|b1 [|b2 [|]]]]; try discriminate Lb.
  rewrite !list.Forall2_cons in Ha, Hb. destruct Ha as (Ha0 & Ha1 & Ha2 & _), Hb as (Hb0 & Hb1 & Hb2 & _).
  unfold Fips203.dot. cbn [zip_with fold_right]. intros y Hy. rewrite (poly_add _ _ y Hy). unfold cadd at 1.
  rewrite (poly_add _ _ y Hy). unfold cadd at 1. rewrite (poly_add _ _ y Hy). unfold cadd. rewrite (poly_zero y Hy).
  unfold Fips203.multiply_NTTs. rewrite !(poly_reps _ y Hy). unfold cdot. cbn [sum MLKEM_K]. unfold vec_of, pvec. cbn [nth].
  rewrite (base_mul_proper _ _ Ha0 _ _ Hb0 y Hy), (base_mul_proper _ _ Ha1 _ _ Hb1 y Hy), (base_mul_proper _ _ Ha2 _ _ Hb2 y Hy). ring.
Qed.

Lemma pvec_Forall2 {R : list Z -> list Z -> Prop} {a A} k : Forall2 R a A -> length A = MLKEM_K -> (k < MLKEM_K)%nat -> R (pvec a k) (pvec A k).
Proof.
  intros H HA Hk. unfold pvec. rewrite !nth_lookup.
  destruct (lookup_lt_is_Some_2 A k ltac:(lia)) as [F EF]. destruct (Forall2_lookup_r _ _ _ _ _ H EF) as (x & Ex & Hx).
  by rewrite EF, Ex.
Qed.

(** The cache of a vector, as its products use it. *)
Definition good_cache (c b B : list (list Z)) : Prop :=
  Forall2 (repr (2 ^ 15)) b B /\ length B = MLKEM_K /\ caches_of c b.
Lemma mulcache_vec b B : Forall2 (repr (2 ^ 15)) b B -> length B = MLKEM_K ->
  exists c, mlk_polyvec_mulcache_compute b = Some c /\ good_cache c b B.
Proof.
  intros H HB. destruct (mapM_ok mlk_poly_mulcache_compute (fun x c => cache_of c x) b) as (c & Ec & Hc).
  - apply (Forall2_Forall_l (repr (2 ^ 15)) _ _ B H). apply list.Forall_true. intros x y [Hx _]. by apply poly_mulcache_ok.
  - exists c. split; [done|]. split; [done|]. split; [done|]. intros k Hk.
    pose proof (Forall2_length H) as Hl.
    destruct (lookup_lt_is_Some_2 b k ltac:(lia)) as [x Ex]. destruct (Forall2_lookup_l _ _ _ _ _ Hc Ex) as (y & Ey & Hy).
    by rewrite (nth_lookup_Some c k [] y Ey : pvec c k = y), (nth_lookup_Some b k [] x Ex : pvec b k = x).
Qed.

Lemma basemul_repr a A b B c : Forall2 urepr a A -> length A = MLKEM_K -> good_cache c b B ->
  exists r, mlk_polyvec_basemul_acc_montgomery_cached a b c = Some r /\ mrepr r (Fips203.dot A B).
Proof.
  intros Ha HA (Hb & HB & Hc). destruct (basemul_ok a b c) as (r & Er & Br & Mr).
  - split; [by rewrite (Forall2_length Ha)|]. intros k Hk. apply (pvec_Forall2 k Ha HA Hk).
  - split; [by rewrite (Forall2_length Hb)|]. intros k Hk. apply (pvec_Forall2 k Hb HB Hk).
  - done.
  - exists r. split; [done|]. split; [done|]. etransitivity; [exact Mr|]. apply dot_cdot; [done..| |].
    + eapply Forall2_impl; [|exact Ha]. by intros x y [_ E].
    + eapply Forall2_impl; [|exact Hb]. by intros x y [_ E].
Qed.
Definition square (A : list (list (list Z))) : Prop := length A = MLKEM_K /\ Forall (fun row => length row = MLKEM_K /\ Forall canonical row) A.
Lemma urepr_row row : Forall canonical row -> Forall2 urepr row row.
Proof. induction 1; constructor; [by apply urepr_self|done]. Qed.
Lemma matvec_repr A b B c : square A -> good_cache c b B ->
  exists r, mlk_matvec_mul A b c = Some r /\ Forall2 mrepr r (Fips203.matrix_mul A B).
Proof.
  intros [_ HA] Hc. unfold mlk_matvec_mul, Fips203.matrix_mul. induction HA as [|row A [Hl Hr] _ (r & Er & IH)]; [by exists []|].
  destruct (basemul_repr row row b B c (urepr_row _ Hr) Hl Hc) as (x & Ex & Hx). exists (x :: r).
  cbn [mapM]. rewrite Ex. cbn [mbind option_bind]. rewrite Er. split; [done|]. by constructor.
Qed.
Lemma sample_matrix_square b rho A : Fips203.sample_matrix b rho = Some A -> square A.
Proof.
  unfold Fips203.sample_matrix. intros H%mapM_Some. split; [by rewrite <- (Forall2_length H)|].
  apply (Forall2_Forall_r _ _ _ _ H). apply list.Forall_true. intros i row Hrow%mapM_Some.
  split; [by rewrite <- (Forall2_length Hrow)|].
  apply (Forall2_Forall_r _ _ _ _ Hrow). apply list.Forall_true. intros j a Ha. by apply (sample_ntt_canonical _ _ _ Ha).
Qed.
Lemma transpose_square A : square A -> square (Fips203.transpose A).
Proof.
  intros [Hl H]. unfold Fips203.transpose. split; [done|]. apply list.Forall_fmap, list.Forall_forall. intros i Hi%list_elem_of_In%in_seq. cbn [compose].
  split; [by rewrite length_fmap|]. apply list.Forall_fmap. eapply list.Forall_impl; [exact H|]. intros row [Hlr Hr]. cbn [compose].
  rewrite nth_lookup. destruct (lookup_lt_is_Some_2 row i ltac:(unfold MLKEM_K in *; lia)) as [x Ex]. rewrite Ex. cbn [from_option id].
  by apply (list.Forall_lookup_1 _ _ _ _ Hr Ex).
Qed.

(** ** Noise and encodings *)

Lemma cbd_repr buf : repr 3 (mlk_poly_cbd2 buf) (Fips203.sample_poly_cbd 2 buf).
Proof. destruct (cbd2_ok buf) as [HB <-]. by apply repr_mod. Qed.
Lemma noise_repr seed N : Forall2 (repr 3)
  ((fun b => mlk_poly_cbd2 (Fips203.PRF 2 seed b)) <$> [N; N + 1; N + 2]) (Fips203.sample_noise seed N).
Proof.
  unfold Fips203.sample_noise. cbn [seq fmap list_fmap]. change (Z.of_nat 0) with 0. rewrite Z.add_0_r.
  repeat (constructor; [apply cbd_repr|]). constructor.
Qed.
Lemma sample_noise_length seed N : length (Fips203.sample_noise seed N) = MLKEM_K.
Proof. reflexivity. Qed.

Lemma tobytes_vec a : length a = MLKEM_K -> Forall canonical a -> mlk_polyvec_tobytes a = flat_map (Fips203.byte_encode 12) a.
Proof.
  intros Hl H. unfold mlk_polyvec_tobytes. destruct a as [|a0 [|a1 [|a2 [|]]]]; try discriminate Hl.
  rewrite !list.Forall_cons in H. destruct H as (H0 & H1 & H2 & _).
  cbn [MLKEM_K seq flat_map pvec]. unfold pvec. cbn [nth]. by rewrite !poly_tobytes_ok.
Qed.
Lemma compress_vec a : length a = MLKEM_K -> Forall canonical a ->
  mlk_polyvec_compress_du a = flat_map (fun u => Fips203.byte_encode 10 (Fips203.compress 10 <$> u)) a.
Proof.
  intros Hl H. unfold mlk_polyvec_compress_du. destruct a as [|a0 [|a1 [|a2 [|]]]]; try discriminate Hl.
  rewrite !list.Forall_cons in H. destruct H as (H0 & H1 & H2 & _).
  cbn [MLKEM_K seq flat_map]. unfold pvec. cbn [nth]. unfold mlk_poly_compress_du. by rewrite !poly_compress_d10_ok.
Qed.
Lemma frombytes_vec B : Forall2 urepr (mlk_polyvec_frombytes B) ((fun i => Fips203.byte_decode 12 (Fips203.part 384 i B)) <$> seq 0 3).
Proof.
  unfold mlk_polyvec_frombytes, MLKEM_POLYBYTES. apply Forall2_fmap_2, Forall_Forall2_diag, list.Forall_true. intros i. unfold Fips203.part.
  rewrite (byte_decode_take 12). destruct (poly_frombytes_ok (drop (i * 384) B)) as [HU <-]. split; [done|].
  intros x Hx. unfold coeffs_of, Fips203.poly. rewrite coef_fmap by (rewrite (proj1 HU); done).
  apply toq_eq. unfold MLKEM_Q. by rewrite Z.mod_mod.
Qed.
Lemma decompress_vec B : mlk_polyvec_decompress_du B = (fun i => Fips203.decompress 10 <$> Fips203.byte_decode 10 (Fips203.part 320 i B)) <$> seq 0 3.
Proof.
  unfold mlk_polyvec_decompress_du. apply list_fmap_ext. intros _ i _. unfold Fips203.part, mlk_poly_decompress_du.
  by rewrite (byte_decode_take 10), poly_decompress_d10_ok.
Qed.

Lemma zip_add_canonical F G : Forall canonical (zip_with Fips203.add F G).
Proof. revert G. induction F as [|x F IH]; intros [|y G]; cbn [zip_with]; constructor; [apply reps_canonical|apply IH]. Qed.
Lemma NTT_canonical F : Forall canonical (Fips203.NTT <$> F).
Proof. apply list.Forall_fmap, list.Forall_true. intros x. apply reps_canonical. Qed.
Lemma matrix_mul_length A v : square A -> length (Fips203.matrix_mul A v) = MLKEM_K.
Proof. intros [H _]. unfold Fips203.matrix_mul. by rewrite length_fmap. Qed.

(** ** The algorithms *)

Lemma noise_three seed n0 : length seed = 32%nat -> exists e,
  mlk_poly_getnoise_eta1_4x false seed n0 (n0 + 1) (n0 + 2) 0xFF = Some e /\ Forall2 (repr 3) e (Fips203.sample_noise seed n0).
Proof. intros H. eexists. split; [by apply getnoise_ok|apply noise_repr]. Qed.
Lemma ntt_vec r F : Forall2 (repr MLKEM_Q) r F -> exists r', mlk_polyvec_ntt r = Some r' /\ Forall2 (repr MLK_NTT_BOUND) r' (Fips203.NTT <$> F).
Proof. apply mapM_Forall2, ntt_repr. Qed.
Lemma tomont_vec r F : Forall2 mrepr r F -> exists r', mlk_polyvec_tomont r = Some r' /\ Forall2 (repr MLKEM_Q) r' F.
Proof. intros H. destruct (mapM_Forall2 mlk_poly_tomont id _ _ r F tomont_repr H) as (r' & E & H'). exists r'. by rewrite list_fmap_id in H'. Qed.
Lemma invntt_vec r F : Forall2 mrepr r F -> exists r', mlk_polyvec_invntt_tomont r = Some r' /\ Forall2 (repr MLKEM_Q) r' (Fips203.inv_NTT <$> F).
Proof. apply mapM_Forall2, invntt_repr. Qed.

(** Binding a result.  (A reduction would let the kernel compare it with the rest of the program.) *)
Lemma bind_Some {A B} (x : A) (f : A -> option B) : Some x ≫= f = f x.
Proof. reflexivity. Qed.
Lemma map_Some {A B} (x : A) (f : A -> B) : f <$> Some x = Some (f x).
Proof. reflexivity. Qed.
Ltac step E := rewrite E, bind_Some; cbv beta.

Lemma keypair_ok fuel coins : mlk_indcpa_keypair_derand fuel coins = Fips203.kpke_keygen (3 + fuel) (take 32 coins).
Proof.
  unfold mlk_indcpa_keypair_derand, Fips203.kpke_keygen, Fips203.G. cbv zeta.
  unfold MLKEM_SYMBYTES. change (Z.of_nat MLKEM_K) with 3. generalize (take 32 coins). clear coins. intros coins.
  step hash_g_ok. pose proof (sha3_512_length (coins ++ [byte_of_Z 3])) as Hl. revert Hl.
  generalize (Fips202.sha3_512 (coins ++ [byte_of_Z 3])). intros buf Hl.
  assert (length (take 32 buf) = 32%nat) as Hr by (rewrite length_take; lia). assert (length (drop 32 buf) = 32%nat) as Hs by (rewrite length_drop; lia).
  revert Hr Hs. generalize (take 32 buf), (drop 32 buf). intros rho sigma Hr Hs.
  rewrite gen_matrix_ok by done. destruct (Fips203.sample_matrix (3 + fuel) rho) as [A|] eqn:EA; [|done].
  apply sample_matrix_square in EA. rewrite map_Some, !bind_Some. unfold id at 1.
  destruct (noise_three sigma 0 Hs) as (s & Es & Rs). change (0 + 1) with 1 in Es. change (0 + 2) with 2 in Es. step Es.
  destruct (noise_three sigma 3 Hs) as (e & Ee & Re). change (3 + 1) with 4 in Ee. change (3 + 2) with 5 in Ee. step Ee.
  destruct (ntt_vec s _ (weaken_vec MLKEM_Q Rs eq_refl)) as (s' & Es' & Rs'). step Es'.
  destruct (ntt_vec e _ (weaken_vec MLKEM_Q Re eq_refl)) as (e' & Ee' & Re'). step Ee'.
  destruct (mulcache_vec s' _ (weaken_vec (2 ^ 15) Rs' eq_refl) eq_refl) as (c & Ec & Hcache). step Ec.
  destruct (matvec_repr A s' _ c EA Hcache) as (t & Et & Rt). step Et.
  destruct (tomont_vec t _ Rt) as (t' & Et' & Rt'). step Et'.
  step (reduce_vec _ _ (zip_add_canonical _ _) (weaken_vec (2 ^ 15) (add_vec MLKEM_Q MLK_NTT_BOUND _ _ _ _ ltac:(easy) Rt' Re') eq_refl)).
  step (reduce_vec _ _ (NTT_canonical _) (weaken_vec (2 ^ 15) Rs' eq_refl)).
  unfold mlk_pack_pk, mlk_pack_sk. rewrite !tobytes_vec, (take_ge rho) by
    (try apply zip_add_canonical; try apply NTT_canonical; rewrite ?length_zip_with, ?matrix_mul_length by done; done || (rewrite Hr; unfold MLKEM_SYMBYTES; lia)). reflexivity.
Qed.

Lemma noise_four seed : length seed = 32%nat -> exists e,
  mlk_poly_getnoise_eta2_4x true seed 3 4 5 6 = Some e /\ Forall2 (repr 3) (@take (list Z) MLKEM_K e) (Fips203.sample_noise seed 3) /\
  repr 3 (pvec e MLKEM_K) (Fips203.sample_poly_cbd 2 (Fips203.PRF 2 seed 6)).
Proof.
  intros H. eexists. split; [by apply getnoise_ok|]. split; [apply (noise_repr seed 3)|apply cbd_repr].
Qed.

Lemma enc_ok fuel m pk coins : (MLKEM_INDCPA_PUBLICKEYBYTES <= length pk)%nat -> length coins = 32%nat ->
  mlk_indcpa_enc fuel m pk coins = Fips203.kpke_encrypt (3 + fuel) pk m coins.
Proof.
  intros Hp Hs. unfold mlk_indcpa_enc, Fips203.kpke_encrypt, mlk_unpack_pk. cbv zeta.
  change MLKEM_POLYVECBYTES with (384 * 3)%nat. unfold MLKEM_SYMBYTES.
  assert (length (take 32 (drop (384 * 3) pk)) = 32%nat) as Hr by
    (change MLKEM_INDCPA_PUBLICKEYBYTES with 1184%nat in Hp; rewrite length_take, length_drop; lia).
  revert Hr. generalize (take 32 (drop (384 * 3) pk)). intros rho Hr. pose proof (frombytes_vec pk) as Rt.
  assert (length ((fun i => Fips203.byte_decode 12 (Fips203.part 384 i pk)) <$> seq 0 3) = MLKEM_K) as Lt by apply length_fmap. revert Rt Lt.
  generalize (mlk_polyvec_frombytes pk). generalize ((fun i => Fips203.byte_decode 12 (Fips203.part 384 i pk)) <$> seq 0 3). intros t tv Rt Lt.
  rewrite gen_matrix_ok by done. destruct (Fips203.sample_matrix (3 + fuel) rho) as [A|] eqn:EA; [|done].
  apply sample_matrix_square, transpose_square in EA. rewrite map_Some, !bind_Some. revert EA. generalize (Fips203.transpose A). intros At EA.
  destruct (noise_three coins 0 Hs) as (y & Ey & Ry). change (0 + 1) with 1 in Ey. change (0 + 2) with 2 in Ey. step Ey.
  destruct (noise_four coins Hs) as (e & Ee & Re1 & Re2). step Ee.
  destruct (ntt_vec y _ (weaken_vec MLKEM_Q Ry eq_refl)) as (y' & Ey' & Ry'). step Ey'.
  destruct (mulcache_vec y' _ (weaken_vec (2 ^ 15) Ry' eq_refl) eq_refl) as (c & Ec & Hcache). step Ec.
  destruct (matvec_repr At y' _ c EA Hcache) as (u & Eu & Ru). step Eu.
  destruct (basemul_repr tv t y' _ c Rt Lt Hcache) as (v & Ev & Rv). step Ev.
  destruct (invntt_vec u _ Ru) as (u' & Eu' & Ru'). step Eu'.
  destruct (invntt_repr v _ Rv) as (v' & Ev' & Rv'). step Ev'.
  step (reduce_vec _ _ (zip_add_canonical _ _) (weaken_vec (2 ^ 15) (add_vec MLKEM_Q 3 _ _ _ _ ltac:(easy) Ru' Re1) eq_refl)).
  rewrite frommsg_ok. pose proof (repr_self _ (decompressed_canonical m 1 ltac:(lia))) as Rm.
  pose proof (add_repr (MLKEM_Q + 3) MLKEM_Q _ _ _ _ ltac:(easy) (add_repr MLKEM_Q 3 _ _ _ _ ltac:(easy) Rv' Re2) Rm) as Rsum.
  step (reduce_repr _ _ (reps_canonical _) (weaken (2 ^ 15) Rsum eq_refl)).
  unfold mlk_pack_ciphertext, mlk_poly_compress_dv. rewrite compress_vec, poly_compress_d4_ok; [reflexivity|apply reps_canonical| |apply zip_add_canonical].
  by rewrite length_zip_with, length_fmap, matrix_mul_length.
Qed.

Lemma dec_ok c sk : mlk_indcpa_dec c sk = Some (Fips203.kpke_decrypt sk c).
Proof.
  unfold mlk_indcpa_dec, Fips203.kpke_decrypt, mlk_unpack_ciphertext, mlk_unpack_sk, mlk_poly_decompress_dv. cbv zeta.
  change MLKEM_POLYVECCOMPRESSEDBYTES_DU with (320 * 3)%nat. rewrite decompress_vec, poly_decompress_d4_ok.
  pose proof (frombytes_vec sk) as Rs.
  assert (length ((fun i => Fips203.byte_decode 12 (Fips203.part 384 i sk)) <$> seq 0 3) = MLKEM_K) as Ls by apply length_fmap. revert Rs Ls.
  generalize (mlk_polyvec_frombytes sk). generalize ((fun i => Fips203.byte_decode 12 (Fips203.part 384 i sk)) <$> seq 0 3). intros s sv Rs Ls.
  pose proof (repr_self _ (decompressed_canonical (drop (320 * 3) c) 4 ltac:(lia))) as Rv.
  assert (Forall2 (repr MLKEM_Q) ((fun i => Fips203.decompress 10 <$> Fips203.byte_decode 10 (Fips203.part 320 i c)) <$> seq 0 3)
    ((fun i => Fips203.decompress 10 <$> Fips203.byte_decode 10 (Fips203.part 320 i c)) <$> seq 0 3)) as Ru.
  { apply Forall2_fmap_2, Forall_Forall2_diag, list.Forall_true. intros i. apply repr_self, decompressed_canonical. lia. }
  assert (length ((fun i => Fips203.decompress 10 <$> Fips203.byte_decode 10 (Fips203.part 320 i c)) <$> seq 0 3) = MLKEM_K) as Lu by apply length_fmap.
  revert Rv Ru Lu. generalize (Fips203.decompress 4 <$> Fips203.byte_decode 4 (drop (320 * 3) c)).
  generalize ((fun i => Fips203.decompress 10 <$> Fips203.byte_decode 10 (Fips203.part 320 i c)) <$> seq 0 3). intros u v Rv Ru Lu.
  destruct (ntt_vec u _ Ru) as (u' & Eu & Ru'). step Eu.
  destruct (mulcache_vec u' _ (weaken_vec (2 ^ 15) Ru' eq_refl)) as (cc & Ec & Hcache); [by rewrite length_fmap|]. step Ec.
  destruct (basemul_repr sv s u' _ cc Rs Ls Hcache) as (w & Ew & Rw). step Ew.
  destruct (invntt_repr w _ Rw) as (w' & Ew' & Rw'). step Ew'.
  step (reduce_repr _ _ (reps_canonical _) (weaken (2 ^ 15) (sub_repr MLKEM_Q MLKEM_Q _ _ _ _ ltac:(easy) Rv Rw') eq_refl)).
  rewrite tomsg_ok by apply reps_canonical. reflexivity.
Qed.
