(* ===== verification/MlkKem.v ===== *)
(** * MlkKem: the key encapsulation of ML-KEM-768 ([kem.c])

    An output buffer is passed as its old contents and comes back as what is in it at the
    return, with the code's [ret]; [None] is as in MlkIndcpa.  Buffers are on the stack and
    the pairwise consistency test is not configured, so [MLK_ERR_OUT_OF_MEMORY] does not
    happen.  [rng] is what the platform's [randombytes] gives: [None] when it fails. *)
From S2P Require Import Prelude Octets CInt Keccak MlkPoly MlkCodec MlkSampling MlkIndcpa.

Definition MLK_ERR_FAIL : Z := -1.
Definition MLK_ERR_RNG_FAIL : Z := -3.
Definition MLKEM_INDCCA_PUBLICKEYBYTES : nat := MLKEM_INDCPA_PUBLICKEYBYTES.
Definition MLKEM_INDCCA_SECRETKEYBYTES : nat :=
  MLKEM_INDCPA_SECRETKEYBYTES + MLKEM_INDCPA_PUBLICKEYBYTES + 2 * MLKEM_SYMBYTES.
Definition MLKEM_INDCCA_CIPHERTEXTBYTES : nat := MLKEM_INDCPA_BYTES.

Definition mlk_kem_check_pk (pk : bytes) : option Z :=
  let p := mlk_polyvec_frombytes pk in
  p ← mlk_polyvec_reduce p;
  let p_reencoded := mlk_polyvec_tobytes p in
  Some (if mlk_ct_memcmp pk p_reencoded MLKEM_POLYVECBYTES =? 0 then 0 else MLK_ERR_FAIL).

Definition mlk_kem_check_sk (sk : bytes) : option Z :=
  test ← mlk_hash_h (take MLKEM_INDCCA_PUBLICKEYBYTES (drop MLKEM_INDCPA_SECRETKEYBYTES sk));
  Some (if mlk_ct_memcmp (drop (MLKEM_INDCCA_SECRETKEYBYTES - 2 * MLKEM_SYMBYTES) sk) test MLKEM_SYMBYTES =? 0 then 0 else MLK_ERR_FAIL).

Definition mlk_check_pct (pk sk : bytes) : Z := 0.

Definition mlk_kem_keypair_derand (fuel : nat) (coins : bytes) : option (Z * bytes * bytes) :=
  '(pk, sk) ← mlk_indcpa_keypair_derand fuel coins;
  h ← mlk_hash_h pk;
  let sk := sk ++ pk ++ h ++ take MLKEM_SYMBYTES (drop MLKEM_SYMBYTES coins) in
  let ret := mlk_check_pct pk sk in
  if negb (ret =? 0) then Some (ret, replicate MLKEM_INDCCA_PUBLICKEYBYTES x00, replicate MLKEM_INDCCA_SECRETKEYBYTES x00)
  else Some (ret, pk, sk).

Definition mlk_kem_keypair (fuel : nat) (rng : option bytes) (pk sk : bytes) : option (Z * bytes * bytes) :=
  match rng with
  | None => Some (MLK_ERR_RNG_FAIL, pk, sk)
  | Some coins => mlk_kem_keypair_derand fuel coins
  end.

Definition mlk_kem_enc_derand (fuel : nat) (ct ss pk coins : bytes) : option (Z * bytes * bytes) :=
  ret ← mlk_kem_check_pk pk;
  if negb (ret =? 0) then Some (ret, ct, ss) else
  h ← mlk_hash_h (take MLKEM_INDCCA_PUBLICKEYBYTES pk);
  let buf := take MLKEM_SYMBYTES coins ++ h in
  kr ← mlk_hash_g buf;
  ct ← mlk_indcpa_enc fuel buf pk (drop MLKEM_SYMBYTES kr);
  Some (0, ct, take MLKEM_SYMBYTES kr).

Definition mlk_kem_enc (fuel : nat) (rng : option bytes) (ct ss pk : bytes) : option (Z * bytes * bytes) :=
  match rng with
  | None => Some (MLK_ERR_RNG_FAIL, ct, ss)
  | Some coins => mlk_kem_enc_derand fuel ct ss pk coins
  end.

Definition mlk_kem_dec (fuel : nat) (ss ct sk : bytes) : option (Z * bytes) :=
  let pk := drop MLKEM_INDCPA_SECRETKEYBYTES sk in
  ret ← mlk_kem_check_sk sk;
  if negb (ret =? 0) then Some (ret, ss) else
  m ← mlk_indcpa_dec ct sk;
  let buf := m ++ take MLKEM_SYMBYTES (drop (MLKEM_INDCCA_SECRETKEYBYTES - 2 * MLKEM_SYMBYTES) sk) in
  kr ← mlk_hash_g buf;
  tmp ← mlk_indcpa_enc fuel buf pk (drop MLKEM_SYMBYTES kr);
  let fail := mlk_ct_memcmp ct tmp MLKEM_INDCCA_CIPHERTEXTBYTES in
  let tmp := take MLKEM_SYMBYTES (drop (MLKEM_INDCCA_SECRETKEYBYTES - MLKEM_SYMBYTES) sk) ++ take MLKEM_INDCCA_CIPHERTEXTBYTES ct in
  ss ← mlk_hash_j tmp;
  Some (0, mlk_ct_cmov_zero ss kr MLKEM_SYMBYTES fail).
