(* ===== verification/MlkKemFacts.v ===== *)
(** * MlkKemFacts: the key encapsulation is ML-KEM *)
From S2P Require Import Prelude Octets CInt Keccak KeccakRounds MlkPoly MlkArith MlkNttFacts MlkCodec Fips203 MlkCodecFacts MlkSampling MlkSamplingFacts MlkIndcpa MlkIndcpaFacts MlkKem.

(** ** [verify.h]: comparison and conditional copy *)

Lemma lor_0 x y : Z.lor x y = 0 <-> x = 0 /\ y = 0.
Proof. apply Z.lor_eq_0_iff. Qed.
Lemma memcmp_fold a b n : exists r s,
  fold_left (fun '(r, s) i =>
      (Z.lor r (Z.lxor (octet_at a i) (octet_at b i)), Z.lxor s (Z.lxor (octet_at a i) (octet_at b i)))) (seq 0 n) (0, 0) = (r, s) /\
  0 <= r < 2 ^ 8 /\ (r = 0 <-> forall i, (i < n)%nat -> octet_at a i = octet_at b i).
Proof.
  induction n as [|n (r & s & E & Hr & IH)].
  { exists 0, 0. split; [done|]. split; [lia|]. split; [intros _ i Hi; lia|done]. }
  rewrite seq_S, fold_left_app, E. cbn [fold_left Nat.add]. eexists _, _. split; [done|].
  pose proof (octet_at_range a n). pose proof (octet_at_range b n). split.
  - apply lor_range; [done|]. by apply lxor_byte_range.
  - rewrite lor_0, IH, Z.lxor_eq_0_iff. split.
    + intros [H1 H2] i Hi. destruct (decide (i = n)) as [->|]; [done|apply H1; lia].
    + intros H1. split; [intros i Hi; apply H1; lia|apply H1; lia].
Qed.

(** 0 for equal octets, 0xFF else. *)
Lemma ct_memcmp_ok a b n : mlk_ct_memcmp a b n = 0 \/ mlk_ct_memcmp a b n = 0xFF.
Proof.
  unfold mlk_ct_memcmp. destruct (memcmp_fold a b n) as (r & s & -> & Hr & _). unfold mlk_value_barrier_u8.
  rewrite Z.lxor_assoc, Z.lxor_nilpotent, Z.lxor_0_r, cmask_nonzero_u8_ok by done. destruct (r =? 0); [by left|by right].
Qed.
Lemma ct_memcmp_eq a b n : mlk_ct_memcmp a b n = 0 <-> forall i, (i < n)%nat -> octet_at a i = octet_at b i.
Proof.
  unfold mlk_ct_memcmp. destruct (memcmp_fold a b n) as (r & s & -> & Hr & <-). unfold mlk_value_barrier_u8.
  rewrite Z.lxor_assoc, Z.lxor_nilpotent, Z.lxor_0_r, cmask_nonzero_u8_ok by done. by destruct (Z.eqb_spec r 0).
Qed.
Lemma ct_memcmp_take a b n : (n <= length a)%nat -> (n <= length b)%nat -> mlk_ct_memcmp a b n = 0 <-> take n a = take n b.
Proof.
  intros Ha Hb. rewrite ct_memcmp_eq. split.
  - intros H. apply octets_ext; rewrite ?length_take; [lia|]. intros k Hk. rewrite !octet_at_take by lia. apply H. lia.
  - intros H i Hi. by rewrite <- (octet_at_take a n), H, octet_at_take.
Qed.

Lemma ct_sel_uint8_ok a b c : 0 <= a < 256 -> 0 <= b < 256 -> 0 <= c < 256 -> mlk_ct_sel_uint8 a b c = if c =? 0 then b else a.
Proof.
  intros Ha Hb Hc. unfold mlk_ct_sel_uint8. rewrite cmask_nonzero_u8_ok by done. destruct (c =? 0); [by rewrite Z.land_0_l, Z.lxor_0_r|].
  change 255 with (Z.ones 8). rewrite Z.land_comm, Z.land_ones, Z.mod_small by (lia || by apply lxor_byte_range).
  by rewrite (Z.lxor_comm a b), <- Z.lxor_assoc, Z.lxor_nilpotent, Z.lxor_0_l.
Qed.
Lemma cmov_zero_fold r x b n : (n <= length r)%nat -> 0 <= b < 256 ->
  let r' := mlk_ct_cmov_zero r x n b in
  length r' = length r /\ forall i, octet_at r' i = if (i <? n)%nat then (if b =? 0 then octet_at x i else octet_at r i) else octet_at r i.
Proof.
  intros Hn Hb. induction n as [|n IH]; [done|]. specialize (IH ltac:(lia)). destruct IH as [Hl H]. unfold mlk_ct_cmov_zero in *. cbv zeta in *.
  rewrite seq_S, fold_left_app. cbn [fold_left Nat.add]. set (r' := fold_left _ (seq 0 n) r) in *. clearbody r'.
  split; [by rewrite length_insert|]. intros i. destruct (Nat.ltb_spec i (S n)) as [Hi|Hi].
  - destruct (decide (i = n)) as [->|Hne].
    + rewrite octet_at_insert by lia. rewrite ct_sel_uint8_ok, (H n), Nat.ltb_irrefl by (done || apply octet_at_range).
      destruct (b =? 0); apply Z.mod_small, octet_at_range.
    + rewrite octet_at_insert_ne, H, (proj2 (Nat.ltb_lt _ _)) by lia. done.
  - rewrite octet_at_insert_ne, H, (proj2 (Nat.ltb_ge _ _)) by lia. done.
Qed.
Lemma cmov_zero_ok r x b n : length r = n -> (n <= length x)%nat -> 0 <= b < 256 ->
  mlk_ct_cmov_zero r x n b = if b =? 0 then take n x else r.
Proof.
  intros Hr Hx Hb. destruct (cmov_zero_fold r x b n ltac:(lia) Hb) as [Hl H]. cbv zeta in *. apply octets_ext.
  - destruct (b =? 0); rewrite Hl, ?length_take; lia.
  - intros k Hk. rewrite H, (proj2 (Nat.ltb_lt _ _)) by lia. destruct (b =? 0); [by rewrite octet_at_take by lia|done].
Qed.

(** ** What the algorithms read *)

Lemma part_prefix l i k B C : (i < k)%nat -> (k * l <= length B)%nat -> Fips203.part l i (B ++ C) = Fips203.part l i B.
Proof.
  intros Hi Hl. unfold Fips203.part. assert (i * l + l <= length B)%nat as H by nia.
  rewrite drop_app_le, take_app_le by (rewrite ?length_drop; lia). done.
Qed.
Lemma parts_prefix {A} (f : bytes -> A) l B C : (3 * l <= length B)%nat ->
  (fun i => f (Fips203.part l i (B ++ C))) <$> seq 0 3 = (fun i => f (Fips203.part l i B)) <$> seq 0 3.
Proof. intros H. cbn [seq fmap list_fmap]. by rewrite !(part_prefix l _ 3) by (done || lia). Qed.

Lemma encrypt_message b ek m x r : length m = 32%nat -> Fips203.kpke_encrypt b ek (m ++ x) r = Fips203.kpke_encrypt b ek m r.
Proof.
  intros Hm. unfold Fips203.kpke_encrypt. rewrite <- (byte_decode_take 1 (m ++ x)). change (32 * 1)%nat with 32%nat.
  by rewrite take_app_le, take_ge by lia.
Qed.
Lemma encrypt_key b ek x m r : length ek = 1184%nat -> Fips203.kpke_encrypt b (ek ++ x) m r = Fips203.kpke_encrypt b ek m r.
Proof.
  intros He. unfold Fips203.kpke_encrypt. rewrite (parts_prefix (Fips203.byte_decode 12)) by lia.
  by rewrite drop_app_le, take_app_le by (rewrite ?length_drop; lia).
Qed.
Lemma decrypt_key dk x c : length dk = 1152%nat -> Fips203.kpke_decrypt (dk ++ x) c = Fips203.kpke_decrypt dk c.
Proof. intros H. unfold Fips203.kpke_decrypt. by rewrite (parts_prefix (Fips203.byte_decode 12)) by lia. Qed.

Lemma encodings_length {A} (f : A -> list Z) d l : length (flat_map (fun x => Fips203.byte_encode d (f x)) l) = (length l * (32 * d))%nat.
Proof. induction l as [|x l IH]; [done|]. cbn [flat_map length]. rewrite length_app, byte_encode_length, IH. lia. Qed.
Lemma encrypt_length b ek m r c : Fips203.kpke_encrypt b ek m r = Some c -> length c = 1088%nat.
Proof.
  unfold Fips203.kpke_encrypt. destruct (Fips203.sample_matrix b _) as [A|] eqn:EA; [|done].
  apply sample_matrix_square, transpose_square in EA. rewrite bind_Some. intros <-%(inj Some).
  rewrite length_app, (encodings_length (fun u => Fips203.compress 10 <$> u)), byte_encode_length, length_zip_with, length_fmap, matrix_mul_length by done.
  by rewrite sample_noise_length.
Qed.

Lemma byte_decode_12_canonical B : canonical (Fips203.byte_decode 12 B).
Proof.
  rewrite byte_decode_raw. cbn [Nat.eqb]. split; [by rewrite length_fmap, raw_decode_length|]. intros x Hx.
  rewrite coef_fmap by by rewrite raw_decode_length. by apply Z.mod_pos_bound.
Qed.
Lemma flat_map_fmap {A B C} (f : B -> list C) (g : A -> B) l : flat_map f (g <$> l) = flat_map (fun x => f (g x)) l.
Proof. induction l as [|x l IH]; [done|]. cbn. by rewrite IH. Qed.

Lemma frombytes_repr B : Forall2 (repr (2 ^ 15)) (mlk_polyvec_frombytes B) ((fun i => Fips203.byte_decode 12 (Fips203.part 384 i B)) <$> seq 0 3).
Proof.
  eapply Forall2_impl; [|apply frombytes_vec]. intros r F [[Hl HU] E]. split; [|done]. split; [done|]. intros x Hx.
  specialize (HU x Hx). unfold MLKEM_UINT12_LIMIT, within in *. lia.
Qed.

Lemma check_pk_ok pk : (MLKEM_INDCCA_PUBLICKEYBYTES <= length pk)%nat ->
  mlk_kem_check_pk pk = Some (if decide (Fips203.modulus_check pk) then 0 else MLK_ERR_FAIL).
Proof.
  intros Hp. change MLKEM_INDCCA_PUBLICKEYBYTES with 1184%nat in Hp. unfold mlk_kem_check_pk. cbv zeta.
  assert (Forall canonical ((fun i => Fips203.byte_decode 12 (Fips203.part 384 i pk)) <$> seq 0 3)) as HC.
  { apply list.Forall_fmap, list.Forall_true. intros i. apply byte_decode_12_canonical. }
  step (reduce_vec (mlk_polyvec_frombytes pk) _ HC (frombytes_repr pk)). rewrite tobytes_vec by (apply HC || apply length_fmap).
  rewrite flat_map_fmap. change MLKEM_POLYVECBYTES with 1152%nat.
  assert (Fips203.modulus_check pk <-> flat_map (fun i => Fips203.byte_encode 12 (Fips203.byte_decode 12 (Fips203.part 384 i pk))) (seq 0 3) = take 1152 pk) as HM
    by reflexivity.
  pose proof (encodings_length (fun i => Fips203.byte_decode 12 (Fips203.part 384 i pk)) 12 (seq 0 3)) as HE.
  cbv beta in HE. change (length (seq 0 3) * (32 * 12))%nat with 1152%nat in HE. revert HM HE.
  generalize (flat_map (fun i => Fips203.byte_encode 12 (Fips203.byte_decode 12 (Fips203.part 384 i pk))) (seq 0 3)). intros E HM HE.
  pose proof (ct_memcmp_take pk E 1152 ltac:(lia) ltac:(lia)) as HC'. rewrite (take_ge E) in HC' by lia.
  destruct (decide (Fips203.modulus_check pk)) as [H1|H1]; destruct (Z.eqb_spec (mlk_ct_memcmp pk E 1152) 0) as [H0|H0]; try reflexivity.
  - destruct H0. apply HC'. symmetry. by apply HM.
  - destruct H1. apply HM. symmetry. by apply HC'.
Qed.

Lemma check_sk_ok sk : (MLKEM_INDCCA_SECRETKEYBYTES <= length sk)%nat ->
  mlk_kem_check_sk sk = Some (if decide (Fips203.hash_check sk) then 0 else MLK_ERR_FAIL).
Proof.
  intros Hs. change MLKEM_INDCCA_SECRETKEYBYTES with 2400%nat in Hs. unfold mlk_kem_check_sk. step hash_h_ok.
  change MLKEM_INDCCA_PUBLICKEYBYTES with 1184%nat. change MLKEM_INDCPA_SECRETKEYBYTES with 1152%nat.
  change (MLKEM_INDCCA_SECRETKEYBYTES - 2 * MLKEM_SYMBYTES)%nat with 2336%nat. change MLKEM_SYMBYTES with 32%nat.
  assert (Fips203.hash_check sk <-> Fips203.H (take 1184 (drop 1152 sk)) = take 32 (drop 2336 sk)) as HM by reflexivity.
  pose proof (H_length (take 1184 (drop 1152 sk))) as HE. revert HM HE. generalize (Fips203.H (take 1184 (drop 1152 sk))). intros E HM HE.
  pose proof (ct_memcmp_take (drop 2336 sk) E 32 ltac:(rewrite length_drop; lia) ltac:(lia)) as HC. rewrite (take_ge E) in HC by lia.
  destruct (decide (Fips203.hash_check sk)) as [H1|H1]; destruct (Z.eqb_spec (mlk_ct_memcmp (drop 2336 sk) E 32) 0) as [H0|H0]; try reflexivity.
  - destruct H0. apply HC. symmetry. by apply HM.
  - destruct H1. apply HM. symmetry. by apply HC.
Qed.

(** ** The algorithms *)

Lemma keypair_derand_ok fuel coins : length coins = 64%nat ->
  mlk_kem_keypair_derand fuel coins =
  '(ek, dk) ← Fips203.kem_keygen (3 + fuel) (take 32 coins) (drop 32 coins); Some (0, ek, dk).
Proof.
  intros Hc. unfold mlk_kem_keypair_derand, Fips203.kem_keygen. rewrite keypair_ok.
  destruct (Fips203.kpke_keygen (3 + fuel) (take 32 coins)) as [[ek dk]|]; [|done]. rewrite !bind_Some. step hash_h_ok.
  unfold mlk_check_pct, MLKEM_SYMBYTES. cbv zeta. by rewrite (take_ge (drop 32 coins)) by (rewrite length_drop; lia).
Qed.

Lemma enc_derand_ok fuel ct ss pk coins : length pk = 1184%nat -> length coins = 32%nat ->
  mlk_kem_enc_derand fuel ct ss pk coins =
  if decide (Fips203.modulus_check pk) then '(K, c) ← Fips203.kem_encaps (3 + fuel) pk coins; Some (0, c, K)
  else Some (MLK_ERR_FAIL, ct, ss).
Proof.
  intros Hp Hc. unfold mlk_kem_enc_derand. change MLKEM_INDCCA_PUBLICKEYBYTES with 1184%nat. rewrite (take_ge pk) by lia.
  step (check_pk_ok pk ltac:(change MLKEM_INDCCA_PUBLICKEYBYTES with 1184%nat; lia)).
  destruct (decide (Fips203.modulus_check pk)) as [_|_]; [|reflexivity]. cbn [negb Z.eqb].
  step hash_h_ok. cbv zeta. change MLKEM_SYMBYTES with 32%nat. rewrite (take_ge coins) by lia. step hash_g_ok.
  unfold Fips203.kem_encaps, Fips203.G. pose proof (sha3_512_length (coins ++ Fips203.H pk)) as HG. revert HG.
  generalize (Fips202.sha3_512 (coins ++ Fips203.H pk)). intros kr HG.
  rewrite enc_ok by (change MLKEM_INDCPA_PUBLICKEYBYTES with 1184%nat; rewrite ?length_drop; lia). rewrite encrypt_message by done.
  by destruct (Fips203.kpke_encrypt (3 + fuel) pk coins (drop 32 kr)).
Qed.

Lemma dec_derand_ok fuel ss ct sk : length ct = 1088%nat -> length sk = 2400%nat ->
  mlk_kem_dec fuel ss ct sk =
  if decide (Fips203.hash_check sk) then K ← Fips203.kem_decaps (3 + fuel) sk ct; Some (0, K)
  else Some (MLK_ERR_FAIL, ss).
Proof.
  intros Hct Hsk. unfold mlk_kem_dec. cbv zeta.
  step (check_sk_ok sk ltac:(change MLKEM_INDCCA_SECRETKEYBYTES with 2400%nat; lia)).
  destruct (decide (Fips203.hash_check sk)) as [_|_]; [|reflexivity]. cbn [negb Z.eqb].
  change MLKEM_INDCPA_SECRETKEYBYTES with (384 * 3)%nat. change (MLKEM_INDCCA_SECRETKEYBYTES - 2 * MLKEM_SYMBYTES)%nat with (768 * 3 + 32)%nat.
  change (MLKEM_INDCCA_SECRETKEYBYTES - MLKEM_SYMBYTES)%nat with (768 * 3 + 64)%nat. change MLKEM_SYMBYTES with 32%nat.
  change MLKEM_INDCCA_CIPHERTEXTBYTES with 1088%nat. rewrite (take_ge ct) by lia.
  unfold Fips203.kem_decaps, Fips203.G. cbv zeta. step dec_ok. step hash_g_ok.
  assert (Fips203.kpke_decrypt sk ct = Fips203.kpke_decrypt (take (384 * 3) sk) ct) as ->.
  { rewrite <- (take_drop (384 * 3) sk) at 1. apply decrypt_key. rewrite length_take. lia. }
  set (m := Fips203.kpke_decrypt (take (384 * 3) sk) ct). assert (length m = 32%nat) as Hm by apply byte_encode_length. clearbody m.
  pose proof (sha3_512_length (m ++ take 32 (drop (768 * 3 + 32) sk))) as HG. revert HG.
  generalize (Fips202.sha3_512 (m ++ take 32 (drop (768 * 3 + 32) sk))). intros kr HG.
  rewrite enc_ok by (change MLKEM_INDCPA_PUBLICKEYBYTES with 1184%nat; rewrite ?length_drop; lia). rewrite encrypt_message by done.
  rewrite <- (take_drop 1184 (drop (384 * 3) sk)) at 1. rewrite encrypt_key by (rewrite length_take, length_drop; lia).
  change (384 * 3 + 32)%nat with 1184%nat.
  destruct (Fips203.kpke_encrypt (3 + fuel) (take 1184 (drop (384 * 3) sk)) m (drop 32 kr)) as [c'|] eqn:EC; [|done].
  apply encrypt_length in EC. rewrite !bind_Some. step hash_j_ok. rewrite cmov_zero_ok; [|apply J_length|lia|by destruct (ct_memcmp_ok ct c' 1088) as [-> | ->]].
  pose proof (ct_memcmp_take ct c' 1088 ltac:(lia) ltac:(lia)) as HM. rewrite !take_ge in HM by lia.
  destruct (decide (ct = c')) as [E|E]; destruct (Z.eqb_spec (mlk_ct_memcmp ct c' 1088) 0) as [H0|H0]; try reflexivity.
  - destruct H0. by apply HM.
  - destruct E. by apply HM.
Qed.
