(* ===== verification/MlkCorrect.v ===== *)
(** * MlkCorrect: decapsulation undoes encapsulation

    Up to the noise of the scheme: what decryption sees is the message plus [noise], a
    polynomial of the secrets and of the rounding errors; a bit comes out right if its
    coefficient is within a quarter of q. *)
From Stdlib Require Import Zmod.
From S2P Require Import Prelude Octets CInt Keccak KeccakRounds MlkPoly MlkArith MlkNtt MlkNttFacts MlkCodec Fips203 MlkCodecFacts MlkSampling MlkSamplingFacts MlkIndcpa MlkIndcpaFacts MlkKem MlkKemFacts.

(** ** The products of transforms are a commutative ring *)

Local Open Scope q_scope.
Ltac by_pairs :=
  lazymatch goal with |- ?f ≡ ?g => refine (index_pair (fun x => f x = g x) _) end;
  intros b Hb; destruct (even_pair b) as (E0 & E1 & D0 & D1); unfold base_mul, cadd, csub;
  rewrite ?E0, ?E1, ?D0, ?D1, ?E0, ?E1, ?D0, ?D1; split; ring.
Lemma base_mul_comm f g : base_mul f g ≡ base_mul g f.
Proof. by_pairs. Qed.
Lemma base_mul_assoc f g h : base_mul f (base_mul g h) ≡ base_mul (base_mul f g) h.
Proof. by_pairs. Qed.
Lemma base_mul_add f g h : base_mul f (cadd g h) ≡ cadd (base_mul f g) (base_mul f h).
Proof. by_pairs. Qed.

Lemma cadd_at f g x : cadd f g x = f x + g x.
Proof. reflexivity. Qed.
Lemma csub_at f g x : csub f g x = f x - g x.
Proof. reflexivity. Qed.

Definition sum3 (f : nat -> coeffs) : coeffs := fun x => sum 3 (fun k => f k x).
Lemma sum3_cadd f : sum3 f ≡ cadd (cadd (f 0%nat) (f 1%nat)) (f 2%nat).
Proof. intros x Hx. unfold sum3, cadd. cbn [sum]. ring. Qed.
Lemma cdot_cadd f g : cdot f g ≡ cadd (cadd (base_mul (f 0%nat) (g 0%nat)) (base_mul (f 1%nat) (g 1%nat))) (base_mul (f 2%nat) (g 2%nat)).
Proof. exact (sum3_cadd (fun k => base_mul (f k) (g k))). Qed.

(** (A s) . y = s . (A^T y) *)
Lemma cdot_transpose (A : nat -> nat -> coeffs) s y : cdot (fun k => cdot (A k) s) y ≡ cdot s (fun k => cdot (fun j => A j k) y).
Proof. unfold cdot, MLKEM_K. cbn [sum]. by_pairs. Qed.
#[local] Opaque ntt intt cmul base_mul cadd csub.

Lemma cdot_ext f g f' g' : (forall k, (k < 3)%nat -> f k ≡ f' k) -> (forall k, (k < 3)%nat -> g k ≡ g' k) -> cdot f g ≡ cdot f' g'.
Proof.
  intros Hf Hg. rewrite (cdot_cadd f g), (cdot_cadd f' g').
  apply cadd_proper; [apply cadd_proper|]; (apply base_mul_proper; [apply Hf|apply Hg]; lia).
Qed.
Lemma cdot_comm f g : cdot f g ≡ cdot g f.
Proof. rewrite (cdot_cadd f g), (cdot_cadd g f). by repeat (apply cadd_proper || apply base_mul_comm). Qed.
Lemma cdot_add f g h : cdot f (fun k => cadd (g k) (h k)) ≡ cadd (cdot f g) (cdot f h).
Proof.
  rewrite (cdot_cadd f (fun k => cadd (g k) (h k))), (cdot_cadd f g), (cdot_cadd f h).
  intros x Hx. rewrite !cadd_at, !(base_mul_add _ _ _ x Hx), !cadd_at. ring.
Qed.
Lemma ntt_sum3 f g : ntt (sum3 (fun k => cmul (f k) (g k))) ≡ cdot (fun k => ntt (f k)) (fun k => ntt (g k)).
Proof.
  rewrite (sum3_cadd (fun k => cmul (f k) (g k))), ntt_add, ntt_add, (cdot_cadd (fun k => ntt (f k)) (fun k => ntt (g k))).
  apply cadd_proper; [apply cadd_proper|]; apply ntt_mul.
Qed.

(** ** What decryption computes *)

Section noise.
Variables (A : nat -> nat -> coeffs) (s e y e1 du : nat -> coeffs) (e2 mu dv : coeffs).

(** Negacyclic products, as in the polynomials themselves. *)
Definition noise : coeffs :=
  csub (cadd (cadd (sum3 (fun k => cmul (e k) (y k))) e2) dv) (sum3 (fun k => cmul (s k) (cadd (e1 k) (du k)))).

Definition public (k : nat) : coeffs := cadd (cdot (A k) (fun j => ntt (s j))) (ntt (e k)).
Definition masked (k : nat) : coeffs := cadd (cadd (intt (cdot (fun j => A j k) (fun j => ntt (y j)))) (e1 k)) (du k).
Definition padded : coeffs := cadd (cadd (cadd (intt (cdot public (fun j => ntt (y j)))) e2) mu) dv.

Lemma ntt_masked k : ntt (masked k) ≡ cadd (cdot (fun j => A j k) (fun j => ntt (y j))) (ntt (cadd (e1 k) (du k))).
Proof. unfold masked. rewrite ntt_add, ntt_add, ntt_intt, ntt_add. intros x Hx. rewrite !cadd_at. ring. Qed.

Lemma decrypted : csub padded (intt (cdot (fun k => ntt (s k)) (fun k => ntt (masked k)))) ≡ cadd mu noise.
Proof.
  apply ntt_inj. unfold padded, noise. rewrite ntt_sub, ntt_add, ntt_add, ntt_add, ntt_intt, ntt_intt, ntt_add, ntt_sub, ntt_add, ntt_add.
  intros x Hx. rewrite !cadd_at, !csub_at, !cadd_at.
  pose proof (ntt_sum3 e y x Hx) as Q1. pose proof (ntt_sum3 s (fun k => cadd (e1 k) (du k)) x Hx) as Q2. rewrite Q1, Q2. clear Q1 Q2.
  pose proof (cdot_ext _ _ _ _ (fun k _ => reflexivity (ntt (s k))) (fun k _ => ntt_masked k) x Hx) as Q3. rewrite (cdot_add _ _ _ x Hx), cadd_at in Q3. rewrite Q3. clear Q3.
  pose proof (cdot_comm public (fun j => ntt (y j)) x Hx) as Q4. unfold public in Q4 at 2. rewrite (cdot_add _ _ _ x Hx), cadd_at in Q4. rewrite Q4. clear Q4.
  rewrite (cdot_comm (fun j => ntt (y j)) (fun k => cdot (A k) (fun j => ntt (s j))) x Hx), (cdot_comm (fun j => ntt (y j)) (fun k => ntt (e k)) x Hx).
  rewrite (cdot_transpose A (fun j => ntt (s j)) (fun j => ntt (y j)) x Hx). ring.
Qed.
End noise.
Local Close Scope q_scope.

(** ** Taking encodings apart *)

Lemma part_0 l B C : length B = l -> Fips203.part l 0 (B ++ C) = B.
Proof. intros <-. unfold Fips203.part. by rewrite Nat.mul_0_l, drop_0, take_app_length. Qed.
Lemma part_S l i B C : length B = l -> Fips203.part l (S i) (B ++ C) = Fips203.part l i C.
Proof. intros H. unfold Fips203.part. f_equal. rewrite drop_app_ge by lia. f_equal. lia. Qed.
Lemma parts_of {A B} (f : A -> bytes) (g : bytes -> B) l (a : list A) x : (forall y, length (f y) = l) ->
  (fun i => g (Fips203.part l i (flat_map f a ++ x))) <$> seq 0 (length a) = (fun y => g (f y)) <$> a.
Proof.
  intros Hl. induction a as [|y a IH]; [done|]. cbn [length seq fmap list_fmap flat_map].
  rewrite <- app_assoc, part_0 by done. f_equal. rewrite <- IH, <- seq_shift. change (map Datatypes.S (seq 0 (length a))) with (Datatypes.S <$> seq 0 (length a)).
  rewrite <- list_fmap_compose. apply list_fmap_ext. intros _ i _. cbn [compose]. by rewrite part_S.
Qed.

(** A polynomial, compressed, encoded and back. *)
Definition rounded (d : nat) (F : list Z) : list Z := Fips203.decompress d <$> (Fips203.compress d <$> F).
Lemma decode_compressed d F : (1 <= d)%nat -> d <> 12%nat -> length F = 256%nat ->
  Fips203.decompress d <$> Fips203.byte_decode d (Fips203.byte_encode d (Fips203.compress d <$> F)) = rounded d F.
Proof.
  intros Hd Hn HF. unfold rounded. f_equal. rewrite byte_decode_small by done. apply raw_decode_encode; [lia|by rewrite length_fmap|].
  intros x Hx. rewrite coef_fmap by lia. apply compress_range.
Qed.

Lemma decode_vec F x : length F = 3%nat -> Forall canonical F ->
  (fun i => Fips203.byte_decode 12 (Fips203.part 384 i (flat_map (Fips203.byte_encode 12) F ++ x))) <$> seq 0 3 = F.
Proof.
  intros Hl HF. rewrite <- Hl at 1. rewrite (parts_of (Fips203.byte_encode 12) (Fips203.byte_decode 12)) by (intros; apply byte_encode_length).
  rewrite <- (list_fmap_id F) at 2. apply list_fmap_ext. intros i y Hy. apply byte_decode_encode_12. by apply (list.Forall_lookup_1 _ _ _ _ HF Hy).
Qed.

(** ** The encryption *)

(** What the algorithms compute before they encode it: the key, and the two parts of the ciphertext. *)
Definition key_poly (A : list (list (list Z))) (sigma : bytes) : list (list Z) :=
  zip_with Fips203.add (Fips203.matrix_mul A (Fips203.NTT <$> Fips203.sample_noise sigma 0)) (Fips203.NTT <$> Fips203.sample_noise sigma 3).
Definition u_poly (A : list (list (list Z))) (r : bytes) : list (list Z) :=
  zip_with Fips203.add (Fips203.inv_NTT <$> Fips203.matrix_mul (Fips203.transpose A) (Fips203.NTT <$> Fips203.sample_noise r 0)) (Fips203.sample_noise r 3).
Definition message (m : bytes) : list Z := Fips203.decompress 1 <$> Fips203.byte_decode 1 m.
Definition v_poly (t : list (list Z)) (m r : bytes) : list Z :=
  Fips203.add (Fips203.add (Fips203.inv_NTT (Fips203.dot t (Fips203.NTT <$> Fips203.sample_noise r 0)))
    (Fips203.sample_poly_cbd 2 (Fips203.PRF 2 r 6))) (message m).

(** What compression changes. *)
Definition rounding (d : nat) (F : list Z) : coeffs := csub (Fips203.poly (rounded d F)) (Fips203.poly F).

Definition kpke_noise (A : list (list (list Z))) (sigma m r : bytes) : coeffs :=
  noise (vec_of (Fips203.sample_noise sigma 0)) (vec_of (Fips203.sample_noise sigma 3)) (vec_of (Fips203.sample_noise r 0))
    (vec_of (Fips203.sample_noise r 3)) (fun k => rounding 10 (pvec (u_poly A r) k))
    (Fips203.poly (Fips203.sample_poly_cbd 2 (Fips203.PRF 2 r 6))) (rounding 4 (v_poly (key_poly A sigma) m r)).

Definition dec_poly (A : list (list (list Z))) (sigma m r : bytes) : list Z :=
  Fips203.sub (rounded 4 (v_poly (key_poly A sigma) m r))
    (Fips203.inv_NTT (Fips203.dot (Fips203.NTT <$> Fips203.sample_noise sigma 0) (Fips203.NTT <$> (rounded 10 <$> u_poly A r)))).

Section encryption.
Context (b : nat) (sigma rho : bytes) (A : list (list (list Z))).
Hypotheses (EA : Fips203.sample_matrix b rho = Some A) (Hr : length rho = 32%nat).

Lemma square_A : square A.
Proof using EA. exact (sample_matrix_square _ _ _ EA). Qed.
Lemma key_poly_length : length (key_poly A sigma) = 3%nat.
Proof using EA. unfold key_poly. rewrite length_zip_with, matrix_mul_length by apply square_A. reflexivity. Qed.
Lemma u_poly_length r : length (u_poly A r) = 3%nat.
Proof using EA.
  unfold u_poly. rewrite length_zip_with, length_fmap, matrix_mul_length by apply transpose_square, square_A. reflexivity.
Qed.

Definition ek : bytes := flat_map (Fips203.byte_encode 12) (key_poly A sigma) ++ rho.
Definition dk : bytes := flat_map (Fips203.byte_encode 12) (Fips203.NTT <$> Fips203.sample_noise sigma 0).
Definition ciphertext (m r : bytes) : bytes :=
  flat_map (fun u => Fips203.byte_encode 10 (Fips203.compress 10 <$> u)) (u_poly A r) ++
  Fips203.byte_encode 4 (Fips203.compress 4 <$> v_poly (key_poly A sigma) m r).

Lemma encrypt_eq m r : Fips203.kpke_encrypt b ek m r = Some (ciphertext m r).
Proof using EA Hr.
  unfold Fips203.kpke_encrypt, ek. rewrite decode_vec by (apply key_poly_length || apply zip_add_canonical).
  rewrite drop_app_length' by (rewrite (encodings_length id), key_poly_length; reflexivity).
  rewrite take_ge by lia. rewrite EA, bind_Some. unfold ciphertext, u_poly, v_poly, message. reflexivity.
Qed.

Lemma decrypt_eq m r : Fips203.kpke_decrypt dk (ciphertext m r) = Fips203.byte_encode 1 (Fips203.compress 1 <$> dec_poly A sigma m r).
Proof using EA Hr.
  unfold Fips203.kpke_decrypt. rewrite <- (app_nil_r dk). unfold dk. rewrite decode_vec by (reflexivity || apply NTT_canonical).
  assert ((fun i => Fips203.decompress 10 <$> Fips203.byte_decode 10 (Fips203.part 320 i (ciphertext m r))) <$> seq 0 3 = rounded 10 <$> u_poly A r) as ->.
  { rewrite <- (u_poly_length r) at 1. unfold ciphertext.
    rewrite (parts_of (fun u => Fips203.byte_encode 10 (Fips203.compress 10 <$> u)) (fun B => Fips203.decompress 10 <$> Fips203.byte_decode 10 B))
      by (intros; apply byte_encode_length).
    apply list_fmap_ext. intros i u Hu. apply decode_compressed; [lia|lia|].
    apply (list.Forall_lookup_1 _ _ _ _ (zip_add_canonical _ _) Hu). }
  unfold ciphertext. rewrite drop_app_length' by (rewrite (encodings_length (fun u => Fips203.compress 10 <$> u)), u_poly_length; reflexivity).
  rewrite decode_compressed by (lia || apply reps_canonical). reflexivity.
Qed.
End encryption.

(** ** The polynomial that decryption sees *)

Lemma poly_dot a b : length a = 3%nat -> length b = 3%nat -> Fips203.poly (Fips203.dot a b) ≡ cdot (vec_of a) (vec_of b).
Proof.
  intros Ha Hb. symmetry. apply dot_cdot; [done..| |]; apply Forall_Forall2_diag, list.Forall_true; intros x; reflexivity.
Qed.
Lemma nth_fmap {A B} (f : A -> B) l k d d' : (k < length l)%nat -> nth k (f <$> l) d' = f (nth k l d).
Proof.
  intros Hk. rewrite !nth_lookup, list_lookup_fmap. destruct (lookup_lt_is_Some_2 l k Hk) as [x ->]. done.
Qed.
Lemma nth_zip {A B C} (f : A -> B -> C) l l' k d d' d'' : (k < length l)%nat -> (k < length l')%nat ->
  nth k (zip_with f l l') d'' = f (nth k l d) (nth k l' d').
Proof.
  intros Hk Hk'. rewrite !nth_lookup, lookup_zip_with.
  destruct (lookup_lt_is_Some_2 l k Hk) as [x ->], (lookup_lt_is_Some_2 l' k Hk') as [y ->]. done.
Qed.

Lemma vec_NTT F k : (k < 3)%nat -> length F = 3%nat -> vec_of (Fips203.NTT <$> F) k ≡ ntt (vec_of F k).
Proof. intros Hk HF. unfold vec_of, pvec. rewrite (nth_fmap Fips203.NTT F k []) by lia. apply poly_reps. Qed.

Lemma row_length A k : square A -> (k < 3)%nat -> length (nth k A []) = 3%nat.
Proof.
  intros [Hl HF] Hk. rewrite nth_lookup. destruct (lookup_lt_is_Some_2 A k ltac:(rewrite Hl; exact Hk)) as [row E].
  rewrite E. apply (list.Forall_lookup_1 _ _ _ _ HF E).
Qed.

Section seen.
Context (A : list (list (list Z))) (HA : square A) (sigma m r : bytes).
(** The transform of row [k], column [j]. *)
Definition entries (k j : nat) : coeffs := vec_of (nth k A []) j.
Local Abbreviation s := (Fips203.sample_noise sigma 0).
Local Abbreviation e := (Fips203.sample_noise sigma 3).
Local Abbreviation y := (Fips203.sample_noise r 0).
Local Abbreviation e1 := (Fips203.sample_noise r 3).
Local Abbreviation e2 := (Fips203.sample_poly_cbd 2 (Fips203.PRF 2 r 6)).

Lemma key_entry k : (k < 3)%nat -> vec_of (key_poly A sigma) k ≡ public entries (vec_of s) (vec_of e) k.
Proof using HA.
  intros Hk. unfold vec_of at 1, pvec, key_poly, Fips203.matrix_mul.
  rewrite (nth_zip _ _ _ k [] []) by (rewrite ?length_fmap, ?(proj1 HA); exact Hk). etransitivity; [apply poly_add|]. unfold public. apply cadd_proper.
  - rewrite (nth_fmap _ A k []) by (rewrite (proj1 HA); exact Hk). rewrite poly_dot by (reflexivity || by apply row_length).
    apply cdot_ext; intros j Hj; [reflexivity|by apply vec_NTT].
  - by apply vec_NTT.
Qed.
Lemma column_entry k j : (k < 3)%nat -> (j < 3)%nat -> vec_of (nth k (Fips203.transpose A) []) j = entries j k.
Proof using HA.
  intros Hk Hj. unfold Fips203.transpose. rewrite (nth_fmap _ (seq 0 3) k 0%nat) by exact Hk. rewrite seq_nth by exact Hk.
  unfold vec_of, pvec, entries, vec_of, pvec. by rewrite (nth_fmap _ A j []) by (rewrite (proj1 HA); exact Hj).
Qed.
Lemma u_entry k : (k < 3)%nat -> Fips203.poly (pvec (u_poly A r) k) ≡ cadd (intt (cdot (fun j => entries j k) (fun j => ntt (vec_of y j)))) (vec_of e1 k).
Proof using HA.
  intros Hk. pose proof (transpose_square A HA) as HT. unfold pvec, u_poly, Fips203.matrix_mul.
  rewrite (nth_zip _ _ _ k [] []) by (rewrite ?length_fmap, ?(proj1 HT); exact Hk). etransitivity; [apply poly_add|]. apply cadd_proper; [|reflexivity].
  rewrite <- list_fmap_compose, (nth_fmap _ (Fips203.transpose A) k []) by (rewrite (proj1 HT); exact Hk). cbn [compose].
  etransitivity; [apply poly_reps|]. apply intt_proper. rewrite poly_dot by (reflexivity || by apply row_length).
  apply cdot_ext; intros j Hj; [by rewrite column_entry|by apply vec_NTT].
Qed.

Lemma add_rounding d F : Fips203.poly (rounded d F) ≡ cadd (Fips203.poly F) (rounding d F).
Proof. intros x Hx. unfold rounding. rewrite cadd_at, csub_at. ring. Qed.

Lemma rounded_entry k : (k < 3)%nat -> vec_of (rounded 10 <$> u_poly A r) k ≡
  masked entries (vec_of y) (vec_of e1) (fun k => rounding 10 (pvec (u_poly A r) k)) k.
Proof using HA.
  intros Hk. unfold vec_of at 1, pvec. rewrite (nth_fmap _ (u_poly A r) k []).
  - etransitivity; [apply add_rounding|]. unfold masked. apply cadd_proper; [by apply u_entry|reflexivity].
  - unfold u_poly. rewrite length_zip_with, length_fmap, matrix_mul_length by by apply transpose_square. exact Hk.
Qed.
Lemma v_entry : Fips203.poly (rounded 4 (v_poly (key_poly A sigma) m r)) ≡
  padded entries (vec_of s) (vec_of e) (vec_of y) (Fips203.poly e2) (Fips203.poly (message m)) (rounding 4 (v_poly (key_poly A sigma) m r)).
Proof using HA.
  etransitivity; [apply add_rounding|]. unfold padded. apply cadd_proper; [|reflexivity]. unfold v_poly at 1.
  etransitivity; [apply poly_add|]. apply cadd_proper; [|reflexivity].
  etransitivity; [apply poly_add|]. apply cadd_proper; [|reflexivity].
  etransitivity; [apply poly_reps|]. apply intt_proper.
  rewrite poly_dot; [|unfold key_poly; rewrite length_zip_with, matrix_mul_length by done; reflexivity|reflexivity].
  apply cdot_ext; intros k Hk; [by apply key_entry|by apply vec_NTT].
Qed.

Lemma seen_ok : Fips203.poly (dec_poly A sigma m r) ≡ cadd (Fips203.poly (message m)) (kpke_noise A sigma m r).
Proof using HA.
  assert (length (u_poly A r) = 3%nat) as Hu.
  { unfold u_poly. rewrite length_zip_with, length_fmap, matrix_mul_length by by apply transpose_square. reflexivity. }
  etransitivity; [apply poly_reps|]. etransitivity; [|exact (decrypted entries _ _ _ _ _ _ _ _)].
  apply csub_proper; [exact v_entry|]. etransitivity; [apply poly_reps|]. apply intt_proper.
  rewrite poly_dot by (reflexivity || by rewrite !length_fmap).
  apply cdot_ext; intros k Hk; [by apply vec_NTT|]. etransitivity; [apply vec_NTT; [done|by rewrite length_fmap]|]. apply ntt_proper. by apply rounded_entry.
Qed.
End seen.

(** ** Bits *)

(** Less than a quarter of q from 0, in the smaller direction where the two differ. *)
Definition small (n : Zq) : Prop := rep n <= 831 \/ 2497 <= rep n.

Lemma bit_back b (w : Z) (n : Zq) : 0 <= w < MLKEM_Q -> toq w = Zmod.add (toq (Fips203.decompress 1 (Z.b2z b))) n -> small n ->
  Fips203.compress 1 w = Z.b2z b.
Proof.
  intros Hw E Hn. rewrite <- (toq_rep n), <- toq_add, decompress_1 in E. apply toq_eq in E. pose proof (rep_q_range n) as Hr.
  unfold small in Hn. revert E Hn Hr. generalize (rep n). intros z E Hn Hr. unfold MLKEM_Q in Hw. rewrite (Z.mod_small w) in E by done.
  unfold Fips203.compress, Fips203.round, Fips203.q. change (2 ^ Z.of_nat 1) with 2. change MLKEM_Q_HALF with 1665 in E.
  destruct b; cbn [Z.b2z]; dlia.
Qed.

Lemma dec_poly_canonical A sigma m r : canonical (dec_poly A sigma m r).
Proof. apply reps_canonical. Qed.
Lemma message_back A sigma m r : square A -> length m = 32%nat -> (forall x, (x < 256)%nat -> small (kpke_noise A sigma m r x)) ->
  Fips203.byte_encode 1 (Fips203.compress 1 <$> dec_poly A sigma m r) = m.
Proof.
  intros HA Hm Hn. rewrite <- (byte_encode_decode 1 m) at 2 by (done || lia). f_equal. destruct (dec_poly_canonical A sigma m r) as [Hl Hc].
  apply coef_ext; [by rewrite length_fmap, Hl, raw_decode_length|]. rewrite length_fmap, Hl. intros x Hx. rewrite coef_fmap by (rewrite Hl; done).
  rewrite raw_decode_bit by done. apply (bit_back _ _ _ (Hc x Hx)) with (2 := Hn x Hx).
  pose proof (seen_ok A HA sigma m r x Hx) as E. rewrite cadd_at in E. unfold Fips203.poly at 1 in E. rewrite E. f_equal. unfold Fips203.poly, message.
  rewrite byte_decode_small, coef_fmap, raw_decode_bit by (rewrite ?raw_decode_length; done). done.
Qed.

(** ** ML-KEM *)

Section kem.
Context (b : nat) (sigma rho z : bytes) (A : list (list (list Z))).
Hypotheses (EA : Fips203.sample_matrix b rho = Some A) (Hr : length rho = 32%nat) (Hz : length z = 32%nat).
Local Abbreviation pk := (ek sigma rho A).
Definition full_dk : bytes := dk sigma ++ pk ++ Fips203.H pk ++ z.

Lemma ek_length : length pk = 1184%nat.
Proof using EA Hr. unfold ek. rewrite length_app, (encodings_length id), (key_poly_length b sigma rho A EA), Hr. reflexivity. Qed.
Lemma dk_length : length (dk sigma) = 1152%nat.
Proof. unfold dk. by rewrite (encodings_length id). Qed.
Lemma full_dk_length : length full_dk = 2400%nat.
Proof using EA Hr Hz. unfold full_dk. by rewrite !length_app, dk_length, ek_length, H_length, Hz. Qed.

Lemma ek_checked : Fips203.modulus_check pk.
Proof using EA Hr.
  unfold Fips203.modulus_check, ek. rewrite take_app_length' by (rewrite (encodings_length id), (key_poly_length b sigma rho A EA); reflexivity).
  rewrite <- (flat_map_fmap (Fips203.byte_encode 12)).
  by rewrite decode_vec by (apply (key_poly_length b sigma rho A EA) || apply zip_add_canonical).
Qed.
Lemma full_dk_parts : take (384 * 3) full_dk = dk sigma /\ take (384 * 3 + 32) (drop (384 * 3) full_dk) = pk /\
  take 32 (drop (768 * 3 + 32) full_dk) = Fips203.H pk /\ take 32 (drop (768 * 3 + 64) full_dk) = z.
Proof using EA Hr Hz.
  pose proof dk_length as Hd. pose proof ek_length as He. pose proof (H_length pk) as Hh.
  unfold full_dk. revert Hd He Hh. generalize (dk sigma), pk, (Fips203.H pk). intros d p h Hd He Hh.
  split_and!; [|rewrite drop_app_length' by lia|rewrite (app_assoc d), drop_app_length' by (rewrite length_app; lia)
    |rewrite (app_assoc d), (app_assoc (d ++ p)), drop_app_length' by (rewrite !length_app; lia)]; by (apply take_app_length' || apply take_ge); lia.
Qed.
Lemma dk_checked : Fips203.hash_check full_dk.
Proof using EA Hr Hz. unfold Fips203.hash_check. by destruct full_dk_parts as (_ & -> & -> & _). Qed.

Definition coins_of (pk m : bytes) : bytes := snd (Fips203.G (m ++ Fips203.H pk)).
Definition secret_of (pk m : bytes) : bytes := fst (Fips203.G (m ++ Fips203.H pk)).

Lemma encaps_eq m : Fips203.kem_encaps b pk m = Some (secret_of pk m, ciphertext sigma A m (coins_of pk m)).
Proof using EA Hr. unfold Fips203.kem_encaps, coins_of, secret_of. cbn [Fips203.G fst snd]. by rewrite (encrypt_eq b), bind_Some. Qed.
Lemma decaps_eq m : length m = 32%nat -> (forall x, (x < 256)%nat -> small (kpke_noise A sigma m (coins_of pk m) x)) ->
  Fips203.kem_decaps b full_dk (ciphertext sigma A m (coins_of pk m)) = Some (secret_of pk m).
Proof using EA Hr Hz.
  intros Hm Hn. unfold Fips203.kem_decaps. destruct full_dk_parts as (-> & -> & -> & ->). cbv zeta.
  rewrite (decrypt_eq b sigma rho A EA Hr), message_back by (done || by apply (square_A b rho A EA)).
  change (snd (Fips203.G (m ++ Fips203.H pk))) with (coins_of pk m). unfold secret_of. revert Hn. unfold coins_of.
  destruct (Fips203.G (m ++ Fips203.H pk)) as [K r]. cbn [fst snd]. intros _. rewrite (encrypt_eq b) by done.
  rewrite bind_Some. by rewrite decide_True.
Qed.
End kem.

(** The code's three functions, one after the other. *)
Section derand.
Context (fuel : nat) (coins m rho sigma : bytes) (A : list (list (list Z))) (ct0 ss0 ss1 : bytes).
Hypotheses (Hc : length coins = 64%nat) (Hm : length m = 32%nat) (EG : Fips203.G (take 32 coins ++ [byte_of_Z 3]) = (rho, sigma)).

Lemma derand_fails : Fips203.sample_matrix (3 + fuel) rho = None -> mlk_kem_keypair_derand fuel coins = None.
Proof using Hc EG.
  intros EA. rewrite keypair_derand_ok by done. unfold Fips203.kem_keygen, Fips203.kpke_keygen. rewrite EG, EA. reflexivity.
Qed.

Local Abbreviation pk := (ek sigma rho A).
Local Abbreviation sk := (full_dk sigma rho (drop 32 coins) A).
Local Abbreviation ct := (ciphertext sigma A m (coins_of pk m)).
Lemma derand_recovers : Fips203.sample_matrix (3 + fuel) rho = Some A ->
  mlk_kem_keypair_derand fuel coins = Some (0, pk, sk) /\
  mlk_kem_enc_derand fuel ct0 ss0 pk m = Some (0, ct, secret_of pk m) /\
  length ct = 1088%nat /\ length (secret_of pk m) = 32%nat /\
  ((forall x, (x < 256)%nat -> small (kpke_noise A sigma m (coins_of pk m) x)) ->
    mlk_kem_dec fuel ss1 ct sk = Some (0, secret_of pk m)).
Proof using Hc Hm EG.
  intros EA. assert (length rho = 32%nat) as Hr.
  { apply (f_equal fst) in EG. cbn [fst] in EG. rewrite <- EG. unfold Fips203.G. cbn [fst]. rewrite length_take, sha3_512_length. lia. }
  assert (length (drop 32 coins) = 32%nat) as Hz by (rewrite length_drop; lia).
  assert (length ct = 1088%nat) as Hct by (apply (encrypt_length (3 + fuel) pk m (coins_of pk m)); by apply encrypt_eq).
  split; [|split; [|split; [exact Hct|split]]].
  - rewrite keypair_derand_ok by done. unfold Fips203.kem_keygen, Fips203.kpke_keygen. rewrite EG, EA, !bind_Some. reflexivity.
  - rewrite enc_derand_ok by (done || by apply (ek_length (3 + fuel))). rewrite decide_True by by apply (ek_checked (3 + fuel)).
    by rewrite encaps_eq, bind_Some.
  - unfold secret_of. cbn [Fips203.G fst]. rewrite length_take, sha3_512_length. lia.
  - intros Hn. rewrite dec_derand_ok by (exact Hct || by apply (full_dk_length (3 + fuel))).
    rewrite decide_True by by apply (dk_checked (3 + fuel)). by rewrite decaps_eq, bind_Some.
Qed.
End derand.
