(* ===== verification/MlkTheorems.v ===== *)
(** * MlkTheorems: what holds of the vendored ML-KEM-768 *)
From Stdlib Require Import Zmod.
From S2P Require Import Prelude Octets CInt Keccak KeccakRounds MlkPoly MlkArith MlkNtt MlkNttFacts MlkCodec Fips203 MlkCodecFacts MlkSampling MlkSamplingFacts MlkIndcpa MlkIndcpaFacts MlkKem MlkKemFacts MlkCorrect.

(** ** Key encapsulation *)

(** C17: Keys, encapsulation and decapsulation fit: if the rejection loops end for the seed, the key generation and the encapsulation return 0 with a ciphertext of 1088 octets and a secret of 32, and the decapsulation returns the same secret, unless a coefficient of the noise (the polynomial [eᵀy + e2 + Δv - sᵀ(e1 + Δu)] of the scheme) reaches a quarter of q; if they do not end, neither does the key generation. *)
Theorem kem_dec_recovers fuel coins m pk0 sk0 ct0 ss0 ss1 : length coins = 64%nat -> length m = 32%nat ->
  let '(rho, sigma) := Fips203.G (take 32 coins ++ [byte_of_Z 3]) in
  match Fips203.sample_matrix (3 + fuel) rho with
  | None => mlk_kem_keypair fuel (Some coins) pk0 sk0 = None
  | Some A => exists pk sk ct ss,
      mlk_kem_keypair fuel (Some coins) pk0 sk0 = Some (0, pk, sk) /\
      mlk_kem_enc fuel (Some m) ct0 ss0 pk = Some (0, ct, ss) /\
      length ct = 1088%nat /\ length ss = 32%nat /\
      ((forall x, (x < 256)%nat -> small (kpke_noise A sigma m (coins_of pk m) x)) ->
        mlk_kem_dec fuel ss1 ct sk = Some (0, ss))
  end.
Proof.
  intros Hc Hm. unfold mlk_kem_keypair, mlk_kem_enc.
  destruct (Fips203.G (take 32 coins ++ [byte_of_Z 3])) as [rho sigma] eqn:EG. destruct (Fips203.sample_matrix (3 + fuel) rho) as [A|] eqn:EA.
  - destruct (derand_recovers fuel coins m rho sigma A ct0 ss0 ss1 Hc Hm EG EA) as (E1 & E2 & H). eexists _, _, _, _. split; [exact E1|]. split; [exact E2|exact H].
  - by apply (derand_fails fuel coins rho sigma).
Qed.
Lemma kem_dec_recovers_witness :
  let coins := replicate 64 x00 in let m := replicate 32 x00 in
  let '(rho, sigma) := Fips203.G (take 32 coins ++ [byte_of_Z 3]) in
  match Fips203.sample_matrix 3 rho with
  | None => mlk_kem_keypair 0 (Some coins) [] [] = None
  | Some A => exists pk sk ct ss,
      mlk_kem_keypair 0 (Some coins) [] [] = Some (0, pk, sk) /\
      mlk_kem_enc 0 (Some m) [] [] pk = Some (0, ct, ss) /\
      length ct = 1088%nat /\ length ss = 32%nat /\
      ((forall x, (x < 256)%nat -> small (kpke_noise A sigma m (coins_of pk m) x)) ->
        mlk_kem_dec 0 [] ct sk = Some (0, ss))
  end.
Proof. exact (kem_dec_recovers 0 (replicate 64 x00) (replicate 32 x00) [] [] [] [] [] eq_refl eq_refl). Defined.

(** C21: Key generation is ML-KEM.KeyGen_internal of FIPS 203 for ML-KEM-768: octet for octet the same keys, and it ends exactly if the sampling of the matrix does. *)
Theorem kem_keypair_is_fips203 fuel coins : length coins = 64%nat ->
  mlk_kem_keypair_derand fuel coins =
  '(pk, sk) ← Fips203.kem_keygen (3 + fuel) (take 32 coins) (drop 32 coins); Some (0, pk, sk).
Proof. apply keypair_derand_ok. Qed.
Lemma kem_keypair_is_fips203_witness :
  mlk_kem_keypair_derand 1 (replicate 64 x07) =
  '(pk, sk) ← Fips203.kem_keygen 4 (replicate 32 x07) (replicate 32 x07); Some (0, pk, sk).
Proof. exact (kem_keypair_is_fips203 1 (replicate 64 x07) eq_refl). Defined.

(** C20: Encapsulation refuses with [MLK_ERR_FAIL], before it writes anything, exactly the public keys that fail the modulus check of FIPS 203; for the others its ciphertext and secret are those of ML-KEM.Encaps_internal. *)
Theorem kem_enc_is_fips203 fuel ct ss pk coins : length pk = 1184%nat -> length coins = 32%nat ->
  mlk_kem_enc_derand fuel ct ss pk coins =
  if decide (Fips203.modulus_check pk) then '(K, c) ← Fips203.kem_encaps (3 + fuel) pk coins; Some (0, c, K)
  else Some (MLK_ERR_FAIL, ct, ss).
Proof. apply enc_derand_ok. Qed.
Lemma kem_enc_is_fips203_witness :
  mlk_kem_enc_derand 0 [] [] (replicate 1184 x00) (replicate 32 x07) =
  if decide (Fips203.modulus_check (replicate 1184 x00)) then '(K, c) ← Fips203.kem_encaps 3 (replicate 1184 x00) (replicate 32 x07); Some (0, c, K)
  else Some (MLK_ERR_FAIL, [], []).
Proof. exact (kem_enc_is_fips203 0 [] [] (replicate 1184 x00) (replicate 32 x07) eq_refl eq_refl). Defined.

(** C19: Decapsulation refuses with [MLK_ERR_FAIL] exactly the secret keys that fail the hash check of FIPS 203; for the others it is ML-KEM.Decaps_internal: a ciphertext that its re-encryption does not reproduce gets the secret [J(z ‖ c)] and the same return value as one that it does. *)
Theorem kem_dec_is_fips203 fuel ss ct sk : length ct = 1088%nat -> length sk = 2400%nat ->
  mlk_kem_dec fuel ss ct sk =
  if decide (Fips203.hash_check sk) then K ← Fips203.kem_decaps (3 + fuel) sk ct; Some (0, K)
  else Some (MLK_ERR_FAIL, ss).
Proof. apply dec_derand_ok. Qed.
Lemma kem_dec_is_fips203_witness :
  mlk_kem_dec 0 [] (replicate 1088 x00) (replicate 2400 x07) =
  if decide (Fips203.hash_check (replicate 2400 x07)) then K ← Fips203.kem_decaps 3 (replicate 2400 x07) (replicate 1088 x00); Some (0, K)
  else Some (MLK_ERR_FAIL, []).
Proof. exact (kem_dec_is_fips203 0 [] (replicate 1088 x00) (replicate 2400 x07) eq_refl eq_refl). Defined.

(** ** Polynomials *)

Lemma pw_pw z n j : pw (pw z n) j = pw z (n * j).
Proof. induction j as [|j IH]; [by rewrite Nat.mul_0_r|]. by rewrite Nat.mul_succ_r, Nat.add_comm, pw_add, <- IH. Qed.

Lemma zero_bounded B : 0 < B -> bounded B (replicate 256 0).
Proof. intros HB. split; [done|]. intros x Hx. unfold coef, within. rewrite nth_lookup, lookup_replicate_2 by done. cbn. lia. Qed.

(** C22: The transform leaves no 16-bit or 32-bit range on coefficients below q, gives the NTT of FIPS 203 (the remainders modulo the 128 polynomials [X^2 - 17^(2 BitRev7(b) + 1)]) with coefficients below [8 q], and the inverse transform takes it back, times the Montgomery factor, to coefficients below q. *)
Theorem ntt_is_fips203 r : bounded MLKEM_Q r -> exists r' r'',
  mlk_poly_ntt r = Some r' /\ bounded MLK_NTT_BOUND r' /\
  (forall b c, (b < 128)%nat -> (c < 2)%nat ->
    toq (coef r' (2 * b + c)) = sum 128 (fun j => Zmod.mul (toq (coef r (c + j * 2))) (pw (toq 17) ((2 * bitrev7 b + 1) * j)))) /\
  mlk_poly_invntt_tomont r' = Some r'' /\ bounded MLKEM_Q r'' /\
  forall x, (x < 256)%nat -> toq (coef r'' x) = toq (2 ^ 16 * coef r x).
Proof.
  intros HB. destruct (poly_ntt_ok r HB) as (r' & E & HB' & H'). destruct (poly_invntt_tomont_ok r') as (r'' & E' & HB'' & H'').
  { destruct HB' as [Hl Hb]. split; [done|]. intros x Hx. specialize (Hb x Hx). unfold within, MLK_NTT_BOUND, MLKEM_Q in *. lia. }
  exists r', r''. split; [done|]. split; [done|]. split; [|split; [done|split; [done|]]].
  - intros b c Hb Hc. change (toq (coef r' (2 * b + c))) with (coeffs_of r' (2 * b + c)%nat). rewrite (H' (2 * b + c)%nat ltac:(lia)), ntt_eval by done.
    unfold eval. rewrite gamma_17 by done. apply sum_ext. intros j Hj. by rewrite pw_pw.
  - intros x Hx. change (toq (coef r'' x)) with (coeffs_of r'' x). rewrite (H'' x Hx).
    assert ((fun y => Zmod.mul (toq (2 ^ 16)) (coeffs_of r' y)) ≡ ntt (fun y => Zmod.mul (toq (2 ^ 16)) (coeffs_of r y))) as ES.
    { intros y Hy. rewrite (ntt_scale _ _ y Hy). by rewrite (H' y Hy). }
    rewrite (intt_proper _ _ ES x Hx), (intt_ntt _ x Hx). by rewrite toq_mul.
Qed.
Lemma ntt_is_fips203_witness : exists r' r'',
  mlk_poly_ntt (replicate 256 0) = Some r' /\ bounded MLK_NTT_BOUND r' /\
  (forall b c, (b < 128)%nat -> (c < 2)%nat ->
    toq (coef r' (2 * b + c)) = sum 128 (fun j => Zmod.mul (toq (coef (replicate 256 0) (c + j * 2))) (pw (toq 17) ((2 * bitrev7 b + 1) * j)))) /\
  mlk_poly_invntt_tomont r' = Some r'' /\ bounded MLKEM_Q r'' /\
  forall x, (x < 256)%nat -> toq (coef r'' x) = toq (2 ^ 16 * coef (replicate 256 0) x).
Proof. exact (ntt_is_fips203 (replicate 256 0) (zero_bounded MLKEM_Q eq_refl)). Defined.

Definition reduced (r : list Z) : list Z := (fun c => c mod MLKEM_Q) <$> r.
Lemma reprs_mod B a : Forall (bounded B) a -> Forall2 (repr B) a (reduced <$> a).
Proof. induction 1; constructor; [by apply repr_mod|done]. Qed.
Lemma vec_mod a k : length a = MLKEM_K -> Forall (bounded MLKEM_Q) a -> (k < MLKEM_K)%nat ->
  vec_of (reduced <$> a) k ≡ vec_of a k.
Proof.
  intros Hl Ha Hk. symmetry. destruct (pvec_Forall2 k (reprs_mod _ _ Ha) ltac:(by rewrite length_fmap) Hk) as [_ E]. exact E.
Qed.

(** C23: Multiplication of two vectors of polynomials, the way encryption and decryption do it (transform both, multiply with the cached products, sum, transform back), leaves no 16-bit or 32-bit range and gives the sum of the products modulo [X^256 + 1] and q. *)
Theorem products_correct a b : length a = MLKEM_K -> length b = MLKEM_K -> Forall (bounded MLKEM_Q) a -> Forall (bounded MLKEM_Q) b ->
  exists p,
    (a ← mlk_polyvec_ntt a; a ← mlk_polyvec_reduce a; b ← mlk_polyvec_ntt b; c ← mlk_polyvec_mulcache_compute b;
     r ← mlk_polyvec_basemul_acc_montgomery_cached a b c; mlk_poly_invntt_tomont r) = Some p /\
    bounded MLKEM_Q p /\
    forall x, (x < 256)%nat -> toq (coef p x) = sum MLKEM_K (fun k => cmul (coeffs_of (pvec a k)) (coeffs_of (pvec b k)) x).
Proof.
  intros La Lb Ha Hb. pose proof (fun k => vec_mod a k La Ha) as Va. pose proof (fun k => vec_mod b k Lb Hb) as Vb.
  apply reprs_mod in Ha, Hb. revert Va Ha Vb Hb.
  assert (length (reduced <$> a) = MLKEM_K) as LA by by rewrite length_fmap.
  assert (length (reduced <$> b) = MLKEM_K) as LB by by rewrite length_fmap.
  revert LA LB. generalize (reduced <$> a), (reduced <$> b).
  intros A B LA LB VA HA VB HB. destruct (ntt_vec a A HA) as (a1 & E1 & H1). destruct (ntt_vec b B HB) as (b1 & E2 & H2).
  pose proof (reduce_vec a1 _ (NTT_canonical A) (weaken_vec (2 ^ 15) H1 eq_refl)) as E3.
  destruct (mulcache_vec b1 _ (weaken_vec (2 ^ 15) H2 eq_refl)) as (c & E4 & HC); [by rewrite length_fmap|].
  destruct (basemul_repr (Fips203.NTT <$> A) (Fips203.NTT <$> A) b1 _ c (urepr_row _ (NTT_canonical A)) ltac:(by rewrite length_fmap) HC) as (r & E5 & H5).
  destruct (invntt_repr r _ H5) as (p & E6 & HP & EP). exists p. step E1. step E3. step E2. step E4. step E5. split; [exact E6|]. split; [exact HP|].
  intros x Hx. change (toq (coef p x)) with (coeffs_of p x). rewrite (EP x Hx). unfold Fips203.inv_NTT. rewrite (poly_reps _ x Hx).
  assert (Fips203.poly (Fips203.dot (Fips203.NTT <$> A) (Fips203.NTT <$> B)) ≡ ntt (sum3 (fun k => cmul (vec_of a k) (vec_of b k)))) as EQ.
  { rewrite ntt_sum3. etransitivity; [apply poly_dot; by rewrite length_fmap|]. apply cdot_ext; intros k Hk.
    - etransitivity; [by apply vec_NTT|]. by apply ntt_proper, VA.
    - etransitivity; [by apply vec_NTT|]. by apply ntt_proper, VB. }
  rewrite (intt_proper _ _ EQ x Hx). exact (intt_ntt _ x Hx).
Qed.
Lemma products_correct_witness : exists p,
  (a ← mlk_polyvec_ntt (replicate 3 (replicate 256 0)); a ← mlk_polyvec_reduce a; b ← mlk_polyvec_ntt (replicate 3 (replicate 256 0));
   c ← mlk_polyvec_mulcache_compute b; r ← mlk_polyvec_basemul_acc_montgomery_cached a b c; mlk_poly_invntt_tomont r) = Some p /\
  bounded MLKEM_Q p /\
  forall x, (x < 256)%nat -> toq (coef p x) =
    sum MLKEM_K (fun k => cmul (coeffs_of (pvec (replicate 3 (replicate 256 0)) k)) (coeffs_of (pvec (replicate 3 (replicate 256 0)) k)) x).
Proof.
  exact (products_correct (replicate 3 (replicate 256 0)) (replicate 3 (replicate 256 0)) eq_refl eq_refl
    (list.Forall_replicate _ 3 _ (zero_bounded MLKEM_Q eq_refl)) (list.Forall_replicate _ 3 _ (zero_bounded MLKEM_Q eq_refl))).
Defined.

(** ** Encodings *)

Lemma rounded_coef d a x : (1 <= d <= 11)%nat -> canonical a -> (x < 256)%nat ->
  exists e, toq (coef (rounded d a) x) = toq (coef a x + e) /\ Z.abs e <= (MLKEM_Q + 2 ^ Z.of_nat d) / 2 ^ (Z.of_nat d + 1).
Proof.
  intros Hd [Hl Hc] Hx. unfold rounded. rewrite !coef_fmap by (rewrite ?length_fmap; lia). apply decompress_compress; [done|by apply Hc].
Qed.

(** What compression to [d] bits may change of a coefficient. *)
Definition close (bound : Z) (a r : list Z) : Prop :=
  forall x, (x < 256)%nat -> exists e, toq (coef r x) = toq (coef a x + e) /\ Z.abs e <= bound.

(** C24: Encodings come back: a polynomial with canonical coefficients from its 384 octets, a message of 32 octets from its polynomial, and a compressed polynomial up to 104 for four bits a coefficient, 52 for five, 2 for ten and 1 for eleven, modulo q. *)
Theorem encodings_correct a m : canonical a -> length m = 32%nat ->
  mlk_poly_frombytes (mlk_poly_tobytes a) = a /\
  mlk_poly_tomsg (mlk_poly_frommsg m) = m /\
  close 104 a (mlk_poly_decompress_d4 (mlk_poly_compress_d4 a)) /\
  close 52 a (mlk_poly_decompress_d5 (mlk_poly_compress_d5 a)) /\
  close 2 a (mlk_poly_decompress_d10 (mlk_poly_compress_d10 a)) /\
  close 1 a (mlk_poly_decompress_d11 (mlk_poly_compress_d11 a)).
Proof.
  intros Ha Hm. split; [|split].
  - rewrite poly_frombytes_raw, poly_tobytes_ok by done. apply raw_decode_encode; [lia|apply Ha|].
    intros x Hx. pose proof (proj2 Ha x Hx). unfold MLKEM_Q in *. cbn. lia.
  - rewrite frommsg_ok, tomsg_ok by (apply decompressed_canonical; lia). rewrite byte_decode_small by done.
    rewrite <- (byte_encode_decode 1 m) at 2 by (done || lia). f_equal. apply coef_ext; rewrite !length_fmap, ?raw_decode_length; [done|].
    intros x Hx. rewrite !coef_fmap, raw_decode_bit by (rewrite ?length_fmap, ?raw_decode_length; done). by destruct (Z.testbit _ _).
  - rewrite poly_decompress_d4_ok, poly_decompress_d5_ok, poly_decompress_d10_ok, poly_decompress_d11_ok.
    rewrite poly_compress_d4_ok, poly_compress_d5_ok, poly_compress_d10_ok, poly_compress_d11_ok by done.
    rewrite !decode_compressed by (lia || apply Ha).
    split_and!; intros x Hx;
      [apply (rounded_coef 4)|apply (rounded_coef 5)|apply (rounded_coef 10)|apply (rounded_coef 11)]; (lia || assumption).
Qed.
Lemma zero_canonical : canonical (replicate 256 0).
Proof. split; [done|]. intros x Hx. unfold coef. by rewrite nth_lookup, lookup_replicate_2 by done. Qed.
Lemma encodings_correct_witness :
  let a := replicate 256 0 in let m := replicate 32 x5a in
  mlk_poly_frombytes (mlk_poly_tobytes a) = a /\
  mlk_poly_tomsg (mlk_poly_frommsg m) = m /\
  close 104 a (mlk_poly_decompress_d4 (mlk_poly_compress_d4 a)) /\
  close 52 a (mlk_poly_decompress_d5 (mlk_poly_compress_d5 a)) /\
  close 2 a (mlk_poly_decompress_d10 (mlk_poly_compress_d10 a)) /\
  close 1 a (mlk_poly_decompress_d11 (mlk_poly_compress_d11 a)).
Proof. exact (encodings_correct (replicate 256 0) (replicate 32 x5a) zero_canonical eq_refl). Defined.

(** ** Sampling *)

(** C25: From a seed of 32 octets the code samples the polynomials of FIPS 203: the matrix in both orders, entry by entry SampleNTT, four at once or one by one, with [3 + fuel] blocks of the stream for each; and the noise, of coefficients from -2 to 2 that are modulo q those of SamplePolyCBD. *)
Theorem sampling_is_fips203 fuel seed n0 n1 n2 n3 : length seed = 32%nat ->
  mlk_gen_matrix fuel seed false = Fips203.sample_matrix (3 + fuel) seed /\
  mlk_gen_matrix fuel seed true = Fips203.transpose <$> Fips203.sample_matrix (3 + fuel) seed /\
  exists e, mlk_poly_getnoise_eta1_4x true seed n0 n1 n2 n3 = Some e /\ mlk_poly_getnoise_eta1_4x false seed n0 n1 n2 n3 = Some (take 3 e) /\
    Forall (bounded 3) e /\
    reduced <$> e = (fun n => Fips203.sample_poly_cbd 2 (Fips203.PRF 2 seed n)) <$> [n0; n1; n2; n3].
Proof.
  intros H. rewrite !gen_matrix_ok by done. split; [|split; [reflexivity|]].
  - destruct (Fips203.sample_matrix _ _); reflexivity.
  - eexists. split; [by apply getnoise_ok|]. split; [by apply getnoise_ok|]. split.
    + apply list.Forall_fmap, list.Forall_true. intros n. apply cbd2_ok.
    + rewrite <- list_fmap_compose. apply list_fmap_ext. intros i n _. apply cbd2_ok.
Qed.
Lemma sampling_is_fips203_witness :
  let seed := replicate 32 x01 in
  mlk_gen_matrix 2 seed false = Fips203.sample_matrix 5 seed /\
  mlk_gen_matrix 2 seed true = Fips203.transpose <$> Fips203.sample_matrix 5 seed /\
  exists e, mlk_poly_getnoise_eta1_4x true seed 0 1 2 3 = Some e /\ mlk_poly_getnoise_eta1_4x false seed 0 1 2 3 = Some (take 3 e) /\
    Forall (bounded 3) e /\
    reduced <$> e = (fun n => Fips203.sample_poly_cbd 2 (Fips203.PRF 2 seed n)) <$> [0; 1; 2; 3].
Proof. exact (sampling_is_fips203 2 (replicate 32 x01) 0 1 2 3 eq_refl). Defined.
