(* ===== verification/MlkInstance.v ===== *)
(** * MlkInstance: the vendored ML-KEM is what the key exchange expects

    The interface [MlKem] of [Crypto] is [crypto_kem_enc] with its coins drawn: the
    ciphertext and the secret if the code returns 0.  A call that [fuel] blocks do not bring
    to its end counts as a failure.  The server's hybrid key exchange over it agrees with a
    client that decapsulates with the same code. *)
From Stdlib Require Import Zmod.
From S2P Require Import Prelude Octets Wire Platform Crypto Concrete SessionState SessionKex Runs ClientRuns Agreement Keccak KeccakRounds MlkPoly MlkNtt MlkCodec Fips203 MlkSampling MlkSamplingFacts MlkIndcpa MlkIndcpaFacts MlkKem MlkKemFacts MlkCorrect.

Definition mlkem_native (fuel : nat) : MlKem := {|
  Crypto.mlk_kem_enc_derand pk coins :=
    match MlkKem.mlk_kem_enc fuel (Some coins) [] [] pk with
    | Some (ret, ct, ss) => if ret =? 0 then Some (ct, ss) else None
    | None => None
    end
|}.

Lemma flat_map_const {A} (f : nat -> list A) n m l : (forall i, length (f i) = n) -> length (flat_map f (seq l m)) = (m * n)%nat.
Proof. intros H. revert l. induction m as [|m IH]; intros l; [done|]. cbn [seq flat_map]. rewrite length_app, H, IH. lia. Qed.
Lemma pack_ciphertext_length b v : length (mlk_pack_ciphertext b v) = 1088%nat.
Proof.
  unfold mlk_pack_ciphertext. rewrite length_app. unfold mlk_polyvec_compress_du. rewrite (flat_map_const _ 320).
  - unfold mlk_poly_compress_dv, mlk_poly_compress_d4. rewrite (flat_map_const _ 4) by done. reflexivity.
  - intros i. unfold mlk_poly_compress_du, mlk_poly_compress_d10. rewrite (flat_map_const _ 5) by done. reflexivity.
Qed.

Ltac bound_in H := repeat match type of H with
  | (?x ≫= _) = Some _ => destruct x eqn:?; [rewrite bind_Some in H|discriminate H]
  end.
Lemma indcpa_enc_length fuel m pk coins c : mlk_indcpa_enc fuel m pk coins = Some c -> length c = 1088%nat.
Proof.
  unfold mlk_indcpa_enc. destruct (mlk_unpack_pk pk) as [p s]. cbv zeta. intros H. bound_in H. apply (inj Some) in H as <-. apply pack_ciphertext_length.
Qed.


Lemma enc_derand_lengths fuel pk coins ret ct ss : MlkKem.mlk_kem_enc_derand fuel [] [] pk coins = Some (ret, ct, ss) -> ret = 0 ->
  length ct = 1088%nat /\ length ss = 32%nat.
Proof.
  unfold MlkKem.mlk_kem_enc_derand. destruct (mlk_kem_check_pk pk) as [r|]; [|discriminate]. rewrite bind_Some.
  destruct (Z.eqb_spec r 0) as [->|Hr]; cbn [negb]; [|by intros [= <- _ _]].
  step hash_h_ok. step hash_g_ok. intros H _. bound_in H. apply (inj Some) in H. apply pair_equal_spec in H as [H <-]. apply pair_equal_spec in H as [_ <-].
  split; [by eapply indcpa_enc_length|]. rewrite length_take, sha3_512_length. unfold MLKEM_SYMBYTES. lia.
Qed.
#[export] Instance mlkem_native_laws fuel : @MlKemLaws (mlkem_native fuel).
Proof.
  split. intros pk coins ct ss. cbn [Crypto.mlk_kem_enc_derand mlkem_native]. unfold MlkKem.mlk_kem_enc.
  destruct (MlkKem.mlk_kem_enc_derand fuel [] [] pk coins) as [[[ret c] k]|] eqn:E; [|done].
  destruct (Z.eqb_spec ret 0) as [H0|]; [|done]. intros [= <- <-]. destruct (enc_derand_lengths _ _ _ _ _ _ E H0) as [Hc Hk].
  unfold blen. by rewrite Hc, Hk.
Qed.

(** ** The hybrid key exchange *)

Section hybrid.
Context `{PF : Platform} `{PL : !PlatformLaws} `{MB : Mbedtls} `{ML : !MbedtlsLaws} `{XL : !EcpLaws}.
Context (fuel : nat).
#[local] Existing Instance mlkem_native.

(** What a client does with the server's reply: it decapsulates the first part, takes the
    second as the server's X25519 key and hashes both secrets. *)
Definition client_secret (sk xpriv reply : bytes) : option bytes :=
  '(ret, kem) ← MlkKem.mlk_kem_dec fuel [] (take 1088 reply) sk;
  if negb (ret =? 0) then None else
  x ← x25519_scalar xpriv (drop 1088 reply);
  Some (sha256 (kem ++ x)).

Lemma pq_result w w' pk xpub : length pk = 1184%nat -> length xpub = 32%nat ->
  s_peerKexBlob (ses (w_loc w)) = pk ++ xpub -> kex_compute_pq (KEM := mlkem_native fuel) w = (true, w') ->
  exists ct kem priv pub x,
    MlkKem.mlk_kem_enc fuel (Some (p_random (w_hist w) 32)) [] [] pk = Some (0, ct, kem) /\
    x25519_base priv = Some pub /\ x25519_scalar priv xpub = Some x /\
    s_ourKexBlob (ses (w_loc w')) = ct ++ pub /\ s_sharedK (ses (w_loc w')) = sha256 (kem ++ x).
Proof.
  intros Hp Hx Hb. unfold kex_compute_pq. rewrite run_getS, Hb. unfold blen. rewrite length_app, Hp, Hx.
  change (negb (Z.of_nat (1184 + 32) =? MLKEM768_PK_BYTES + 32)) with false. cbv iota zeta.
  change (Z.to_nat MLKEM768_PK_BYTES) with 1184%nat. rewrite take_app_length', drop_app_length', (take_ge xpub) by lia.
  unfold mlkem768_encap, randomBytes. rewrite run_assoc, run_call, run_ret. set (m := p_random (w_hist w) 32).
  cbn [Crypto.mlk_kem_enc_derand mlkem_native].
  destruct (MlkKem.mlk_kem_enc fuel (Some m) [] [] pk) as [[[ret ct] kem]|]; [|discriminate].
  destruct (Z.eqb_spec ret 0) as [->|]; [|discriminate]. rewrite run_call, run_updS_set. set (priv := p_random _ 32).
  destruct (x25519_base priv) as [pub|] eqn:Eb; [|discriminate]. rewrite run_updS_set, run_getS.
  match goal with |- context [x25519_scalar ?a xpub] => change a with priv end.
  destruct (x25519_scalar priv xpub) as [x|] eqn:Es; [|discriminate]. rewrite run_updS_set. intros H.
  exists ct, kem, priv, pub, x. split; [done|]. split; [done|]. split; [done|].
  apply (f_equal snd) in H. cbn [snd mret] in H. rewrite <- H. split; [done|].
  apply (absorbed_finish _ (kem ++ x)). apply absorbed_update. apply (absorbed_update _ []). apply absorbed_new.
Qed.

(** The noise of an exchange: of the client's key pair and the server's coins. *)
Definition exchange_noise (coins m : bytes) : coeffs :=
  let '(rho, sigma) := Fips203.G (take 32 coins ++ [byte_of_Z 3]) in
  let A := default [] (Fips203.sample_matrix (3 + fuel) rho) in
  kpke_noise A sigma m (coins_of (ek sigma rho A) m).

(** C18: The hybrid key exchange over the vendored ML-KEM: if a client sends a key pair's public half, made with the same code, and its X25519 key, and the server's computation succeeds, then decapsulating the first 1088 octets of the server's reply and multiplying with the rest gives the client the secret the server has, unless the noise of the exchange reaches a quarter of q. *)
Theorem hybrid_secrets_agree coins xpriv xpub : length coins = 64%nat -> x25519_base xpriv = Some xpub ->
  match MlkKem.mlk_kem_keypair_derand fuel coins with
  | Some (_, pk, sk) => forall w w',
      s_peerKexBlob (ses (w_loc w)) = pk ++ xpub -> kex_compute_pq (KEM := mlkem_native fuel) w = (true, w') ->
      (forall x, (x < 256)%nat -> small (exchange_noise coins (p_random (w_hist w) 32) x)) ->
      client_secret sk xpriv (s_ourKexBlob (ses (w_loc w'))) = Some (s_sharedK (ses (w_loc w')))
  | None => True
  end.
Proof using PL ML XL.
  intros Hc Hx. unfold exchange_noise. destruct (Fips203.G (take 32 coins ++ [byte_of_Z 3])) as [rho sigma] eqn:EG.
  destruct (Fips203.sample_matrix (3 + fuel) rho) as [A|] eqn:EA; [|by rewrite (derand_fails fuel coins rho sigma)].
  destruct (derand_recovers fuel coins (replicate 32 x00) rho sigma A [] [] [] Hc eq_refl EG EA) as (EK & _). rewrite EK. clear EK.
  intros w w' Hb Hrun Hn. cbn [default from_option id] in Hn.
  assert (length xpub = 32%nat) as Hlx.
  { rewrite x25519_base_eq in Hx. destruct mbedtls_ecp_group_load_curve25519; [|discriminate]. cbn [mbind option_bind] in Hx.
    destruct (mbedtls_mpi_read_binary _); [|discriminate]. cbn [mbind option_bind] in Hx. destruct (ecp_public _ _); [|discriminate].
    injection Hx as <-. apply reverse32_length. }
  assert (length rho = 32%nat) as Hr.
  { apply (f_equal fst) in EG. cbn [fst] in EG. rewrite <- EG. unfold Fips203.G. cbn [fst]. rewrite length_take, sha3_512_length. lia. }
  destruct (pq_result w w' (ek sigma rho A) xpub) as (ct & kem & priv & pub & x & EE & Eb & Es & Eo & Ek);
    [by apply (ek_length (3 + fuel))|done|done|done|].
  set (m := p_random (w_hist w) 32) in *.
  destruct (derand_recovers fuel coins m rho sigma A [] [] [] Hc (p_random_length _ _) EG EA) as (_ & EE' & Hct & _ & HD).
  unfold MlkKem.mlk_kem_enc in EE. rewrite EE' in EE. apply (inj Some) in EE. apply pair_equal_spec in EE as [EE Ekem]. apply pair_equal_spec in EE as [_ Ect].
  rewrite Eo, Ek, <- Ect, <- Ekem. unfold client_secret. rewrite take_app_length', drop_app_length' by (symmetry; exact Hct).
  step (HD Hn). cbn [negb Z.eqb]. rewrite (x25519_agree xpriv priv xpub pub Hx Eb), Es, bind_Some. done.
Qed.
End hybrid.

Lemma hybrid_secrets_agree_witness :
  match MlkKem.mlk_kem_keypair_derand 0 (replicate 64 x00) with
  | Some (_, pk, sk) => forall w w',
      s_peerKexBlob (ses (w_loc w)) = pk ++ client_pub -> kex_compute_pq (PF := PFa) (KEM := mlkem_native 0) w = (true, w') ->
      (forall x, (x < 256)%nat -> small (exchange_noise 0 (replicate 64 x00) (p_random (Platform := PFa) (w_hist w) 32) x)) ->
      client_secret 0 sk client_eph (s_ourKexBlob (ses (w_loc w'))) = Some (s_sharedK (ses (w_loc w')))
  | None => True
  end.
Proof.
  apply (hybrid_secrets_agree (PF := PFa) (PL := scripted_laws _ _ _ _) 0 (replicate 64 x00) client_eph client_pub); by vm_compute.
Defined.
